(* ===== verification/_CoqProject ===== *)
-Q . S2P
Prelude.v
RingBuffer.v
Protocol.v
World.v
Reactor.v
Sockets.v
Connection.v
SimKernel.v
Server.v
Gateway.v
Registry.v
GatewayFacts.v
Wakeup.v
ServerFacts.v
Typing.v
Safety.v
Config.v
Structs.v
GatewayApi.v
ApiClient.v
ApiMenu.v
Messages.v
Console.v
Protobuf.v
Router.v
Trade.v
TradeClient.v
TradeService.v
Quote.v
ClientMain.v
ServerMain.v
Printed.v
ThreadPools.v
Scenarios.v
SafeLoop.v
GatewayMain.v
Session.v
ReadOnce.v
AtRest.v
NewClient.v
StartUp.v
Alone.v
Depart.v
Fleet.v
Clients.v
OrderRace.v
LockFreeQueue.v
