(* ===== verification/Prelude.v ===== *)
(** * Verification of the Chater gateways

    The repository holds two programs that put trading clients in touch with a
    gateway, and the tools around them.

    [HPGateway] (src/HPGateway) is a TCP server built on a reactor: event loops
    over epoll, connections with buffers, a codec that cuts the byte streams
    into packets, and a gateway server that keeps clients, sessions and
    heartbeats and hands packets to workers. Its API and a command-line client
    speak the same protocol.

    [gateway] (src/gateway) is a service over ZeroMQ: a ROUTER socket whose
    messages a dispatch thread admits and hands to a pool of threads, a
    publisher of quotes and notices, and a library for the clients, with a
    heartbeat of its own. Bodies are protocol buffers.

    The two programs share no code. This development translates their own code
    into executable functions, and proves what makes them correct, and a number
    of things that they get wrong.

    ** The files, and the code they model

    Shared:
    - [Prelude]: outcomes of C++ code ([outcome]: a value or a [fault]), machine
      integers, bytes, the monad [M] of stateful code, its weakest
      preconditions ([wp]), and two ways to reason about composed programs:
      [preserves] (what a program leaves alone if it returns, HintDb [frame])
      and [keeping] (an invariant under which it returns, HintDb [keeping]).

    HPGateway:
    - [RingBuffer]: base/RingBuffer.h, net/Buffer.cpp. The interface
      [ByteQueueLaws] is what the codec asks of a buffer.
    - [Protocol]: protocol/ and business/MessageRouter.
    - [World]: the state of the process. Event loops, channels and connections
      are objects of a store and are addressed by pointers; the server, the
      registries and the gateway are single objects. [Kernel] is the operating
      system.
    - [Reactor]: net/Channel, net/Poller, net/EventLoop.
    - [Sockets]: net/SocketUtil, base/Timestamp, whose doubles are those of
      [Floats.SpecFloat].
    - [Connection]: net/TcpConnection.
    - [Server]: net/Acceptor, net/EventLoopThread, net/EventLoopThreadPool,
      net/TcpServer.
    - [Gateway]: gateway/ConnectionManager, gateway/SessionManager,
      gateway/GatewayServer.
    - [GatewayMain]: base/Logger and main.cpp, from the options to the
      destructors of main's locals.
    - [Config]: gateway/GatewayContext.
    - [Structs]: include/gateway/GatewayStruct.h and GatewayError.h.
    - [GatewayApi]: gateway/GatewayApiImpl.
    - [ApiClient], [ApiMenu]: api_cli/.
    - [ThreadPools], module [HP]: base/Thread, base/ThreadPool,
      business/WorkerPool.
    - [SimKernel]: a concrete kernel for the witnesses. [Registry],
      [GatewayFacts], [Wakeup], [ServerFacts] and [Scenarios] hold theorems
      about the definitions above, and no code of the program; so do [Typing],
      the typing of the store and the judgement [safe] of programs that keep it,
      [Safety], which types the operations one by one, and [SafeLoop], which
      types the loop. [Session] puts the command-line client and the gateway on
      the two ends of a connection, and [ReadOnce] is about what a read event
      leaves in the socket. [StartUp] runs the start of the program up to the
      state in which clients are taken, [NewClient] takes one, [Alone] shows that
      the events of a client touch nothing of the others, [Depart] follows a
      client that leaves to the end of its objects, with [AtRest] on what holds
      between the events, [Fleet] keeps the invariant of any number of clients
      through any events, and [Clients] says what follows for them.
    - [LockFreeQueue]: base/LockFreeQueue.

    gateway:
    - [Messages]: common/message_utils.
    - [Console]: the use of [std::cin].
    - [Protobuf]: the interface to the generated code.
    - [Router]: src/RouterServer. [ThreadPools]: common/ThreadPool.
    - [Trade]: src/trade_gateway, api/trade_types.h, the handler of
      src/server.cpp. [TradeClient]: src/trade_api, zmq_impl/trade_api_zmq_impl.
      [TradeService]: theorems about both ends. [OrderRace]: the counter of orders
      of src/server.cpp, as the two accesses of each thread that increments it.
    - [Quote]: src/PubServer, src/quote_gateway, src/quote_api,
      zmq_impl/quote_api_zmq_impl, api/quote_types.h.
    - [ClientMain]: src/client.cpp. [ServerMain]: the rest of src/server.cpp.
    - [Printed]: the texts of the menus, of the responses that the command-line
      client shows and of the callbacks of src/client.cpp, with the formats of
      printf and of std::ostream for numbers. The programs keep what they print
      as values, of which these are the texts.

    An operation [C::f] is the definition [C_f], or [f] where the file models
    one class; a member [x_] is the field [x] of a record with the prefix of its
    class. [TcpConnection::HandleRead] is [Connection.TcpConnection_HandleRead]
    and [el_pendingFunctors] is [EventLoop::pendingFunctors_]. Guards, early
    returns and the order of calls are those of the code. Callbacks and
    functors of the reactor are values ([callback], [functor]) that
    [Gateway.run_callback] and [Gateway.exec] interpret; the callbacks of the
    ZeroMQ clients are recorded as values in the order they are called.

    ** Faults, integers, memory

    A failed [assert] (the build defines no NDEBUG), [LOG_FATAL], an exception
    that leaves the function, undefined behaviour and, for loops with fuel, its
    exhaustion are the cases of [fault]. A theorem that says that an operation
    returns excludes all of them. Integers are [Z], wrapped at their width where
    the code computes with them ([u16] to [u64], [i32], [i64]); signed overflow
    is undefined. A pointer to a destroyed object is an address that is absent
    from the store; using it is undefined. A [double] is the 64 bits of its
    representation.

    ** Threads

    Threads are interleaved. The theorems of type safety ([Typing], [Safety],
    [SafeLoop] and [GatewayMain.main_safe]) are about a process with one thread,
    the one of the main loop: with IO threads the gateway aborts at its first
    client ([io_thread_connection_aborts]). The pools ([ThreadPools]) are transition systems
    whose steps are the sections a thread runs under the mutex. In HPGateway
    each operation runs in the thread [w_tid] of the store, and the loops are
    sequences of the callbacks and functors they run ([Registry.event]) or of
    whole iterations among which, and among whose functors, other threads queue
    work ([Wakeup.life]). The dispatch, receiving and heartbeat threads of the
    ZeroMQ programs are sequences of turns. Mutexes that only make single
    operations atomic leave no trace; what unsynchronised accesses do beyond
    interleaving is not modelled, and where the code has them a finding says so;
    [OrderRace] is about one of them.

    ** Fuel

    - [Protocol.OnMessage]: every turn but one on a packet of length 0 consumes
      at least a header, so that one more than the bytes in the buffer is enough
      ([OnMessage_terminates]); on a length of 0 no fuel is enough
      ([OnMessage_zero_length_diverges]). [Gateway.Codec_OnMessage] passes it
      that much.
    - [ApiClient.RecvAll]: a turn receives at least a byte.
    - The menus [ApiMenu.InteractiveLoop], [ClientMain.main_loop] and
      [ServerMain.main_loop]: a turn reads a line or stops at the end of the
      input ([api_main_ends], [client_main_ends], [server_main_ends]).
    - [TradeClient.HeartbeatLoop]: five turns are enough for a server that does
      not answer, and ten steps of sleep for a second of the interval
      ([heartbeat_gives_up]).
    - [Reactor.EventLoop_Loop], [Router.DispatchLoop] and the [RecvLoop]s run
      until another thread stops them; theorems are about any number of turns.

    ** What is a parameter, and what is assumed of it

    - The system calls of HPGateway: [Kernel]. [EpollLaws], [SocketLaws] and
      [WakeLaws] state what epoll_ctl(2), write(2), shutdown(2), readv(2) and
      eventfd(2) document, [UnreadLaws] that only readv(2) takes bytes from a
      socket, [SafeLaws] that epoll_wait(2) reports what is registered and that
      the queue of accept(2) runs empty, [AcceptLaws] that nothing has been
      written on a socket of accept4(2) and that read(2) writes on none,
      [DescriptorLaws] that accept4(2) returns a descriptor that was not in use
      and that only close(2) ends the use of one, and [StartLaws] that the calls
      that open a descriptor give one that is not in use; those of the
      command-line client: [ClientOS], [ClientLaws], [ClientNet], [StdinLaws].
    - ZeroMQ: [Zmq]; [ZmqLaws]: frames are received in order, [ZMQ_RCVMORE]
      tells about the last, and what is sent is sent whole or not. The clocks:
      [Clock], [ClockLaws] (they move no frames), [TimeLaws] (the steady clock
      does not go back, and a sleep takes its time).
    - The generated protocol buffers: [Proto], with [ProtoLaws]: what was
      serialised parses back.
    - The application behind the gateway: the handlers of the dispatcher, of
      which main.cpp registers none, and the SPI.
    - spdlog: whether a logger can be made. The queue that base/LockFreeQueue
      forwards to: [ConcurrentQueue], [ConcurrentQueueLaws].
    Every class of laws has a concrete instance, on which the witnesses run.

    ** What the theorems show

    - Bytes and packets: the ring buffer is a queue of bytes; however a stream
      is cut into reads the same packets are delivered; encoding, structs,
      configuration files and ZeroMQ messages round-trip.
    - Connections: the output is a FIFO stream and the write side is shut down
      when it is closing and drained; channels, poller and epoll agree; names
      are not given twice and the IO threads take turns; no wake-up of a loop is
      lost.
    - The gateway: the registries agree whatever the loops run; heartbeats are
      answered and other packets handed over; silent clients are closed. In a
      session of the client with the gateway, however the network cuts and delays
      the bytes, requests are handled in order and answers come in order. From
      the start of the program on, whatever clients connect and leave and however
      their events interleave, each is served as if it were alone, and what is
      left of one that has left is its descriptor, which is never closed.
    - The process: with a logger, a configuration without IO threads and one
      thread, every turn of the loop keeps the store well typed (the pointers
      that are followed lead to objects of their class, and the buffers are well
      formed), and main reaches no undefined behaviour whatever the peers send
      and the kernel answers.
    - The ZeroMQ service: the router counts and limits its clients and handles
      every message as its type says; a request of a client is answered as the
      abstract trade service answers it; the numbers of orders that are handled
      one after the other differ; notices arrive once; a client whose server is
      silent gives up.
    - Pools and programs: tasks start in the order they were submitted; a pool
      that is shut down runs what it holds and joins; the programs with a menu
      end.
    - Defects, each a theorem about the code as it is: a packet of length 0
      hangs the codec, [Shrink] can write out of bounds, IO threads abort the
      gateway, a login sends memory beyond the packet, partial packets are
      dropped, extra frames forge messages, the idle sweep uncounts clients,
      stopped pools abandon tasks, the socket of a client that has left is never
      closed, market data arrives three times, a lost connection is never noticed, orders placed at once repeat numbers, a
      shutdown drops requests, the flag that a signal clears is not read and main
      does not return, a log line before the logger exists follows a null
      pointer, times lose a microsecond, a burst that exceeds the buffer waits in
      the socket, prices are shown without their cents.

    ** Not modelled

    - The branch of net/Poller.cpp that is compiled on macOS, whose operations do
      nothing, and base/NonCopyable, which has no behaviour.
    - What is logged, and the progress messages of the command-line client.
    - The vendored libraries (src/thirdparty), ZeroMQ and the code generated
      from the .proto files: parameters.
    - Data races and the memory order of atomics, beyond interleaving.
    - Bodies of 2 GB and more, whose lengths the code casts to [int]. *)
From Stdlib Require Export ZArith Lia.
From Stdlib Require Strings.Byte.
From stdpp Require Export strings pretty numbers gmap list prelude.

Declare Scope gw_scope.
Delimit Scope gw_scope with gw.
Open Scope Z_scope.

Abbreviation byte := Byte.byte.

(** ** Outcomes of C++ code *)

(** How a C++ computation fails to return normally: a failed [assert] (the
    build defines no [NDEBUG]), a [LOG_FATAL] (which calls [abort]), an
    operation the standard leaves undefined, an exception, and, for the loops
    that are modelled with fuel, running out of it. *)
Inductive fault : Type :=
| AssertFailed
| LogFatal
| UndefinedBehaviour
| Exception
| OutOfFuel.

#[export] Instance fault_eq_dec : EqDecision fault.
Proof. solve_decision. Defined.

Inductive outcome (A : Type) : Type :=
| Ok (a : A)
| Fail (f : fault).
Arguments Ok {A} a.
Arguments Fail {A} f.

#[export] Instance outcome_ret : MRet outcome := @Ok.
#[export] Instance outcome_bind : MBind outcome := λ A B f m,
  match m with Ok a => f a | Fail e => Fail e end.
#[export] Instance outcome_fmap : FMap outcome := λ A B f m,
  match m with Ok a => Ok (f a) | Fail e => Fail e end.

#[export] Instance outcome_eq_dec {A} `{EqDecision A} : EqDecision (outcome A).
Proof. solve_decision. Defined.

(** [assert(b)] *)
Definition assert_ (b : bool) : outcome unit :=
  if b then Ok tt else Fail AssertFailed.

(** an access the standard defines only when [b] holds *)
Definition defined_if (b : bool) : outcome unit :=
  if b then Ok tt else Fail UndefinedBehaviour.

(** the value of a look-up that is undefined when it is absent *)
Definition deref {A} (o : option A) : outcome A :=
  match o with Some a => Ok a | None => Fail UndefinedBehaviour end.

Definition returns {A} (m : outcome A) : Prop := ∃ a, m = Ok a.

(** Folding a step that may fail over a list, left to right. *)
Fixpoint foldM {A B} (f : B → A → outcome A) (l : list B) (a : A) : outcome A :=
  match l with
  | [] => Ok a
  | b :: l => a' ← f b a; foldM f l a'
  end.

Section outcome_lemmas.
Context {A B : Type}.
Implicit Types (m : outcome A) (k : A → outcome B).

Lemma bind_ok (a : A) k : (x ← Ok a; k x) = k a.
Proof. reflexivity. Qed.

Lemma bind_fail e k : (x ← Fail e; k x) = Fail e.
Proof. reflexivity. Qed.

Lemma bind_ok_inv m k b : (x ← m; k x) = Ok b → ∃ a, m = Ok a ∧ k a = Ok b.
Proof. destruct m as [a|]; [eauto|discriminate]. Qed.

Lemma assert_ok (b : bool) : b = true → assert_ b = Ok tt.
Proof. by intros ->. Qed.

Lemma assert_ok_inv (b : bool) u : assert_ b = Ok u → b = true.
Proof. by destruct b. Qed.

Lemma defined_ok (b : bool) : b = true → defined_if b = Ok tt.
Proof. by intros ->. Qed.

Lemma defined_ok_inv (b : bool) u : defined_if b = Ok u → b = true.
Proof. by destruct b. Qed.

Lemma deref_ok_inv (o : option A) a : deref o = Ok a → o = Some a.
Proof. by destruct o; intros [= ->]. Qed.

Lemma foldM_app (f : B → A → outcome A) l1 l2 a :
  foldM f (l1 ++ l2) a = (a' ← foldM f l1 a; foldM f l2 a').
Proof.
  revert a. induction l1 as [|b l1 IH]; intros a; [done|]. simpl.
  destruct (f b a) as [a'|e]; [|done]. apply IH.
Qed.
End outcome_lemmas.

(** [inv_ok H] takes a hypothesis [m = Ok _] apart into the successful runs of
    the steps of [m]. *)
Ltac inv_ok_step H :=
  lazymatch type of H with
  | Ok _ = Ok _ => injection H as H; try subst
  | mret _ = Ok _ => injection H as H; try subst
  | Fail _ = Ok _ => discriminate H
  | (if ?b then _ else _) = Ok _ => destruct b eqn:?
  end.
Tactic Notation "inv_bind" hyp(H) "as" simple_intropattern(a) simple_intropattern(E) :=
  apply bind_ok_inv in H; destruct H as (a & E & H).

(** ** Machine integers *)

Definition u8 (z : Z) : Z := z mod 2 ^ 8.
Definition u16 (z : Z) : Z := z mod 2 ^ 16.
Definition u32 (z : Z) : Z := z mod 2 ^ 32.
Definition u64 (z : Z) : Z := z mod 2 ^ 64.
(** conversion to [int] and [int64_t]: reduction modulo the width *)
Definition i32 (z : Z) : Z := (z + 2 ^ 31) mod 2 ^ 32 - 2 ^ 31.
Definition i64 (z : Z) : Z := (z + 2 ^ 63) mod 2 ^ 64 - 2 ^ 63.

Section integers.
Implicit Types z : Z.

Lemma u16_small z : 0 ≤ z < 2 ^ 16 → u16 z = z.
Proof. apply Z.mod_small. Qed.
Lemma u32_small z : 0 ≤ z < 2 ^ 32 → u32 z = z.
Proof. apply Z.mod_small. Qed.
Lemma u64_small z : 0 ≤ z < 2 ^ 64 → u64 z = z.
Proof. apply Z.mod_small. Qed.
Lemma i32_small z : - 2 ^ 31 ≤ z < 2 ^ 31 → i32 z = z.
Proof. intros. unfold i32. rewrite Z.mod_small; lia. Qed.
Lemma i64_small z : - 2 ^ 63 ≤ z < 2 ^ 63 → i64 z = z.
Proof. intros. unfold i64. rewrite Z.mod_small; lia. Qed.
Lemma u16_range z : 0 ≤ u16 z < 2 ^ 16.
Proof. apply Z.mod_pos_bound. lia. Qed.
Lemma u32_range z : 0 ≤ u32 z < 2 ^ 32.
Proof. apply Z.mod_pos_bound. lia. Qed.
Lemma u64_range z : 0 ≤ u64 z < 2 ^ 64.
Proof. apply Z.mod_pos_bound. lia. Qed.
End integers.

(** ** Bytes and little-endian words *)

Definition byte_to_Z (b : byte) : Z := Z.of_N (Byte.to_N b).
Definition Z_to_byte (z : Z) : byte :=
  default Byte.x00 (Byte.of_N (Z.to_N (z mod 256))).

#[export] Instance byte_eq_dec : EqDecision byte := Byte.byte_eq_dec.

(** [memcpy] of the low [n] bytes of an integer, on a little-endian host. *)
Fixpoint le_bytes (n : nat) (z : Z) : list byte :=
  match n with
  | O => []
  | S n => Z_to_byte z :: le_bytes n (z / 256)
  end.

(** the unsigned integer stored in the bytes [l], little-endian *)
Fixpoint le_value (l : list byte) : Z :=
  match l with
  | [] => 0
  | b :: l => byte_to_Z b + 256 * le_value l
  end.

Section bytes.
Implicit Types (b : byte) (z : Z) (l : list byte).

Lemma byte_to_Z_range b : 0 ≤ byte_to_Z b < 256.
Proof. unfold byte_to_Z. pose proof (Byte.to_N_bounded b). lia. Qed.

Lemma Z_to_byte_to_Z z : byte_to_Z (Z_to_byte z) = z mod 256.
Proof.
  unfold byte_to_Z, Z_to_byte.
  assert (0 ≤ z mod 256 < 256) as Hz by (apply Z.mod_pos_bound; lia).
  destruct (Byte.of_N (Z.to_N (z mod 256))) as [b|] eqn:E; simpl.
  - apply Byte.to_of_N in E. lia.
  - apply Byte.of_N_None_iff in E. lia.
Qed.

Lemma byte_to_Z_to_byte b : Z_to_byte (byte_to_Z b) = b.
Proof.
  unfold Z_to_byte. pose proof (byte_to_Z_range b).
  rewrite Z.mod_small by done. unfold byte_to_Z.
  by rewrite N2Z.id, Byte.of_to_N.
Qed.

Lemma byte_to_Z_inj b1 b2 : byte_to_Z b1 = byte_to_Z b2 → b1 = b2.
Proof.
  intros E. by rewrite <- (byte_to_Z_to_byte b1), E, byte_to_Z_to_byte.
Qed.

Lemma length_le_bytes n z : length (le_bytes n z) = n.
Proof. revert z. induction n as [|n IH]; intros z; simpl; auto. Qed.

Lemma le_value_bytes n z : le_value (le_bytes n z) = z mod 256 ^ Z.of_nat n.
Proof.
  revert z. induction n as [|n IH]; intros z.
  - by rewrite Z.mod_1_r.
  - simpl. rewrite IH, Z_to_byte_to_Z, Nat2Z.inj_succ, Z.pow_succ_r by lia.
    rewrite Z.rem_mul_r by lia. lia.
Qed.

Lemma le_bytes_value l : le_bytes (length l) (le_value l) = l.
Proof.
  induction l as [|b l IH]; [done|]. simpl. pose proof (byte_to_Z_range b).
  f_equal.
  - rewrite <- (byte_to_Z_to_byte b) at 2. unfold Z_to_byte. do 3 f_equal.
    rewrite (Z.mod_small (byte_to_Z b)) by done.
    rewrite (Z.mul_comm 256), Z.mod_add by lia. by apply Z.mod_small.
  - rewrite (Z.mul_comm 256), Z.div_add, Z.div_small by lia. apply IH.
Qed.

Lemma le_value_range l : 0 ≤ le_value l < 256 ^ Z.of_nat (length l).
Proof.
  induction l as [|b l IH]; simpl; [lia|].
  rewrite Nat2Z.inj_succ, Z.pow_succ_r by lia. pose proof (byte_to_Z_range b). lia.
Qed.
End bytes.

(** ** Arrays of bytes *)

(** [std::copy]/[memcpy] of [d], an object disjoint from [buf], to the
    elements [buf[i..]]. *)
Definition store (i : nat) (d buf : list byte) : outcome (list byte) :=
  if decide (i + length d ≤ length buf)%nat
  then Ok (take i buf ++ d ++ drop (i + length d) buf)
  else Fail UndefinedBehaviour.

(** [std::copy(buf + src, buf + src + n, buf + dst)], element by element and
    left to right inside one array. *)
Fixpoint copy_forward (n src dst : nat) (buf : list byte) : outcome (list byte) :=
  match n with
  | O => Ok buf
  | S n =>
      c ← deref (buf !! src);
      _ ← defined_if (bool_decide (dst < length buf)%nat);
      copy_forward n (S src) (S dst) (<[dst := c]> buf)
  end.

Section arrays.
Implicit Types (buf d : list byte).

Lemma store_ok i d buf :
  (i + length d ≤ length buf)%nat →
  store i d buf = Ok (take i buf ++ d ++ drop (i + length d) buf).
Proof. intros H. unfold store. by rewrite decide_True. Qed.

Lemma store_ok_inv i d buf buf' :
  store i d buf = Ok buf' →
  (i + length d ≤ length buf)%nat ∧ buf' = take i buf ++ d ++ drop (i + length d) buf.
Proof. unfold store. case_decide; intros [= <-]; auto. Qed.

Lemma store_length i d buf buf' : store i d buf = Ok buf' → length buf' = length buf.
Proof.
  intros [H ->]%store_ok_inv. rewrite !length_app, length_take, length_drop. lia.
Qed.

(** Copying towards lower addresses inside one array moves the block intact:
    the overlap is harmless. *)
Lemma copy_forward_down n src dst buf :
  (dst ≤ src)%nat → (src + n ≤ length buf)%nat →
  ∃ buf', copy_forward n src dst buf = Ok buf' ∧ length buf' = length buf ∧
    take dst buf' = take dst buf ∧
    take n (drop dst buf') = take n (drop src buf).
Proof.
  revert src dst buf. induction n as [|n IH]; intros src dst buf Hle Hlen.
  - exists buf. by rewrite !take_0.
  - destruct (lookup_lt_is_Some_2 buf src) as [c Hc]; [lia|].
    simpl. rewrite Hc. simpl. rewrite bool_decide_true by lia. simpl.
    destruct (IH (S src) (S dst) (<[dst:=c]> buf)) as (buf' & E & Hl & Ht & Hd);
      [lia|rewrite length_insert; lia|].
    exists buf'. split; [done|]. rewrite length_insert in Hl. split; [done|].
    assert (Hdc : buf' !! dst = Some c).
    { rewrite <- (lookup_take_lt _ (S dst)) by lia. rewrite Ht.
      rewrite lookup_take_lt by lia. apply list_lookup_insert_eq. lia. }
    split.
    + apply (f_equal (take dst)) in Ht. rewrite !take_take in Ht.
      rewrite Nat.min_l in Ht by lia. rewrite Ht. by rewrite take_insert_ge by lia.
    + rewrite (drop_S buf' c dst Hdc), (drop_S buf c src Hc). simpl. f_equal.
      rewrite Hd. by rewrite drop_insert_lt by lia.
Qed.
End arrays.

(** ** Effectful code: a state monad over outcomes *)

Definition M (W A : Type) : Type := W → outcome (A * W).

#[export] Instance M_ret {W} : MRet (M W) := λ A a w, Ok (a, w).
#[export] Instance M_bind {W} : MBind (M W) := λ A B f m w,
  match m w with Ok (a, w') => f a w' | Fail e => Fail e end.

Definition gets {W A} (f : W → A) : M W A := λ w, Ok (f w, w).
Definition modify {W} (f : W → W) : M W unit := λ w, Ok (tt, f w).
Definition lift {W A} (m : outcome A) : M W A := λ w, a ← m; Ok (a, w).
Definition failM {W A} (e : fault) : M W A := λ _, Fail e.
Definition assertM {W} (b : bool) : M W unit := lift (assert_ b).
Definition when {W} (b : bool) (m : M W unit) : M W unit := if b then m else mret tt.
Definition ifM {W A} (m : M W bool) (a b : M W A) : M W A :=
  m ≫= λ x : bool, if x then a else b.

(** between actions and state transformers *)
Definition action {W} (f : W → outcome W) : M W unit :=
  λ w, match f w with Ok w' => Ok (tt, w') | Fail e => Fail e end.
Definition transform {W} (m : M W unit) : W → outcome W :=
  λ w, match m w with Ok (_, w') => Ok w' | Fail e => Fail e end.

Fixpoint forM {W A} (l : list A) (f : A → M W unit) : M W unit :=
  match l with
  | [] => mret tt
  | a :: l => f a;; forM l f
  end.

Section M_lemmas.
Context {W A B : Type}.
Implicit Types (m : M W A) (k : A → M W B) (w : W).

Lemma runM_bind m k w : (x ← m; k x) w = match m w with Ok (a, w') => k a w' | Fail e => Fail e end.
Proof. reflexivity. Qed.

Lemma runM_bind_ok m k w a w' : m w = Ok (a, w') → (x ← m; k x) w = k a w'.
Proof. intros E. by rewrite runM_bind, E. Qed.

Lemma runM_bind_fail m k w e : m w = Fail e → (x ← m; k x) w = Fail e.
Proof. intros E. by rewrite runM_bind, E. Qed.

Lemma runM_bind_inv m k w b w'' :
  (x ← m; k x) w = Ok (b, w'') → ∃ a w', m w = Ok (a, w') ∧ k a w' = Ok (b, w'').
Proof. rewrite runM_bind. destruct (m w) as [[a w']|]; [eauto|discriminate]. Qed.

Lemma runM_ret (a : A) w : (mret a : M W A) w = Ok (a, w).
Proof. reflexivity. Qed.

Lemma runM_gets (f : W → A) w : gets f w = Ok (f w, w).
Proof. reflexivity. Qed.

Lemma runM_lift_ok (o : outcome A) w a : o = Ok a → lift o w = Ok (a, w).
Proof. by intros ->. Qed.
End M_lemmas.

Lemma runM_modify {W} (f : W → W) w : modify f w = Ok (tt, f w).
Proof. reflexivity. Qed.

Lemma runM_assert {W} (b : bool) (w : W) : b = true → assertM b w = Ok (tt, w).
Proof. by intros ->. Qed.

(** ** Reasoning about effectful code

    [wp F m Q w]: run in [w], [m] either returns a value and a state that
    satisfy [Q], or fails with a fault in [F]. The rules follow the program;
    the hint database [wp] holds them for the tactic [wp_steps]. *)

Definition wp {W A} (F : fault → Prop) (m : M W A) (Q : A → W → Prop) (w : W) : Prop :=
  match m w with Ok (a, w') => Q a w' | Fail e => F e end.

(** no fault is allowed *)
Definition never : fault → Prop := λ _, False.

Section wp_rules.
Context {W A : Type} (F : fault → Prop).
Implicit Types (m : M W A) (w : W).

Lemma wp_ok m Q w a w' : m w = Ok (a, w') → Q a w' → wp F m Q w.
Proof. unfold wp. by intros ->. Qed.

Lemma wp_ok_inv m Q w : wp never m Q w → ∃ a w', m w = Ok (a, w') ∧ Q a w'.
Proof. unfold wp. destruct (m w) as [[a w']|e]; [eauto|intros []]. Qed.

Lemma wp_elim m Q w a w' : wp F m Q w → m w = Ok (a, w') → Q a w'.
Proof. unfold wp. intros Hm E. by rewrite E in Hm. Qed.

Lemma wp_mono (G : fault → Prop) m Q R w :
  wp G m R w → (∀ e, G e → F e) → (∀ a w', R a w' → Q a w') → wp F m Q w.
Proof. unfold wp. destruct (m w) as [[a w']|e]; eauto. Qed.

Lemma wp_post m Q R w : wp F m R w → (∀ a w', R a w' → Q a w') → wp F m Q w.
Proof. intros. by eapply wp_mono. Qed.

Lemma wp_bind {B} (m : M W B) (k : B → M W A) Q w :
  wp F m (λ b w', wp F (k b) Q w') w → wp F (m ≫= k) Q w.
Proof.
  unfold wp, mbind, M_bind. by destruct (m w) as [[b w']|e].
Qed.

Lemma wp_ret (a : A) Q w : Q a w → wp F (mret a) Q w.
Proof. done. Qed.

Lemma wp_gets (f : W → A) Q w : Q (f w) w → wp F (gets f) Q w.
Proof. done. Qed.

Lemma wp_lift (o : outcome A) a Q w : o = Ok a → Q a w → wp F (lift o) Q w.
Proof. by intros ->. Qed.

Lemma wp_fail e (Q : A → W → Prop) w : F e → wp F (failM e) Q w.
Proof. done. Qed.

Lemma wp_ifM (mb : M W bool) m1 m2 Q w :
  wp F mb (λ b w', wp F (if b then m1 else m2) Q w') w → wp F (ifM mb m1 m2) Q w.
Proof. apply wp_bind. Qed.
End wp_rules.

Section wp_rules_unit.
Context {W : Type} (F : fault → Prop).
Implicit Types (Q : unit → W → Prop) (w : W).

Lemma wp_modify (f : W → W) Q w : Q tt (f w) → wp F (modify f) Q w.
Proof. done. Qed.

Lemma wp_assert b Q w : b = true → Q tt w → wp F (assertM b) Q w.
Proof. by intros ->. Qed.

Lemma wp_when (b : bool) m Q w : (if b then wp F m Q w else Q tt w) → wp F (when b m) Q w.
Proof. by destruct b. Qed.

Lemma wp_when_assert (b b' : bool) Q w :
  (b = true → b' = true) → Q tt w → wp F (when b (assertM b')) Q w.
Proof. intros Hb HQ. destruct b; [|done]. by apply wp_assert; auto. Qed.

(** a loop over a list, with an invariant on what remains *)
Lemma wp_forM {A} (l : list A) (f : A → M W unit) (I : list A → W → Prop) Q w :
  I l w →
  (∀ a l w, I (a :: l) w → wp F (f a) (λ (_ : unit) w', I l w') w) →
  (∀ w, I [] w → Q tt w) →
  wp F (forM l f) Q w.
Proof.
  intros HI Hf HQ. revert w HI. induction l as [|a l IH]; intros w HI; simpl.
  - by apply HQ.
  - apply wp_bind. eapply wp_post; [by apply Hf|]. intros [] w'. apply IH.
Qed.
End wp_rules_unit.

Create HintDb wp.
#[export] Hint Resolve wp_bind wp_ret wp_gets wp_ifM wp_modify wp_when : wp.

(** [wp_steps] follows the program as far as the rules decide it. *)
Ltac wp_step :=
  lazymatch goal with
  | |- wp _ (mbind _ _) _ _ => apply wp_bind
  | |- wp _ (mret _) _ _ => apply wp_ret
  | |- wp _ (gets _) _ _ => apply wp_gets
  | |- wp _ (ifM _ _ _) _ _ => apply wp_ifM
  | |- wp _ (modify _) _ _ => apply wp_modify
  end.
Ltac wp_steps := repeat (wp_step; cbv beta).

(** ** Frames

    [preserves R m]: whatever state [m] starts in, if it returns, the state it
    leaves is related to it by the preorder [R]. The database [frame] holds
    what each component promises; [frame_tac] decides a composed program. *)
Definition preserves {W A} (R : relation W) (m : M W A) : Prop :=
  ∀ w a w', m w = Ok (a, w') → R w w'.

Section preserves.
Context {W : Type} (R : relation W) `{!PreOrder R}.

Lemma preserves_bind {A B} (m : M W A) (k : A → M W B) :
  preserves R m → (∀ a, preserves R (k a)) → preserves R (m ≫= k).
Proof.
  intros Hm Hk w b w'' (a & w' & Ha & Hb)%runM_bind_inv.
  etrans; [by eapply Hm|by eapply Hk].
Qed.
Lemma preserves_bind_inv {A B} (m : M W A) (k : A → M W B) w w1 b w' :
  preserves R m → R w w1 → (m ≫= k) w1 = Ok (b, w') → ∃ a w2, R w w2 ∧ k a w2 = Ok (b, w').
Proof.
  intros Hm Hw (a & w2 & Ha & Hb)%runM_bind_inv. exists a, w2. split; [|done].
  etrans; [exact Hw|by eapply Hm].
Qed.
Lemma preserves_ret {A} (a : A) : preserves R (mret a).
Proof. by intros w b w' [= _ <-]. Qed.
Lemma preserves_gets {A} (f : W → A) : preserves R (gets f).
Proof. by intros w b w' [= _ <-]. Qed.
Lemma preserves_fail {A} e : preserves R (failM (A := A) e).
Proof. intros w b w' [=]. Qed.
Lemma preserves_lift {A} (o : outcome A) : preserves R (lift o).
Proof. intros w b w' E. destruct o; [by injection E as _ <-|done]. Qed.
Lemma preserves_assert b : preserves R (assertM b).
Proof. apply preserves_lift. Qed.
Lemma preserves_when (b : bool) m : preserves R m → preserves R (when b m).
Proof. destruct b; [done|intros _; apply preserves_ret]. Qed.
Lemma preserves_ifM {A} mb (m1 m2 : M W A) :
  preserves R mb → preserves R m1 → preserves R m2 → preserves R (ifM mb m1 m2).
Proof. intros. apply preserves_bind; [done|]. by intros []. Qed.
Lemma preserves_forM {A} (l : list A) (f : A → M W unit) :
  (∀ a, preserves R (f a)) → preserves R (forM l f).
Proof.
  intros Hf. induction l as [|a l IH]; [apply preserves_ret|].
  apply preserves_bind; [apply Hf|by intros].
Qed.
Lemma preserves_transform (m : M W unit) : preserves R m → preserves R (action (transform m)).
Proof.
  intros Hm w u w' E. unfold action, transform in E.
  destruct (m w) as [[v w1]|] eqn:Em; [|done]. injection E as _ <-. by eapply Hm.
Qed.
Lemma preserves_modify (f : W → W) : (∀ w, R w (f w)) → preserves R (modify f).
Proof. intros Hf w u w' [= <- <-]. apply Hf. Qed.
End preserves.

Create HintDb frame.
#[export] Hint Extern 0 (preserves _ _) =>
  first [ apply preserves_ret | apply preserves_gets | apply preserves_fail | apply preserves_lift
        | apply preserves_assert ]; exact _ : frame.

(** [any]: nothing is claimed of the runs that fail *)
Definition any : fault → Prop := λ _, True.

Section any_rules.
Context {W : Type}.
Implicit Types w : W.

Lemma wp_any_frame {A} (R : relation W) (m : M W A) (Q : A → W → Prop) w :
  preserves R m → (∀ a w', R w w' → Q a w') → wp any m Q w.
Proof. intros Hm HQ. unfold wp. destruct (m w) as [[a w']|] eqn:E; [|done]. eauto. Qed.
Lemma wp_and_preserves {A} F (R : relation W) (m : M W A) (Q : A → W → Prop) w :
  preserves R m → wp F m Q w → wp F m (λ a w', Q a w' ∧ R w w') w.
Proof. intros Hm HQ. unfold wp in *. destruct (m w) as [[a w']|] eqn:E; [|done]. eauto. Qed.
Lemma wp_any_assert b (Q : unit → W → Prop) w : (b = true → Q tt w) → wp any (assertM b) Q w.
Proof. destruct b; [by intros HQ; apply HQ|done]. Qed.
Lemma wp_any_lift {A} (o : outcome A) (Q : A → W → Prop) w :
  (∀ a, o = Ok a → Q a w) → wp any (lift o) Q w.
Proof. destruct o; [by intros HQ; apply HQ|done]. Qed.
Lemma preserves_wp {A} (R : relation W) (m : M W A) :
  (∀ w, wp any m (λ _ w', R w w') w) → preserves R m.
Proof. intros Hm w a w' E. specialize (Hm w). unfold wp in Hm. by rewrite E in Hm. Qed.
End any_rules.

(** a composed operation is unfolded until the database knows its parts *)
Ltac head_of m := lazymatch m with ?f _ => head_of f | _ => m end.
Ltac frame_step :=
  lazymatch goal with
  | |- preserves _ (mbind _ _) => apply preserves_bind; [exact _| |intros ?]
  | |- preserves _ (ifM _ _ _) => apply preserves_ifM; [exact _|..]
  | |- preserves _ (when _ _) => apply preserves_when; [exact _|]
  | |- preserves _ (forM _ _) => apply preserves_forM; [exact _|intros ?]
  | |- preserves _ (match ?x with _ => _ end) => destruct x
  | |- preserves _ ?m =>
      first [ solve [eauto 1 with frame] | let f := head_of m in progress unfold f ]
  end.
Ltac frame_tac := repeat (cbv zeta; frame_step).

(** ** Programs that keep an invariant and do not fail

    [keeping I m]: from a state in which [I] holds, [m] returns, and leaves a
    state in which [I] holds. The database [keeping] holds what each component
    promises; [keeping_tac] decides a composed program. *)
Definition keeping {W A} (I : W → Prop) (m : M W A) : Prop :=
  ∀ w, I w → wp never m (λ _ w', I w') w.

Section keeping.
Context {W : Type} (I : W → Prop).

Lemma keeping_bind {A B} (m : M W A) (k : A → M W B) :
  keeping I m → (∀ a, keeping I (k a)) → keeping I (m ≫= k).
Proof.
  intros Hm Hk w Hw. apply wp_bind. eapply wp_post; [by apply Hm|]. intros a w' Hw'. by apply Hk.
Qed.
Lemma keeping_ret {A} (a : A) : keeping I (mret a).
Proof. intros w Hw. by apply wp_ret. Qed.
Lemma keeping_gets {A} (f : W → A) : keeping I (gets f).
Proof. intros w Hw. by apply wp_gets. Qed.
Lemma keeping_modify (f : W → W) : (∀ w, I w → I (f w)) → keeping I (modify f).
Proof. intros Hf w Hw. apply wp_modify. by apply Hf. Qed.
Lemma keeping_when (b : bool) m : keeping I m → keeping I (when b m).
Proof. destruct b; [done|intros _; apply keeping_ret]. Qed.
Lemma keeping_ifM {A} mb (m1 m2 : M W A) :
  keeping I mb → keeping I m1 → keeping I m2 → keeping I (ifM mb m1 m2).
Proof. intros. apply keeping_bind; [done|]. by intros []. Qed.
Lemma keeping_ok {A} (m : M W A) w : keeping I m → I w → ∃ a w', m w = Ok (a, w') ∧ I w'.
Proof. intros Hm Hw. apply wp_ok_inv. by apply Hm. Qed.
End keeping.

Create HintDb keeping.
#[export] Hint Extern 0 (keeping _ (mret _)) => apply keeping_ret : keeping.
#[export] Hint Extern 0 (keeping _ (gets _)) => apply keeping_gets : keeping.

Ltac keeping_step :=
  lazymatch goal with
  | |- keeping _ (mbind _ _) => apply keeping_bind; [|intros ?]
  | |- keeping _ (ifM _ _ _) => apply keeping_ifM
  | |- keeping _ (when _ _) => apply keeping_when
  | |- keeping _ (match ?x with _ => _ end) => destruct x
  | |- keeping _ ?m =>
      first [ solve [eauto 1 with keeping] | let f := head_of m in progress unfold f ]
  end.
Ltac keeping_tac := repeat (cbv zeta; keeping_step).
