(* ===== verification/RingBuffer.v ===== *)
(** * RingBuffer: the connection buffer (src/base/RingBuffer.h, src/net/Buffer.cpp)

    A [std::vector<char>] with a read and a write index. Indices are [size_t]:
    64-bit, with the wrap-around of each subtraction and addition written out.
    The section at the end gives the abstract view, a queue of bytes, and shows
    that every operation implements it. *)
From S2P Require Import Prelude.

(** ** What clients of the buffer rely on *)

(** The operations the codec and the connections use, and what they promise in
    terms of the queue of unread bytes. *)
Class ByteQueue (B : Type) : Type := {
  bq_valid : B → Prop;
  bq_contents : B → list byte;
  bq_size : B → Z;
  bq_readable : B → Z;
  bq_peek : Z → B → outcome (list byte);
  bq_retrieve : Z → B → outcome B;
}.

Class ByteQueueLaws (B : Type) `{ByteQueue B} : Prop := {
  bq_readable_spec b : bq_valid b → bq_readable b = Z.of_nat (length (bq_contents b));
  bq_peek_spec n b : bq_valid b → 0 ≤ n ≤ bq_readable b →
    bq_peek n b = Ok (take (Z.to_nat n) (bq_contents b));
  bq_retrieve_spec n b : bq_valid b → 0 ≤ n ≤ bq_readable b →
    ∃ b', bq_retrieve n b = Ok b' ∧ bq_valid b' ∧
      bq_contents b' = drop (Z.to_nat n) (bq_contents b) ∧ bq_size b' = bq_size b;
}.

(** ** The class *)

Record RingBuffer : Type := mkRingBuffer {
  buffer_ : list byte;
  readIndex_ : Z;
  writeIndex_ : Z;
}.

Definition kCheapPrepend : Z := 8.

(** [std::vector<char>::max_size()] and [resize]: new elements are zero. *)
Definition vector_max_size : Z := 2 ^ 63 - 1.

Definition vector_resize (n : Z) (v : list byte) : outcome (list byte) :=
  if vector_max_size <? n then Fail Exception
  else Ok (take (Z.to_nat n) v ++ replicate (Z.to_nat n - length v) Byte.x00).

Definition buffer_size (b : RingBuffer) : Z := Z.of_nat (length (buffer_ b)).

Definition new_RingBuffer (initialSize : Z) : RingBuffer :=
  mkRingBuffer (replicate (Z.to_nat initialSize) Byte.x00) 0 0.

Definition ReadableBytes (b : RingBuffer) : Z := u64 (writeIndex_ b - readIndex_ b).

Definition WritableBytes (b : RingBuffer) : Z := u64 (buffer_size b - writeIndex_ b).

Definition PrependableBytes (b : RingBuffer) : Z := readIndex_ b.

(** the [n] bytes read through the pointer [Peek()] *)
Definition Peek (n : Z) (b : RingBuffer) : outcome (list byte) :=
  _ ← defined_if (bool_decide (readIndex_ b + n ≤ buffer_size b));
  Ok (take (Z.to_nat n) (drop (Z.to_nat (readIndex_ b)) (buffer_ b))).

Definition RetrieveAll (b : RingBuffer) : RingBuffer :=
  mkRingBuffer (buffer_ b) 0 0.

Definition Retrieve (len : Z) (b : RingBuffer) : outcome RingBuffer :=
  _ ← assert_ (len <=? ReadableBytes b);
  if len <? ReadableBytes b
  then Ok (mkRingBuffer (buffer_ b) (u64 (readIndex_ b + len)) (writeIndex_ b))
  else Ok (RetrieveAll b).

(** [end] is given by its offset from [Begin()]. *)
Definition RetrieveUntil (end_ : Z) (b : RingBuffer) : outcome RingBuffer :=
  _ ← assert_ (readIndex_ b <=? end_);
  _ ← assert_ (end_ <=? writeIndex_ b);
  Retrieve (end_ - readIndex_ b) b.

Definition RetrieveAsString (len : Z) (b : RingBuffer) : outcome (list byte * RingBuffer) :=
  _ ← assert_ (len <=? ReadableBytes b);
  result ← Peek len b;
  b' ← Retrieve len b;
  Ok (result, b').

Definition RetrieveAllAsString (b : RingBuffer) : outcome (list byte * RingBuffer) :=
  RetrieveAsString (ReadableBytes b) b.

Definition HasWritten (len : Z) (b : RingBuffer) : outcome RingBuffer :=
  _ ← assert_ (len <=? WritableBytes b);
  Ok (mkRingBuffer (buffer_ b) (readIndex_ b) (u64 (writeIndex_ b + len))).

Definition Unwrite (len : Z) (b : RingBuffer) : outcome RingBuffer :=
  _ ← assert_ (len <=? ReadableBytes b);
  Ok (mkRingBuffer (buffer_ b) (readIndex_ b) (u64 (writeIndex_ b - len))).

Definition MakeSpace (len : Z) (b : RingBuffer) : outcome RingBuffer :=
  if u64 (WritableBytes b + PrependableBytes b) <? u64 (len + kCheapPrepend)
  then
    buf ← vector_resize (u64 (writeIndex_ b + len)) (buffer_ b);
    Ok (mkRingBuffer buf (readIndex_ b) (writeIndex_ b))
  else
    let readable := ReadableBytes b in
    buf ← copy_forward (Z.to_nat readable) (Z.to_nat (readIndex_ b))
            (Z.to_nat kCheapPrepend) (buffer_ b);
    Ok (mkRingBuffer buf kCheapPrepend (u64 (kCheapPrepend + readable))).

Definition EnsureWritableBytes (len : Z) (b : RingBuffer) : outcome RingBuffer :=
  b' ← (if WritableBytes b <? len then MakeSpace len b else Ok b);
  _ ← assert_ (len <=? WritableBytes b');
  Ok b'.

(** [Append(data, len)] for an array [data] of [len] bytes outside the buffer;
    the [const void*] overload casts and calls it. *)
Definition Append (data : list byte) (b : RingBuffer) : outcome RingBuffer :=
  let len := Z.of_nat (length data) in
  b1 ← EnsureWritableBytes len b;
  buf ← store (Z.to_nat (writeIndex_ b1)) data (buffer_ b1);
  HasWritten len (mkRingBuffer buf (readIndex_ b1) (writeIndex_ b1)).

Definition Prepend (data : list byte) (b : RingBuffer) : outcome RingBuffer :=
  let len := Z.of_nat (length data) in
  _ ← assert_ (len <=? PrependableBytes b);
  let r := u64 (readIndex_ b - len) in
  buf ← store (Z.to_nat r) data (buffer_ b);
  Ok (mkRingBuffer buf r (writeIndex_ b)).

(** [std::copy] into the fresh vector of [reserve] elements is undefined when
    the readable bytes do not fit. *)
Definition Shrink (reserve : Z) (b : RingBuffer) : outcome RingBuffer :=
  let buf := replicate (Z.to_nat reserve) Byte.x00 in
  let readable := ReadableBytes b in
  src ← Peek readable b;
  buf' ← store 0 src buf;
  Ok (mkRingBuffer buf' 0 readable).

(** *** Reading from a descriptor *)

(** What [readv] returns: the bytes placed in the segments, in order, or
    [errno]. *)
Inductive readv_result : Type :=
| readv_ok (data : list byte)
| readv_err (errno : Z).

Definition sizeof_extrabuf : Z := 65536.

(** The segments handed to [readv]: their lengths. *)
Definition ReadFd_iov (b : RingBuffer) : list Z :=
  if WritableBytes b <? sizeof_extrabuf
  then [WritableBytes b; sizeof_extrabuf]
  else [WritableBytes b].

(** [readv] is the system call; the result is [n] with the new buffer, or
    [-1] and [errno]. *)
Definition ReadFd (readv : list Z → readv_result) (b : RingBuffer) :
    outcome (Z * Z * RingBuffer) :=
  let writable := WritableBytes b in
  match readv (ReadFd_iov b) with
  | readv_err errno => Ok (-1, errno, b)
  | readv_ok data =>
      let n := Z.of_nat (length data) in
      if n <=? writable
      then
        buf ← store (Z.to_nat (writeIndex_ b)) data (buffer_ b);
        Ok (n, 0, mkRingBuffer buf (readIndex_ b) (u64 (writeIndex_ b + n)))
      else
        buf ← store (Z.to_nat (writeIndex_ b)) (take (Z.to_nat writable) data) (buffer_ b);
        b' ← Append (drop (Z.to_nat writable) data)
               (mkRingBuffer buf (readIndex_ b) (Z.of_nat (length buf)));
        Ok (n, 0, b')
  end.

(** POSIX: [readv] transfers at most the sum of the segment lengths. *)
Definition readv_bounded (readv : list Z → readv_result) : Prop :=
  ∀ iov data, readv iov = readv_ok data → Z.of_nat (length data) ≤ foldr Z.add 0 iov.

(** ** The invariant and the abstract view *)

Definition rb_inv (b : RingBuffer) : Prop :=
  0 ≤ readIndex_ b ≤ writeIndex_ b ∧ writeIndex_ b ≤ buffer_size b < 2 ^ 63.

(** the unread bytes, oldest first *)
Definition contents (b : RingBuffer) : list byte :=
  take (Z.to_nat (writeIndex_ b - readIndex_ b)) (drop (Z.to_nat (readIndex_ b)) (buffer_ b)).

(** the bytes already consumed that [Prepend] can overwrite *)
Definition prefix_room (b : RingBuffer) : Z := readIndex_ b.

Section facts.
Implicit Types (b : RingBuffer) (data : list byte).

Lemma ReadableBytes_inv b : rb_inv b → ReadableBytes b = writeIndex_ b - readIndex_ b.
Proof. intros [??]. apply u64_small. lia. Qed.

Lemma WritableBytes_inv b : rb_inv b → WritableBytes b = buffer_size b - writeIndex_ b.
Proof. intros [??]. apply u64_small. lia. Qed.

Lemma length_contents b :
  rb_inv b → Z.of_nat (length (contents b)) = writeIndex_ b - readIndex_ b.
Proof.
  unfold contents, rb_inv, buffer_size. intros [??].
  rewrite length_take, length_drop. lia.
Qed.

Lemma ReadableBytes_contents b :
  rb_inv b → ReadableBytes b = Z.of_nat (length (contents b)).
Proof. intros H. by rewrite ReadableBytes_inv, length_contents. Qed.

Lemma new_RingBuffer_inv n : 0 ≤ n < 2 ^ 63 → rb_inv (new_RingBuffer n).
Proof.
  intros ?. unfold rb_inv, buffer_size. simpl. rewrite length_replicate. lia.
Qed.

Lemma contents_new n : contents (new_RingBuffer n) = [].
Proof. done. Qed.

Lemma RetrieveAll_inv b : rb_inv b → rb_inv (RetrieveAll b).
Proof. unfold rb_inv, buffer_size. simpl. lia. Qed.

Lemma contents_RetrieveAll b : contents (RetrieveAll b) = [].
Proof. done. Qed.

Lemma Peek_spec n b :
  rb_inv b → 0 ≤ n ≤ ReadableBytes b → Peek n b = Ok (take (Z.to_nat n) (contents b)).
Proof.
  intros H Hn. rewrite ReadableBytes_inv in Hn by done. destruct H as [??].
  unfold Peek. rewrite bool_decide_true by lia. simpl. unfold contents.
  rewrite take_take. do 2 f_equal. lia.
Qed.

Lemma Retrieve_spec len b :
  rb_inv b → 0 ≤ len ≤ ReadableBytes b →
  ∃ b', Retrieve len b = Ok b' ∧ rb_inv b' ∧ buffer_ b' = buffer_ b ∧
    contents b' = drop (Z.to_nat len) (contents b).
Proof.
  intros H Hlen. unfold Retrieve. rewrite assert_ok by lia. simpl.
  rewrite ReadableBytes_inv in * by done. pose proof H as [? ?].
  destruct (Z.ltb_spec len (writeIndex_ b - readIndex_ b)) as [Hlt|Hge].
  - rewrite u64_small by lia. eexists; split; [done|]. unfold rb_inv, contents.
    unfold buffer_size in *. simpl. split; [lia|]. split; [done|].
    rewrite skipn_firstn_comm, drop_drop. do 2 f_equal; lia.
  - eexists; split; [done|]. split; [by apply RetrieveAll_inv|]. split; [done|].
    rewrite contents_RetrieveAll, drop_ge; [done|].
    apply Nat2Z.inj_le. rewrite length_contents by done. lia.
Qed.

Lemma RetrieveAsString_spec len b :
  rb_inv b → 0 ≤ len ≤ ReadableBytes b →
  ∃ b', RetrieveAsString len b = Ok (take (Z.to_nat len) (contents b), b') ∧
    rb_inv b' ∧ contents b' = drop (Z.to_nat len) (contents b).
Proof.
  intros H Hlen. unfold RetrieveAsString. rewrite assert_ok by lia. simpl.
  rewrite Peek_spec by done. simpl.
  destruct (Retrieve_spec len b) as (b' & -> & ? & _ & ?); [done..|]. by exists b'.
Qed.

Lemma HasWritten_spec len b :
  rb_inv b → 0 ≤ len ≤ WritableBytes b →
  ∃ b', HasWritten len b = Ok b' ∧ rb_inv b' ∧
    b' = mkRingBuffer (buffer_ b) (readIndex_ b) (writeIndex_ b + len).
Proof.
  intros H Hlen. unfold HasWritten. rewrite assert_ok by lia. simpl.
  rewrite WritableBytes_inv in Hlen by done. destruct H as [??].
  rewrite u64_small by lia. eexists; split; [done|]. split; [|done].
  unfold rb_inv, buffer_size in *. simpl. lia.
Qed.

(** bytes stored at the write index become the tail of the contents *)
Lemma contents_written b data buf :
  rb_inv b → Z.of_nat (length data) ≤ WritableBytes b →
  store (Z.to_nat (writeIndex_ b)) data (buffer_ b) = Ok buf →
  let b' := mkRingBuffer buf (readIndex_ b) (writeIndex_ b + Z.of_nat (length data)) in
  rb_inv b' ∧ contents b' = contents b ++ data.
Proof.
  intros H Hw E. rewrite WritableBytes_inv in Hw by done.
  pose proof (store_length _ _ _ _ E) as Hl.
  apply store_ok_inv in E as [_ ->]. destruct H as [??].
  unfold rb_inv, contents, buffer_size in *. simpl. rewrite Hl. split; [lia|].
  rewrite drop_app_le by (rewrite length_take; lia).
  rewrite skipn_firstn_comm, app_assoc, take_app_le.
  2:{ rewrite length_app, length_take, length_drop. lia. }
  rewrite take_ge by (rewrite length_app, length_take, length_drop; lia).
  do 2 f_equal. lia.
Qed.

Lemma vector_resize_grow n v :
  Z.of_nat (length v) ≤ n ≤ vector_max_size →
  vector_resize n v = Ok (v ++ replicate (Z.to_nat n - length v) Byte.x00).
Proof.
  intros [? Hm]. unfold vector_resize. rewrite (proj2 (Z.ltb_ge _ _)) by done.
  by rewrite take_ge by lia.
Qed.

(** [MakeSpace] keeps the unread bytes and leaves room for [len] more. It is
    only called when the room behind the write index is too small. *)
Lemma MakeSpace_spec len b :
  rb_inv b → WritableBytes b < len → writeIndex_ b + len < 2 ^ 63 →
  ∃ b', MakeSpace len b = Ok b' ∧ rb_inv b' ∧ contents b' = contents b ∧
    len ≤ WritableBytes b' ∧ buffer_size b' ≤ Z.max (buffer_size b) (writeIndex_ b + len).
Proof.
  intros H Hw Hmax. unfold MakeSpace. rewrite WritableBytes_inv in * by done.
  pose proof H as [??]. unfold kCheapPrepend, PrependableBytes.
  rewrite !u64_small by lia. destruct (Z.ltb_spec
    (buffer_size b - writeIndex_ b + readIndex_ b) (len + 8)) as [Hg|Hg].
  - rewrite vector_resize_grow by (unfold buffer_size, vector_max_size in *; lia).
    simpl. eexists; split; [done|].
    assert (buffer_size (mkRingBuffer (buffer_ b ++ replicate
      (Z.to_nat (writeIndex_ b + len) - length (buffer_ b)) Byte.x00)
      (readIndex_ b) (writeIndex_ b)) = writeIndex_ b + len) as Hsz.
    { unfold buffer_size in *. simpl. rewrite length_app, length_replicate. lia. }
    assert (rb_inv (mkRingBuffer (buffer_ b ++ replicate
      (Z.to_nat (writeIndex_ b + len) - length (buffer_ b)) Byte.x00)
      (readIndex_ b) (writeIndex_ b))) as Hi.
    { unfold rb_inv. rewrite Hsz. simpl. lia. }
    split; [done|]. rewrite WritableBytes_inv by done. rewrite Hsz. simpl.
    split; [|lia]. unfold contents. simpl. unfold buffer_size in *.
    rewrite drop_app_le by lia. by rewrite take_app_le by (rewrite length_drop; lia).
  - rewrite ReadableBytes_inv by done.
    destruct (copy_forward_down (Z.to_nat (writeIndex_ b - readIndex_ b))
      (Z.to_nat (readIndex_ b)) (Z.to_nat 8) (buffer_ b)) as (buf & E & Hl & _ & Hd);
      [lia|unfold buffer_size in *; lia|].
    rewrite E. simpl. rewrite u64_small by lia. eexists; split; [done|].
    assert (rb_inv (mkRingBuffer buf 8 (8 + (writeIndex_ b - readIndex_ b)))) as Hi.
    { unfold rb_inv, buffer_size in *. simpl. rewrite Hl. lia. }
    split; [done|]. rewrite WritableBytes_inv by done.
    unfold buffer_size in *. simpl. rewrite Hl. split; [|lia].
    unfold contents. simpl. rewrite <- Hd. do 2 f_equal; lia.
Qed.

Lemma EnsureWritableBytes_spec len b :
  rb_inv b → 0 ≤ len → writeIndex_ b + len < 2 ^ 63 →
  ∃ b', EnsureWritableBytes len b = Ok b' ∧ rb_inv b' ∧ contents b' = contents b ∧
    len ≤ WritableBytes b' ∧ buffer_size b' ≤ Z.max (buffer_size b) (writeIndex_ b + len).
Proof.
  intros H Hlen Hmax. unfold EnsureWritableBytes.
  destruct (Z.ltb_spec (WritableBytes b) len) as [Hlt|Hge].
  - destruct (MakeSpace_spec len b) as (b' & -> & ? & ? & ? & ?); [done..|].
    simpl. rewrite assert_ok by lia. by exists b'.
  - simpl. rewrite assert_ok by lia. exists b. split_and!; auto with lia.
Qed.

Lemma Append_spec data b :
  rb_inv b → writeIndex_ b + Z.of_nat (length data) < 2 ^ 63 →
  ∃ b', Append data b = Ok b' ∧ rb_inv b' ∧ contents b' = contents b ++ data ∧
    buffer_size b' ≤ Z.max (buffer_size b) (writeIndex_ b + Z.of_nat (length data)).
Proof.
  intros H Hmax. unfold Append.
  destruct (EnsureWritableBytes_spec (Z.of_nat (length data)) b)
    as (b1 & -> & H1 & Hc & Hw & Hs); [done|lia|done|]. simpl.
  pose proof Hw as Hw'. rewrite WritableBytes_inv in Hw' by done. pose proof H1 as [??].
  unfold store at 1. rewrite decide_True by (unfold buffer_size in *; lia). simpl.
  destruct (contents_written b1 data (take (Z.to_nat (writeIndex_ b1)) (buffer_ b1) ++ data
    ++ drop (Z.to_nat (writeIndex_ b1) + length data) (buffer_ b1))) as [Hi Hcon];
    [done|done|by apply store_ok; unfold buffer_size in *; lia|].
  unfold HasWritten.
  assert (∀ l, length l = length (buffer_ b1) →
    WritableBytes (mkRingBuffer l (readIndex_ b1) (writeIndex_ b1)) = WritableBytes b1) as Hwr.
  { intros l Hl. unfold WritableBytes, buffer_size. simpl. by rewrite Hl. }
  rewrite Hwr by (rewrite !length_app, length_take, length_drop;
    unfold buffer_size in *; lia).
  rewrite assert_ok by lia. simpl. rewrite u64_small by lia.
  eexists; split; [done|]. split; [done|]. split; [by rewrite Hcon, Hc|].
  unfold buffer_size in *. simpl. rewrite !length_app, length_take, length_drop. lia.
Qed.
End facts.

Section more_facts.
Implicit Types (b : RingBuffer) (data : list byte).

Lemma store_written b data :
  rb_inv b → Z.of_nat (length data) ≤ WritableBytes b →
  ∃ buf, store (Z.to_nat (writeIndex_ b)) data (buffer_ b) = Ok buf ∧
    length buf = length (buffer_ b).
Proof.
  intros H Hl. rewrite WritableBytes_inv in Hl by done. destruct H as [??].
  unfold buffer_size in *. eexists. split; [apply store_ok; lia|].
  rewrite !length_app, length_take, length_drop. lia.
Qed.

Lemma ReadFd_total b data readv :
  rb_inv b → readv_bounded readv → readv (ReadFd_iov b) = readv_ok data →
  WritableBytes b < Z.of_nat (length data) →
  WritableBytes b < sizeof_extrabuf ∧
  Z.of_nat (length data) ≤ WritableBytes b + sizeof_extrabuf.
Proof.
  intros H Hb E Hgt. specialize (Hb _ _ E). unfold ReadFd_iov in Hb.
  destruct (Z.ltb_spec (WritableBytes b) sizeof_extrabuf); simpl in Hb; lia.
Qed.

Lemma ReadFd_spec b readv data :
  rb_inv b → readv_bounded readv → readv (ReadFd_iov b) = readv_ok data →
  buffer_size b + Z.of_nat (length data) < 2 ^ 63 →
  ∃ b', ReadFd readv b = Ok (Z.of_nat (length data), 0, b') ∧ rb_inv b' ∧
    contents b' = contents b ++ data ∧
    buffer_size b' ≤ buffer_size b + Z.of_nat (length data).
Proof.
  intros H Hb E Hmax. unfold ReadFd. rewrite E. pose proof H as [??].
  pose proof (WritableBytes_inv b H) as Hwr.
  destruct (Z.leb_spec (Z.of_nat (length data)) (WritableBytes b)) as [Hle|Hgt].
  - destruct (store_written b data H Hle) as (buf & Es & Hl).
    destruct (contents_written b data buf H Hle Es) as [Hi Hc].
    rewrite Es. simpl. rewrite u64_small by (unfold buffer_size in *; lia).
    eexists; split; [done|]. split; [done|]. split; [done|].
    unfold buffer_size in *. simpl. lia.
  - destruct (ReadFd_total b data readv) as [Hsmall _]; [done..|].
    set (d1 := take (Z.to_nat (WritableBytes b)) data).
    assert (Z.of_nat (length d1) = WritableBytes b) as Hd1.
    { unfold d1. rewrite length_take. lia. }
    destruct (store_written b d1 H ltac:(lia)) as (buf & Es & Hl).
    destruct (contents_written b d1 buf H ltac:(lia) Es) as [Hi Hc].
    rewrite Es. simpl.
    replace (writeIndex_ b + Z.of_nat (length d1)) with (Z.of_nat (length buf)) in Hi, Hc
      by (unfold buffer_size in *; lia).
    destruct (Append_spec (drop (Z.to_nat (WritableBytes b)) data)
      (mkRingBuffer buf (readIndex_ b) (Z.of_nat (length buf))))
      as (b' & -> & Hi' & Hc' & Hs'); [done| |].
    { cbn [writeIndex_]. rewrite length_drop. unfold buffer_size in *. lia. }
    simpl. exists b'. split; [done|]. split; [done|]. split.
    + rewrite Hc', Hc, <- app_assoc. unfold d1. by rewrite take_drop.
    + etrans; [exact Hs'|]. unfold buffer_size in *. cbn [writeIndex_ buffer_].
      rewrite length_drop. lia.
Qed.

Lemma Prepend_spec data b :
  rb_inv b → Z.of_nat (length data) ≤ PrependableBytes b →
  ∃ b', Prepend data b = Ok b' ∧ rb_inv b' ∧ contents b' = data ++ contents b.
Proof.
  intros H Hp. unfold Prepend. rewrite assert_ok by lia. simpl.
  unfold PrependableBytes in *. pose proof H as [??]. rewrite u64_small by lia.
  rewrite store_ok by (unfold buffer_size in *; lia). simpl.
  eexists; split; [done|]. unfold rb_inv, contents, buffer_size in *. simpl.
  rewrite !length_app, length_take, length_drop. split; [lia|].
  rewrite drop_app_length' by (rewrite length_take; lia).
  rewrite take_app_ge by lia. f_equal. f_equal; [lia|]. f_equal. lia.
Qed.

Lemma Unwrite_spec len b :
  rb_inv b → 0 ≤ len ≤ ReadableBytes b →
  ∃ b', Unwrite len b = Ok b' ∧ rb_inv b' ∧
    contents b' = take (length (contents b) - Z.to_nat len) (contents b).
Proof.
  intros H Hl. unfold Unwrite. rewrite assert_ok by lia. simpl.
  rewrite ReadableBytes_inv in Hl by done. pose proof H as [??].
  rewrite u64_small by lia. eexists; split; [done|].
  pose proof (length_contents b H) as Hlen. unfold rb_inv in *.
  unfold buffer_size in *. simpl. split; [lia|].
  unfold contents at 1. simpl. unfold contents at 2. rewrite take_take. f_equal. lia.
Qed.
End more_facts.

#[export] Instance RingBuffer_queue : ByteQueue RingBuffer := {
  bq_valid := rb_inv;
  bq_contents := contents;
  bq_size := buffer_size;
  bq_readable := ReadableBytes;
  bq_peek := Peek;
  bq_retrieve := Retrieve;
}.

#[export] Instance RingBuffer_queue_laws : ByteQueueLaws RingBuffer.
Proof.
  split; simpl.
  - apply ReadableBytes_contents.
  - intros n b. apply Peek_spec.
  - intros n b H Hn. destruct (Retrieve_spec n b H Hn) as (b' & ? & ? & Hb & ?).
    exists b'. unfold buffer_size. by rewrite Hb.
Qed.

(** ** Refinement: the buffer is a queue of bytes *)

(** a [readv] that delivers [data] whenever the segments hold it *)
Definition readv_of (data : list byte) (iov : list Z) : readv_result :=
  if bool_decide (Z.of_nat (length data) ≤ foldr Z.add 0 iov)
  then readv_ok data else readv_err 11.

Lemma readv_of_bounded data : readv_bounded (readv_of data).
Proof. intros iov d. unfold readv_of. case_bool_decide; intros [= <-]. done. Qed.

Lemma readv_of_fits b data :
  rb_inv b → Z.of_nat (length data) ≤ sizeof_extrabuf →
  readv_of data (ReadFd_iov b) = readv_ok data.
Proof.
  intros H Hl. pose proof (WritableBytes_inv b H). destruct H as [??].
  unfold readv_of. rewrite bool_decide_true; [done|]. unfold ReadFd_iov, sizeof_extrabuf in *.
  destruct (Z.ltb_spec (WritableBytes b) 65536); simpl; lia.
Qed.

(** The operations of a client, and their meaning on a queue. *)
Inductive buffer_op : Type :=
| OpAppend (data : list byte)
| OpReadFd (data : list byte)
| OpRetrieve (n : Z)
| OpRetrieveAll.

Definition spec_step (o : buffer_op) (q : list byte) : option (list byte) :=
  match o with
  | OpAppend d | OpReadFd d => Some (q ++ d)
  | OpRetrieve n =>
      if bool_decide (0 ≤ n ≤ Z.of_nat (length q)) then Some (drop (Z.to_nat n) q) else None
  | OpRetrieveAll => Some []
  end.

Definition step (o : buffer_op) (b : RingBuffer) : outcome RingBuffer :=
  match o with
  | OpAppend d => Append d b
  | OpReadFd d => r ← ReadFd (readv_of d) b; Ok r.2
  | OpRetrieve n => Retrieve n b
  | OpRetrieveAll => Ok (RetrieveAll b)
  end.

Fixpoint spec_run (os : list buffer_op) (q : list byte) : option (list byte) :=
  match os with [] => Some q | o :: os => q' ← spec_step o q; spec_run os q' end.

(** the bytes an operation adds *)
Definition op_bytes (o : buffer_op) : Z :=
  match o with OpAppend d | OpReadFd d => Z.of_nat (length d) | _ => 0 end.

(** a [readv] of [d] fits the segments: at most the extra buffer's size *)
Definition op_fits (o : buffer_op) : Prop :=
  match o with OpReadFd d => Z.of_nat (length d) ≤ sizeof_extrabuf | _ => True end.

Lemma step_refines o b q' :
  rb_inv b → op_fits o → buffer_size b + op_bytes o < 2 ^ 63 →
  spec_step o (contents b) = Some q' →
  ∃ b', step o b = Ok b' ∧ rb_inv b' ∧ contents b' = q' ∧
    buffer_size b' ≤ buffer_size b + op_bytes o.
Proof.
  intros H Hfit Hmax E. pose proof H as [??]. destruct o as [d|d|n|]; simpl in *.
  - injection E as <-. destruct (Append_spec d b) as (b' & ? & ? & ? & ?); [done|lia|].
    exists b'. split_and!; [done..|lia].
  - injection E as <-.
    assert (readv_of d (ReadFd_iov b) = readv_ok d) as Hr by (by apply readv_of_fits).
    destruct (ReadFd_spec b (readv_of d) d) as (b' & -> & ? & ? & ?);
      [done|apply readv_of_bounded|done|done|]. by exists b'.
  - case_bool_decide; [|done]. injection E as <-.
    destruct (Retrieve_spec n b) as (b' & E & ? & Hbuf & ?); [done| |].
    { by rewrite ReadableBytes_contents. }
    exists b'. split_and!; [done..|]. unfold buffer_size. rewrite Hbuf. lia.
  - injection E as <-. exists (RetrieveAll b). split_and!; [done|by apply RetrieveAll_inv|done|].
    unfold buffer_size. simpl. lia.
Qed.

Lemma op_bytes_total os : 0 ≤ foldr Z.add 0 (op_bytes <$> os).
Proof.
  induction os as [|o os IH]; [done|]. rewrite fmap_cons. cbn [foldr].
  destruct o; simpl; lia.
Qed.

Lemma run_refines os b q' :
  rb_inv b → Forall op_fits os →
  buffer_size b + foldr Z.add 0 (op_bytes <$> os) < 2 ^ 63 →
  spec_run os (contents b) = Some q' →
  ∃ b', foldM step os b = Ok b' ∧ rb_inv b' ∧ contents b' = q'.
Proof.
  revert b. induction os as [|o os IH]; intros b H Hf Hmax E.
  { injection E as <-. by exists b. }
  apply Forall_cons in Hf as [Ho Hf]. rewrite fmap_cons in Hmax. simpl in Hmax, E |- *.
  destruct (spec_step o (contents b)) as [q|] eqn:Eq; [|done]. simpl in E.
  pose proof (op_bytes_total os) as Hpos.
  destruct (step_refines o b q H Ho) as (b' & Es & Hi & Hc & Hs); [lia|done|].
  rewrite Es. simpl. apply IH; [done|done|lia|by rewrite Hc].
Qed.

(** C21: started from an empty buffer of any initial size, every sequence of
    appends, descriptor reads and retrievals that a byte queue allows runs
    without a failed assertion, an out-of-bounds copy or an exception, and the
    unread bytes at the end are exactly the queue's: the compaction and the
    growth in [MakeSpace] and the spill through the stack buffer in [ReadFd]
    neither lose, duplicate nor reorder a byte. *)
Theorem buffer_refines_queue os n q :
  0 ≤ n → n + foldr Z.add 0 (op_bytes <$> os) < 2 ^ 63 → Forall op_fits os →
  spec_run os [] = Some q →
  ∃ b, foldM step os (new_RingBuffer n) = Ok b ∧ rb_inv b ∧ contents b = q.
Proof.
  intros Hn Hmax Hf E.
  pose proof (op_bytes_total os) as Hpos.
  apply run_refines; [apply new_RingBuffer_inv; lia|done| |done].
  unfold buffer_size. simpl. rewrite length_replicate. lia.
Qed.

(** one [ReadFd] on a buffer in any valid state returns the number of bytes
    [readv] delivered and appends exactly those bytes, whether they fit behind
    the write index or spill into the 64 KiB stack buffer. *)
Theorem ReadFd_appends b readv data :
  rb_inv b → readv_bounded readv → readv (ReadFd_iov b) = readv_ok data →
  buffer_size b + Z.of_nat (length data) < 2 ^ 63 →
  ∃ b', ReadFd readv b = Ok (Z.of_nat (length data), 0, b') ∧ rb_inv b' ∧
    contents b' = contents b ++ data.
Proof.
  intros H Hb E Hmax. destruct (ReadFd_spec b readv data) as (b' & ? & ? & ? & _); [done..|].
  by exists b'.
Qed.

(** C34: [Shrink] keeps the contents when the readable bytes fit the new vector,
    and writes past its end (undefined behaviour) when they do not: it does not
    check [reserve]. *)
Theorem Shrink_needs_room b reserve :
  rb_inv b → 0 ≤ reserve < 2 ^ 63 →
  if reserve <? ReadableBytes b
  then Shrink reserve b = Fail UndefinedBehaviour
  else ∃ b', Shrink reserve b = Ok b' ∧ rb_inv b' ∧ contents b' = contents b ∧
         buffer_size b' = reserve.
Proof.
  intros H Hr. unfold Shrink. pose proof (ReadableBytes_contents b H) as Hrd.
  rewrite Peek_spec by (auto; lia). simpl.
  rewrite take_ge by lia. destruct (Z.ltb_spec reserve (ReadableBytes b)).
  - unfold store. rewrite decide_False; [done|]. rewrite length_replicate. lia.
  - rewrite store_ok by (rewrite length_replicate; lia). simpl.
    eexists; split; [done|]. unfold rb_inv, buffer_size, contents at 1. simpl.
    rewrite length_app, length_drop, length_replicate. split; [lia|]. split; [|lia].
    unfold contents at 1. simpl. rewrite Z.sub_0_r, drop_0, take_app_le by lia.
    apply take_ge. lia.
Qed.

(** ** Witnesses *)

Definition bytes_of (l : list Z) : list byte := Z_to_byte <$> l.

Definition ops_example : list buffer_op :=
  [OpAppend (bytes_of [1; 2; 3; 4; 5]); OpRetrieve 3; OpReadFd (bytes_of [6; 7; 8; 9; 10; 11]);
   OpRetrieve 2; OpAppend (bytes_of [12])].

Lemma buffer_refines_queue_witness :
  ∃ b, foldM step ops_example (new_RingBuffer 8) = Ok b ∧ rb_inv b ∧
    contents b = bytes_of [6; 7; 8; 9; 10; 11; 12].
Proof.
  apply (buffer_refines_queue ops_example 8 (bytes_of [6; 7; 8; 9; 10; 11; 12])).
  - lia.
  - vm_compute. reflexivity.
  - repeat constructor; vm_compute; discriminate.
  - vm_compute. reflexivity.
Defined.

Lemma ReadFd_appends_witness :
  ∃ b', ReadFd (readv_of (bytes_of [7; 8; 9])) (new_RingBuffer 2) = Ok (3, 0, b') ∧
    rb_inv b' ∧ contents b' = bytes_of [7; 8; 9].
Proof.
  apply (ReadFd_appends (new_RingBuffer 2) (readv_of (bytes_of [7; 8; 9])) (bytes_of [7; 8; 9])).
  - apply new_RingBuffer_inv. lia.
  - apply readv_of_bounded.
  - vm_compute. reflexivity.
  - vm_compute. reflexivity.
Defined.

Lemma Shrink_needs_room_witness :
  Shrink 0 (mkRingBuffer (bytes_of [1; 2; 3]) 0 2) = Fail UndefinedBehaviour.
Proof.
  apply (Shrink_needs_room (mkRingBuffer (bytes_of [1; 2; 3]) 0 2) 0).
  - unfold rb_inv, buffer_size. simpl. lia.
  - lia.
Defined.
