(* ===== verification/Protocol.v ===== *)
(** * Packets, the codec and the dispatchers
    (src/protocol/Packet.h, Codec.h, Codec.cpp, PacketDispatcher.cpp,
    src/business/MessageRouter.cpp)

    [OnMessage] is the loop that cuts the byte stream of a connection into
    packets. It is proved against a relation that describes the framing of a
    stream independently of how the stream arrives. *)
From S2P Require Import Prelude RingBuffer.

(** ** Packet.h *)

(** [struct PacketHeader], packed: [length], [cmd], [flag], [seq]. *)
Record PacketHeader : Type := mkHeader {
  h_length : Z;
  h_cmd : Z;
  h_flag : Z;
  h_seq : Z;
}.

Definition kHeaderLength : Z := 12.

Record Packet : Type := mkPacket {
  header : PacketHeader;
  body : list byte;
}.

#[export] Instance PacketHeader_eq_dec : EqDecision PacketHeader.
Proof. solve_decision. Defined.
#[export] Instance Packet_eq_dec : EqDecision Packet.
Proof. solve_decision. Defined.

Definition TotalLength (p : Packet) : Z := h_length (header p).

Definition Cmd (p : Packet) : Z := h_cmd (header p).

Definition IsValid (p : Packet) : bool := kHeaderLength <=? h_length (header p).

Inductive CmdType : Type :=
| kCmdLoginReq | kCmdLoginRsp | kCmdLogoutReq | kCmdLogoutRsp
| kCmdOrderInsertReq | kCmdOrderInsertRsp | kCmdOrderCancelReq | kCmdOrderCancelRsp
| kCmdSubscribeReq | kCmdSubscribeRsp | kCmdUnsubscribeReq | kCmdUnsubscribeRsp
| kCmdTickNotify | kCmdOrderNotify | kCmdTradeNotify
| kCmdHeartbeatReq | kCmdHeartbeatRsp.

#[export] Instance CmdType_eq_dec : EqDecision CmdType.
Proof. solve_decision. Defined.

Definition cmd_code (c : CmdType) : Z :=
  match c with
  | kCmdLoginReq => 0x0001
  | kCmdLoginRsp => 0x0002
  | kCmdLogoutReq => 0x0003
  | kCmdLogoutRsp => 0x0004
  | kCmdOrderInsertReq => 0x0101
  | kCmdOrderInsertRsp => 0x0102
  | kCmdOrderCancelReq => 0x0103
  | kCmdOrderCancelRsp => 0x0104
  | kCmdSubscribeReq => 0x0201
  | kCmdSubscribeRsp => 0x0202
  | kCmdUnsubscribeReq => 0x0203
  | kCmdUnsubscribeRsp => 0x0204
  | kCmdTickNotify => 0x0301
  | kCmdOrderNotify => 0x0302
  | kCmdTradeNotify => 0x0303
  | kCmdHeartbeatReq => 0xF001
  | kCmdHeartbeatRsp => 0xF002
  end.

(** the object representation of a packed header, on a little-endian host *)
Definition header_bytes (h : PacketHeader) : list byte :=
  le_bytes 4 (h_length h) ++ le_bytes 2 (h_cmd h) ++ le_bytes 2 (h_flag h) ++
  le_bytes 4 (h_seq h).

(** a header read through a pointer to its 12 bytes *)
Definition header_of (l : list byte) : PacketHeader :=
  mkHeader (le_value (take 4 l)) (le_value (take 2 (drop 4 l)))
    (le_value (take 2 (drop 6 l))) (le_value (take 4 (drop 8 l))).

Arguments header_of _ : simpl never.

Definition header_wf (h : PacketHeader) : Prop :=
  0 ≤ h_length h < 2 ^ 32 ∧ 0 ≤ h_cmd h < 2 ^ 16 ∧
  0 ≤ h_flag h < 2 ^ 16 ∧ 0 ≤ h_seq h < 2 ^ 32.

Lemma length_header_bytes h : length (header_bytes h) = 12%nat.
Proof. unfold header_bytes. by rewrite !length_app, !length_le_bytes. Qed.

Lemma header_of_bytes h l : header_wf h → header_of (header_bytes h ++ l) = h.
Proof.
  destruct h as [n c f s]. intros (? & ? & ? & ?). unfold header_of. f_equal.
  - change (le_value (le_bytes 4 n) = n). rewrite le_value_bytes. by apply Z.mod_small.
  - change (le_value (le_bytes 2 c) = c). rewrite le_value_bytes. by apply Z.mod_small.
  - change (le_value (le_bytes 2 f) = f). rewrite le_value_bytes. by apply Z.mod_small.
  - change (le_value (le_bytes 4 s) = s). rewrite le_value_bytes. by apply Z.mod_small.
Qed.

(** ** Codec.cpp *)

Definition max_packet : Z := 64 * 1024.

Section OnMessage.
(** The buffer is any byte queue, the rest of the process a state [W]:
    [messageCallback_], [conn->GetConnId()] and [conn->ForceClose()] act on
    it. *)
Context {B : Type} `{ByteQueue B} {W : Type}.
Context (messageCallback_ : option (Packet → Z → W → outcome W)).
Context (getConnId : W → Z) (forceClose : W → outcome W).

Definition call_message (p : Packet) (w : W) : outcome W :=
  match messageCallback_ with
  | Some cb => cb p (getConnId w) w
  | None => Ok w
  end.

(** [Codec::OnMessage]: each unit of fuel is one iteration of the loop. *)
Fixpoint OnMessage (fuel : nat) (buf : B) (w : W) : outcome (B * W) :=
  match fuel with
  | O => Fail OutOfFuel
  | S fuel =>
      if kHeaderLength <=? bq_readable buf then
        hd ← bq_peek kHeaderLength buf;
        let h := header_of hd in
        let len := h_length h in
        if max_packet <? len then
          w' ← forceClose w; Ok (buf, w')
        else if len <=? bq_readable buf then
          bd ← (if kHeaderLength <? len
                then whole ← bq_peek len buf; Ok (drop (Z.to_nat kHeaderLength) whole)
                else Ok []);
          buf' ← bq_retrieve len buf;
          w' ← call_message (mkPacket h bd) w;
          OnMessage fuel buf' w'
        else Ok (buf, w)
      else Ok (buf, w)
  end.

(** the callback run on each packet in turn *)
Definition deliver (ps : list Packet) (w : W) : outcome W := foldM call_message ps w.
End OnMessage.

(** [Codec::SendPacket]; [send] is [conn->Send(RingBuffer* )]. *)
Definition SendPacket {W} (send : RingBuffer → W → outcome W) (p : Packet) (w : W) : outcome W :=
  _ ← assert_ (kHeaderLength <=? TotalLength p);
  let buf := new_RingBuffer 1024 in
  buf ← Append (header_bytes (header p)) buf;
  buf ← (if bool_decide (body p ≠ []) then Append (body p) buf else Ok buf);
  send buf w.

(** [Codec::Encode]; [data] is the array of [len] bytes. *)
Definition Encode (cmd seq : Z) (data : list byte) : Packet :=
  let len := Z.of_nat (length data) in
  mkPacket (mkHeader (u32 (kHeaderLength + u32 len)) cmd 0 seq) data.

(** ** PacketDispatcher.cpp and MessageRouter.cpp *)

Section dispatch.
Context {W : Type}.

(** [std::function<void(const Packet&, int64_t)>] *)
Definition PacketHandler : Type := Packet → Z → W → outcome W.

(** [std::map<uint16_t, PacketHandler>] *)
Definition PacketDispatcher : Type := gmap Z PacketHandler.

Definition RegisterHandler (cmd : Z) (handler : PacketHandler)
    (handlers_ : gmap Z PacketHandler) : gmap Z PacketHandler :=
  <[cmd := handler]> handlers_.

Definition Dispatch (handlers_ : gmap Z PacketHandler) (p : Packet) (connId : Z) (w : W) :
    outcome W :=
  match handlers_ !! Cmd p with
  | Some handler => handler p connId w
  | None => Ok w (* LOG_WARN *)
  end.

Definition RegisterRoute (cmd : Z) (handler : PacketHandler)
    (routes_ : gmap Z PacketHandler) : gmap Z PacketHandler :=
  <[cmd := handler]> routes_.

Definition Route (routes_ : gmap Z PacketHandler) (p : Packet) (connId : Z) (w : W) :
    outcome W :=
  match routes_ !! Cmd p with
  | Some handler => handler p connId w
  | None => Ok w (* LOG_WARN *)
  end.
End dispatch.
Arguments PacketHandler W : clear implicits.
Arguments PacketDispatcher W : clear implicits.

(** ** The framing of a stream *)

Inductive frame : Type :=
| NeedMore                            (* no complete packet yet *)
| TooLong                             (* the length field exceeds 64 KiB *)
| Frame (p : Packet) (rest : list byte).

(** the first packet of a stream *)
Definition next_frame (s : list byte) : frame :=
  if bool_decide (Z.of_nat (length s) < kHeaderLength) then NeedMore
  else
    let h := header_of (take 12 s) in
    if max_packet <? h_length h then TooLong
    else if h_length h <=? Z.of_nat (length s)
    then Frame (mkPacket h (drop 12 (take (Z.to_nat (h_length h)) s)))
           (drop (Z.to_nat (h_length h)) s)
    else NeedMore.

(** [decodes s ps rest c]: the stream [s] is the packets [ps] followed by
    [rest], which starts an oversized packet if [c] and an incomplete one
    otherwise. A length field of zero has no derivation: the stream never
    advances. *)
Inductive decodes : list byte → list Packet → list byte → bool → Prop :=
| decodes_more s : next_frame s = NeedMore → decodes s [] s false
| decodes_long s : next_frame s = TooLong → decodes s [] s true
| decodes_frame s p s' ps rest c :
    next_frame s = Frame p s' → decodes s' ps rest c → decodes s (p :: ps) rest c.

Section framing.
Implicit Types (s t rest : list byte) (ps : list Packet).

Lemma next_frame_app s t p s' :
  next_frame s = Frame p s' → next_frame (s ++ t) = Frame p (s' ++ t).
Proof.
  unfold next_frame, kHeaderLength. repeat case_bool_decide; try done.
  - rewrite length_app in *. lia.
  - rewrite take_app_le by lia. destruct (max_packet <? _) eqn:E; [done|].
    destruct (Z.leb_spec (h_length (header_of (take 12 s))) (Z.of_nat (length s)));
      [|done].
    intros [= <- <-]. rewrite (proj2 (Z.leb_le _ _)) by (rewrite length_app; lia).
    rewrite take_app_le, drop_app_le by lia. done.
Qed.

Lemma next_frame_long_app s t : next_frame s = TooLong → next_frame (s ++ t) = TooLong.
Proof.
  unfold next_frame, kHeaderLength. repeat case_bool_decide; try done.
  - rewrite length_app in *. lia.
  - rewrite take_app_le by lia. destruct (max_packet <? _) eqn:E; [done|].
    by destruct (_ <=? _).
Qed.

Lemma decodes_app s t ps1 r ps2 r2 c :
  decodes s ps1 r false → decodes (r ++ t) ps2 r2 c → decodes (s ++ t) (ps1 ++ ps2) r2 c.
Proof.
  intros H. remember false as f eqn:Ef.
  induction H as [s E|s E|s p s' ps rest f E H IH]; intros Ht; [done|done|].
  simpl. econstructor; [by apply next_frame_app|auto].
Qed.

Lemma decodes_prefix s t ps r :
  decodes (s ++ t) ps r false →
  ∃ ps1 ps2 r1, decodes s ps1 r1 false ∧ decodes (r1 ++ t) ps2 r false ∧ ps = ps1 ++ ps2.
Proof.
  intros H. remember (s ++ t) as st eqn:Es. remember false as f eqn:Ef.
  revert s Es. induction H as [st E|st E|st p st' ps rest f E H IH]; intros s ->; [|done|].
  all: destruct (next_frame s) as [| |p1 s1] eqn:E1.
  all: try (rewrite (next_frame_long_app _ t E1) in E; discriminate E).
  - exists [], [], s. eauto using decodes.
  - rewrite (next_frame_app _ _ _ _ E1) in E. discriminate E.
  - subst f. exists [], (p :: ps), s. eauto using decodes.
  - rewrite (next_frame_app _ _ _ _ E1) in E. injection E as <- <-.
    destruct (IH Ef s1 eq_refl) as (ps1 & ps2 & r1 & ? & ? & ->).
    exists (p1 :: ps1), ps2, r1. eauto using decodes.
Qed.

Lemma decodes_suffix s ps rest c : decodes s ps rest c → (length rest ≤ length s)%nat.
Proof.
  induction 1 as [s E|s E|s p s' ps rest c E H IH]; [done..|].
  enough (length s' ≤ length s)%nat by lia. revert E. unfold next_frame.
  case_bool_decide; [done|]. destruct (_ <? _); [done|]. destruct (_ <=? _); [|done].
  intros [= _ <-]. rewrite length_drop. lia.
Qed.

(** the encoding of a packet on the wire *)
Definition wire (p : Packet) : list byte := header_bytes (header p) ++ body p.

(** what [Encode] produces for a body within the codec's limit *)
Definition packet_wf (p : Packet) : Prop :=
  header_wf (header p) ∧ h_length (header p) = kHeaderLength + Z.of_nat (length (body p)) ∧
  h_length (header p) ≤ max_packet.

Lemma next_frame_wire p t : packet_wf p → next_frame (wire p ++ t) = Frame p t.
Proof.
  intros (Hh & Hl & Hm). unfold next_frame, wire, kHeaderLength in *.
  rewrite bool_decide_false by (rewrite !length_app, length_header_bytes; lia).
  rewrite <- app_assoc, take_app_le by (rewrite length_header_bytes; lia).
  rewrite take_ge by (rewrite length_header_bytes; lia).
  assert (header_of (header_bytes (header p)) = header p) as ->.
  { rewrite <- (app_nil_r (header_bytes _)). by apply header_of_bytes. }
  rewrite (proj2 (Z.ltb_ge _ _)) by done.
  rewrite (proj2 (Z.leb_le _ _)) by (rewrite !length_app, length_header_bytes; lia).
  rewrite app_assoc.
  rewrite (take_app_length' _ t), (drop_app_length' _ t)
    by (rewrite length_app, length_header_bytes; lia).
  rewrite drop_app_length' by (by rewrite length_header_bytes).
  by destruct p.
Qed.

Lemma decodes_wires ps t :
  Forall packet_wf ps → (length t < 12)%nat →
  decodes (concat (wire <$> ps) ++ t) ps t false.
Proof.
  intros H Ht. induction H as [|p ps Hp H IH]; simpl.
  - constructor. unfold next_frame, kHeaderLength. by rewrite bool_decide_true by lia.
  - rewrite <- app_assoc. econstructor; [by apply next_frame_wire|done].
Qed.

Lemma Encode_wf cmd seq data :
  0 ≤ cmd < 2 ^ 16 → 0 ≤ seq < 2 ^ 32 →
  kHeaderLength + Z.of_nat (length data) ≤ max_packet → packet_wf (Encode cmd seq data).
Proof.
  unfold packet_wf, header_wf, Encode, kHeaderLength, max_packet. simpl. intros.
  rewrite (u32_small (Z.of_nat _)), u32_small by lia. split_and!; lia.
Qed.
End framing.

(** ** The codec implements the framing *)

Section OnMessage_facts.
Context {B : Type} `{ByteQueueLaws B} {W : Type}.
Context (cb : option (Packet → Z → W → outcome W)).
Context (getConnId : W → Z) (forceClose : W → outcome W).

Local Abbreviation run := (OnMessage (B:=B) cb getConnId forceClose).
Local Abbreviation deliver := (deliver cb getConnId).

Lemma peek_contents n (buf : B) :
  bq_valid buf → 0 ≤ n ≤ Z.of_nat (length (bq_contents buf)) →
  bq_peek n buf = Ok (take (Z.to_nat n) (bq_contents buf)).
Proof. intros ??. by rewrite bq_peek_spec by (by rewrite ?bq_readable_spec). Qed.

Lemma OnMessage_iter fuel buf w :
  bq_valid buf →
  run (S fuel) buf w =
    match next_frame (bq_contents buf) with
    | NeedMore => Ok (buf, w)
    | TooLong => w' ← forceClose w; Ok (buf, w')
    | Frame p _ =>
        buf' ← bq_retrieve (h_length (header p)) buf;
        w' ← call_message cb getConnId p w;
        run fuel buf' w'
    end.
Proof.
  intros Hv. cbn [OnMessage]. unfold next_frame.
  rewrite bq_readable_spec by done.
  destruct (Z.leb_spec kHeaderLength (Z.of_nat (length (bq_contents buf)))) as [Hge|Hlt];
    [rewrite bool_decide_false by lia|rewrite bool_decide_true by lia; done].
  rewrite peek_contents by (done || unfold kHeaderLength in *; lia).
  change (Z.to_nat kHeaderLength) with 12%nat. rewrite bind_ok. cbv zeta.
  set (h := header_of (take 12 (bq_contents buf))).
  destruct (max_packet <? h_length h); [done|].
  destruct (Z.leb_spec (h_length h) (Z.of_nat (length (bq_contents buf)))) as [Hl|]; [|done].
  destruct (Z.ltb_spec kHeaderLength (h_length h)) as [Hbig|Hsmall].
  - by rewrite peek_contents by (done || unfold kHeaderLength in *; lia).
  - rewrite drop_ge; [done|]. rewrite length_take. unfold kHeaderLength in *. lia.
Qed.

Lemma next_frame_retrieve (buf : B) p s' :
  bq_valid buf → next_frame (bq_contents buf) = Frame p s' →
  ∃ buf', bq_retrieve (h_length (header p)) buf = Ok buf' ∧ bq_valid buf' ∧
    bq_contents buf' = s' ∧ bq_size buf' = bq_size buf.
Proof.
  intros Hv E. unfold next_frame in E. case_bool_decide; [done|].
  destruct (_ <? _); [done|].
  destruct (Z.leb_spec (h_length (header_of (take 12 (bq_contents buf))))
    (Z.of_nat (length (bq_contents buf)))); [|done].
  injection E as <- <-. simpl.
  destruct (bq_retrieve_spec (h_length (header_of (take 12 (bq_contents buf)))) buf)
    as (buf' & ? & ? & ? & ?); [done| |by exists buf'].
  rewrite bq_readable_spec by done. split; [apply le_value_range|done].
Qed.

Lemma OnMessage_decodes s ps rest c :
  decodes s ps rest c → ∀ buf, bq_valid buf → bq_contents buf = s →
  ∃ buf', bq_valid buf' ∧ bq_contents buf' = rest ∧ bq_size buf' = bq_size buf ∧
    ∀ fuel w, (length ps < fuel)%nat →
      run fuel buf w =
        (w1 ← deliver ps w; w2 ← (if c then forceClose w1 else Ok w1); Ok (buf', w2)).
Proof.
  induction 1 as [s E|s E|s p s' ps rest c E _ IH]; intros buf Hv Hs; subst s.
  - exists buf. split_and!; [done..|]. intros [|fuel] w Hf; [lia|].
    by rewrite OnMessage_iter, E.
  - exists buf. split_and!; [done..|]. intros [|fuel] w Hf; [lia|].
    by rewrite OnMessage_iter, E.
  - destruct (next_frame_retrieve buf p s' Hv E) as (buf1 & Er & Hv1 & Hc1 & Hs1).
    destruct (IH buf1 Hv1 Hc1) as (buf' & Hv' & Hc' & Hs' & Hrun).
    exists buf'. split_and!; [done..|congruence|]. intros [|fuel] w Hf; simpl in Hf; [lia|].
    rewrite OnMessage_iter, E, Er by done. simpl. unfold Protocol.deliver. simpl.
    destruct (call_message cb getConnId p w) as [w'|]; [|done]. simpl.
    apply Hrun. lia.
Qed.

(** a length field of zero: the iteration consumes nothing *)
Lemma next_frame_zero s p s' :
  next_frame s = Frame p s' → h_length (header p) = 0 → s' = s.
Proof.
  unfold next_frame. case_bool_decide; [done|]. destruct (_ <? _); [done|].
  destruct (_ <=? _); [|done]. intros [= <- <-]. simpl. by intros ->.
Qed.

Lemma OnMessage_zero fuel p s' :
  next_frame s' = Frame p s' → h_length (header p) = 0 →
  (∀ w, returns (call_message cb getConnId p w)) →
  ∀ (buf : B) w, bq_valid buf → bq_contents buf = s' → run fuel buf w = Fail OutOfFuel.
Proof.
  intros E Hz Hcb. induction fuel as [|fuel IH]; intros buf w Hv Hs; [done|].
  rewrite OnMessage_iter, Hs, E by done.
  destruct (next_frame_retrieve buf p s') as (buf1 & Er & Hv1 & Hc1 & _); [done|by rewrite Hs|].
  rewrite Er. simpl. destruct (Hcb w) as [w' ->]. simpl. auto.
Qed.
End OnMessage_facts.

(** ** The codec and the dispatcher frame by frame

    What the callbacks of the codec do to the state, the codec does. *)

Section frames.
Context {W : Type} (R : relation W) `{!PreOrder R}.

Lemma preserves_codec {B} `{ByteQueue B} (cb : Packet → Z → W → outcome W) getConnId forceClose
    fuel (buf buf' : B) w w' :
  (∀ p, preserves R (action (λ w, cb p (getConnId w) w))) → preserves R (action forceClose) →
  OnMessage (Some cb) getConnId forceClose fuel buf w = Ok (buf', w') → R w w'.
Proof.
  intros Hcb Hcl. revert buf w. induction fuel as [|fuel IH]; intros buf w E; [done|].
  cbn [OnMessage] in E. case_match; [|by injection E as _ <-].
  inv_bind E as hd Ehd. case_match.
  - inv_bind E as w1 Ew1. injection E as _ <-. eapply Hcl. unfold action. by rewrite Ew1.
  - case_match; [|by injection E as _ <-]. inv_bind E as bd Ebd. inv_bind E as b1 Eb1.
    inv_bind E as w1 Ew1. etrans; [|by eapply IH]. eapply (Hcb _). unfold action.
    unfold call_message in Ew1. by rewrite Ew1.
Qed.
Lemma preserves_Dispatch (d : PacketDispatcher W) p id :
  (∀ cmd h p id, d !! cmd = Some h → preserves R (action (h p id))) →
  preserves R (action (Dispatch d p id)).
Proof.
  intros Hd w u w'. unfold action at 1, Dispatch.
  match goal with |- context [match ?x with Some handler => _ | None => Ok w end] =>
    destruct x as [h|] eqn:E end; [|by intros [= _ <-]].
  by apply (Hd _ h p id E w u w').
Qed.
End frames.

(** the codec on the buffer of a connection *)
Lemma codec_run {W} cb getConnId forceClose (buf : RingBuffer) ps rest c :
  rb_inv buf → decodes (contents buf) ps rest c →
  ∃ buf', rb_inv buf' ∧ contents buf' = rest ∧ buffer_size buf' = buffer_size buf ∧
    ∀ fuel (w : W), (length ps < fuel)%nat →
      OnMessage cb getConnId forceClose fuel buf w =
        (w1 ← deliver cb getConnId ps w;
         w2 ← (if c then forceClose w1 else Ok w1); Ok (buf', w2)).
Proof.
  intros Hi Hd.
  exact (OnMessage_decodes (H:=RingBuffer_queue) cb getConnId forceClose _ _ _ _ Hd buf Hi eq_refl).
Qed.

(** every packet that starts in the stream has a length field of at least one *)
Inductive advancing : list byte → Prop :=
| advancing_stop s : next_frame s = NeedMore ∨ next_frame s = TooLong → advancing s
| advancing_frame s p s' :
    next_frame s = Frame p s' → 0 < h_length (header p) → advancing s' → advancing s.

Lemma next_frame_shorter s p s' :
  next_frame s = Frame p s' → 0 < h_length (header p) → (length s' < length s)%nat.
Proof.
  unfold next_frame, kHeaderLength. case_bool_decide; [done|]. cbv zeta.
  generalize (header_of (take 12 s)). intros h. destruct (_ <? _); [done|].
  destruct (Z.leb_spec (h_length h) (Z.of_nat (length s))); [|done].
  intros [= <- <-]. simpl. rewrite length_drop. lia.
Qed.

Lemma advancing_decodes s :
  advancing s → ∃ ps rest c, decodes s ps rest c ∧ (length ps ≤ length s)%nat.
Proof.
  induction 1 as [s [E|E]|s p s' E Hp _ (ps & rest & c & Hd & Hl)].
  - exists [], s, false. split; [by constructor|simpl; lia].
  - exists [], s, true. split; [by constructor|simpl; lia].
  - exists (p :: ps), rest, c. split; [by econstructor|].
    pose proof (next_frame_shorter _ _ _ E Hp). simpl. lia.
Qed.

(** ** Feeding a connection *)

Section feeding.
Context {W : Type} (cb : option (Packet → Z → W → outcome W)).
Context (getConnId : W → Z) (forceClose : W → outcome W).

(** one readable event: [ReadFd] brings [chunk], then the codec runs *)
Definition feed (fuel : nat) (chunk : list byte) (s : RingBuffer * W) : outcome (RingBuffer * W) :=
  r ← ReadFd (readv_of chunk) s.1;
  OnMessage cb getConnId forceClose fuel r.2 s.2.

Lemma decodes_rest s ps rest : decodes s ps rest false → next_frame rest = NeedMore.
Proof. intros H. remember false as c. by induction H; simplify_eq; auto. Qed.

Lemma decodes_more_inv s ps rest c :
  next_frame s = NeedMore → decodes s ps rest c → ps = [] ∧ rest = s.
Proof. intros E H. inversion H; subst; auto; congruence. Qed.

Lemma feed_chunks fuel chunks ps rest w w' buf :
  rb_inv buf → next_frame (contents buf) = NeedMore →
  decodes (contents buf ++ concat chunks) ps rest false →
  Forall (λ c, Z.of_nat (length c) ≤ sizeof_extrabuf) chunks →
  buffer_size buf + Z.of_nat (length (concat chunks)) < 2 ^ 63 →
  (length ps < fuel)%nat → deliver cb getConnId ps w = Ok w' →
  ∃ buf', foldM (feed fuel) chunks (buf, w) = Ok (buf', w') ∧ rb_inv buf' ∧
    contents buf' = rest.
Proof.
  revert ps buf w. induction chunks as [|ch chunks IH];
    intros ps buf w Hi Hn Hd Hf Hs Hfuel Hdel.
  - simpl in Hd. rewrite app_nil_r in Hd. apply decodes_more_inv in Hd as [-> ->]; [|done].
    injection Hdel as <-. by exists buf.
  - apply Forall_cons in Hf as [Hch Hf]. simpl in Hd, Hs. rewrite app_assoc in Hd.
    rewrite length_app in Hs.
    apply decodes_prefix in Hd as (ps1 & ps2 & r1 & Hd1 & Hd2 & ->).
    rewrite length_app in Hfuel. unfold deliver in Hdel. rewrite foldM_app in Hdel.
    apply bind_ok_inv in Hdel as (w1 & Hdel1 & Hdel2).
    destruct (ReadFd_spec buf (readv_of ch) ch) as (b1 & Er & Hi1 & Hc1 & Hs1);
      [done|apply readv_of_bounded|by apply readv_of_fits|lia|].
    rewrite <- Hc1 in Hd1.
    destruct (codec_run cb getConnId forceClose b1 ps1 r1 false Hi1 Hd1)
      as (b2 & Hi2 & Hc2 & Hs2 & Hrun).
    simpl. unfold feed at 2. simpl. rewrite Er. simpl.
    rewrite Hrun by lia. unfold deliver. rewrite Hdel1. simpl.
    destruct (IH ps2 b2 w1) as (b' & ? & ? & ?); [done| |by rewrite Hc2|done|lia|lia|done|].
    { rewrite Hc2. by eapply decodes_rest. }
    by exists b'.
Qed.
End feeding.

(** ** Properties *)

(** whatever arrives, the codec hands over exactly the packets that the
    framing of the stream describes, in order, and leaves the rest in the
    buffer; an oversized length field makes it force-close the connection and
    stop. The callback and [ForceClose] act on any state [W] and may fail. *)
Theorem OnMessage_frames {W} cb getConnId forceClose (buf : RingBuffer) ps rest c :
  rb_inv buf → decodes (contents buf) ps rest c →
  ∃ buf', rb_inv buf' ∧ contents buf' = rest ∧
    ∀ fuel (w : W), (length ps < fuel)%nat →
      OnMessage cb getConnId forceClose fuel buf w =
        (w1 ← deliver cb getConnId ps w;
         w2 ← (if c then forceClose w1 else Ok w1); Ok (buf', w2)).
Proof.
  intros Hi Hd. destruct (codec_run cb getConnId forceClose buf ps rest c Hi Hd)
    as (buf' & ? & ? & _ & ?). by exists buf'.
Qed.

(** C27: the loop ends on every stream in which no packet announces length
    zero: one more iteration than there are buffered bytes suffices, provided
    the callback and [ForceClose] return. *)
Theorem OnMessage_terminates {W} cb getConnId forceClose (buf : RingBuffer) (w : W) fuel :
  rb_inv buf → advancing (contents buf) →
  (∀ p w, returns (call_message cb getConnId p w)) → (∀ w, returns (forceClose w)) →
  (length (contents buf) < fuel)%nat →
  returns (OnMessage cb getConnId forceClose fuel buf w).
Proof.
  intros Hi Ha Hcb Hfc Hfuel. destruct (advancing_decodes _ Ha) as (ps & rest & c & Hd & Hl).
  destruct (codec_run cb getConnId forceClose buf ps rest c Hi Hd)
    as (buf' & _ & _ & _ & Hrun). rewrite Hrun by lia.
  assert (∀ w, returns (deliver cb getConnId ps w)) as Hdel.
  { clear -Hcb. unfold deliver. induction ps as [|p ps IH]; intros w; [by exists w|]. simpl.
    destruct (Hcb p w) as [w' ->]. apply IH. }
  destruct (Hdel w) as [w1 ->]. simpl.
  destruct c; [destruct (Hfc w1) as [w2 ->]|]; by eexists.
Qed.

(** C32: a packet whose length field is zero is never consumed: [OnMessage] keeps
    calling the callback on it and does not return, whatever the number of
    iterations. Twelve zero bytes from a client stop the I/O thread. *)
Theorem OnMessage_zero_length_diverges {W} cb getConnId forceClose (buf : RingBuffer) (w : W) p s' :
  rb_inv buf → next_frame (contents buf) = Frame p s' → h_length (header p) = 0 →
  (∀ w, returns (call_message cb getConnId p w)) →
  ∀ fuel, OnMessage cb getConnId forceClose fuel buf w = Fail OutOfFuel.
Proof.
  intros Hi E Hz Hcb fuel. assert (s' = contents buf) as -> by (by eapply next_frame_zero).
  by eapply OnMessage_zero.
Qed.

(** C1: segmentation independence. However the kernel cuts the stream into
    reads of at most 64 KiB, the codec delivers the packets of the whole stream
    in order and keeps its incomplete tail. *)
Theorem stream_segmentation {W} cb getConnId forceClose n chunks ps rest (w w' : W) fuel :
  0 ≤ n → n + Z.of_nat (length (concat chunks)) < 2 ^ 63 →
  Forall (λ c, Z.of_nat (length c) ≤ sizeof_extrabuf) chunks →
  decodes (concat chunks) ps rest false → (length ps < fuel)%nat →
  deliver cb getConnId ps w = Ok w' →
  ∃ buf, foldM (feed cb getConnId forceClose fuel) chunks (new_RingBuffer n, w) = Ok (buf, w') ∧
    contents buf = rest.
Proof.
  intros Hn Hmax Hf Hd Hfuel Hdel.
  destruct (feed_chunks cb getConnId forceClose fuel chunks ps rest w w' (new_RingBuffer n))
    as (buf & ? & _ & ?); [apply new_RingBuffer_inv; lia|done|done|done| |done|done|by exists buf].
  unfold buffer_size. simpl. rewrite length_replicate. lia.
Qed.


(** After any sequence of registrations, a packet is dispatched to the
    handler registered last for its command and, when there is none, dropped
    without effect. *)
Theorem dispatch_last_registered {W} (regs : list (Z * PacketHandler W)) p connId w :
  let handlers := foldl (λ m r, RegisterHandler r.1 r.2 m) (∅ : gmap Z (PacketHandler W)) regs in
  Dispatch handlers p connId w =
    match last (filter (λ r, r.1 = Cmd p) regs) with
    | Some r => r.2 p connId w
    | None => Ok w
    end.
Proof.
  intros handlers. subst handlers. unfold Dispatch.
  assert (∀ regs, foldl (λ m r, RegisterHandler r.1 r.2 m) (∅ : gmap Z (PacketHandler W)) regs
    !! Cmd p = snd <$> last (filter (λ r, r.1 = Cmd p) regs)) as ->.
  { clear. intros regs. induction regs as [|r regs IH] using rev_ind; [done|].
    rewrite foldl_app, filter_app. simpl. unfold RegisterHandler at 1.
    destruct (decide (r.1 = Cmd p)) as [E|E].
    - rewrite E, lookup_insert_eq, filter_cons_True by done. by rewrite filter_nil, last_snoc.
    - rewrite lookup_insert_ne, filter_cons_False by done. by rewrite filter_nil, app_nil_r. }
  by destruct (last _) as [[]|].
Qed.

(** ** Witnesses *)

(** a state that records what the codec does *)
Record log : Type := mkLog { delivered : list (Packet * Z); closed : bool }.

Definition log_cb : option (Packet → Z → log → outcome log) :=
  Some (λ p id w, Ok (mkLog (delivered w ++ [(p, id)]) (closed w))).
Definition log_close (w : log) : outcome log := Ok (mkLog (delivered w) true).

Definition two_packets : list Packet := [Encode 1 7 (bytes_of [65; 66]); Encode 0xF001 8 []].

Definition buffer_with (l : list byte) : RingBuffer :=
  mkRingBuffer l 0 (Z.of_nat (length l)).

Lemma buffer_with_inv l : Z.of_nat (length l) < 2 ^ 63 → rb_inv (buffer_with l).
Proof. unfold rb_inv, buffer_size. simpl. lia. Qed.

Lemma two_packets_decode :
  decodes (concat (wire <$> two_packets) ++ bytes_of [3]) two_packets (bytes_of [3]) false.
Proof.
  apply decodes_wires; [|vm_compute; lia].
  repeat (apply Forall_cons; split; [apply Encode_wf; (lia || by vm_compute)|]). constructor.
Qed.

Lemma OnMessage_frames_witness :
  ∃ buf', rb_inv buf' ∧ contents buf' = bytes_of [3] ∧
    ∀ fuel w, (2 < fuel)%nat →
      OnMessage log_cb (λ _, 5) log_close fuel
        (buffer_with (concat (wire <$> two_packets) ++ bytes_of [3])) w =
      (w1 ← deliver log_cb (λ _, 5) two_packets w; w2 ← Ok w1; Ok (buf', w2)).
Proof.
  apply (OnMessage_frames log_cb (λ _, 5) log_close
    (buffer_with (concat (wire <$> two_packets) ++ bytes_of [3])) two_packets (bytes_of [3]) false).
  - apply buffer_with_inv. by vm_compute.
  - replace (contents _) with (concat (wire <$> two_packets) ++ bytes_of [3])
      by (vm_compute; reflexivity).
    apply two_packets_decode.
Defined.

Lemma OnMessage_terminates_witness :
  returns (OnMessage log_cb (λ _, 5) log_close 40 (buffer_with (wire (Encode 1 7 [])))
    (mkLog [] false)).
Proof.
  apply (OnMessage_terminates log_cb (λ _, 5) log_close).
  - apply buffer_with_inv. by vm_compute.
  - eapply advancing_frame; [vm_compute; reflexivity|by vm_compute|].
    apply advancing_stop. left. vm_compute. reflexivity.
  - intros p w. by eexists.
  - intros w. by eexists.
  - vm_compute. lia.
Defined.

Lemma OnMessage_zero_length_diverges_witness :
  contents (buffer_with (replicate 12 Byte.x00)) = replicate 12 Byte.x00 ∧
  ∀ fuel, OnMessage log_cb (λ _, 5) log_close fuel (buffer_with (replicate 12 Byte.x00))
    (mkLog [] false) = Fail OutOfFuel.
Proof.
  split; [reflexivity|]. apply (OnMessage_zero_length_diverges log_cb (λ _, 5) log_close
    (buffer_with (replicate 12 Byte.x00)) (mkLog [] false)
    (mkPacket (mkHeader 0 0 0 0) []) (replicate 12 Byte.x00)).
  - apply buffer_with_inv. by vm_compute.
  - vm_compute. reflexivity.
  - reflexivity.
  - intros w. by eexists.
Defined.

Lemma stream_segmentation_witness :
  ∃ buf, foldM (feed log_cb (λ _, 5) log_close 3)
      ((λ b, [b]) <$> (concat (wire <$> two_packets) ++ bytes_of [3]))
      (new_RingBuffer 16, mkLog [] false) =
    Ok (buf, mkLog [(Encode 1 7 (bytes_of [65; 66]), 5); (Encode 0xF001 8 [], 5)] false) ∧
    contents buf = bytes_of [3].
Proof.
  apply (stream_segmentation log_cb (λ _, 5) log_close 16
    ((λ b, [b]) <$> (concat (wire <$> two_packets) ++ bytes_of [3])) two_packets).
  - lia.
  - vm_compute. reflexivity.
  - repeat constructor; vm_compute; discriminate.
  - replace (concat _) with (concat (wire <$> two_packets) ++ bytes_of [3])
      by (vm_compute; reflexivity).
    apply two_packets_decode.
  - vm_compute. lia.
  - vm_compute. reflexivity.
Defined.

