(* ===== verification/World.v ===== *)
(** * The state of an HPGateway process

    The objects of the reactor live in a store, addressed by pointers: event
    loops, channels and connections. A dangling pointer is an absent key, and
    using it is undefined behaviour. The operating system is a parameter: a
    state [K] with the system calls the source makes. *)
From S2P Require Import Prelude RingBuffer Protocol.

Abbreviation loc := nat.

(** ** The operating system *)

(** [struct sockaddr_in]: address and port, as the numbers they stand for
    ([htons] and [ntohs] cancel out). *)
Record sockaddr_in : Type := mkSockaddr { sin_addr : Z; sin_port : Z }.

Class Kernel (K : Type) : Type := {
  (** [epoll_ctl(epfd, op, fd, {events, ptr})] *)
  sys_epoll_ctl : Z → Z → Z → Z → loc → K → Z * K;
  (** [epoll_wait(epfd, _, maxevents, timeout)]: [errno] or the events *)
  sys_epoll_wait : Z → Z → Z → K → (Z + list (loc * Z)) * K;
  (** [write(fd, data, len)]: the result and [errno] *)
  sys_write : Z → list byte → K → Z * Z * K;
  sys_readv : Z → list Z → K → readv_result * K;
  (** [read(fd, &u64, 8)]: the result *)
  sys_read8 : Z → K → Z * K;
  (** [shutdown(fd, SHUT_WR)] *)
  sys_shutdown : Z → K → Z * K;
  (** [getsockopt(fd, SO_ERROR)]: result, [optval], [errno] *)
  sys_so_error : Z → K → Z * Z * Z * K;
  (** [accept4]: descriptor, [errno] and the peer's address *)
  sys_accept : Z → K → Z * Z * sockaddr_in * K;
  sys_listen : Z → K → Z * K;
  sys_close : Z → K → Z * K;
  (** [open("/dev/null")] *)
  sys_open_null : K → Z * K;
  (** [getsockname] and [getpeername]: [None] on an error *)
  sys_getsockname : Z → K → option sockaddr_in * K;
  sys_getpeername : Z → K → option sockaddr_in * K;
  (** [gettimeofday]: seconds and microseconds *)
  sys_now : K → Z * Z * K;
  sys_epoll_create : K → Z * K;
  sys_eventfd : K → Z * K;
  sys_timerfd_create : K → Z * K;
  (** [timerfd_settime(fd, 0, {sec, sec})] *)
  sys_timerfd_settime : Z → Z → K → Z * K;
  (** [socket(AF_INET, SOCK_STREAM | SOCK_NONBLOCK | SOCK_CLOEXEC)] *)
  sys_socket : K → Z * K;
  (** [std::thread]: the thread id of a new thread *)
  sys_thread : K → Z * K;
  sys_bind : Z → sockaddr_in → K → Z * K;
  (** [setsockopt(fd, level, name, on)] for a boolean option *)
  sys_setsockopt : Z → Z → Z → Z → K → Z * K;
  (** [fcntl(fd, cmd, arg)] *)
  sys_fcntl : Z → Z → Z → K → Z * K;
  (** [inet_ntop] and [inet_pton] for [AF_INET] *)
  inet_ntop : Z → string;
  inet_pton : string → option Z;
}.

(** ** Callbacks and functors

    [std::function] values are named by what they are bound to. *)

(** the callbacks registered with channels *)
Inductive callback : Type :=
| CbWakeup (loop : loc)           (* EventLoop::HandleRead *)
| CbAccept                        (* Acceptor::HandleRead *)
| CbHeartbeat                     (* GatewayServer::OnHeartbeat *)
| CbConnRead (c : loc)            (* TcpConnection::HandleRead *)
| CbConnWrite (c : loc)
| CbConnClose (c : loc)
| CbConnError (c : loc).

(** the functors queued in event loops *)
Inductive functor : Type :=
| FSendInLoop (c : loc) (message : list byte)
| FShutdownInLoop (c : loc)
| FForceCloseInLoop (c : loc)
| FConnectEstablished (c : loc)
| FConnectDestroyed (c : loc)
| FRemoveConnectionInLoop (c : loc)
| FWriteComplete (c : loc)
| FHighWaterMark (c : loc) (len : Z)
| FListen.                        (* Acceptor::Listen *)

#[export] Instance functor_eq_dec : EqDecision functor.
Proof. solve_decision. Defined.

(** the [TcpConnectionPtr] a functor has bound: the others bind a raw [this] *)
Definition functor_ref (f : functor) : option loc :=
  match f with
  | FForceCloseInLoop c | FConnectEstablished c | FConnectDestroyed c
  | FRemoveConnectionInLoop c | FWriteComplete c | FHighWaterMark c _ => Some c
  | FSendInLoop _ _ | FShutdownInLoop _ | FListen => None
  end.

(** ** Objects *)

(** [class Channel] *)
Record Channel : Type := mkChannel {
  ch_loop : loc;
  ch_fd : Z;
  ch_events : Z;
  ch_revents : Z;
  ch_index : Z;
  ch_eventHandling : bool;
  ch_addedToLoop : bool;
  ch_readCallback : option callback;
  ch_writeCallback : option callback;
  ch_closeCallback : option callback;
  ch_errorCallback : option callback;
}.

Definition set_ch_loop (v : loc) (x : Channel) : Channel := mkChannel v (ch_fd x) (ch_events x)
  (ch_revents x) (ch_index x) (ch_eventHandling x) (ch_addedToLoop x) (ch_readCallback x)
  (ch_writeCallback x) (ch_closeCallback x) (ch_errorCallback x).
Definition set_ch_fd (v : Z) (x : Channel) : Channel := mkChannel (ch_loop x) v (ch_events x)
  (ch_revents x) (ch_index x) (ch_eventHandling x) (ch_addedToLoop x) (ch_readCallback x)
  (ch_writeCallback x) (ch_closeCallback x) (ch_errorCallback x).
Definition set_ch_events (v : Z) (x : Channel) : Channel := mkChannel (ch_loop x) (ch_fd x) v
  (ch_revents x) (ch_index x) (ch_eventHandling x) (ch_addedToLoop x) (ch_readCallback x)
  (ch_writeCallback x) (ch_closeCallback x) (ch_errorCallback x).
Definition set_ch_revents (v : Z) (x : Channel) : Channel := mkChannel (ch_loop x) (ch_fd x)
  (ch_events x) v (ch_index x) (ch_eventHandling x) (ch_addedToLoop x) (ch_readCallback x)
  (ch_writeCallback x) (ch_closeCallback x) (ch_errorCallback x).
Definition set_ch_index (v : Z) (x : Channel) : Channel := mkChannel (ch_loop x) (ch_fd x)
  (ch_events x) (ch_revents x) v (ch_eventHandling x) (ch_addedToLoop x) (ch_readCallback x)
  (ch_writeCallback x) (ch_closeCallback x) (ch_errorCallback x).
Definition set_ch_eventHandling (v : bool) (x : Channel) : Channel := mkChannel (ch_loop x) (ch_fd
  x) (ch_events x) (ch_revents x) (ch_index x) v (ch_addedToLoop x) (ch_readCallback x)
  (ch_writeCallback x) (ch_closeCallback x) (ch_errorCallback x).
Definition set_ch_addedToLoop (v : bool) (x : Channel) : Channel := mkChannel (ch_loop x) (ch_fd x)
  (ch_events x) (ch_revents x) (ch_index x) (ch_eventHandling x) v (ch_readCallback x)
  (ch_writeCallback x) (ch_closeCallback x) (ch_errorCallback x).
Definition set_ch_readCallback (v : option callback) (x : Channel) : Channel := mkChannel (ch_loop
  x) (ch_fd x) (ch_events x) (ch_revents x) (ch_index x) (ch_eventHandling x) (ch_addedToLoop x) v
  (ch_writeCallback x) (ch_closeCallback x) (ch_errorCallback x).
Definition set_ch_writeCallback (v : option callback) (x : Channel) : Channel := mkChannel (ch_loop
  x) (ch_fd x) (ch_events x) (ch_revents x) (ch_index x) (ch_eventHandling x) (ch_addedToLoop x)
  (ch_readCallback x) v (ch_closeCallback x) (ch_errorCallback x).
Definition set_ch_closeCallback (v : option callback) (x : Channel) : Channel := mkChannel (ch_loop
  x) (ch_fd x) (ch_events x) (ch_revents x) (ch_index x) (ch_eventHandling x) (ch_addedToLoop x)
  (ch_readCallback x) (ch_writeCallback x) v (ch_errorCallback x).
Definition set_ch_errorCallback (v : option callback) (x : Channel) : Channel := mkChannel (ch_loop
  x) (ch_fd x) (ch_events x) (ch_revents x) (ch_index x) (ch_eventHandling x) (ch_addedToLoop x)
  (ch_readCallback x) (ch_writeCallback x) (ch_closeCallback x) v.

(** [class Poller] *)
Record Poller : Type := mkPoller {
  po_epollfd : Z;
  po_events_size : Z;               (* events_.size() *)
  po_channels : gmap Z loc;
}.

Definition set_po_epollfd (v : Z) (x : Poller) : Poller := mkPoller v (po_events_size x)
  (po_channels x).
Definition set_po_events_size (v : Z) (x : Poller) : Poller := mkPoller (po_epollfd x) v
  (po_channels x).
Definition set_po_channels (v : gmap Z loc) (x : Poller) : Poller := mkPoller (po_epollfd x)
  (po_events_size x) v.

(** [class EventLoop] *)
Record EventLoop : Type := mkEventLoop {
  el_looping : bool;
  el_quit : bool;
  el_eventHandling : bool;
  el_callingPendingFunctors : bool;
  el_iteration : Z;
  el_threadId : Z;
  el_pollReturnTime : Z;
  el_poller : Poller;
  el_wakeupFd : Z;
  el_wakeupChannel : loc;
  el_activeChannels : list loc;
  el_currentActiveChannel : option loc;
  el_pendingFunctors : list functor;
  el_running : list functor;        (* the local vector of DoPendingFunctors *)
}.

Definition set_el_looping (v : bool) (x : EventLoop) : EventLoop := mkEventLoop v (el_quit x)
  (el_eventHandling x) (el_callingPendingFunctors x) (el_iteration x) (el_threadId x)
  (el_pollReturnTime x) (el_poller x) (el_wakeupFd x) (el_wakeupChannel x) (el_activeChannels x)
  (el_currentActiveChannel x) (el_pendingFunctors x) (el_running x).
Definition set_el_quit (v : bool) (x : EventLoop) : EventLoop := mkEventLoop (el_looping x) v
  (el_eventHandling x) (el_callingPendingFunctors x) (el_iteration x) (el_threadId x)
  (el_pollReturnTime x) (el_poller x) (el_wakeupFd x) (el_wakeupChannel x) (el_activeChannels x)
  (el_currentActiveChannel x) (el_pendingFunctors x) (el_running x).
Definition set_el_eventHandling (v : bool) (x : EventLoop) : EventLoop := mkEventLoop (el_looping x)
  (el_quit x) v (el_callingPendingFunctors x) (el_iteration x) (el_threadId x) (el_pollReturnTime x)
  (el_poller x) (el_wakeupFd x) (el_wakeupChannel x) (el_activeChannels x) (el_currentActiveChannel
  x) (el_pendingFunctors x) (el_running x).
Definition set_el_callingPendingFunctors (v : bool) (x : EventLoop) : EventLoop := mkEventLoop
  (el_looping x) (el_quit x) (el_eventHandling x) v (el_iteration x) (el_threadId x)
  (el_pollReturnTime x) (el_poller x) (el_wakeupFd x) (el_wakeupChannel x) (el_activeChannels x)
  (el_currentActiveChannel x) (el_pendingFunctors x) (el_running x).
Definition set_el_iteration (v : Z) (x : EventLoop) : EventLoop := mkEventLoop (el_looping x)
  (el_quit x) (el_eventHandling x) (el_callingPendingFunctors x) v (el_threadId x)
  (el_pollReturnTime x) (el_poller x) (el_wakeupFd x) (el_wakeupChannel x) (el_activeChannels x)
  (el_currentActiveChannel x) (el_pendingFunctors x) (el_running x).
Definition set_el_threadId (v : Z) (x : EventLoop) : EventLoop := mkEventLoop (el_looping x)
  (el_quit x) (el_eventHandling x) (el_callingPendingFunctors x) (el_iteration x) v
  (el_pollReturnTime x) (el_poller x) (el_wakeupFd x) (el_wakeupChannel x) (el_activeChannels x)
  (el_currentActiveChannel x) (el_pendingFunctors x) (el_running x).
Definition set_el_pollReturnTime (v : Z) (x : EventLoop) : EventLoop := mkEventLoop (el_looping x)
  (el_quit x) (el_eventHandling x) (el_callingPendingFunctors x) (el_iteration x) (el_threadId x) v
  (el_poller x) (el_wakeupFd x) (el_wakeupChannel x) (el_activeChannels x) (el_currentActiveChannel
  x) (el_pendingFunctors x) (el_running x).
Definition set_el_poller (v : Poller) (x : EventLoop) : EventLoop := mkEventLoop (el_looping x)
  (el_quit x) (el_eventHandling x) (el_callingPendingFunctors x) (el_iteration x) (el_threadId x)
  (el_pollReturnTime x) v (el_wakeupFd x) (el_wakeupChannel x) (el_activeChannels x)
  (el_currentActiveChannel x) (el_pendingFunctors x) (el_running x).
Definition set_el_wakeupFd (v : Z) (x : EventLoop) : EventLoop := mkEventLoop (el_looping x)
  (el_quit x) (el_eventHandling x) (el_callingPendingFunctors x) (el_iteration x) (el_threadId x)
  (el_pollReturnTime x) (el_poller x) v (el_wakeupChannel x) (el_activeChannels x)
  (el_currentActiveChannel x) (el_pendingFunctors x) (el_running x).
Definition set_el_wakeupChannel (v : loc) (x : EventLoop) : EventLoop := mkEventLoop (el_looping x)
  (el_quit x) (el_eventHandling x) (el_callingPendingFunctors x) (el_iteration x) (el_threadId x)
  (el_pollReturnTime x) (el_poller x) (el_wakeupFd x) v (el_activeChannels x)
  (el_currentActiveChannel x) (el_pendingFunctors x) (el_running x).
Definition set_el_activeChannels (v : list loc) (x : EventLoop) : EventLoop := mkEventLoop
  (el_looping x) (el_quit x) (el_eventHandling x) (el_callingPendingFunctors x) (el_iteration x)
  (el_threadId x) (el_pollReturnTime x) (el_poller x) (el_wakeupFd x) (el_wakeupChannel x) v
  (el_currentActiveChannel x) (el_pendingFunctors x) (el_running x).
Definition set_el_currentActiveChannel (v : option loc) (x : EventLoop) : EventLoop := mkEventLoop
  (el_looping x) (el_quit x) (el_eventHandling x) (el_callingPendingFunctors x) (el_iteration x)
  (el_threadId x) (el_pollReturnTime x) (el_poller x) (el_wakeupFd x) (el_wakeupChannel x)
  (el_activeChannels x) v (el_pendingFunctors x) (el_running x).
Definition set_el_pendingFunctors (v : list functor) (x : EventLoop) : EventLoop := mkEventLoop
  (el_looping x) (el_quit x) (el_eventHandling x) (el_callingPendingFunctors x) (el_iteration x)
  (el_threadId x) (el_pollReturnTime x) (el_poller x) (el_wakeupFd x) (el_wakeupChannel x)
  (el_activeChannels x) (el_currentActiveChannel x) v (el_running x).
Definition set_el_running (v : list functor) (x : EventLoop) : EventLoop := mkEventLoop (el_looping
  x) (el_quit x) (el_eventHandling x) (el_callingPendingFunctors x) (el_iteration x) (el_threadId x)
  (el_pollReturnTime x) (el_poller x) (el_wakeupFd x) (el_wakeupChannel x) (el_activeChannels x)
  (el_currentActiveChannel x) (el_pendingFunctors x) v.

(** [TcpConnection::State] *)
Inductive conn_state : Type := kDisconnected | kConnecting | kConnected | kDisconnecting.

#[export] Instance conn_state_eq_dec : EqDecision conn_state.
Proof. solve_decision. Defined.

(** [class TcpConnection]. The connection, message and close callbacks are the
    server's for every connection, and are arguments of the operations. *)
Record TcpConnection : Type := mkTcpConnection {
  tc_loop : loc;
  tc_name : string;
  tc_state : conn_state;
  tc_reading : bool;
  tc_socket : Z;
  tc_channel : loc;
  tc_localAddr : sockaddr_in;
  tc_peerAddr : sockaddr_in;
  tc_writeCompleteCallback : bool;  (* set or empty *)
  tc_highWaterMarkCallback : bool;
  tc_highWaterMark : Z;
  tc_connId : Z;
  tc_inputBuffer : RingBuffer;
  tc_outputBuffer : RingBuffer;
}.

Definition set_tc_loop (v : loc) (x : TcpConnection) : TcpConnection := mkTcpConnection v (tc_name
  x) (tc_state x) (tc_reading x) (tc_socket x) (tc_channel x) (tc_localAddr x) (tc_peerAddr x)
  (tc_writeCompleteCallback x) (tc_highWaterMarkCallback x) (tc_highWaterMark x) (tc_connId x)
  (tc_inputBuffer x) (tc_outputBuffer x).
Definition set_tc_name (v : string) (x : TcpConnection) : TcpConnection := mkTcpConnection (tc_loop
  x) v (tc_state x) (tc_reading x) (tc_socket x) (tc_channel x) (tc_localAddr x) (tc_peerAddr x)
  (tc_writeCompleteCallback x) (tc_highWaterMarkCallback x) (tc_highWaterMark x) (tc_connId x)
  (tc_inputBuffer x) (tc_outputBuffer x).
Definition set_tc_state (v : conn_state) (x : TcpConnection) : TcpConnection := mkTcpConnection
  (tc_loop x) (tc_name x) v (tc_reading x) (tc_socket x) (tc_channel x) (tc_localAddr x)
  (tc_peerAddr x) (tc_writeCompleteCallback x) (tc_highWaterMarkCallback x) (tc_highWaterMark x)
  (tc_connId x) (tc_inputBuffer x) (tc_outputBuffer x).
Definition set_tc_reading (v : bool) (x : TcpConnection) : TcpConnection := mkTcpConnection (tc_loop
  x) (tc_name x) (tc_state x) v (tc_socket x) (tc_channel x) (tc_localAddr x) (tc_peerAddr x)
  (tc_writeCompleteCallback x) (tc_highWaterMarkCallback x) (tc_highWaterMark x) (tc_connId x)
  (tc_inputBuffer x) (tc_outputBuffer x).
Definition set_tc_socket (v : Z) (x : TcpConnection) : TcpConnection := mkTcpConnection (tc_loop x)
  (tc_name x) (tc_state x) (tc_reading x) v (tc_channel x) (tc_localAddr x) (tc_peerAddr x)
  (tc_writeCompleteCallback x) (tc_highWaterMarkCallback x) (tc_highWaterMark x) (tc_connId x)
  (tc_inputBuffer x) (tc_outputBuffer x).
Definition set_tc_channel (v : loc) (x : TcpConnection) : TcpConnection := mkTcpConnection (tc_loop
  x) (tc_name x) (tc_state x) (tc_reading x) (tc_socket x) v (tc_localAddr x) (tc_peerAddr x)
  (tc_writeCompleteCallback x) (tc_highWaterMarkCallback x) (tc_highWaterMark x) (tc_connId x)
  (tc_inputBuffer x) (tc_outputBuffer x).
Definition set_tc_localAddr (v : sockaddr_in) (x : TcpConnection) : TcpConnection := mkTcpConnection
  (tc_loop x) (tc_name x) (tc_state x) (tc_reading x) (tc_socket x) (tc_channel x) v (tc_peerAddr x)
  (tc_writeCompleteCallback x) (tc_highWaterMarkCallback x) (tc_highWaterMark x) (tc_connId x)
  (tc_inputBuffer x) (tc_outputBuffer x).
Definition set_tc_peerAddr (v : sockaddr_in) (x : TcpConnection) : TcpConnection := mkTcpConnection
  (tc_loop x) (tc_name x) (tc_state x) (tc_reading x) (tc_socket x) (tc_channel x) (tc_localAddr x)
  v (tc_writeCompleteCallback x) (tc_highWaterMarkCallback x) (tc_highWaterMark x) (tc_connId x)
  (tc_inputBuffer x) (tc_outputBuffer x).
Definition set_tc_writeCompleteCallback (v : bool) (x : TcpConnection) : TcpConnection :=
  mkTcpConnection (tc_loop x) (tc_name x) (tc_state x) (tc_reading x) (tc_socket x) (tc_channel x)
  (tc_localAddr x) (tc_peerAddr x) v (tc_highWaterMarkCallback x) (tc_highWaterMark x) (tc_connId x)
  (tc_inputBuffer x) (tc_outputBuffer x).
Definition set_tc_highWaterMarkCallback (v : bool) (x : TcpConnection) : TcpConnection :=
  mkTcpConnection (tc_loop x) (tc_name x) (tc_state x) (tc_reading x) (tc_socket x) (tc_channel x)
  (tc_localAddr x) (tc_peerAddr x) (tc_writeCompleteCallback x) v (tc_highWaterMark x) (tc_connId x)
  (tc_inputBuffer x) (tc_outputBuffer x).
Definition set_tc_highWaterMark (v : Z) (x : TcpConnection) : TcpConnection := mkTcpConnection
  (tc_loop x) (tc_name x) (tc_state x) (tc_reading x) (tc_socket x) (tc_channel x) (tc_localAddr x)
  (tc_peerAddr x) (tc_writeCompleteCallback x) (tc_highWaterMarkCallback x) v (tc_connId x)
  (tc_inputBuffer x) (tc_outputBuffer x).
Definition set_tc_connId (v : Z) (x : TcpConnection) : TcpConnection := mkTcpConnection (tc_loop x)
  (tc_name x) (tc_state x) (tc_reading x) (tc_socket x) (tc_channel x) (tc_localAddr x) (tc_peerAddr
  x) (tc_writeCompleteCallback x) (tc_highWaterMarkCallback x) (tc_highWaterMark x) v
  (tc_inputBuffer x) (tc_outputBuffer x).
Definition set_tc_inputBuffer (v : RingBuffer) (x : TcpConnection) : TcpConnection :=
  mkTcpConnection (tc_loop x) (tc_name x) (tc_state x) (tc_reading x) (tc_socket x) (tc_channel x)
  (tc_localAddr x) (tc_peerAddr x) (tc_writeCompleteCallback x) (tc_highWaterMarkCallback x)
  (tc_highWaterMark x) (tc_connId x) v (tc_outputBuffer x).
Definition set_tc_outputBuffer (v : RingBuffer) (x : TcpConnection) : TcpConnection :=
  mkTcpConnection (tc_loop x) (tc_name x) (tc_state x) (tc_reading x) (tc_socket x) (tc_channel x)
  (tc_localAddr x) (tc_peerAddr x) (tc_writeCompleteCallback x) (tc_highWaterMarkCallback x)
  (tc_highWaterMark x) (tc_connId x) (tc_inputBuffer x) v.

(** [class Acceptor] *)
Record Acceptor : Type := mkAcceptor {
  ac_loop : loc;
  ac_acceptSocket : Z;
  ac_acceptChannel : loc;
  ac_newConnectionCallback : bool;
  ac_listening : bool;
  ac_idleFd : Z;
}.

Definition set_ac_loop (v : loc) (x : Acceptor) : Acceptor := mkAcceptor v (ac_acceptSocket x)
  (ac_acceptChannel x) (ac_newConnectionCallback x) (ac_listening x) (ac_idleFd x).
Definition set_ac_acceptSocket (v : Z) (x : Acceptor) : Acceptor := mkAcceptor (ac_loop x) v
  (ac_acceptChannel x) (ac_newConnectionCallback x) (ac_listening x) (ac_idleFd x).
Definition set_ac_acceptChannel (v : loc) (x : Acceptor) : Acceptor := mkAcceptor (ac_loop x)
  (ac_acceptSocket x) v (ac_newConnectionCallback x) (ac_listening x) (ac_idleFd x).
Definition set_ac_newConnectionCallback (v : bool) (x : Acceptor) : Acceptor := mkAcceptor (ac_loop
  x) (ac_acceptSocket x) (ac_acceptChannel x) v (ac_listening x) (ac_idleFd x).
Definition set_ac_listening (v : bool) (x : Acceptor) : Acceptor := mkAcceptor (ac_loop x)
  (ac_acceptSocket x) (ac_acceptChannel x) (ac_newConnectionCallback x) v (ac_idleFd x).
Definition set_ac_idleFd (v : Z) (x : Acceptor) : Acceptor := mkAcceptor (ac_loop x)
  (ac_acceptSocket x) (ac_acceptChannel x) (ac_newConnectionCallback x) (ac_listening x) v.

(** [class EventLoopThread]: [et_joinable] is [thread_.joinable()] *)
Record EventLoopThread : Type := mkEventLoopThread {
  et_loop : option loc;
  et_exiting : bool;
  et_joinable : bool;
  et_name : string;
}.

Definition set_et_loop (v : option loc) (x : EventLoopThread) : EventLoopThread := mkEventLoopThread
  v (et_exiting x) (et_joinable x) (et_name x).
Definition set_et_exiting (v : bool) (x : EventLoopThread) : EventLoopThread := mkEventLoopThread
  (et_loop x) v (et_joinable x) (et_name x).
Definition set_et_joinable (v : bool) (x : EventLoopThread) : EventLoopThread := mkEventLoopThread
  (et_loop x) (et_exiting x) v (et_name x).
Definition set_et_name (v : string) (x : EventLoopThread) : EventLoopThread := mkEventLoopThread
  (et_loop x) (et_exiting x) (et_joinable x) v.

(** [class EventLoopThreadPool] *)
Record EventLoopThreadPool : Type := mkThreadPool {
  tp_baseLoop : loc;
  tp_name : string;
  tp_started : bool;
  tp_numThreads : Z;
  tp_next : Z;
  tp_threads : list EventLoopThread;
  tp_loops : list loc;
}.

Definition set_tp_baseLoop (v : loc) (x : EventLoopThreadPool) : EventLoopThreadPool := mkThreadPool
  v (tp_name x) (tp_started x) (tp_numThreads x) (tp_next x) (tp_threads x) (tp_loops x).
Definition set_tp_name (v : string) (x : EventLoopThreadPool) : EventLoopThreadPool := mkThreadPool
  (tp_baseLoop x) v (tp_started x) (tp_numThreads x) (tp_next x) (tp_threads x) (tp_loops x).
Definition set_tp_started (v : bool) (x : EventLoopThreadPool) : EventLoopThreadPool := mkThreadPool
  (tp_baseLoop x) (tp_name x) v (tp_numThreads x) (tp_next x) (tp_threads x) (tp_loops x).
Definition set_tp_numThreads (v : Z) (x : EventLoopThreadPool) : EventLoopThreadPool := mkThreadPool
  (tp_baseLoop x) (tp_name x) (tp_started x) v (tp_next x) (tp_threads x) (tp_loops x).
Definition set_tp_next (v : Z) (x : EventLoopThreadPool) : EventLoopThreadPool := mkThreadPool
  (tp_baseLoop x) (tp_name x) (tp_started x) (tp_numThreads x) v (tp_threads x) (tp_loops x).
Definition set_tp_threads (v : list EventLoopThread) (x : EventLoopThreadPool) : EventLoopThreadPool
  := mkThreadPool (tp_baseLoop x) (tp_name x) (tp_started x) (tp_numThreads x) (tp_next x) v
  (tp_loops x).
Definition set_tp_loops (v : list loc) (x : EventLoopThreadPool) : EventLoopThreadPool :=
  mkThreadPool (tp_baseLoop x) (tp_name x) (tp_started x) (tp_numThreads x) (tp_next x) (tp_threads
  x) v.

(** [class TcpServer] *)
Record TcpServer : Type := mkTcpServer {
  ts_loop : loc;
  ts_ipPort : string;
  ts_name : string;
  ts_acceptor : Acceptor;
  ts_threadPool : EventLoopThreadPool;
  ts_started : Z;
  ts_nextConnId : Z;
  ts_connections : gmap string loc;
}.

Definition set_ts_loop (v : loc) (x : TcpServer) : TcpServer := mkTcpServer v (ts_ipPort x) (ts_name
  x) (ts_acceptor x) (ts_threadPool x) (ts_started x) (ts_nextConnId x) (ts_connections x).
Definition set_ts_ipPort (v : string) (x : TcpServer) : TcpServer := mkTcpServer (ts_loop x) v
  (ts_name x) (ts_acceptor x) (ts_threadPool x) (ts_started x) (ts_nextConnId x) (ts_connections x).
Definition set_ts_name (v : string) (x : TcpServer) : TcpServer := mkTcpServer (ts_loop x)
  (ts_ipPort x) v (ts_acceptor x) (ts_threadPool x) (ts_started x) (ts_nextConnId x) (ts_connections
  x).
Definition set_ts_acceptor (v : Acceptor) (x : TcpServer) : TcpServer := mkTcpServer (ts_loop x)
  (ts_ipPort x) (ts_name x) v (ts_threadPool x) (ts_started x) (ts_nextConnId x) (ts_connections x).
Definition set_ts_threadPool (v : EventLoopThreadPool) (x : TcpServer) : TcpServer := mkTcpServer
  (ts_loop x) (ts_ipPort x) (ts_name x) (ts_acceptor x) v (ts_started x) (ts_nextConnId x)
  (ts_connections x).
Definition set_ts_started (v : Z) (x : TcpServer) : TcpServer := mkTcpServer (ts_loop x) (ts_ipPort
  x) (ts_name x) (ts_acceptor x) (ts_threadPool x) v (ts_nextConnId x) (ts_connections x).
Definition set_ts_nextConnId (v : Z) (x : TcpServer) : TcpServer := mkTcpServer (ts_loop x)
  (ts_ipPort x) (ts_name x) (ts_acceptor x) (ts_threadPool x) (ts_started x) v (ts_connections x).
Definition set_ts_connections (v : gmap string loc) (x : TcpServer) : TcpServer := mkTcpServer
  (ts_loop x) (ts_ipPort x) (ts_name x) (ts_acceptor x) (ts_threadPool x) (ts_started x)
  (ts_nextConnId x) v.

(** [struct Session] *)
Record Session : Type := mkSession {
  s_connId : Z;
  s_account : string;
  s_loggedIn : bool;
  s_loginTime : Z;
  s_lastHeartbeat : Z;
}.

Definition set_s_connId (v : Z) (x : Session) : Session := mkSession v (s_account x) (s_loggedIn x)
  (s_loginTime x) (s_lastHeartbeat x).
Definition set_s_account (v : string) (x : Session) : Session := mkSession (s_connId x) v
  (s_loggedIn x) (s_loginTime x) (s_lastHeartbeat x).
Definition set_s_loggedIn (v : bool) (x : Session) : Session := mkSession (s_connId x) (s_account x)
  v (s_loginTime x) (s_lastHeartbeat x).
Definition set_s_loginTime (v : Z) (x : Session) : Session := mkSession (s_connId x) (s_account x)
  (s_loggedIn x) v (s_lastHeartbeat x).
Definition set_s_lastHeartbeat (v : Z) (x : Session) : Session := mkSession (s_connId x) (s_account
  x) (s_loggedIn x) (s_loginTime x) v.

(** [class ConnectionManager]: the weak pointers by connection id *)
Record ConnectionManager : Type := mkConnectionManager {
  cm_connections : gmap Z loc;
  cm_nextConnId : Z;
}.

Definition set_cm_connections (v : gmap Z loc) (x : ConnectionManager) : ConnectionManager :=
  mkConnectionManager v (cm_nextConnId x).
Definition set_cm_nextConnId (v : Z) (x : ConnectionManager) : ConnectionManager :=
  mkConnectionManager (cm_connections x) v.

(** [class GatewayServer], beyond the server it owns. The worker pool is seen
    through its counters and the dispatches queued in it. *)
Record GatewayServer : Type := mkGatewayServer {
  gs_loop : loc;
  gs_started : bool;
  gs_spi : bool;
  gs_heartbeatTimerFd : Z;
  gs_heartbeatChannel : option loc;
  gs_heartbeatTimeoutSec : Z;
  gs_lastHeartbeats : gmap Z Z;
  gs_workerThreads : Z;             (* workerPool_->threads_.size() *)
  gs_workerNumThreads : Z;          (* workerPool_->numThreads_ *)
  gs_workerRunning : bool;
  gs_workerTasks : list (Packet * Z);
}.

Definition set_gs_loop (v : loc) (x : GatewayServer) : GatewayServer := mkGatewayServer v
  (gs_started x) (gs_spi x) (gs_heartbeatTimerFd x) (gs_heartbeatChannel x) (gs_heartbeatTimeoutSec
  x) (gs_lastHeartbeats x) (gs_workerThreads x) (gs_workerNumThreads x) (gs_workerRunning x)
  (gs_workerTasks x).
Definition set_gs_started (v : bool) (x : GatewayServer) : GatewayServer := mkGatewayServer (gs_loop
  x) v (gs_spi x) (gs_heartbeatTimerFd x) (gs_heartbeatChannel x) (gs_heartbeatTimeoutSec x)
  (gs_lastHeartbeats x) (gs_workerThreads x) (gs_workerNumThreads x) (gs_workerRunning x)
  (gs_workerTasks x).
Definition set_gs_spi (v : bool) (x : GatewayServer) : GatewayServer := mkGatewayServer (gs_loop x)
  (gs_started x) v (gs_heartbeatTimerFd x) (gs_heartbeatChannel x) (gs_heartbeatTimeoutSec x)
  (gs_lastHeartbeats x) (gs_workerThreads x) (gs_workerNumThreads x) (gs_workerRunning x)
  (gs_workerTasks x).
Definition set_gs_heartbeatTimerFd (v : Z) (x : GatewayServer) : GatewayServer := mkGatewayServer
  (gs_loop x) (gs_started x) (gs_spi x) v (gs_heartbeatChannel x) (gs_heartbeatTimeoutSec x)
  (gs_lastHeartbeats x) (gs_workerThreads x) (gs_workerNumThreads x) (gs_workerRunning x)
  (gs_workerTasks x).
Definition set_gs_heartbeatChannel (v : option loc) (x : GatewayServer) : GatewayServer :=
  mkGatewayServer (gs_loop x) (gs_started x) (gs_spi x) (gs_heartbeatTimerFd x) v
  (gs_heartbeatTimeoutSec x) (gs_lastHeartbeats x) (gs_workerThreads x) (gs_workerNumThreads x)
  (gs_workerRunning x) (gs_workerTasks x).
Definition set_gs_heartbeatTimeoutSec (v : Z) (x : GatewayServer) : GatewayServer := mkGatewayServer
  (gs_loop x) (gs_started x) (gs_spi x) (gs_heartbeatTimerFd x) (gs_heartbeatChannel x) v
  (gs_lastHeartbeats x) (gs_workerThreads x) (gs_workerNumThreads x) (gs_workerRunning x)
  (gs_workerTasks x).
Definition set_gs_lastHeartbeats (v : gmap Z Z) (x : GatewayServer) : GatewayServer :=
  mkGatewayServer (gs_loop x) (gs_started x) (gs_spi x) (gs_heartbeatTimerFd x) (gs_heartbeatChannel
  x) (gs_heartbeatTimeoutSec x) v (gs_workerThreads x) (gs_workerNumThreads x) (gs_workerRunning x)
  (gs_workerTasks x).
Definition set_gs_workerThreads (v : Z) (x : GatewayServer) : GatewayServer := mkGatewayServer
  (gs_loop x) (gs_started x) (gs_spi x) (gs_heartbeatTimerFd x) (gs_heartbeatChannel x)
  (gs_heartbeatTimeoutSec x) (gs_lastHeartbeats x) v (gs_workerNumThreads x) (gs_workerRunning x)
  (gs_workerTasks x).
Definition set_gs_workerNumThreads (v : Z) (x : GatewayServer) : GatewayServer := mkGatewayServer
  (gs_loop x) (gs_started x) (gs_spi x) (gs_heartbeatTimerFd x) (gs_heartbeatChannel x)
  (gs_heartbeatTimeoutSec x) (gs_lastHeartbeats x) (gs_workerThreads x) v (gs_workerRunning x)
  (gs_workerTasks x).
Definition set_gs_workerRunning (v : bool) (x : GatewayServer) : GatewayServer := mkGatewayServer
  (gs_loop x) (gs_started x) (gs_spi x) (gs_heartbeatTimerFd x) (gs_heartbeatChannel x)
  (gs_heartbeatTimeoutSec x) (gs_lastHeartbeats x) (gs_workerThreads x) (gs_workerNumThreads x) v
  (gs_workerTasks x).
Definition set_gs_workerTasks (v : list (Packet * Z)) (x : GatewayServer) : GatewayServer :=
  mkGatewayServer (gs_loop x) (gs_started x) (gs_spi x) (gs_heartbeatTimerFd x) (gs_heartbeatChannel
  x) (gs_heartbeatTimeoutSec x) (gs_lastHeartbeats x) (gs_workerThreads x) (gs_workerNumThreads x)
  (gs_workerRunning x) v.

(** ** The store *)

Record World {K : Type} : Type := mkWorld {
  w_kern : K;
  w_tid : Z;                        (* CurrentThread::tid() *)
  w_next : loc;                     (* the next fresh address *)
  w_tls : gmap Z loc;               (* t_loopInThisThread, by thread *)
  w_loops : gmap loc EventLoop;
  w_chans : gmap loc Channel;
  w_conns : gmap loc TcpConnection;
  w_server : TcpServer;
  w_cm : ConnectionManager;
  w_sessions : gmap Z Session;
  w_gs : GatewayServer;
}.
Arguments World : clear implicits.
Arguments mkWorld {K}.

Section setters.
Context {K : Type}.
Implicit Type w : World K.

Definition set_w_kern v w : World K :=
  mkWorld v (w_tid w) (w_next w) (w_tls w) (w_loops w) (w_chans w) (w_conns w) (w_server w)
    (w_cm w) (w_sessions w) (w_gs w).
Definition set_w_tid v w : World K :=
  mkWorld (w_kern w) v (w_next w) (w_tls w) (w_loops w) (w_chans w) (w_conns w) (w_server w)
    (w_cm w) (w_sessions w) (w_gs w).
Definition set_w_next v w : World K :=
  mkWorld (w_kern w) (w_tid w) v (w_tls w) (w_loops w) (w_chans w) (w_conns w) (w_server w)
    (w_cm w) (w_sessions w) (w_gs w).
Definition set_w_tls v w : World K :=
  mkWorld (w_kern w) (w_tid w) (w_next w) v (w_loops w) (w_chans w) (w_conns w) (w_server w)
    (w_cm w) (w_sessions w) (w_gs w).
Definition set_w_loops v w : World K :=
  mkWorld (w_kern w) (w_tid w) (w_next w) (w_tls w) v (w_chans w) (w_conns w) (w_server w)
    (w_cm w) (w_sessions w) (w_gs w).
Definition set_w_chans v w : World K :=
  mkWorld (w_kern w) (w_tid w) (w_next w) (w_tls w) (w_loops w) v (w_conns w) (w_server w)
    (w_cm w) (w_sessions w) (w_gs w).
Definition set_w_conns v w : World K :=
  mkWorld (w_kern w) (w_tid w) (w_next w) (w_tls w) (w_loops w) (w_chans w) v (w_server w)
    (w_cm w) (w_sessions w) (w_gs w).
Definition set_w_server v w : World K :=
  mkWorld (w_kern w) (w_tid w) (w_next w) (w_tls w) (w_loops w) (w_chans w) (w_conns w) v
    (w_cm w) (w_sessions w) (w_gs w).
Definition set_w_cm v w : World K :=
  mkWorld (w_kern w) (w_tid w) (w_next w) (w_tls w) (w_loops w) (w_chans w) (w_conns w)
    (w_server w) v (w_sessions w) (w_gs w).
Definition set_w_sessions v w : World K :=
  mkWorld (w_kern w) (w_tid w) (w_next w) (w_tls w) (w_loops w) (w_chans w) (w_conns w)
    (w_server w) (w_cm w) v (w_gs w).
Definition set_w_gs v w : World K :=
  mkWorld (w_kern w) (w_tid w) (w_next w) (w_tls w) (w_loops w) (w_chans w) (w_conns w)
    (w_server w) (w_cm w) (w_sessions w) v.
End setters.

(** ** Access to the store *)

Section access.
Context {K : Type} `{Kernel K}.
Abbreviation W := (World K).

(** a system call *)
Definition sys {A} (f : K → A * K) : M W A :=
  λ w, Ok ((f (w_kern w)).1, set_w_kern (f (w_kern w)).2 w).

(** [operator new]: a fresh address *)
Definition alloc : M W loc := λ w, Ok (w_next w, set_w_next (S (w_next w)) w).

Definition get_loop (l : loc) : M W EventLoop := λ w, x ← deref (w_loops w !! l); Ok (x, w).
Definition put_loop (l : loc) (x : EventLoop) : M W unit :=
  modify (λ w, set_w_loops (<[l := x]> (w_loops w)) w).
Definition mod_loop (l : loc) (f : EventLoop → EventLoop) : M W unit :=
  x ← get_loop l; put_loop l (f x).

Definition get_chan (c : loc) : M W Channel := λ w, x ← deref (w_chans w !! c); Ok (x, w).
Definition put_chan (c : loc) (x : Channel) : M W unit :=
  modify (λ w, set_w_chans (<[c := x]> (w_chans w)) w).
Definition mod_chan (c : loc) (f : Channel → Channel) : M W unit :=
  x ← get_chan c; put_chan c (f x).

Definition get_conn (c : loc) : M W TcpConnection := λ w, x ← deref (w_conns w !! c); Ok (x, w).
Definition put_conn (c : loc) (x : TcpConnection) : M W unit :=
  modify (λ w, set_w_conns (<[c := x]> (w_conns w)) w).
Definition mod_conn (c : loc) (f : TcpConnection → TcpConnection) : M W unit :=
  x ← get_conn c; put_conn c (f x).

Definition mod_server (f : TcpServer → TcpServer) : M W unit :=
  modify (λ w, set_w_server (f (w_server w)) w).
Definition mod_gs (f : GatewayServer → GatewayServer) : M W unit :=
  modify (λ w, set_w_gs (f (w_gs w)) w).

Section rules.
Context (F : fault → Prop).
Implicit Types (w : W) (l c : loc).

Lemma wp_sys {A} (f : K → A * K) Q w :
  Q (f (w_kern w)).1 (set_w_kern (f (w_kern w)).2 w) → wp F (sys f) Q w.
Proof. done. Qed.

Lemma wp_alloc (Q : loc → W → Prop) w :
  Q (w_next w) (set_w_next (S (w_next w)) w) → wp F alloc Q w.
Proof. done. Qed.

Lemma wp_get_loop l x Q w : w_loops w !! l = Some x → Q x w → wp F (get_loop l) Q w.
Proof. intros E. apply wp_ok. unfold get_loop. by rewrite E. Qed.
Lemma wp_get_chan c x Q w : w_chans w !! c = Some x → Q x w → wp F (get_chan c) Q w.
Proof. intros E. apply wp_ok. unfold get_chan. by rewrite E. Qed.
Lemma wp_get_conn c x Q w : w_conns w !! c = Some x → Q x w → wp F (get_conn c) Q w.
Proof. intros E. apply wp_ok. unfold get_conn. by rewrite E. Qed.

Lemma wp_mod_loop l x f Q w :
  w_loops w !! l = Some x → Q tt (set_w_loops (<[l := f x]> (w_loops w)) w) →
  wp F (mod_loop l f) Q w.
Proof. intros E ?. apply wp_bind. by eapply wp_get_loop. Qed.
Lemma wp_mod_chan c x f Q w :
  w_chans w !! c = Some x → Q tt (set_w_chans (<[c := f x]> (w_chans w)) w) →
  wp F (mod_chan c f) Q w.
Proof. intros E ?. apply wp_bind. by eapply wp_get_chan. Qed.
Lemma wp_mod_conn c x f Q w :
  w_conns w !! c = Some x → Q tt (set_w_conns (<[c := f x]> (w_conns w)) w) →
  wp F (mod_conn c f) Q w.
Proof. intros E ?. apply wp_bind. by eapply wp_get_conn. Qed.
End rules.
End access.

(** ** Inversion of the accesses, and what they leave alone *)

Section access_facts.
Context {K : Type} `{Kernel K}.
Implicit Types (w : World K) (l c : loc).

Lemma get_loop_inv l w x w' : get_loop l w = Ok (x, w') → w_loops w !! l = Some x ∧ w' = w.
Proof. unfold get_loop. destruct (w_loops w !! l); [|done]. by intros [= <- <-]. Qed.
Lemma get_chan_inv c w x w' : get_chan c w = Ok (x, w') → w_chans w !! c = Some x ∧ w' = w.
Proof. unfold get_chan. destruct (w_chans w !! c); [|done]. by intros [= <- <-]. Qed.
Lemma get_conn_inv c w x w' : get_conn c w = Ok (x, w') → w_conns w !! c = Some x ∧ w' = w.
Proof. unfold get_conn. destruct (w_conns w !! c); [|done]. by intros [= <- <-]. Qed.
Lemma mod_loop_inv l f w u w' :
  mod_loop l f w = Ok (u, w') →
  ∃ lp, w_loops w !! l = Some lp ∧ w' = set_w_loops (<[l := f lp]> (w_loops w)) w.
Proof.
  intros (lp & w1 & [Hl ->]%get_loop_inv & E)%runM_bind_inv. injection E as _ <-. eauto.
Qed.
Lemma mod_conn_inv c f w u w' :
  mod_conn c f w = Ok (u, w') →
  ∃ conn, w_conns w !! c = Some conn ∧ w' = set_w_conns (<[c := f conn]> (w_conns w)) w.
Proof.
  intros (conn & w1 & [Hc ->]%get_conn_inv & E)%runM_bind_inv. injection E as _ <-. eauto.
Qed.

Context (R : relation (World K)) `{!PreOrder R}.
Lemma preserves_get_loop l : preserves R (get_loop l).
Proof. by intros w a w' [_ ->]%get_loop_inv. Qed.
Lemma preserves_get_chan c : preserves R (get_chan c).
Proof. by intros w a w' [_ ->]%get_chan_inv. Qed.
Lemma preserves_get_conn c : preserves R (get_conn c).
Proof. by intros w a w' [_ ->]%get_conn_inv. Qed.
End access_facts.

#[export] Hint Extern 1 (preserves _ _) =>
  first [ apply preserves_get_loop | apply preserves_get_chan | apply preserves_get_conn ];
  exact _ : frame.

(** [ws] runs one access whose object is known: by a hypothesis, or because
    it was just written. *)
Ltac lookup_now :=
  simpl;
  repeat first [ rewrite lookup_insert_eq | rewrite lookup_insert_ne by done ];
  first [ reflexivity | eassumption ].
Ltac ws :=
  lazymatch goal with
  | |- wp _ (get_loop _) _ _ => eapply wp_get_loop; [lookup_now|]
  | |- wp _ (get_chan _) _ _ => eapply wp_get_chan; [lookup_now|]
  | |- wp _ (get_conn _) _ _ => eapply wp_get_conn; [lookup_now|]
  | |- wp _ (mod_loop _ _) _ _ => eapply wp_mod_loop; [lookup_now|]
  | |- wp _ (mod_chan _ _) _ _ => eapply wp_mod_chan; [lookup_now|]
  | |- wp _ (mod_conn _ _) _ _ => eapply wp_mod_conn; [lookup_now|]
  | |- wp _ alloc _ _ => apply wp_alloc
  | |- wp _ (put_loop _ _) _ _ => apply wp_modify
  | |- wp _ (put_chan _ _) _ _ => apply wp_modify
  | |- wp _ (put_conn _ _) _ _ => apply wp_modify
  | |- wp _ (mod_server _) _ _ => apply wp_modify
  | |- wp _ (mod_gs _) _ _ => apply wp_modify
  | |- wp _ (sys _) _ _ => apply wp_sys
  | |- wp _ (assertM _) _ _ => apply wp_assert; [try first [reflexivity | by rewrite bool_decide_true]|]
  | _ => wp_step
  end; cbv beta.

(** [rs] computes the fields of the records of the store, [rs in] in a
    hypothesis. *)
Ltac rs := cbn [fst snd
    ch_loop set_ch_loop ch_fd set_ch_fd ch_events set_ch_events ch_revents set_ch_revents
    ch_index set_ch_index ch_eventHandling set_ch_eventHandling ch_addedToLoop
    set_ch_addedToLoop ch_readCallback set_ch_readCallback ch_writeCallback set_ch_writeCallback
    ch_closeCallback set_ch_closeCallback ch_errorCallback set_ch_errorCallback po_epollfd
    set_po_epollfd po_events_size set_po_events_size po_channels set_po_channels el_looping
    set_el_looping el_quit set_el_quit el_eventHandling set_el_eventHandling
    el_callingPendingFunctors set_el_callingPendingFunctors el_iteration set_el_iteration
    el_threadId set_el_threadId el_pollReturnTime set_el_pollReturnTime el_poller set_el_poller
    el_wakeupFd set_el_wakeupFd el_wakeupChannel set_el_wakeupChannel el_activeChannels
    set_el_activeChannels el_currentActiveChannel set_el_currentActiveChannel el_pendingFunctors
    set_el_pendingFunctors el_running set_el_running tc_loop set_tc_loop tc_name set_tc_name
    tc_state set_tc_state tc_reading set_tc_reading tc_socket set_tc_socket tc_channel
    set_tc_channel tc_localAddr set_tc_localAddr tc_peerAddr set_tc_peerAddr
    tc_writeCompleteCallback set_tc_writeCompleteCallback tc_highWaterMarkCallback
    set_tc_highWaterMarkCallback tc_highWaterMark set_tc_highWaterMark tc_connId set_tc_connId
    tc_inputBuffer set_tc_inputBuffer tc_outputBuffer set_tc_outputBuffer ac_loop set_ac_loop
    ac_acceptSocket set_ac_acceptSocket ac_acceptChannel set_ac_acceptChannel
    ac_newConnectionCallback set_ac_newConnectionCallback ac_listening set_ac_listening
    ac_idleFd set_ac_idleFd et_loop set_et_loop et_exiting set_et_exiting et_joinable
    set_et_joinable et_name set_et_name tp_baseLoop set_tp_baseLoop tp_name set_tp_name
    tp_started set_tp_started tp_numThreads set_tp_numThreads tp_next set_tp_next tp_threads
    set_tp_threads tp_loops set_tp_loops ts_loop set_ts_loop ts_ipPort set_ts_ipPort ts_name
    set_ts_name ts_acceptor set_ts_acceptor ts_threadPool set_ts_threadPool ts_started
    set_ts_started ts_nextConnId set_ts_nextConnId ts_connections set_ts_connections s_connId
    set_s_connId s_account set_s_account s_loggedIn set_s_loggedIn s_loginTime set_s_loginTime
    s_lastHeartbeat set_s_lastHeartbeat cm_connections set_cm_connections cm_nextConnId
    set_cm_nextConnId gs_loop set_gs_loop gs_started set_gs_started gs_spi set_gs_spi
    gs_heartbeatTimerFd set_gs_heartbeatTimerFd gs_heartbeatChannel set_gs_heartbeatChannel
    gs_heartbeatTimeoutSec set_gs_heartbeatTimeoutSec gs_lastHeartbeats set_gs_lastHeartbeats
    gs_workerThreads set_gs_workerThreads gs_workerNumThreads set_gs_workerNumThreads
    gs_workerRunning set_gs_workerRunning gs_workerTasks set_gs_workerTasks w_kern set_w_kern
    w_tid set_w_tid w_next set_w_next w_tls set_w_tls w_loops set_w_loops w_chans set_w_chans
    w_conns set_w_conns w_server set_w_server w_cm set_w_cm w_sessions set_w_sessions w_gs
    set_w_gs].
Tactic Notation "rs" "in" hyp(H) := cbn [fst snd
    ch_loop set_ch_loop ch_fd set_ch_fd ch_events set_ch_events ch_revents set_ch_revents
    ch_index set_ch_index ch_eventHandling set_ch_eventHandling ch_addedToLoop
    set_ch_addedToLoop ch_readCallback set_ch_readCallback ch_writeCallback set_ch_writeCallback
    ch_closeCallback set_ch_closeCallback ch_errorCallback set_ch_errorCallback po_epollfd
    set_po_epollfd po_events_size set_po_events_size po_channels set_po_channels el_looping
    set_el_looping el_quit set_el_quit el_eventHandling set_el_eventHandling
    el_callingPendingFunctors set_el_callingPendingFunctors el_iteration set_el_iteration
    el_threadId set_el_threadId el_pollReturnTime set_el_pollReturnTime el_poller set_el_poller
    el_wakeupFd set_el_wakeupFd el_wakeupChannel set_el_wakeupChannel el_activeChannels
    set_el_activeChannels el_currentActiveChannel set_el_currentActiveChannel el_pendingFunctors
    set_el_pendingFunctors el_running set_el_running tc_loop set_tc_loop tc_name set_tc_name
    tc_state set_tc_state tc_reading set_tc_reading tc_socket set_tc_socket tc_channel
    set_tc_channel tc_localAddr set_tc_localAddr tc_peerAddr set_tc_peerAddr
    tc_writeCompleteCallback set_tc_writeCompleteCallback tc_highWaterMarkCallback
    set_tc_highWaterMarkCallback tc_highWaterMark set_tc_highWaterMark tc_connId set_tc_connId
    tc_inputBuffer set_tc_inputBuffer tc_outputBuffer set_tc_outputBuffer ac_loop set_ac_loop
    ac_acceptSocket set_ac_acceptSocket ac_acceptChannel set_ac_acceptChannel
    ac_newConnectionCallback set_ac_newConnectionCallback ac_listening set_ac_listening
    ac_idleFd set_ac_idleFd et_loop set_et_loop et_exiting set_et_exiting et_joinable
    set_et_joinable et_name set_et_name tp_baseLoop set_tp_baseLoop tp_name set_tp_name
    tp_started set_tp_started tp_numThreads set_tp_numThreads tp_next set_tp_next tp_threads
    set_tp_threads tp_loops set_tp_loops ts_loop set_ts_loop ts_ipPort set_ts_ipPort ts_name
    set_ts_name ts_acceptor set_ts_acceptor ts_threadPool set_ts_threadPool ts_started
    set_ts_started ts_nextConnId set_ts_nextConnId ts_connections set_ts_connections s_connId
    set_s_connId s_account set_s_account s_loggedIn set_s_loggedIn s_loginTime set_s_loginTime
    s_lastHeartbeat set_s_lastHeartbeat cm_connections set_cm_connections cm_nextConnId
    set_cm_nextConnId gs_loop set_gs_loop gs_started set_gs_started gs_spi set_gs_spi
    gs_heartbeatTimerFd set_gs_heartbeatTimerFd gs_heartbeatChannel set_gs_heartbeatChannel
    gs_heartbeatTimeoutSec set_gs_heartbeatTimeoutSec gs_lastHeartbeats set_gs_lastHeartbeats
    gs_workerThreads set_gs_workerThreads gs_workerNumThreads set_gs_workerNumThreads
    gs_workerRunning set_gs_workerRunning gs_workerTasks set_gs_workerTasks w_kern set_w_kern
    w_tid set_w_tid w_next set_w_next w_tls set_w_tls w_loops set_w_loops w_chans set_w_chans
    w_conns set_w_conns w_server set_w_server w_cm set_w_cm w_sessions set_w_sessions w_gs
    set_w_gs] in H.

Ltac run := repeat (ws; rs).
