(* ===== verification/Reactor.v ===== *)
(** * Channels, the epoll poller and the event loop

    [net/Channel], [net/Poller] and [net/EventLoop]. An operation
    [C::f] of a class [C] is the definition [C_f], whose first argument is the
    address of the object. It runs in the thread [w_tid] of the store. *)
From S2P Require Import Prelude RingBuffer Protocol World.

(** ** Constants of the system headers *)

Definition EPOLLIN : Z := 0x001.
Definition EPOLLPRI : Z := 0x002.
Definition EPOLLOUT : Z := 0x004.
Definition EPOLLERR : Z := 0x008.
Definition EPOLLHUP : Z := 0x010.
Definition EPOLLRDHUP : Z := 0x2000.
Definition EPOLLET : Z := 2 ^ 31.
Definition EPOLL_CTL_ADD : Z := 1.
Definition EPOLL_CTL_DEL : Z := 2.
Definition EPOLL_CTL_MOD : Z := 3.
Definition EINTR : Z := 4.

Definition kNoneEvent : Z := 0.
Definition kReadEvent : Z := Z.lor EPOLLIN EPOLLPRI.
Definition kWriteEvent : Z := EPOLLOUT.
Definition kInitEventListSize : Z := 16.
Definition kPollTimeMs : Z := 10000.

(** [x & bit], as a condition *)
Definition has_bits (x mask : Z) : bool := negb (Z.land x mask =? 0).

Section reactor.
Context {K : Type} `{Kernel K}.
Abbreviation W := (World K).
Implicit Types (l c : loc) (w : W).

(** ** EventLoop: threads *)

Definition EventLoop_IsInLoopThread l : M W bool :=
  lp ← get_loop l; tid ← gets w_tid; mret (el_threadId lp =? tid).

Definition EventLoop_AssertInLoopThread l : M W unit :=
  ifM (EventLoop_IsInLoopThread l) (mret tt) (failM LogFatal (* AbortNotInLoopThread *)).

(** ** Timestamp::Now *)

Definition kMicroSecondsPerSecond : Z := 1000000.

Definition Timestamp_Now : M W Z :=
  tv ← sys sys_now;
  mret (i64 (tv.1 * kMicroSecondsPerSecond + tv.2)).

(** [MilliSecondsSinceEpoch]: C++ division truncates. *)
Definition MilliSecondsSinceEpoch (t : Z) : Z := Z.quot t 1000.

(** ** Poller *)

Definition Poller_Update l (operation : Z) c : M W unit :=
  lp ← get_loop l;
  ch ← get_chan c;
  let events := Z.lor (ch_events ch) EPOLLET in
  r ← sys (sys_epoll_ctl (po_epollfd (el_poller lp)) operation (ch_fd ch) events c);
  if r <? 0 then
    if operation =? EPOLL_CTL_DEL then mret tt else failM LogFatal
  else mret tt.

Definition IsNoneEvent (ch : Channel) : bool := ch_events ch =? kNoneEvent.
Definition IsWriting (ch : Channel) : bool := has_bits (ch_events ch) kWriteEvent.
Definition IsReading (ch : Channel) : bool := has_bits (ch_events ch) kReadEvent.

Definition set_channels (f : gmap Z loc → gmap Z loc) (lp : EventLoop) : EventLoop :=
  set_el_poller (set_po_channels (f (po_channels (el_poller lp))) (el_poller lp)) lp.

Definition Poller_UpdateChannel l c : M W unit :=
  EventLoop_AssertInLoopThread l;;
  ch ← get_chan c;
  lp ← get_loop l;
  let channels_ := po_channels (el_poller lp) in
  let index := ch_index ch in
  let fd := ch_fd ch in
  if (index =? -1) || (index =? 2) then
    (if index =? -1 then
       assertM (bool_decide (channels_ !! fd = None));;
       mod_loop l (set_channels <[fd := c]>)
     else
       assertM (bool_decide (is_Some (channels_ !! fd)));;
       assertM (bool_decide (channels_ !! fd = Some c)));;
    mod_chan c (set_ch_index 1);;
    Poller_Update l EPOLL_CTL_ADD c
  else
    assertM (bool_decide (is_Some (channels_ !! fd)));;
    assertM (bool_decide (channels_ !! fd = Some c));;
    assertM (index =? 1);;
    if IsNoneEvent ch then
      Poller_Update l EPOLL_CTL_DEL c;;
      mod_chan c (set_ch_index 2)
    else Poller_Update l EPOLL_CTL_MOD c.

Definition Poller_RemoveChannel l c : M W unit :=
  EventLoop_AssertInLoopThread l;;
  ch ← get_chan c;
  lp ← get_loop l;
  let channels_ := po_channels (el_poller lp) in
  let fd := ch_fd ch in
  assertM (bool_decide (is_Some (channels_ !! fd)));;
  assertM (bool_decide (channels_ !! fd = Some c));;
  assertM (IsNoneEvent ch);;
  let index := ch_index ch in
  assertM ((index =? 1) || (index =? 2));;
  mod_loop l (set_channels (delete fd));;
  (if index =? 1 then Poller_Update l EPOLL_CTL_DEL c else mret tt);;
  mod_chan c (set_ch_index (-1)).

Definition Poller_HasChannel l c : M W bool :=
  EventLoop_AssertInLoopThread l;;
  ch ← get_chan c;
  lp ← get_loop l;
  mret (bool_decide (po_channels (el_poller lp) !! ch_fd ch = Some c)).

(** [Poller::FillActiveChannels]: [data.ptr] of each event is the channel
    given to [epoll_ctl]. *)
Definition Poller_FillActiveChannels l (events : list (loc * Z)) : M W (list loc) :=
  lp ← get_loop l;
  assertM (Z.of_nat (length events) <=? po_events_size (el_poller lp));;
  forM events (λ e, mod_chan e.1 (set_ch_revents (i32 e.2)));;
  mret (events.*1).

(** [Poller::Poll], with [activeChannels] initially empty: the time of
    return and the active channels *)
Definition Poller_Poll l (timeoutMs : Z) : M W (Z * list loc) :=
  lp ← get_loop l;
  let p := el_poller lp in
  r ← sys (sys_epoll_wait (po_epollfd p) (i32 (po_events_size p)) timeoutMs);
  now ← Timestamp_Now;
  match r with
  | inr ((_ :: _) as events) =>
      active ← Poller_FillActiveChannels l events;
      when (Z.of_nat (length events) =? po_events_size p)
        (mod_loop l (λ lp, set_el_poller
           (set_po_events_size (po_events_size (el_poller lp) * 2) (el_poller lp)) lp));;
      mret (now, active)
  | inr [] => mret (now, [])
  | inl _ => mret (now, []) (* LOG_ERROR unless EINTR *)
  end.

(** ** EventLoop: channels *)

Definition EventLoop_UpdateChannel l c : M W unit :=
  ch ← get_chan c;
  assertM (bool_decide (ch_loop ch = l));;
  EventLoop_AssertInLoopThread l;;
  Poller_UpdateChannel l c.

Definition EventLoop_RemoveChannel l c : M W unit :=
  ch ← get_chan c;
  assertM (bool_decide (ch_loop ch = l));;
  EventLoop_AssertInLoopThread l;;
  lp ← get_loop l;
  when (el_eventHandling lp)
    (assertM (bool_decide (el_currentActiveChannel lp = Some c)
              || negb (bool_decide (c ∈ el_activeChannels lp))));;
  Poller_RemoveChannel l c.

Definition EventLoop_HasChannel l c : M W bool :=
  ch ← get_chan c;
  assertM (bool_decide (ch_loop ch = l));;
  EventLoop_AssertInLoopThread l;;
  Poller_HasChannel l c.

(** ** EventLoop: functors *)

Definition EventLoop_Wakeup l : M W unit :=
  lp ← get_loop l;
  sys (sys_write (el_wakeupFd lp) (le_bytes 8 1));;
  mret tt (* LOG_ERROR unless 8 bytes were written *).

Definition EventLoop_QueueInLoop l (f : functor) : M W unit :=
  mod_loop l (λ lp, set_el_pendingFunctors (el_pendingFunctors lp ++ [f]) lp);;
  here ← EventLoop_IsInLoopThread l;
  lp ← get_loop l;
  if negb here || el_callingPendingFunctors lp then EventLoop_Wakeup l else mret tt.

(** [EventLoop::RunInLoop]; [body] is the functor's call. *)
Definition EventLoop_RunInLoop l (f : functor) (body : M W unit) : M W unit :=
  ifM (EventLoop_IsInLoopThread l) body (EventLoop_QueueInLoop l f).

Definition EventLoop_Quit l : M W unit :=
  mod_loop l (set_el_quit true);;
  ifM (EventLoop_IsInLoopThread l) (mret tt) (EventLoop_Wakeup l).

(** the read callback of the wake-up channel *)
Definition EventLoop_HandleRead l : M W unit :=
  lp ← get_loop l;
  sys (sys_read8 (el_wakeupFd lp));;
  mret tt (* LOG_ERROR unless 8 bytes were read *).

(** ** Channel *)

Definition new_Channel l (fd : Z) : Channel :=
  mkChannel l fd 0 0 (-1) false false None None None None.

Definition Channel_Update c : M W unit :=
  mod_chan c (set_ch_addedToLoop true);;
  ch ← get_chan c;
  EventLoop_UpdateChannel (ch_loop ch) c.

Definition Channel_EnableReading c : M W unit :=
  mod_chan c (λ ch, set_ch_events (Z.lor (ch_events ch) kReadEvent) ch);; Channel_Update c.
Definition Channel_DisableReading c : M W unit :=
  mod_chan c (λ ch, set_ch_events (Z.land (ch_events ch) (Z.lnot kReadEvent)) ch);;
  Channel_Update c.
Definition Channel_EnableWriting c : M W unit :=
  mod_chan c (λ ch, set_ch_events (Z.lor (ch_events ch) kWriteEvent) ch);; Channel_Update c.
Definition Channel_DisableWriting c : M W unit :=
  mod_chan c (λ ch, set_ch_events (Z.land (ch_events ch) (Z.lnot kWriteEvent)) ch);;
  Channel_Update c.
Definition Channel_DisableAll c : M W unit :=
  mod_chan c (set_ch_events kNoneEvent);; Channel_Update c.

Definition Channel_Remove c : M W unit :=
  ch ← get_chan c;
  assertM (IsNoneEvent ch);;
  mod_chan c (set_ch_addedToLoop false);;
  EventLoop_RemoveChannel (ch_loop ch) c.

(** [Channel::~Channel], with the release of the object *)
Definition delete_Channel c : M W unit :=
  ch ← get_chan c;
  assertM (negb (ch_eventHandling ch));;
  assertM (negb (ch_addedToLoop ch));;
  here ← EventLoop_IsInLoopThread (ch_loop ch);
  when here (has ← EventLoop_HasChannel (ch_loop ch) c; assertM (negb has));;
  modify (λ w, set_w_chans (delete c (w_chans w)) w).

(** [Channel::EventsToString(fd, ev)] *)
Definition EventsToString (fd ev : Z) : string :=
  (pretty fd ++ ": "
   ++ (if has_bits ev EPOLLIN then "IN " else "")
   ++ (if has_bits ev EPOLLPRI then "PRI " else "")
   ++ (if has_bits ev EPOLLOUT then "OUT " else "")
   ++ (if has_bits ev EPOLLHUP then "HUP " else "")
   ++ (if has_bits ev EPOLLRDHUP then "RDHUP " else "")
   ++ (if has_bits ev EPOLLERR then "ERR " else ""))%string.

(** What the reactor calls back: the callbacks of the channels, with the
    time of the poll, the functors, and the destructors of the functors. *)
Context (run_callback : callback → Z → M W unit).
Context (exec : functor → M W unit) (destroy : functor → M W unit).

Definition call (cb : option callback) (t : Z) : M W unit :=
  match cb with Some cb => run_callback cb t | None => mret tt end.

(** [Channel::HandleEvent]: [revents_] and the callbacks are read from the
    object before each test, and the object must outlive the calls. *)
Definition Channel_HandleEvent c (receiveTime : Z) : M W unit :=
  mod_chan c (set_ch_eventHandling true);;
  ch ← get_chan c;
  when (has_bits (ch_revents ch) EPOLLHUP && negb (has_bits (ch_revents ch) EPOLLIN))
    (call (ch_closeCallback ch) receiveTime);;
  ch ← get_chan c;
  when (has_bits (ch_revents ch) EPOLLERR) (call (ch_errorCallback ch) receiveTime);;
  ch ← get_chan c;
  when (has_bits (ch_revents ch) (Z.lor (Z.lor EPOLLIN EPOLLPRI) EPOLLRDHUP))
    (call (ch_readCallback ch) receiveTime);;
  ch ← get_chan c;
  when (has_bits (ch_revents ch) EPOLLOUT) (call (ch_writeCallback ch) receiveTime);;
  mod_chan c (set_ch_eventHandling false).

(** ** EventLoop: the loop *)

(** [EventLoop::EventLoop], with the allocation of the object *)
Definition new_EventLoop : M W loc :=
  l ← alloc;
  tid ← gets w_tid;
  epfd ← sys sys_epoll_create;
  (if epfd <? 0 then failM LogFatal else mret tt);;
  evtfd ← sys sys_eventfd;
  (if evtfd <? 0 then failM LogFatal else mret tt);;
  wc ← alloc;
  put_chan wc (new_Channel l evtfd);;
  put_loop l (mkEventLoop false false false false 0 tid 0
                (mkPoller epfd kInitEventListSize ∅) evtfd wc [] None [] []);;
  tls ← gets w_tls;
  (if bool_decide (is_Some (tls !! tid)) then failM LogFatal
   else modify (λ w, set_w_tls (<[tid := l]> (w_tls w)) w));;
  mod_chan wc (set_ch_readCallback (Some (CbWakeup l)));;
  Channel_EnableReading wc;;
  mret l.

(** [EventLoop::~EventLoop], and the destructors of its members *)
Definition delete_EventLoop l : M W unit :=
  lp ← get_loop l;
  Channel_DisableAll (el_wakeupChannel lp);;
  Channel_Remove (el_wakeupChannel lp);;
  sys (sys_close (el_wakeupFd lp));;
  tid ← gets w_tid;
  modify (λ w, set_w_tls (delete tid (w_tls w)) w);;
  forM (el_pendingFunctors lp) destroy;;
  delete_Channel (el_wakeupChannel lp);;
  sys (sys_close (po_epollfd (el_poller lp)));;
  modify (λ w, set_w_loops (delete l (w_loops w)) w).

(** [EventLoop::DoPendingFunctors]. The local vector is [el_running]; its
    destructor drops the functors, first to last. *)
Definition EventLoop_DoPendingFunctors l : M W unit :=
  mod_loop l (set_el_callingPendingFunctors true);;
  lp ← get_loop l;
  let functors := el_pendingFunctors lp in
  mod_loop l (λ lp, set_el_running functors (set_el_pendingFunctors [] lp));;
  forM functors exec;;
  mod_loop l (set_el_callingPendingFunctors false);;
  forM functors (λ f,
    mod_loop l (λ lp, set_el_running (tail (el_running lp)) lp);; destroy f).

(** the body of the loop of [EventLoop::Loop] *)
Definition EventLoop_iterate l : M W unit :=
  mod_loop l (set_el_activeChannels []);;
  r ← Poller_Poll l kPollTimeMs;
  mod_loop l (λ lp, set_el_activeChannels r.2 (set_el_pollReturnTime r.1 lp));;
  mod_loop l (λ lp, set_el_iteration (i64 (el_iteration lp + 1)) lp);;
  mod_loop l (set_el_eventHandling true);;
  forM r.2 (λ c,
    mod_loop l (set_el_currentActiveChannel (Some c));;
    lp ← get_loop l;
    Channel_HandleEvent c (el_pollReturnTime lp));;
  mod_loop l (set_el_currentActiveChannel None);;
  mod_loop l (set_el_eventHandling false);;
  EventLoop_DoPendingFunctors l.

(** [while (!quit_)]: each unit of fuel is one test of [quit_]. *)
Fixpoint EventLoop_while (fuel : nat) l : M W unit :=
  match fuel with
  | O => failM OutOfFuel
  | S fuel =>
      lp ← get_loop l;
      if el_quit lp then mret tt
      else EventLoop_iterate l;; EventLoop_while fuel l
  end.

Definition EventLoop_Loop (fuel : nat) l : M W unit :=
  lp ← get_loop l;
  assertM (negb (el_looping lp));;
  EventLoop_AssertInLoopThread l;;
  mod_loop l (λ lp, set_el_quit false (set_el_looping true lp));;
  EventLoop_while fuel l;;
  mod_loop l (set_el_looping false).
End reactor.

(** ** The interest list

    What epoll(7) documents of [epoll_ctl]: the interest list of each epoll
    descriptor maps descriptors to the events and the pointer registered. A
    failed call changes nothing; modifying or deleting a registered descriptor
    succeeds. *)

Definition upd {A} (f : Z → A) (i : Z) (a : A) (j : Z) : A := if bool_decide (j = i) then a else f j.

Class EpollLaws (K : Type) `{Kernel K} : Type := {
  interest : K → Z → gmap Z (Z * loc);
  epoll_ctl_fails ep op fd ev p k e :
    (sys_epoll_ctl ep op fd ev p k).1 < 0 →
    interest (sys_epoll_ctl ep op fd ev p k).2 e = interest k e;
  epoll_ctl_sets ep op fd ev p k e :
    op = EPOLL_CTL_ADD ∨ op = EPOLL_CTL_MOD →
    0 ≤ (sys_epoll_ctl ep op fd ev p k).1 →
    interest (sys_epoll_ctl ep op fd ev p k).2 e =
      upd (interest k) ep (<[fd := (ev, p)]> (interest k ep)) e;
  epoll_ctl_modifies ep fd ev p k :
    is_Some (interest k ep !! fd) → 0 ≤ (sys_epoll_ctl ep EPOLL_CTL_MOD fd ev p k).1;
  epoll_ctl_deletes ep fd ev p k e :
    is_Some (interest k ep !! fd) →
    0 ≤ (sys_epoll_ctl ep EPOLL_CTL_DEL fd ev p k).1 ∧
    interest (sys_epoll_ctl ep EPOLL_CTL_DEL fd ev p k).2 e =
      upd (interest k) ep (delete fd (interest k ep)) e;
}.

(** equality of two stores, field by field *)
Ltac store_eq :=
  unfold set_w_kern, set_w_chans, set_w_loops, set_w_conns; rs; f_equal;
  rewrite ?insert_insert_eq.

Section poller_facts.
Context {K : Type} `{EpollLaws K}.
Abbreviation W := (World K).
Implicit Types (l c : loc) (w : W) (lp : EventLoop) (ch : Channel).

(** the entry of the interest list that a registered channel stands for *)
Definition entry (c : loc) ch : option (Z * loc) :=
  if ch_index ch =? 1 then Some (Z.lor (ch_events ch) EPOLLET, c) else None.

(** [Poller]'s invariant. [channels_] holds the channels of the loop that
    were updated and not removed, under their descriptors; [index_] tells
    whether epoll knows them, and the interest list says the same. *)
Record poller_ok (l : loc) (w : W) : Prop := {
  pk_loop : is_Some (w_loops w !! l);
  pk_registered fd c lp :
    w_loops w !! l = Some lp → po_channels (el_poller lp) !! fd = Some c →
    ∃ ch, w_chans w !! c = Some ch ∧ ch_loop ch = l ∧ ch_fd ch = fd ∧
      (ch_index ch = 1 ∨ ch_index ch = 2);
  pk_known c ch lp :
    w_loops w !! l = Some lp → w_chans w !! c = Some ch → ch_loop ch = l →
    ch_index ch ≠ -1 → po_channels (el_poller lp) !! ch_fd ch = Some c;
  pk_interest fd lp :
    w_loops w !! l = Some lp →
    interest (w_kern w) (po_epollfd (el_poller lp)) !! fd =
      (c ← po_channels (el_poller lp) !! fd; ch ← w_chans w !! c; entry c ch);
}.

(** [Channel_Update] after [events_] has been set by [f] *)
Definition update_events (f : Z → Z) c : M W unit :=
  mod_chan c (λ ch, set_ch_events (f (ch_events ch)) ch);; Channel_Update c.

(** the channel and the channel map after an update *)
Definition updated (ev : Z) ch : Channel :=
  set_ch_index (if (ch_index ch =? 1) && (ev =? 0) then 2 else 1)
    (set_ch_addedToLoop true (set_ch_events ev ch)).

Definition store_update (k : K) l lp (m : gmap Z loc) c ch w : W :=
  set_w_kern k (set_w_loops (<[l := set_channels (λ _, m) lp]> (w_loops w))
    (set_w_chans (<[c := ch]> (w_chans w)) w)).

(** epoll refuses to watch [ch] for the events [ev] *)
Definition refused (w : W) lp c ch (ev : Z) : Prop :=
  (sys_epoll_ctl (po_epollfd (el_poller lp))
     (if ch_index ch =? 1 then EPOLL_CTL_MOD else EPOLL_CTL_ADD)
     (ch_fd ch) (Z.lor ev EPOLLET) c (w_kern w)).1 < 0.

Lemma poller_ok_step l w lp c ch ch' m k :
  poller_ok l w → w_loops w !! l = Some lp → w_chans w !! c = Some ch → ch_loop ch = l →
  ch_loop ch' = l → ch_fd ch' = ch_fd ch →
  po_channels (el_poller lp) !! ch_fd ch = None ∨
    po_channels (el_poller lp) !! ch_fd ch = Some c →
  (ch_index ch' = 1 ∨ ch_index ch' = 2) ∧ m = <[ch_fd ch := c]> (po_channels (el_poller lp)) ∨
    ch_index ch' = -1 ∧ m = delete (ch_fd ch) (po_channels (el_poller lp)) →
  interest k (po_epollfd (el_poller lp)) =
    partial_alter (λ _, entry c ch') (ch_fd ch)
      (interest (w_kern w) (po_epollfd (el_poller lp))) →
  poller_ok l (store_update k l lp m c ch' w).
Proof.
  intros [_ Hreg Hknown Hint] Hl Hc Hcl Hcl' Hfd Hpm Hm Hk.
  assert (Hother : ∀ fd, fd ≠ ch_fd ch → po_channels (el_poller lp) !! fd ≠ Some c).
  { intros fd Hne E. destruct (Hreg fd c lp Hl E) as (x & E' & _ & ? & _). congruence. }
  assert (Hmo : ∀ fd, fd ≠ ch_fd ch → m !! fd = po_channels (el_poller lp) !! fd).
  { intros fd ?. destruct Hm as [[_ ->]|[_ ->]];
      [by rewrite lookup_insert_ne by done|by rewrite lookup_delete_ne by done]. }
  split; unfold store_update; simpl.
  - rewrite lookup_insert_eq. eauto.
  - intros fd c' lp'. rewrite lookup_insert_eq. intros [= <-]. simpl. intros E.
    destruct (decide (fd = ch_fd ch)) as [->|Hne].
    + destruct Hm as [[Hi ->]|[Hi ->]]; [|by rewrite lookup_delete_eq in E].
      rewrite lookup_insert_eq in E. injection E as <-. exists ch'.
      by rewrite lookup_insert_eq.
    + rewrite Hmo in E by done. destruct (decide (c' = c)) as [->|]; [by destruct (Hother fd)|].
      rewrite lookup_insert_ne by done. by eapply Hreg.
  - intros c' x lp'. rewrite lookup_insert_eq. intros [= <-]. simpl.
    destruct (decide (c' = c)) as [->|Hc'].
    + rewrite lookup_insert_eq. intros [= <-] _ Hi. rewrite Hfd.
      destruct Hm as [[_ ->]|[? _]]; [by rewrite lookup_insert_eq|done].
    + rewrite lookup_insert_ne by done. intros E El Hi.
      pose proof (Hknown c' x lp Hl E El Hi) as Ek.
      rewrite Hmo; [done|]. intros Ef. rewrite Ef in Ek. destruct Hpm; congruence.
  - intros fd lp'. rewrite lookup_insert_eq. intros [= <-]. simpl. rewrite Hk.
    destruct (decide (fd = ch_fd ch)) as [->|Hne].
    + rewrite lookup_partial_alter_eq. destruct Hm as [[Hi ->]|[Hi ->]].
      * rewrite lookup_insert_eq. simpl. by rewrite lookup_insert_eq.
      * rewrite lookup_delete_eq. simpl. unfold entry. by rewrite Hi.
    + rewrite lookup_partial_alter_ne by done. rewrite Hmo by done. rewrite (Hint fd lp Hl).
      destruct (po_channels (el_poller lp) !! fd) as [c'|] eqn:E; simpl; [|done].
      rewrite lookup_insert_ne; [done|]. intros <-. by destruct (Hother fd).
Qed.

(** [k'] is [k] after at most one call of [epoll_ctl] *)
Definition ctl_called (k k' : K) : Prop :=
  k' = k ∨ ∃ ep op fd ev p, k' = (sys_epoll_ctl ep op fd ev p k).2.

(** one call of [epoll_ctl] *)
Lemma Poller_Update_spec l c lp ch op (w : W) (Q : unit → W → Prop) F :
  w_loops w !! l = Some lp → w_chans w !! c = Some ch →
  op = EPOLL_CTL_ADD ∨ op = EPOLL_CTL_MOD →
  ((sys_epoll_ctl (po_epollfd (el_poller lp)) op (ch_fd ch) (Z.lor (ch_events ch) EPOLLET) c
      (w_kern w)).1 < 0 → F LogFatal) →
  (∀ k, ctl_called (w_kern w) k → interest k (po_epollfd (el_poller lp)) =
        <[ch_fd ch := (Z.lor (ch_events ch) EPOLLET, c)]>
          (interest (w_kern w) (po_epollfd (el_poller lp))) → Q tt (set_w_kern k w)) →
  wp F (Poller_Update l op c) Q w.
Proof.
  intros Hl Hc Hop HF HQ. unfold Poller_Update. repeat ws.
  pose proof (epoll_ctl_sets (po_epollfd (el_poller lp)) op (ch_fd ch)
    (Z.lor (ch_events ch) EPOLLET) c (w_kern w) (po_epollfd (el_poller lp)) Hop) as Hsets.
  match goal with |- context [sys_epoll_ctl ?ep op ?fd ?ev c ?k0] =>
    assert (ctl_called k0 (sys_epoll_ctl ep op fd ev c k0).2) as Hcc by (right; eauto 10) end.
  destruct (sys_epoll_ctl _ op _ _ c (w_kern w)) as [r k]. simpl in *.
  destruct (r <? 0) eqn:Hr.
  - assert (op =? EPOLL_CTL_DEL = false) as -> by (by destruct Hop as [->| ->]).
    apply wp_fail, HF. lia.
  - apply wp_ret, HQ; [done|]. rewrite Hsets by lia. unfold upd. by rewrite bool_decide_true.
Qed.

Lemma Poller_Update_del_spec l c lp ch (w : W) (Q : unit → W → Prop) F :
  w_loops w !! l = Some lp → w_chans w !! c = Some ch →
  is_Some (interest (w_kern w) (po_epollfd (el_poller lp)) !! ch_fd ch) →
  (∀ k, ctl_called (w_kern w) k → interest k (po_epollfd (el_poller lp)) =
        delete (ch_fd ch) (interest (w_kern w) (po_epollfd (el_poller lp))) →
        Q tt (set_w_kern k w)) →
  wp F (Poller_Update l EPOLL_CTL_DEL c) Q w.
Proof.
  intros Hl Hc Hin HQ. unfold Poller_Update. repeat ws.
  destruct (epoll_ctl_deletes (po_epollfd (el_poller lp)) (ch_fd ch)
    (Z.lor (ch_events ch) EPOLLET) c (w_kern w) (po_epollfd (el_poller lp)) Hin) as [Hr Hk].
  match goal with |- context [sys_epoll_ctl ?ep EPOLL_CTL_DEL ?fd ?ev c ?k0] =>
    assert (ctl_called k0 (sys_epoll_ctl ep EPOLL_CTL_DEL fd ev c k0).2) as Hcc
      by (right; eauto 10) end.
  destruct (sys_epoll_ctl _ EPOLL_CTL_DEL _ _ c (w_kern w)) as [r k]. simpl in *.
  rewrite (proj2 (Z.ltb_ge r 0)) by lia. apply wp_ret, HQ; [done|]. rewrite Hk. unfold upd.
  by rewrite bool_decide_true.
Qed.

Lemma in_loop_thread_spec l lp (w : W) (Q : bool → W → Prop) F :
  w_loops w !! l = Some lp → Q (el_threadId lp =? w_tid w) w →
  wp F (EventLoop_IsInLoopThread l) Q w.
Proof. intros Hl HQ. unfold EventLoop_IsInLoopThread. by repeat ws. Qed.

Lemma assert_in_loop_spec l lp (w : W) (Q : unit → W → Prop) F :
  w_loops w !! l = Some lp → el_threadId lp = w_tid w → Q tt w →
  wp F (EventLoop_AssertInLoopThread l) Q w.
Proof.
  intros Hl Ht HQ. unfold EventLoop_AssertInLoopThread. apply wp_ifM.
  apply (in_loop_thread_spec l lp); [done|]. by rewrite Ht, Z.eqb_refl.
Qed.

Lemma assert_in_loop_aborts l lp (w : W) :
  w_loops w !! l = Some lp → el_threadId lp ≠ w_tid w →
  EventLoop_AssertInLoopThread l w = Fail LogFatal.
Proof.
  intros Hl Ht. unfold EventLoop_AssertInLoopThread, EventLoop_IsInLoopThread, ifM, get_loop.
  rewrite !runM_bind. rewrite Hl. simpl. by rewrite (proj2 (Z.eqb_neq _ _)).
Qed.

(** the channel was in the map already *)
Lemma store_update_same k l lp fd c ch (w : W) :
  w_loops w !! l = Some lp → po_channels (el_poller lp) !! fd = Some c →
  store_update k l lp (<[fd := c]> (po_channels (el_poller lp))) c ch w =
    set_w_kern k (set_w_chans (<[c := ch]> (w_chans w)) w).
Proof.
  intros Hl Hm. unfold store_update. rewrite (insert_id (po_channels _)) by done. store_eq.
  apply insert_id. rewrite Hl. by destruct lp as [??????? [] ??????].
Qed.

Lemma index_cases l lp (w : W) c ch :
  poller_ok l w → w_loops w !! l = Some lp → w_chans w !! c = Some ch → ch_loop ch = l →
  ch_index ch = -1 ∨
  (ch_index ch = 1 ∨ ch_index ch = 2) ∧ po_channels (el_poller lp) !! ch_fd ch = Some c.
Proof.
  intros [_ Hreg Hknown _] Hl Hc Hcl. destruct (decide (ch_index ch = -1)); [by left|right].
  pose proof (Hknown c ch lp Hl Hc Hcl ltac:(done)) as E. split; [|done].
  destruct (Hreg _ _ _ Hl E) as (ch' & Hc' & _ & _ & Hi). congruence.
Qed.

(** Updating a channel registers it, and brings the interest list up to its
    events; the only fault is an [epoll_ctl] that fails. *)
Lemma update_spec (f : Z → Z) l c (w : W) lp ch (F : fault → Prop) :
  poller_ok l w → w_loops w !! l = Some lp → w_chans w !! c = Some ch → ch_loop ch = l →
  el_threadId lp = w_tid w →
  (ch_index ch = -1 → po_channels (el_poller lp) !! ch_fd ch = None) →
  (refused w lp c ch (f (ch_events ch)) → F LogFatal) →
  let ch' := updated (f (ch_events ch)) ch in
  wp F (update_events f c) (λ _ w', ∃ k,
    w' = store_update k l lp (<[ch_fd ch := c]> (po_channels (el_poller lp))) c ch' w ∧
    poller_ok l w' ∧ ctl_called (w_kern w) k ∧
    interest k (po_epollfd (el_poller lp)) =
      partial_alter (λ _, entry c ch') (ch_fd ch)
        (interest (w_kern w) (po_epollfd (el_poller lp)))) w.
Proof.
  intros Hok Hl Hc Hcl Ht Hnew HF ch'.
  assert (Hpm : po_channels (el_poller lp) !! ch_fd ch = None ∨
                po_channels (el_poller lp) !! ch_fd ch = Some c).
  { destruct (index_cases l lp w c ch Hok Hl Hc Hcl) as [?|[_ ?]]; auto. }
  assert (Hi : ch_index ch' = 1 ∨ ch_index ch' = 2).
  { simpl. destruct (_ && _); auto. }
  (* it suffices to reach the updated store *)
  cut (wp F (update_events f c) (λ _ w', ∃ k,
    w' = store_update k l lp (<[ch_fd ch := c]> (po_channels (el_poller lp))) c ch' w ∧ ctl_called (w_kern w) k ∧
    interest k (po_epollfd (el_poller lp)) =
      partial_alter (λ _, entry c ch') (ch_fd ch)
        (interest (w_kern w) (po_epollfd (el_poller lp)))) w).
  { intros Hw. eapply wp_post; [apply Hw|]. simpl. intros _ ? (k & -> & ? & Hk). exists k.
    split; [done|]. split; [|done]. by eapply poller_ok_step; eauto. }
  unfold update_events, Channel_Update, EventLoop_UpdateChannel, Poller_UpdateChannel.
  run. rewrite Hcl. eapply assert_in_loop_spec; [done|done|].
  run. eapply assert_in_loop_spec; [done|done|]. run.
  destruct (index_cases l lp w c ch Hok Hl Hc Hcl) as [Hi1|[[Hi1|Hi1] Hm]]; rewrite Hi1; simpl.
  - (* not in the map *)
    run. { by rewrite bool_decide_true by auto. }
    run. eapply Poller_Update_spec; [lookup_now|lookup_now|by left|by intros ?; apply HF; unfold refused; rewrite Hi1|].
    rs. unfold set_channels. rs. intros k ? Hk. exists k.
    split; [|split; [done|]; by rewrite Hk; unfold ch', updated, entry; rewrite Hi1].
    unfold ch', updated, store_update, set_channels. rewrite Hi1. by store_eq.
  - (* registered with epoll *)
    run.
    unfold IsNoneEvent. rs. unfold kNoneEvent. destruct (f (ch_events ch) =? 0) eqn:Hev.
    + apply wp_bind. eapply Poller_Update_del_spec; [lookup_now|lookup_now| |].
      { rs. rewrite (pk_interest l w Hok _ lp Hl), Hm. simpl. rewrite Hc. simpl.
        unfold entry. rewrite Hi1. eauto. }
      rs. intros k ? Hk. run. exists k. split; [|split; [done|]; rewrite Hk; unfold ch', updated, entry].
      * rewrite store_update_same by done. unfold ch', updated. rewrite Hi1, Hev. by store_eq.
      * by rewrite Hi1, Hev.
    + eapply Poller_Update_spec; [lookup_now|lookup_now|by right|by intros ?; apply HF; unfold refused; rewrite Hi1|].
      rs. intros k ? Hk. exists k. split; [|split; [done|]; rewrite Hk; unfold ch', updated, entry].
      * rewrite store_update_same by done. unfold ch', updated. rewrite Hi1, Hev. store_eq. simpl.
        unfold set_ch_index. rs. rewrite <- Hi1. by destruct ch.
      * by rewrite Hi1, Hev.
  - (* in the map, unknown to epoll *)
    run. eapply Poller_Update_spec; [lookup_now|lookup_now|by left|by intros ?; apply HF; unfold refused; rewrite Hi1|].
    rs. intros k ? Hk. exists k. split; [|split; [done|]; rewrite Hk; unfold ch', updated, entry].
    + rewrite store_update_same by done. unfold ch', updated. rewrite Hi1. by store_eq.
    + by rewrite Hi1.
Qed.

(** Removing a disabled channel forgets it, and cannot fail. *)
Lemma remove_spec l c (w : W) lp ch :
  poller_ok l w → w_loops w !! l = Some lp → w_chans w !! c = Some ch → ch_loop ch = l →
  el_threadId lp = w_tid w → ch_events ch = kNoneEvent → ch_index ch ≠ -1 →
  (el_eventHandling lp = true →
   el_currentActiveChannel lp = Some c ∨ c ∉ el_activeChannels lp) →
  let ch' := set_ch_index (-1) (set_ch_addedToLoop false ch) in
  wp never (Channel_Remove c) (λ _ w', ∃ k,
    w' = store_update k l lp (delete (ch_fd ch) (po_channels (el_poller lp))) c ch' w ∧
    poller_ok l w' ∧ ctl_called (w_kern w) k ∧
    interest k (po_epollfd (el_poller lp)) =
      delete (ch_fd ch) (interest (w_kern w) (po_epollfd (el_poller lp)))) w.
Proof.
  intros Hok Hl Hc Hcl Ht Hev Hne Hact ch'.
  destruct (index_cases l lp w c ch Hok Hl Hc Hcl) as [?|[Hi Hm]]; [done|].
  cut (wp never (Channel_Remove c) (λ _ w', ∃ k,
    w' = store_update k l lp (delete (ch_fd ch) (po_channels (el_poller lp))) c ch' w ∧ ctl_called (w_kern w) k ∧
    interest k (po_epollfd (el_poller lp)) =
      delete (ch_fd ch) (interest (w_kern w) (po_epollfd (el_poller lp)))) w).
  { intros Hw. eapply wp_post; [apply Hw|]. simpl. intros _ ? (k & -> & ? & Hk). exists k.
    split; [done|]. split; [|done]. eapply poller_ok_step; eauto. }
  unfold Channel_Remove, EventLoop_RemoveChannel, Poller_RemoveChannel.
  run. { unfold IsNoneEvent. by rewrite Hev. }
  run. rewrite Hcl. eapply assert_in_loop_spec; [done|done|]. run. apply wp_when_assert.
  { intros He. destruct (Hact He) as [->|?];
      [by rewrite bool_decide_true|by rewrite (bool_decide_false (c ∈ _)), orb_true_r]. }
  run. eapply assert_in_loop_spec; [done|done|]. run.
  { unfold IsNoneEvent. rs. by rewrite Hev. }
  run. { destruct Hi as [-> | ->]; done. }
  run. destruct Hi as [Hi|Hi]; rewrite Hi; simpl.
  - eapply Poller_Update_del_spec; [lookup_now|lookup_now| |].
    { rs. rewrite (pk_interest l w Hok _ lp Hl), Hm. simpl. rewrite Hc. simpl.
      unfold entry. rewrite Hi. eauto. }
    rs. intros k ? Hk. run. exists k. split; [|done]. unfold store_update, ch'. by store_eq.
  - run. exists (w_kern w). split.
    + unfold store_update, ch'. by store_eq.
    + split; [by left|]. symmetry. apply delete_id. rewrite (pk_interest l w Hok _ lp Hl), Hm. simpl.
      rewrite Hc. simpl. unfold entry. by rewrite Hi.
Qed.

(** a channel that epoll knows can always be updated *)
Lemma registered_not_refused l c (w : W) lp ch ev :
  poller_ok l w → w_loops w !! l = Some lp → w_chans w !! c = Some ch → ch_loop ch = l →
  ch_index ch = 1 → ¬ refused w lp c ch ev.
Proof.
  intros Hok Hl Hc Hcl Hi. unfold refused. rewrite Hi. simpl.
  destruct (index_cases l lp w c ch Hok Hl Hc Hcl) as [?|[_ Hm]]; [congruence|].
  apply Z.le_ngt, epoll_ctl_modifies.
  rewrite (pk_interest l w Hok _ lp Hl), Hm. simpl. rewrite Hc. simpl. unfold entry.
  rewrite Hi. eauto.
Qed.

(** the invariant depends on the channels, the poller and the interest list *)
Lemma poller_ok_frame l (w w' : W) lp lp' :
  poller_ok l w → w_loops w !! l = Some lp → w_loops w' !! l = Some lp' →
  el_poller lp' = el_poller lp → w_chans w' = w_chans w →
  interest (w_kern w') (po_epollfd (el_poller lp)) =
    interest (w_kern w) (po_epollfd (el_poller lp)) →
  poller_ok l w'.
Proof.
  intros [_ Hreg Hknown Hint] Hl Hl' Hp Hch Hk. split; [by eauto|..].
  - intros fd c x E. simplify_eq. rewrite Hp, Hch. by eapply Hreg.
  - intros c ch x E. simplify_eq. rewrite Hp, Hch. intros. by eapply Hknown.
  - intros fd x E. simplify_eq. rewrite Hp, Hch, Hk. by apply Hint.
Qed.
End poller_facts.

Section loop_facts.
Context {K : Type} `{Kernel K} (F : fault → Prop).
Abbreviation W := (World K).
Implicit Types (l c : loc) (w : W) (lp : EventLoop).

(** the kernel after [QueueInLoop]: woken unless the loop is sure to look *)
Definition kern_queued lp w : K :=
  if negb (el_threadId lp =? w_tid w) || el_callingPendingFunctors lp
  then (sys_write (el_wakeupFd lp) (le_bytes 8 1) (w_kern w)).2 else w_kern w.

Definition queued l lp (f : functor) w : W :=
  set_w_kern (kern_queued lp w) (set_w_loops
    (<[l := set_el_pendingFunctors (el_pendingFunctors lp ++ [f]) lp]> (w_loops w)) w).

Lemma wp_QueueInLoop l f lp (Q : unit → W → Prop) w :
  w_loops w !! l = Some lp → Q tt (queued l lp f w) → wp F (EventLoop_QueueInLoop l f) Q w.
Proof.
  intros Hl HQ. unfold EventLoop_QueueInLoop, EventLoop_IsInLoopThread, EventLoop_Wakeup.
  run. unfold queued, kern_queued in HQ.
  destruct (negb (el_threadId lp =? w_tid w) || el_callingPendingFunctors lp); run; done.
Qed.

Lemma wp_RunInLoop l f body lp (Q : unit → W → Prop) w :
  w_loops w !! l = Some lp →
  (el_threadId lp = w_tid w → wp F body Q w) →
  (el_threadId lp ≠ w_tid w → Q tt (queued l lp f w)) →
  wp F (EventLoop_RunInLoop l f body) Q w.
Proof.
  intros Hl Hin Hout. unfold EventLoop_RunInLoop, EventLoop_IsInLoopThread. run.
  destruct (Z.eqb_spec (el_threadId lp) (w_tid w)); [auto|].
  apply (wp_QueueInLoop l f lp); auto.
Qed.
End loop_facts.

(** ** Properties *)

(** the operations of a channel *)
Inductive chan_op : Type :=
| EnableReading | DisableReading | EnableWriting | DisableWriting | DisableAll | Remove.

#[export] Instance chan_op_eq_dec : EqDecision chan_op.
Proof. solve_decision. Defined.

(** the events a channel asks for after an operation *)
Definition op_events (o : chan_op) (ev : Z) : Z :=
  match o with
  | EnableReading => Z.lor ev kReadEvent
  | DisableReading => Z.land ev (Z.lnot kReadEvent)
  | EnableWriting => Z.lor ev kWriteEvent
  | DisableWriting => Z.land ev (Z.lnot kWriteEvent)
  | DisableAll => kNoneEvent
  | Remove => ev
  end.

Definition run_chan_op {K} `{Kernel K} (o : chan_op) (c : loc) : M (World K) unit :=
  match o with
  | EnableReading => Channel_EnableReading c
  | DisableReading => Channel_DisableReading c
  | EnableWriting => Channel_EnableWriting c
  | DisableWriting => Channel_DisableWriting c
  | DisableAll => Channel_DisableAll c
  | Remove => Channel_Remove c
  end.

(** what the interest list should become: a removed channel is gone, a watched
    one that asks for nothing is gone, any other is watched for its events,
    edge-triggered *)
Definition spec_interest (o : chan_op) (c : loc) (ch : Channel) (m : gmap Z (Z * loc)) :
    gmap Z (Z * loc) :=
  let ev := op_events o (ch_events ch) in
  if bool_decide (o = Remove) || (ch_index ch =? 1) && (ev =? kNoneEvent)
  then delete (ch_fd ch) m
  else <[ch_fd ch := (Z.lor ev EPOLLET, c)]> m.

(** when the code may call an operation *)
Definition op_allowed (o : chan_op) (c : loc) (ch : Channel) (lp : EventLoop) : Prop :=
  match o with
  | Remove =>
      ch_events ch = kNoneEvent ∧ ch_index ch ≠ -1 ∧
      (el_eventHandling lp = true →
       el_currentActiveChannel lp = Some c ∨ c ∉ el_activeChannels lp)
  | _ => ch_index ch = -1 → po_channels (el_poller lp) !! ch_fd ch = None
  end.

(** C19: The poller keeps epoll's interest list in step with the channels. In a
    state where the channel map, [index_] and the interest list agree, any
    operation on a channel, called in the loop's thread where the code may
    call it, trips no assertion; it fails only by [LOG_FATAL], and only when
    [epoll_ctl] itself refuses. Otherwise the three agree again, and the
    interest list is exactly the specified one. *)
Theorem channel_op_interest {K} `{EpollLaws K} (o : chan_op) c l (w : World K) lp ch :
  poller_ok l w → w_loops w !! l = Some lp → w_chans w !! c = Some ch → ch_loop ch = l →
  el_threadId lp = w_tid w → op_allowed o c ch lp →
  match run_chan_op o c w with
  | Ok (_, w') =>
      poller_ok l w' ∧
      interest (w_kern w') (po_epollfd (el_poller lp)) =
        spec_interest o c ch (interest (w_kern w) (po_epollfd (el_poller lp))) ∧
      ∃ ch', w_chans w' !! c = Some ch' ∧ ch_events ch' = op_events o (ch_events ch)
  | Fail e => e = LogFatal ∧ refused w lp c ch (op_events o (ch_events ch))
  end.
Proof.
  intros Hok Hl Hc Hcl Ht Hop. destruct (decide (o = Remove)) as [->|Hne].
  - destruct Hop as (Hev & Hi & Hact).
    destruct (wp_ok_inv _ _ _ (remove_spec l c w lp ch Hok Hl Hc Hcl Ht Hev Hi Hact))
      as ([] & w' & E & k & -> & Hok' & _ & Hk).
    simpl. rewrite E. split; [done|]. split; [done|].
    eexists. split; [unfold store_update; rs; apply lookup_insert_eq|done].
  - assert (Hnew : ch_index ch = -1 → po_channels (el_poller lp) !! ch_fd ch = None)
      by (by destruct o).
    pose proof (update_spec (op_events o) l c w lp ch
      (λ e, e = LogFatal ∧ refused w lp c ch (op_events o (ch_events ch)))
      Hok Hl Hc Hcl Ht Hnew (λ r, conj eq_refl r)) as Hw.
    assert (E : run_chan_op o c w = update_events (op_events o) c w) by (by destruct o).
    rewrite E. unfold wp in Hw. destruct (update_events _ _ _) as [[[] w']|e]; [|done].
    destruct Hw as (k & -> & Hok' & _ & Hk). split; [done|].
    split; [|eexists; split; [unfold store_update; rs; apply lookup_insert_eq|done]].
    unfold store_update. rs. rewrite Hk. unfold spec_interest, entry, updated. rs.
    rewrite (bool_decide_false (o = Remove)) by done. simpl.
    by destruct ((ch_index ch =? 1) && (op_events o (ch_events ch) =? kNoneEvent)) eqn:Eb;
      fold kNoneEvent; rewrite Eb.
Qed.
