(* ===== verification/Sockets.v ===== *)
(** * Socket helpers and time stamps

    [net/SocketUtil.cpp] over the system calls of [Kernel], and
    [base/Timestamp]. *)
From Stdlib Require Import Floats.SpecFloat.
From S2P Require Import Prelude RingBuffer Protocol World Reactor.

Definition EPERM : Z := 1.
Definition EBADF : Z := 9.
Definition EAGAIN : Z := 11.
Definition EWOULDBLOCK : Z := 11.
Definition ENOMEM : Z := 12.
Definition EFAULT : Z := 14.
Definition EINVAL : Z := 22.
Definition ENFILE : Z := 23.
Definition EMFILE : Z := 24.
Definition EPIPE : Z := 32.
Definition EPROTO : Z := 71.
Definition ENOTSOCK : Z := 88.
Definition EOPNOTSUPP : Z := 95.
Definition ECONNABORTED : Z := 103.
Definition ECONNRESET : Z := 104.
Definition ENOBUFS : Z := 105.

Definition IPPROTO_TCP : Z := 6.
Definition SOL_SOCKET : Z := 1.
Definition SO_REUSEADDR : Z := 2.
Definition SO_KEEPALIVE : Z := 9.
Definition SO_REUSEPORT : Z := 15.
Definition TCP_NODELAY : Z := 1.
Definition F_GETFD : Z := 1.
Definition F_SETFD : Z := 2.
Definition F_GETFL : Z := 3.
Definition F_SETFL : Z := 4.
Definition FD_CLOEXEC : Z := 1.
Definition O_NONBLOCK : Z := 0x800.

(** [snprintf(buf, size, ...)] of the text [s]: [buf] as a C string *)
Definition snprintf (size : nat) (s : string) : string := String.substring 0 (size - 1) s.

(** how [sockets::Accept] treats [errno] *)
Inductive accept_error : Type := Transient | Fatal.

#[export] Instance accept_error_eq_dec : EqDecision accept_error.
Proof. solve_decision. Defined.

Definition accept_errno (e : Z) : accept_error :=
  if bool_decide (e ∈ [EAGAIN; ECONNABORTED; EINTR; EPROTO; EPERM; EMFILE]) then Transient
  else if bool_decide (e ∈ [EBADF; EFAULT; EINVAL; ENFILE; ENOBUFS; ENOMEM; ENOTSOCK; EOPNOTSUPP])
  then Fatal (* unexpected error *)
  else Fatal (* unknown error *).

Section sockets.
Context {K : Type} `{Kernel K}.
Abbreviation W := (World K).

Definition or_die (r : Z) : M W Z := if r <? 0 then failM LogFatal else mret r.

Definition sockets_CreateNonblockingOrDie : M W Z :=
  sockfd ← sys sys_socket; or_die sockfd.

Definition sockets_BindOrDie (sockfd : Z) (addr : sockaddr_in) : M W unit :=
  ret ← sys (sys_bind sockfd addr); or_die ret;; mret tt.

Definition sockets_ListenOrDie (sockfd : Z) : M W unit :=
  ret ← sys (sys_listen sockfd); or_die ret;; mret tt.

(** [sockets::Accept]: the descriptor, [errno] and the peer's address *)
Definition sockets_Accept (sockfd : Z) : M W (Z * Z * sockaddr_in) :=
  r ← sys (sys_accept sockfd);
  if r.1.1 <? 0 then
    match accept_errno r.1.2 with
    | Transient => mret r
    | Fatal => failM LogFatal
    end
  else mret r.

Definition sockets_Close (sockfd : Z) : M W unit :=
  sys (sys_close sockfd);; mret tt (* LOG_ERROR on failure *).

Definition sockets_ShutdownWrite (sockfd : Z) : M W unit :=
  sys (sys_shutdown sockfd);; mret tt (* LOG_ERROR on failure *).

Definition sockets_SetNonBlockAndCloseOnExec (sockfd : Z) : M W unit :=
  flags ← sys (sys_fcntl sockfd F_GETFL 0);
  sys (sys_fcntl sockfd F_SETFL (Z.lor flags O_NONBLOCK));;
  flags ← sys (sys_fcntl sockfd F_GETFD 0);
  sys (sys_fcntl sockfd F_SETFD (Z.lor flags FD_CLOEXEC));;
  mret tt.

Definition set_option (sockfd level name : Z) (on : bool) : M W unit :=
  sys (sys_setsockopt sockfd level name (if on then 1 else 0));; mret tt.
Definition sockets_SetReuseAddr (sockfd : Z) (on : bool) : M W unit :=
  set_option sockfd SOL_SOCKET SO_REUSEADDR on.
Definition sockets_SetReusePort (sockfd : Z) (on : bool) : M W unit :=
  set_option sockfd SOL_SOCKET SO_REUSEPORT on (* LOG_ERROR on failure *).
Definition sockets_SetTcpNoDelay (sockfd : Z) (on : bool) : M W unit :=
  set_option sockfd IPPROTO_TCP TCP_NODELAY on.
Definition sockets_SetKeepAlive (sockfd : Z) (on : bool) : M W unit :=
  set_option sockfd SOL_SOCKET SO_KEEPALIVE on.

(** the zeroed structure when the call fails *)
Definition zero_addr : sockaddr_in := mkSockaddr 0 0.

Definition sockets_GetLocalAddr (sockfd : Z) : M W sockaddr_in :=
  r ← sys (sys_getsockname sockfd); mret (default zero_addr r).

Definition sockets_GetPeerAddr (sockfd : Z) : M W sockaddr_in :=
  r ← sys (sys_getpeername sockfd); mret (default zero_addr r).

Definition sockets_GetSocketError (sockfd : Z) : M W Z :=
  r ← sys (sys_so_error sockfd);
  mret (if r.1.1 <? 0 then r.2 else r.1.2).

Definition sockets_IsSelfConnect (sockfd : Z) : M W bool :=
  localaddr ← sockets_GetLocalAddr sockfd;
  peeraddr ← sockets_GetPeerAddr sockfd;
  mret ((sin_port localaddr =? sin_port peeraddr) && (sin_addr localaddr =? sin_addr peeraddr)).

Definition sockets_ToIp (addr : sockaddr_in) : string := inet_ntop (sin_addr addr).

Definition sockets_ToIpPort (addr : sockaddr_in) : string :=
  let ip := inet_ntop (sin_addr addr) in
  (ip ++ snprintf (64 - String.length ip) (":" ++ pretty (u16 (sin_port addr))))%string.

(** [sockets::FromIpPort] on [*addr]: an address that does not parse is left
    as it was *)
Definition sockets_FromIpPort (ip : string) (port : Z) (addr : sockaddr_in) : sockaddr_in :=
  mkSockaddr (default (sin_addr addr) (inet_pton ip)) port.
End sockets.

(** ** Timestamp *)

Section timestamp.
Definition Timestamp_Invalid : Z := 0.
Definition Timestamp_Valid (t : Z) : bool := 0 <? t.
Definition SecondsSinceEpoch (t : Z) : Z := Z.quot t 1000000.

Definition Timestamp_lt (a b : Z) : bool := a <? b.
Definition Timestamp_gt (a b : Z) : bool := b <? a.
Definition Timestamp_eq (a b : Z) : bool := a =? b.

(** [%0wd] *)
Definition pad0 (w : nat) (z : Z) : string :=
  let digits := pretty (Z.abs z) in
  let sign := (if (z <? 0)%Z then "-" else "")%string in
  (sign ++ String.concat "" (replicate (w - String.length sign - String.length digits) "0")
        ++ digits)%string.

Definition Timestamp_ToString (t : Z) : string :=
  let seconds := Z.quot t kMicroSecondsPerSecond in
  let microseconds := Z.rem t kMicroSecondsPerSecond in
  snprintf 32 (pretty seconds ++ "." ++ pad0 6 microseconds).

(** the calendar fields [localtime_r] fills in *)
Record tm : Type := mkTm {
  tm_year : Z; tm_mon : Z; tm_mday : Z; tm_hour : Z; tm_min : Z; tm_sec : Z
}.

(** [%wd] *)
Definition pad_space (w : nat) (z : Z) : string :=
  (String.concat "" (replicate (w - String.length (pretty z)) " ") ++ pretty z)%string.

(** [localtime_r] is a parameter: the local time of a number of seconds *)
Definition ToFormattedString (localtime_r : Z → tm) (showMicroseconds : bool) (t : Z) : string :=
  let seconds := Z.quot t kMicroSecondsPerSecond in
  let microseconds := i32 (Z.rem t kMicroSecondsPerSecond) in
  let tm_time := localtime_r seconds in
  let date :=
    (pad_space 4 (i32 (tm_year tm_time + 1900)) ++ pad0 2 (i32 (tm_mon tm_time + 1))
     ++ pad0 2 (tm_mday tm_time) ++ " " ++ pad0 2 (tm_hour tm_time) ++ ":"
     ++ pad0 2 (tm_min tm_time) ++ ":" ++ pad0 2 (tm_sec tm_time))%string in
  snprintf 64 (if showMicroseconds then date ++ "." ++ pad0 6 microseconds else date)%string.

(** [double] is the IEEE 754 binary64 format. [static_cast<double>] of an
    integer rounds to nearest; [static_cast<int64_t>] truncates, and is
    undefined when the result does not fit. *)
Abbreviation double := spec_float.
Definition double_prec : Z := 53.
Definition double_emax : Z := 1024.

Definition double_of_int (z : Z) : double := binary_normalize double_prec double_emax z 0 false.
Definition double_mul (x y : double) : double := SFmul double_prec double_emax x y.
Definition double_div (x y : double) : double := SFdiv double_prec double_emax x y.

Definition int_of_double (x : double) : outcome Z :=
  match x with
  | S754_zero _ => Ok 0
  | S754_finite s m e =>
      let n := cond_Zopp s (if 0 <=? e then Zpos m * 2 ^ e else Zpos m / 2 ^ (- e)) in
      _ ← defined_if ((- 2 ^ 63 <=? n) && (n <? 2 ^ 63)); Ok n
  | S754_infinity _ | S754_nan => Fail UndefinedBehaviour
  end.

(** signed 64-bit addition, undefined when it overflows *)
Definition int64_checked (z : Z) : outcome Z :=
  _ ← defined_if ((- 2 ^ 63 <=? z) && (z <? 2 ^ 63)); Ok z.

Definition TimeDifference (high low : Z) : outcome double :=
  diff ← int64_checked (high - low);
  Ok (double_div (double_of_int diff) (double_of_int kMicroSecondsPerSecond)).

Definition AddTime (timestamp : Z) (seconds : double) : outcome Z :=
  delta ← int_of_double (double_mul seconds (double_of_int kMicroSecondsPerSecond));
  int64_checked (timestamp + delta).

(** adding a difference to the earlier time *)
Definition add_difference (high low : Z) : outcome Z :=
  d ← TimeDifference high low; AddTime low d.
End timestamp.

(** The difference is counted in seconds, in a [double], and truncated when it
    is added: 249 microseconds become 248. Below ten milliseconds at most one
    microsecond is lost, and none of the whole milliseconds. *)
Lemma add_difference_loses : add_difference 1249 1000 = Ok 1248.
Proof. reflexivity. Qed.

(** what is added for a difference of [d] microseconds *)
Definition difference_added (d : Z) : outcome Z :=
  int_of_double (double_mul (double_div (double_of_int d) (double_of_int kMicroSecondsPerSecond))
    (double_of_int kMicroSecondsPerSecond)).
Definition loses_at_most_one (d : Z) : bool :=
  match difference_added d with
  | Ok t => (d - 1 <=? t) && (t <=? d) && ((t =? d) || negb (d mod 1000 =? 0))
  | Fail _ => false
  end.
Lemma differences_below_10ms : forallb (λ n, loses_at_most_one (Z.of_nat n)) (seq 0 (Z.to_nat 10000)) = true.
Proof. vm_compute. reflexivity. Qed.

Lemma add_difference_bound low d :
  0 ≤ d < 10000 → 0 ≤ low → low + d < 2 ^ 63 →
  ∃ t, add_difference (low + d) low = Ok t ∧ low + d - 1 ≤ t ≤ low + d ∧
    (d mod 1000 = 0 → t = low + d).
Proof.
  intros Hd Hlow Hhigh. pose proof differences_below_10ms as Hall. rewrite forallb_forall in Hall.
  specialize (Hall (Z.to_nat d) ltac:(apply in_seq; lia)). cbv beta in Hall.
  rewrite Z2Nat.id in Hall by lia. unfold loses_at_most_one in Hall.
  unfold add_difference, TimeDifference, int64_checked. replace (low + d - low) with d by lia.
  rewrite defined_ok by lia. rewrite !bind_ok. unfold AddTime. fold (difference_added d).
  destruct (difference_added d) as [t|e]; [|done]. rewrite bind_ok. unfold int64_checked.
  apply andb_true_iff in Hall as [[?%Z.leb_le ?%Z.leb_le]%andb_true_iff Hm].
  rewrite defined_ok by lia. rewrite bind_ok. exists (low + t). split; [done|]. split; [lia|].
  intros Hz. rewrite Hz in Hm. simpl in Hm. rewrite orb_false_r in Hm. apply Z.eqb_eq in Hm. lia.
Qed.

Section socket_facts.
Context {K : Type} `{Kernel K} (F : fault → Prop).
Abbreviation W := (World K).
Implicit Types w : W.

(** every helper but the [OrDie] ones and [Accept] returns *)
Lemma wp_ShutdownWrite fd (Q : unit → W → Prop) w :
  Q tt (set_w_kern (sys_shutdown fd (w_kern w)).2 w) → wp F (sockets_ShutdownWrite fd) Q w.
Proof. intros HQ. unfold sockets_ShutdownWrite. by repeat ws. Qed.

Lemma wp_GetSocketError fd (Q : Z → W → Prop) w :
  (∀ e, Q e (set_w_kern (sys_so_error fd (w_kern w)).2 w)) → wp F (sockets_GetSocketError fd) Q w.
Proof. intros HQ. unfold sockets_GetSocketError. repeat ws. apply HQ. Qed.
End socket_facts.
