(* ===== verification/Connection.v ===== *)
(** * TcpConnection (net/TcpConnection.cpp)

    A connection lives in the loop of its IO thread. Its output goes straight
    to the socket while nothing is pending, and through the output buffer
    otherwise; the write event is enabled exactly while the buffer holds
    bytes. *)
From S2P Require Import Prelude RingBuffer Protocol World Reactor Sockets.

Section connection.
Context {K : Type} `{Kernel K}.
Abbreviation W := (World K).
Implicit Types (c : loc) (w : W).

(** the callbacks given to every connection *)
Context (connectionCallback : loc → M W unit).
Context (messageCallback : loc → Z → M W unit).
Context (closeCallback : loc → M W unit).

Definition StateToString (s : conn_state) : string :=
  match s with
  | kDisconnected => "kDisconnected"
  | kConnecting => "kConnecting"
  | kConnected => "kConnected"
  | kDisconnecting => "kDisconnecting"
  end.

Definition Connected (conn : TcpConnection) : bool := bool_decide (tc_state conn = kConnected).
Definition Disconnected (conn : TcpConnection) : bool :=
  bool_decide (tc_state conn = kDisconnected).

(** [TcpConnection::TcpConnection], with the allocation of the object *)
Definition new_TcpConnection (loop : loc) (name : string) (sockfd : Z)
    (localAddr peerAddr : sockaddr_in) : M W loc :=
  c ← alloc;
  chan ← alloc;
  put_chan chan (new_Channel loop sockfd);;
  put_conn c (mkTcpConnection loop name kConnecting true sockfd chan localAddr peerAddr
                false false (64 * 1024 * 1024) 0 (new_RingBuffer 1024) (new_RingBuffer 1024));;
  mod_chan chan (set_ch_readCallback (Some (CbConnRead c)));;
  mod_chan chan (set_ch_writeCallback (Some (CbConnWrite c)));;
  mod_chan chan (set_ch_closeCallback (Some (CbConnClose c)));;
  mod_chan chan (set_ch_errorCallback (Some (CbConnError c)));;
  sockets_SetKeepAlive sockfd true;;
  mret c.

(** [TcpConnection::~TcpConnection], with the release of the object and of
    its channel; the socket is not closed *)
Definition delete_TcpConnection c : M W unit :=
  conn ← get_conn c;
  assertM (bool_decide (tc_state conn = kDisconnected));;
  delete_Channel (tc_channel conn);;
  modify (λ w, set_w_conns (delete c (w_conns w)) w).

(** the attempt of [SendInLoop] to write at once: [nwrote], [remaining] and
    [faultError] *)
Definition SendInLoop_write c (data : list byte) : M W (Z * Z * bool) :=
  conn ← get_conn c;
  ch ← get_chan (tc_channel conn);
  let len := Z.of_nat (length data) in
  if negb (IsWriting ch) && (ReadableBytes (tc_outputBuffer conn) =? 0) then
    r ← sys (sys_write (ch_fd ch) data);
    if 0 <=? r.1 then
      let remaining := u64 (len - r.1) in
      when ((remaining =? 0) && tc_writeCompleteCallback conn)
        (EventLoop_QueueInLoop (tc_loop conn) (FWriteComplete c));;
      mret (r.1, remaining, false)
    else
      mret (0, len, negb (r.2 =? EWOULDBLOCK) && ((r.2 =? EPIPE) || (r.2 =? ECONNRESET)))
  else mret (0, len, false).

(** the part of [SendInLoop] that keeps what was not written *)
Definition SendInLoop_buffer c (rest : list byte) : M W unit :=
  conn ← get_conn c;
  let remaining := Z.of_nat (length rest) in
  let oldLen := ReadableBytes (tc_outputBuffer conn) in
  when ((tc_highWaterMark conn <=? u64 (oldLen + remaining))
        && (oldLen <? tc_highWaterMark conn) && tc_highWaterMarkCallback conn)
    (EventLoop_QueueInLoop (tc_loop conn) (FHighWaterMark c (u64 (oldLen + remaining))));;
  conn ← get_conn c;
  out ← lift (Append rest (tc_outputBuffer conn));
  mod_conn c (set_tc_outputBuffer out);;
  ch ← get_chan (tc_channel conn);
  when (negb (IsWriting ch)) (Channel_EnableWriting (tc_channel conn)).

(** [TcpConnection::SendInLoop(const void*, size_t)] *)
Definition TcpConnection_SendInLoop c (data : list byte) : M W unit :=
  conn ← get_conn c;
  EventLoop_AssertInLoopThread (tc_loop conn);;
  if bool_decide (tc_state conn = kDisconnected) then mret tt (* LOG_WARN *)
  else
    r ← SendInLoop_write c data;
    let '(nwrote, remaining, faultError) := r in
    assertM (remaining <=? Z.of_nat (length data));;
    when (negb faultError && (0 <? remaining))
      (SendInLoop_buffer c (take (Z.to_nat remaining) (drop (Z.to_nat nwrote) data))).

(** [TcpConnection::Send(const std::string&)] *)
Definition TcpConnection_Send c (message : list byte) : M W unit :=
  conn ← get_conn c;
  if bool_decide (tc_state conn = kConnected) then
    ifM (EventLoop_IsInLoopThread (tc_loop conn))
      (TcpConnection_SendInLoop c message)
      (EventLoop_RunInLoop (tc_loop conn) (FSendInLoop c message)
         (TcpConnection_SendInLoop c message))
  else mret tt.

(** [TcpConnection::Send(const void*, int)]: a negative length, as a
    [size_t], exceeds [std::string::max_size] *)
Definition TcpConnection_Send_ptr c (data : list byte) (len : Z) : M W unit :=
  if len <? 0 then failM Exception
  else
    lift (defined_if (len <=? Z.of_nat (length data)));;
    TcpConnection_Send c (take (Z.to_nat len) data).

(** [TcpConnection::Send(RingBuffer* )]: the buffer after the call *)
Definition TcpConnection_Send_buffer c (buf : RingBuffer) : M W RingBuffer :=
  conn ← get_conn c;
  if bool_decide (tc_state conn = kConnected) then
    ifM (EventLoop_IsInLoopThread (tc_loop conn))
      (data ← lift (Peek (ReadableBytes buf) buf);
       TcpConnection_SendInLoop c data;;
       mret (RetrieveAll buf))
      (r ← lift (RetrieveAllAsString buf);
       EventLoop_RunInLoop (tc_loop conn) (FSendInLoop c r.1)
         (TcpConnection_SendInLoop c r.1);;
       mret r.2)
  else mret buf.

Definition TcpConnection_ShutdownInLoop c : M W unit :=
  conn ← get_conn c;
  EventLoop_AssertInLoopThread (tc_loop conn);;
  ch ← get_chan (tc_channel conn);
  when (negb (IsWriting ch)) (sockets_ShutdownWrite (tc_socket conn)).

Definition TcpConnection_Shutdown c : M W unit :=
  conn ← get_conn c;
  when (bool_decide (tc_state conn = kConnected))
    (mod_conn c (set_tc_state kDisconnecting);;
     EventLoop_RunInLoop (tc_loop conn) (FShutdownInLoop c) (TcpConnection_ShutdownInLoop c)).

Definition is_open (s : conn_state) : bool :=
  bool_decide (s = kConnected) || bool_decide (s = kDisconnecting).

Definition TcpConnection_ForceClose c : M W unit :=
  conn ← get_conn c;
  when (is_open (tc_state conn))
    (mod_conn c (set_tc_state kDisconnecting);;
     EventLoop_QueueInLoop (tc_loop conn) (FForceCloseInLoop c)).

Definition TcpConnection_HandleClose c : M W unit :=
  conn ← get_conn c;
  EventLoop_AssertInLoopThread (tc_loop conn);;
  assertM (is_open (tc_state conn));;
  mod_conn c (set_tc_state kDisconnected);;
  Channel_DisableAll (tc_channel conn);;
  connectionCallback c;;
  closeCallback c.

Definition TcpConnection_ForceCloseInLoop c : M W unit :=
  conn ← get_conn c;
  EventLoop_AssertInLoopThread (tc_loop conn);;
  when (is_open (tc_state conn)) (TcpConnection_HandleClose c).

Definition TcpConnection_SetTcpNoDelay c (on : bool) : M W unit :=
  conn ← get_conn c; sockets_SetTcpNoDelay (tc_socket conn) on.

Definition TcpConnection_ConnectEstablished c : M W unit :=
  conn ← get_conn c;
  EventLoop_AssertInLoopThread (tc_loop conn);;
  assertM (bool_decide (tc_state conn = kConnecting));;
  mod_conn c (set_tc_state kConnected);;
  Channel_EnableReading (tc_channel conn);;
  connectionCallback c.

Definition TcpConnection_ConnectDestroyed c : M W unit :=
  conn ← get_conn c;
  EventLoop_AssertInLoopThread (tc_loop conn);;
  when (bool_decide (tc_state conn = kConnected))
    (mod_conn c (set_tc_state kDisconnected);;
     Channel_DisableAll (tc_channel conn);;
     connectionCallback c);;
  Channel_Remove (tc_channel conn).

Definition TcpConnection_HandleError c : M W unit :=
  conn ← get_conn c;
  ch ← get_chan (tc_channel conn);
  sockets_GetSocketError (ch_fd ch);;
  mret tt (* LOG_ERROR *).

Definition TcpConnection_HandleRead c (receiveTime : Z) : M W unit :=
  conn ← get_conn c;
  EventLoop_AssertInLoopThread (tc_loop conn);;
  ch ← get_chan (tc_channel conn);
  rv ← sys (sys_readv (ch_fd ch) (ReadFd_iov (tc_inputBuffer conn)));
  r ← lift (ReadFd (λ _, rv) (tc_inputBuffer conn));
  let '(n, _, buf) := r in
  mod_conn c (set_tc_inputBuffer buf);;
  if 0 <? n then messageCallback c receiveTime
  else if n =? 0 then TcpConnection_HandleClose c
  else TcpConnection_HandleError c.

Definition TcpConnection_HandleWrite c : M W unit :=
  conn ← get_conn c;
  EventLoop_AssertInLoopThread (tc_loop conn);;
  ch ← get_chan (tc_channel conn);
  if IsWriting ch then
    data ← lift (Peek (ReadableBytes (tc_outputBuffer conn)) (tc_outputBuffer conn));
    r ← sys (sys_write (ch_fd ch) data);
    if 0 <? r.1 then
      out ← lift (Retrieve r.1 (tc_outputBuffer conn));
      mod_conn c (set_tc_outputBuffer out);;
      when (ReadableBytes out =? 0)
        (Channel_DisableWriting (tc_channel conn);;
         when (tc_writeCompleteCallback conn)
           (EventLoop_QueueInLoop (tc_loop conn) (FWriteComplete c));;
         conn ← get_conn c;
         when (bool_decide (tc_state conn = kDisconnecting)) (TcpConnection_ShutdownInLoop c))
    else mret tt (* LOG_ERROR *)
  else mret tt (* LOG_TRACE *).

(** [DefaultConnectionCallback] and [DefaultMessageCallback] *)
Definition DefaultConnectionCallback c : M W unit := mret tt (* LOG_TRACE *).
Definition DefaultMessageCallback c (receiveTime : Z) : M W unit :=
  mod_conn c (λ conn, set_tc_inputBuffer (RetrieveAll (tc_inputBuffer conn)) conn).
End connection.

(** ** What the sockets promise

    [sent k fd] is what has been written to [fd] and [fin k fd] whether the
    shutdown of its write side was requested, as write(2) and shutdown(2)
    document them; no other call the connection makes changes either, and none
    but [epoll_ctl] changes an interest list. *)

Class SocketLaws (K : Type) `{EpollLaws K} : Type := {
  sent : K → Z → list byte;
  fin : K → Z → bool;
  write_bound fd d k : (sys_write fd d k).1.1 ≤ Z.of_nat (length d);
  write_sent fd d k fd' :
    sent (sys_write fd d k).2 fd' =
      upd (sent k) fd (sent k fd ++ take (Z.to_nat (sys_write fd d k).1.1) d) fd';
  write_fin fd d k fd' : fin (sys_write fd d k).2 fd' = fin k fd';
  write_interest fd d k e : interest (sys_write fd d k).2 e = interest k e;
  ctl_sent ep op fd ev p k fd' : sent (sys_epoll_ctl ep op fd ev p k).2 fd' = sent k fd';
  ctl_fin ep op fd ev p k fd' : fin (sys_epoll_ctl ep op fd ev p k).2 fd' = fin k fd';
  shutdown_sent fd k fd' : sent (sys_shutdown fd k).2 fd' = sent k fd';
  shutdown_fin fd k fd' : fin (sys_shutdown fd k).2 fd' = upd (fin k) fd true fd';
  shutdown_interest fd k e : interest (sys_shutdown fd k).2 e = interest k e;
  (** readv(2) returns at most what fits, and reading or telling the time
      changes nothing else *)
  readv_fits fd k : readv_bounded (λ iov, (sys_readv fd iov k).1);
  readv_quiet fd iov k :
    sent (sys_readv fd iov k).2 = sent k ∧ fin (sys_readv fd iov k).2 = fin k ∧
    interest (sys_readv fd iov k).2 = interest k;
  now_quiet k :
    sent (sys_now k).2 = sent k ∧ fin (sys_now k).2 = fin k ∧
    interest (sys_now k).2 = interest k;
}.

(** ** The output of a connection as a stream *)

(** What a connection promises its users about output: the bytes it accepted,
    and whether its write side is being closed. *)
Record stream : Type := mkStream { st_accepted : list byte; st_closing : bool }.

Inductive stream_op : Type :=
| OSend (message : list byte)      (* TcpConnection::Send *)
| OWritable                        (* the socket became writable *)
| OShutdown.                       (* TcpConnection::Shutdown *)

Definition stream_step (o : stream_op) (s : stream) : stream :=
  match o with
  | OSend m => if st_closing s then s else mkStream (st_accepted s ++ m) false
  | OWritable => s
  | OShutdown => mkStream (st_accepted s) true
  end.

Definition op_length (o : stream_op) : Z :=
  match o with OSend m => Z.of_nat (length m) | _ => 0 end.

Section output.
Context {K : Type} `{SocketLaws K}.
Abbreviation W := (World K).
Implicit Types (c l chan : loc) (w : W) (conn : TcpConnection) (s : stream).

Definition run_op (o : stream_op) c : M W unit :=
  match o with
  | OSend m => TcpConnection_Send c m
  | OWritable => TcpConnection_HandleWrite c
  | OShutdown => TcpConnection_Shutdown c
  end.

(** an established connection, seen from its own thread: [l], [chan] and
    [fd] are its loop, channel and socket *)
Record conn_ok c l chan (fd : Z) conn (ch : Channel) (lp : EventLoop) w : Prop := {
  ck_conn : w_conns w !! c = Some conn;
  ck_chan : w_chans w !! chan = Some ch;
  ck_loop : w_loops w !! l = Some lp;
  ck_tcloop : tc_loop conn = l;
  ck_tcchan : tc_channel conn = chan;
  ck_tcfd : tc_socket conn = fd;
  ck_chfd : ch_fd ch = fd;
  ck_chloop : ch_loop ch = l;
  ck_thread : el_threadId lp = w_tid w;
  ck_wakeup : el_wakeupFd lp ≠ fd;
  ck_poller : poller_ok l w;
  ck_in : rb_inv (tc_inputBuffer conn);
  ck_out : rb_inv (tc_outputBuffer conn);
  ck_index : ch_index ch = 1;
  ck_events : ch_events ch =
    if decide (contents (tc_outputBuffer conn) = []) then kReadEvent
    else Z.lor kReadEvent kWriteEvent;
}.

(** The connection implements the stream [s]: what was sent, and what the
    buffer holds, is what was accepted; the write side is shut down exactly
    when the connection is closing and nothing is left to send. The buffer
    occupies at most [cap] bytes. *)
Definition streams c l chan (fd cap : Z) s w : Prop :=
  ∃ conn ch lp, conn_ok c l chan fd conn ch lp w ∧
    sent (w_kern w) fd ++ contents (tc_outputBuffer conn) = st_accepted s ∧
    tc_state conn = (if st_closing s then kDisconnecting else kConnected) ∧
    fin (w_kern w) fd =
      st_closing s && bool_decide (contents (tc_outputBuffer conn) = []) ∧
    buffer_size (tc_outputBuffer conn) ≤ cap.

Lemma IsWriting_ok c l chan fd conn ch lp w :
  conn_ok c l chan fd conn ch lp w →
  IsWriting ch = bool_decide (contents (tc_outputBuffer conn) ≠ []).
Proof.
  intros Hok. unfold IsWriting. rewrite (ck_events _ _ _ _ _ _ _ _ Hok).
  case_decide as E.
  - rewrite bool_decide_false by auto. done.
  - rewrite bool_decide_true by done. done.
Qed.

(** queueing a functor touches neither the connection nor its socket *)
Lemma conn_ok_queued c l chan fd conn ch lp f w :
  conn_ok c l chan fd conn ch lp w →
  conn_ok c l chan fd conn ch (set_el_pendingFunctors (el_pendingFunctors lp ++ [f]) lp)
    (queued l lp f w) ∧
  sent (w_kern (queued l lp f w)) fd = sent (w_kern w) fd ∧
  fin (w_kern (queued l lp f w)) fd = fin (w_kern w) fd.
Proof.
  intros Hok.
  assert (Hk : sent (kern_queued lp w) fd = sent (w_kern w) fd ∧
               fin (kern_queued lp w) fd = fin (w_kern w) fd ∧
               ∀ e, interest (kern_queued lp w) e = interest (w_kern w) e).
  { unfold kern_queued. destruct (_ || _); [|done].
    rewrite write_sent, write_fin. unfold upd. rewrite bool_decide_false;
      [|intros E; by apply (ck_wakeup _ _ _ _ _ _ _ _ Hok)].
    split_and!; try done. intros. apply write_interest. }
  destruct Hk as (Hks & Hkf & Hki). split; [|done].
  destruct Hok. split; unfold queued; rs; try done; [apply lookup_insert_eq|].
  eapply (poller_ok_frame l w _ lp); [done|done|apply lookup_insert_eq|done..|apply Hki].
Qed.

Lemma streams_queued c l chan fd cap s lp f w :
  streams c l chan fd cap s w → w_loops w !! l = Some lp →
  streams c l chan fd cap s (queued l lp f w).
Proof.
  intros (conn & ch & lp' & Hok & Hs & Hst & Hfin & Hsz) Hl.
  pose proof (ck_loop _ _ _ _ _ _ _ _ Hok). simplify_eq.
  destruct (conn_ok_queued c l chan fd conn ch lp f w Hok) as (Hok' & Es & Ef).
  exists conn, ch, (set_el_pendingFunctors (el_pendingFunctors lp ++ [f]) lp).
  by rewrite Es, Ef.
Qed.

(** enabling the write event once the buffer holds bytes, and disabling it
    once it is empty *)
Lemma conn_ok_update (f : Z → Z) c l chan fd conn ch lp (w : W) :
  w_conns w !! c = Some conn → w_chans w !! chan = Some ch → w_loops w !! l = Some lp →
  tc_loop conn = l → tc_channel conn = chan → tc_socket conn = fd → ch_fd ch = fd →
  ch_loop ch = l → el_threadId lp = w_tid w → el_wakeupFd lp ≠ fd → poller_ok l w →
  rb_inv (tc_inputBuffer conn) → rb_inv (tc_outputBuffer conn) → ch_index ch = 1 →
  f (ch_events ch) = (if decide (contents (tc_outputBuffer conn) = []) then kReadEvent
                      else Z.lor kReadEvent kWriteEvent) →
  wp never (update_events f chan) (λ _ w', ∃ ch' lp',
    conn_ok c l chan fd conn ch' lp' w' ∧ ctl_called (w_kern w) (w_kern w')) w.
Proof.
  intros Hc Hch Hl ???? Hcl ?? Hok ?? Hi Hev.
  eapply wp_post.
  { apply (update_spec f l chan w lp ch never Hok Hl Hch Hcl); [done|congruence|].
    intros Hr. by eapply (registered_not_refused l chan w lp ch). }
  simpl. intros _ ? (k & -> & Hok' & Hk & _).
  eexists (updated (f (ch_events ch)) ch), (set_channels _ lp). split; [|done].
  split; try done; unfold store_update; rs; try done; [apply lookup_insert_eq..|].
  unfold updated. rs. rewrite Hi, Hev. by case_decide.
Qed.

(** the frame of a connection whose socket, channel and loop are untouched *)
Lemma streams_intro c l chan fd cap s conn ch lp (w : W) k :
  conn_ok c l chan fd conn ch lp w → ctl_called k (w_kern w) →
  sent k fd ++ contents (tc_outputBuffer conn) = st_accepted s →
  tc_state conn = (if st_closing s then kDisconnecting else kConnected) →
  fin k fd = st_closing s && bool_decide (contents (tc_outputBuffer conn) = []) →
  buffer_size (tc_outputBuffer conn) ≤ cap →
  streams c l chan fd cap s w.
Proof.
  intros Hok Hk Hs ? Hf ?. exists conn, ch, lp. split; [done|].
  destruct Hk as [->|(ep & op & fd' & ev & p & ->)]; [done|].
  by rewrite ctl_sent, ctl_fin.
Qed.

Lemma SendInLoop_buffer_ok c l chan fd cap acc rest (w : W) :
  streams c l chan fd cap (mkStream acc false) w → rest ≠ [] →
  cap + Z.of_nat (length rest) < 2 ^ 63 →
  wp never (SendInLoop_buffer c rest) (λ _ w',
    streams c l chan fd (cap + Z.of_nat (length rest)) (mkStream (acc ++ rest) false) w') w.
Proof.
  intros Hs Hne Hcap. unfold SendInLoop_buffer.
  destruct (Hs) as (conn & ch & lp & Hok & _). eapply wp_bind, wp_get_conn; [apply Hok|].
  cbv zeta. apply wp_bind.
  apply (wp_post _ _ _ (λ _ w', streams c l chan fd cap (mkStream acc false) w')).
  { apply wp_when. rewrite (ck_tcloop _ _ _ _ _ _ _ _ Hok). destruct (_ && _); [|done].
    eapply wp_QueueInLoop; [apply Hok|]. apply streams_queued; [done|apply Hok]. }
  clear conn ch lp Hok w Hs. intros [] w (conn & ch & lp & Hok & Hs & Hst & Hf & Hsz).
  eapply wp_bind, wp_get_conn; [apply Hok|].
  pose proof (ck_out _ _ _ _ _ _ _ _ Hok) as [? ?].
  destruct (Append_spec rest (tc_outputBuffer conn)) as (out & Ha & Hout & Hc & Hsz');
    [apply Hok|lia|].
  eapply wp_bind, wp_lift; [done|]. eapply wp_bind, wp_mod_conn; [apply Hok|].
  rewrite (ck_tcchan _ _ _ _ _ _ _ _ Hok). eapply wp_bind, wp_get_chan; [apply Hok|].
  rewrite (IsWriting_ok _ _ _ _ _ _ _ _ Hok). simpl in Hs, Hst, Hf.
  assert (Hne' : contents out ≠ []) by (rewrite Hc; by destruct (contents (tc_outputBuffer conn)), rest).
  apply wp_when. case_bool_decide as Hw; simpl.
  - eapply (streams_intro _ _ _ _ _ _ (set_tc_outputBuffer out conn) ch lp _ (w_kern w));
      [|by left|..]; rs; simpl; [|by rewrite Hc, (assoc_L (++)), Hs|done|done|lia].
    destruct Hok. split; rs; try done; [apply lookup_insert_eq| |].
    + by eapply poller_ok_frame.
    + rewrite ck_events0, !decide_False by done. done.
  - eapply wp_post.
    { change (Channel_EnableWriting chan) with (update_events (λ e, Z.lor e kWriteEvent) chan).
      apply (conn_ok_update _ c l chan fd (set_tc_outputBuffer out conn) ch lp);
        destruct Hok; rs; try done; [apply lookup_insert_eq|by eapply poller_ok_frame|].
      rewrite ck_events0, decide_True, decide_False by (done || by apply dec_stable). done. }
    simpl. intros _ w' (ch' & lp' & Hok' & Hk).
    eapply streams_intro; [done|done|..]; rs; simpl; [by rewrite Hc, (assoc_L (++)), Hs|done|done|lia].
Qed.

(** the stream after a call that leaves the sockets alone, and after input *)
Lemma streams_quiet c l chan fd cap s (w : W) k :
  streams c l chan fd cap s w →
  sent k = sent (w_kern w) ∧ fin k = fin (w_kern w) ∧ interest k = interest (w_kern w) →
  streams c l chan fd cap s (set_w_kern k w).
Proof.
  intros (conn & ch & lp & Hok & Hrest) (Es & Ef & Ei). exists conn, ch, lp. rs. rewrite Es, Ef.
  split; [|done]. destruct Hok. split; rs; try done. eapply poller_ok_frame; try done.
  rs. by rewrite Ei.
Qed.

Lemma streams_input c l chan fd cap s (w : W) conn buf :
  streams c l chan fd cap s w → w_conns w !! c = Some conn → rb_inv buf →
  streams c l chan fd cap s (set_w_conns (<[c := set_tc_inputBuffer buf conn]> (w_conns w)) w).
Proof.
  intros (conn' & ch & lp & Hok & Hrest) Hc Hbuf.
  pose proof (ck_conn _ _ _ _ _ _ _ _ Hok). simplify_eq.
  exists (set_tc_inputBuffer buf conn), ch, lp. split; [|done].
  destruct Hok. split; rs; try done; [apply lookup_insert_eq|by eapply poller_ok_frame].
Qed.

Lemma streams_cap c l chan fd cap cap' s (w : W) :
  streams c l chan fd cap s w → cap ≤ cap' → streams c l chan fd cap' s w.
Proof. intros (conn & ch & lp & ? & ? & ? & ? & ?) ?. exists conn, ch, lp. split_and!; auto; lia. Qed.

(** a write while nothing is pending *)
Lemma streams_written c l chan fd cap acc d conn (w : W) :
  streams c l chan fd cap (mkStream acc false) w → w_conns w !! c = Some conn →
  contents (tc_outputBuffer conn) = [] →
  let r := sys_write fd d (w_kern w) in
  streams c l chan fd cap (mkStream (acc ++ take (Z.to_nat r.1.1) d) false) (set_w_kern r.2 w).
Proof.
  intros (conn' & ch & lp & Hok & Hs & Hst & Hf & Hsz) Hc He r.
  pose proof (ck_conn _ _ _ _ _ _ _ _ Hok). simplify_eq. simpl in *.
  rewrite He, (right_id_L [] (++)) in Hs.
  exists conn, ch, lp. subst r. split; [|split_and!; rs; try done].
  - destruct Hok. split; rs; try done. eapply poller_ok_frame; try done. apply write_interest.
  - rewrite write_sent. unfold upd. rewrite bool_decide_true by done.
    by rewrite He, (right_id_L [] (++)), Hs.
  - by rewrite write_fin.
Qed.

(** the kernel never reports that the peer has gone *)
Definition never_resets (fd : Z) : Prop :=
  ∀ d (k : K), (sys_write fd d k).1.1 < 0 →
    (sys_write fd d k).1.2 ≠ EPIPE ∧ (sys_write fd d k).1.2 ≠ ECONNRESET.

Lemma SendInLoop_write_ok c l chan fd cap acc data (w : W) :
  streams c l chan fd cap (mkStream acc false) w → never_resets fd →
  Z.of_nat (length data) < 2 ^ 63 →
  wp never (SendInLoop_write c data) (λ r w', ∃ n : nat,
    (n ≤ length data)%nat ∧ r = (Z.of_nat n, Z.of_nat (length data - n), false) ∧
    streams c l chan fd cap (mkStream (acc ++ take n data) false) w') w.
Proof.
  intros Hs Hnr Hlen. destruct (Hs) as (conn & ch & lp & Hok & _). unfold SendInLoop_write.
  assert (Hnone : streams c l chan fd cap (mkStream (acc ++ take 0 data) false) w).
  { by rewrite take_0, (right_id_L [] (++)). }
  eapply wp_bind, wp_get_conn; [apply Hok|].
  rewrite (ck_tcchan _ _ _ _ _ _ _ _ Hok). eapply wp_bind, wp_get_chan; [apply Hok|].
  rewrite (ck_chfd _ _ _ _ _ _ _ _ Hok). cbv zeta.
  destruct (negb (IsWriting ch) && (ReadableBytes (tc_outputBuffer conn) =? 0)) eqn:Hnow.
  2:{ apply wp_ret. exists 0%nat. split; [lia|]. split; [|done]. do 2 f_equal; lia. }
  apply andb_true_iff in Hnow as [_ He%Z.eqb_eq].
  rewrite ReadableBytes_contents in He by apply Hok.
  assert (He' : contents (tc_outputBuffer conn) = []) by (apply length_zero_iff_nil; lia).
  pose proof (streams_written c l chan fd cap acc data conn w Hs (ck_conn _ _ _ _ _ _ _ _ Hok) He')
    as Hw. pose proof (write_bound fd data (w_kern w)) as Hb. specialize (Hnr data (w_kern w)).
  apply wp_bind, wp_sys. destruct (sys_write fd data (w_kern w)) as [[n e] k]. simpl in *.
  destruct (Z.leb_spec 0 n) as [Hn|Hn].
  - apply wp_bind.
    apply (wp_post _ _ _ (λ _ w',
      streams c l chan fd cap (mkStream (acc ++ take (Z.to_nat n) data) false) w')).
    { apply wp_when. destruct (_ && _); [|done]. rewrite (ck_tcloop _ _ _ _ _ _ _ _ Hok).
      eapply wp_QueueInLoop; [apply Hok|]. apply streams_queued; [done|apply Hok]. }
    intros [] w' Hw'. apply wp_ret. exists (Z.to_nat n). split; [lia|]. split; [|done].
    rewrite u64_small by lia. do 2 f_equal; lia.
  - apply wp_ret. exists 0%nat. split; [lia|]. split.
    + destruct (Hnr Hn) as [Hp Hr]. apply Z.eqb_neq in Hp, Hr. rewrite Hp, Hr, andb_false_r.
      do 2 f_equal; lia.
    + by replace (Z.to_nat n) with 0%nat in Hw by lia.
Qed.

Lemma SendInLoop_ok c l chan fd cap acc data (w : W) :
  streams c l chan fd cap (mkStream acc false) w → never_resets fd →
  0 ≤ cap → cap + Z.of_nat (length data) < 2 ^ 63 →
  wp never (TcpConnection_SendInLoop c data) (λ _ w',
    streams c l chan fd (cap + Z.of_nat (length data)) (mkStream (acc ++ data) false) w') w.
Proof.
  intros Hs Hnr Hc0 Hcap. destruct (Hs) as (conn & ch & lp & Hok & _ & Hst & _).
  unfold TcpConnection_SendInLoop. eapply wp_bind, wp_get_conn; [apply Hok|].
  rewrite (ck_tcloop _ _ _ _ _ _ _ _ Hok).
  eapply wp_bind, assert_in_loop_spec; [apply Hok|apply Hok|].
  simpl in Hst. rewrite Hst. rewrite bool_decide_false by done.
  apply wp_bind. eapply wp_post; [apply SendInLoop_write_ok; [done|done|lia]|].
  clear conn ch lp Hok Hst. intros r w' (n & Hn & -> & Hs'). cbv beta iota.
  apply wp_bind, wp_assert; [apply Z.leb_le; lia|]. apply wp_when.
  rewrite !Nat2Z.id, (take_ge (drop n data)) by (rewrite length_drop; lia).
  assert (Hlen : length (drop n data) = (length data - n)%nat) by apply length_drop.
  destruct (Z.ltb_spec 0 (Z.of_nat (length data - n))).
  - eapply wp_post.
    { apply SendInLoop_buffer_ok; [done|by intros E; rewrite E in Hlen; simpl in Hlen; lia|lia]. }
    intros [] w''. rewrite <- (assoc_L (++)), take_drop. intros ?. eapply streams_cap; [done|lia].
  - rewrite take_ge in Hs' by lia. eapply streams_cap; [done|lia].
Qed.

(** Once nothing is pending, [ShutdownInLoop] shuts the write side down. *)
Lemma ShutdownInLoop_ok c l chan fd cap acc conn ch lp (w : W) :
  conn_ok c l chan fd conn ch lp w →
  sent (w_kern w) fd ++ contents (tc_outputBuffer conn) = acc →
  tc_state conn = kDisconnecting → fin (w_kern w) fd = false →
  buffer_size (tc_outputBuffer conn) ≤ cap →
  wp never (TcpConnection_ShutdownInLoop c)
    (λ _ w', streams c l chan fd cap (mkStream acc true) w') w.
Proof.
  intros Hok Hs Hst Hf Hcap. unfold TcpConnection_ShutdownInLoop.
  eapply wp_bind, wp_get_conn; [apply Hok|]. rewrite (ck_tcloop _ _ _ _ _ _ _ _ Hok).
  eapply wp_bind, assert_in_loop_spec; [apply Hok|apply Hok|].
  rewrite (ck_tcchan _ _ _ _ _ _ _ _ Hok). eapply wp_bind, wp_get_chan; [apply Hok|].
  rewrite (IsWriting_ok _ _ _ _ _ _ _ _ Hok), (ck_tcfd _ _ _ _ _ _ _ _ Hok).
  apply wp_when. case_bool_decide as Hw; simpl.
  - exists conn, ch, lp. split_and!; try done. rewrite bool_decide_false by done. done.
  - apply wp_ShutdownWrite. exists conn, ch, lp. split; [|split_and!; rs; try done].
    + destruct Hok. split; rs; try done. eapply poller_ok_frame; try done.
      apply shutdown_interest.
    + by rewrite shutdown_sent.
    + rewrite shutdown_fin. unfold upd. by rewrite !bool_decide_true.
Qed.

Lemma Shutdown_ok c l chan fd cap s (w : W) :
  streams c l chan fd cap s w →
  wp never (TcpConnection_Shutdown c)
    (λ _ w', streams c l chan fd cap (mkStream (st_accepted s) true) w') w.
Proof.
  intros (conn & ch & lp & Hok & Hs & Hst & Hf & Hsz). unfold TcpConnection_Shutdown.
  eapply wp_bind, wp_get_conn; [apply Hok|]. apply wp_when. rewrite Hst.
  destruct s as [acc closing]; simpl in *. destruct closing; simpl in *.
  { by exists conn, ch, lp. }
  eapply wp_bind, wp_mod_conn; [apply Hok|]. rewrite (ck_tcloop _ _ _ _ _ _ _ _ Hok).
  eapply wp_RunInLoop; [apply Hok| |].
  2:{ intros Hne. destruct Hne. apply Hok. }
  intros _. eapply (ShutdownInLoop_ok _ _ _ _ _ _ (set_tc_state kDisconnecting conn));
    rs; try done.
  destruct Hok. split; rs; try done; [apply lookup_insert_eq|by eapply poller_ok_frame].
Qed.

Lemma Send_ok c l chan fd cap s m (w : W) :
  streams c l chan fd cap s w → never_resets fd →
  0 ≤ cap → cap + Z.of_nat (length m) < 2 ^ 63 →
  wp never (TcpConnection_Send c m) (λ _ w',
    streams c l chan fd (cap + Z.of_nat (length m)) (stream_step (OSend m) s) w') w.
Proof.
  intros Hstr Hnr Hc0 Hcap. destruct (Hstr) as (conn & ch & lp & Hok & _ & Hst & _).
  unfold TcpConnection_Send. eapply wp_bind, wp_get_conn; [apply Hok|]. rewrite Hst.
  destruct s as [acc closing]; simpl in *. destruct closing.
  - rewrite bool_decide_false by done. apply wp_ret. eapply streams_cap; [done|lia].
  - rewrite bool_decide_true by done. rewrite (ck_tcloop _ _ _ _ _ _ _ _ Hok).
    apply wp_ifM. eapply in_loop_thread_spec; [apply Hok|].
    rewrite (ck_thread _ _ _ _ _ _ _ _ Hok), Z.eqb_refl. by apply SendInLoop_ok.
Qed.

(** the connection after [HandleWrite] has taken what was written out of
    its buffer *)
Lemma conn_ok_written c l chan fd conn ch lp d out (w : W) :
  conn_ok c l chan fd conn ch lp w → rb_inv out →
  let w' := set_w_kern (sys_write fd d (w_kern w)).2 w in
  let w'' := set_w_conns (<[c := set_tc_outputBuffer out conn]> (w_conns w')) w' in
  poller_ok l w'' ∧ w_conns w'' !! c = Some (set_tc_outputBuffer out conn) ∧
  (contents out ≠ [] → contents (tc_outputBuffer conn) ≠ [] →
   conn_ok c l chan fd (set_tc_outputBuffer out conn) ch lp w'').
Proof.
  intros Hok Hout w' w''.
  assert (poller_ok l w'').
  { destruct Hok. eapply (poller_ok_frame l w); try done. apply write_interest. }
  split; [done|]. split; [apply lookup_insert_eq|]. intros Hne Hne'.
  destruct Hok. split; rs; try done; [apply lookup_insert_eq|].
  rewrite ck_events0. by rewrite !decide_False.
Qed.

(** the end of [HandleWrite] once the buffer is empty *)
Lemma HandleWrite_drained c l chan fd cap s conn ch lp d out (w : W) :
  conn_ok c l chan fd conn ch lp w → rb_inv out → contents out = [] →
  tc_state conn = (if st_closing s then kDisconnecting else kConnected) →
  fin (w_kern w) fd = false → buffer_size out ≤ cap →
  let k := (sys_write fd d (w_kern w)).2 in
  sent k fd = st_accepted s →
  let w1 := set_w_conns (<[c := set_tc_outputBuffer out conn]> (w_conns w)) (set_w_kern k w) in
  wp never (Channel_DisableWriting chan;;
            when (tc_writeCompleteCallback conn)
              (EventLoop_QueueInLoop l (FWriteComplete c));;
            conn ← get_conn c;
            when (bool_decide (tc_state conn = kDisconnecting)) (TcpConnection_ShutdownInLoop c))
    (λ _ w', streams c l chan fd cap s w') w1.
Proof.
  intros Hok Hout He Hst Hf Hcap k Hsent w1. destruct s as [acc closing]; simpl in *.
  destruct (conn_ok_written c l chan fd conn ch lp d out w Hok Hout) as (Hpok & Hc1 & _).
  (* before the last step the connection streams, or is about to shut down *)
  set (ready := λ w2 : W, ∃ conn ch lp, conn_ok c l chan fd conn ch lp w2 ∧
    sent (w_kern w2) fd ++ contents (tc_outputBuffer conn) = acc ∧
    tc_state conn = (if closing then kDisconnecting else kConnected) ∧
    fin (w_kern w2) fd = false ∧ buffer_size (tc_outputBuffer conn) ≤ cap).
  apply wp_bind, (wp_post _ _ _ (λ _, ready)).
  { eapply wp_post.
    { change (Channel_DisableWriting chan)
        with (update_events (λ e, Z.land e (Z.lnot kWriteEvent)) chan).
      apply (conn_ok_update _ c l chan fd (set_tc_outputBuffer out conn) ch lp); try apply Hok;
        try done.
      rs. rewrite (ck_events _ _ _ _ _ _ _ _ Hok), He, (decide_True (P := [] = [])) by done.
      by case_decide. }
    intros _ w' (ch' & lp' & Hok' & Hk). exists (set_tc_outputBuffer out conn), ch', lp'.
    split; [done|]. unfold w1 in Hk. rs in Hk.
    assert (sent (w_kern w') fd = sent k fd ∧ fin (w_kern w') fd = fin k fd) as [-> ->].
    { destruct Hk as [->|(? & ? & ? & ? & ? & ->)]; [done|]. by rewrite ctl_sent, ctl_fin. }
    rs. rewrite He, (right_id_L [] (++)). split_and!; try done. unfold k. by rewrite write_fin. }
  intros _ w2 Hready. apply wp_bind, (wp_post _ _ _ (λ _, ready)).
  { apply wp_when. destruct (tc_writeCompleteCallback conn); [|done].
    destruct Hready as (conn2 & ch2 & lp2 & Hok2 & Hs2 & Hst2 & Hf2 & Hcap2).
    eapply wp_QueueInLoop; [apply Hok2|].
    destruct (conn_ok_queued c l chan fd conn2 ch2 lp2 (FWriteComplete c) w2 Hok2)
      as (Hok3 & Es & Ef).
    eexists conn2, ch2, _. split; [done|]. by rewrite Es, Ef. }
  intros _ w3 (conn3 & ch3 & lp3 & Hok3 & Hs3 & Hst3 & Hf3 & Hcap3).
  eapply wp_bind, wp_get_conn; [apply Hok3|]. apply wp_when. rewrite Hst3.
  destruct closing; simpl.
  - eapply ShutdownInLoop_ok; try done.
  - by exists conn3, ch3, lp3.
Qed.

Lemma HandleWrite_ok c l chan fd cap s (w : W) :
  streams c l chan fd cap s w →
  wp never (TcpConnection_HandleWrite c) (λ _ w', streams c l chan fd cap s w') w.
Proof.
  intros Hstr. destruct (Hstr) as (conn & ch & lp & Hok & Hs & Hst & Hf & Hsz).
  unfold TcpConnection_HandleWrite. eapply wp_bind, wp_get_conn; [apply Hok|].
  rewrite (ck_tcloop _ _ _ _ _ _ _ _ Hok).
  eapply wp_bind, assert_in_loop_spec; [apply Hok|apply Hok|].
  rewrite (ck_tcchan _ _ _ _ _ _ _ _ Hok). eapply wp_bind, wp_get_chan; [apply Hok|].
  rewrite (IsWriting_ok _ _ _ _ _ _ _ _ Hok), (ck_chfd _ _ _ _ _ _ _ _ Hok).
  destruct (decide (contents (tc_outputBuffer conn) = [])) as [He|Hne].
  { rewrite bool_decide_false by auto. by apply wp_ret. }
  rewrite bool_decide_true by done.
  rewrite (bool_decide_false (contents _ = [])), andb_false_r in Hf by done.
  pose proof (ck_out _ _ _ _ _ _ _ _ Hok) as Hout.
  pose proof (ReadableBytes_contents _ Hout) as Hrb.
  eapply wp_bind, wp_lift; [apply Peek_spec; [done|lia]|].
  rewrite Hrb, Nat2Z.id, take_ge by lia. set (d := contents (tc_outputBuffer conn)) in *.
  pose proof (write_bound fd d (w_kern w)) as Hb.
  pose proof (write_sent fd d (w_kern w) fd) as Hws. unfold upd in Hws.
  rewrite bool_decide_true in Hws by done.
  apply wp_bind, wp_sys. destruct (Z.ltb_spec 0 (sys_write fd d (w_kern w)).1.1) as [Hn|Hn].
  2:{ apply wp_ret. rewrite Z2Nat.nonpos, take_0, (right_id_L [] (++)) in Hws by lia.
      exists conn, ch, lp. split.
      - destruct Hok. split; rs; try done. eapply poller_ok_frame; try done. apply write_interest.
      - rs. rewrite Hws, write_fin, Hf. split_and!; try done.
        by rewrite bool_decide_false, andb_false_r. }
  destruct (Retrieve_spec (sys_write fd d (w_kern w)).1.1 (tc_outputBuffer conn))
    as (out & Hr & Hout' & Hbuf & Hc); [done|lia|].
  eapply wp_bind, wp_lift; [done|]. eapply wp_bind, wp_mod_conn; [apply Hok|].
  destruct (conn_ok_written c l chan fd conn ch lp d out w Hok Hout') as (_ & _ & Hokw).
  assert (Hsz' : buffer_size out ≤ cap) by (unfold buffer_size in *; by rewrite Hbuf).
  apply wp_when. rewrite (ReadableBytes_contents out Hout'). fold d in Hc.
  destruct (Z.eqb_spec (Z.of_nat (length (contents out))) 0) as [Hz|Hz].
  - apply (HandleWrite_drained c l chan fd cap s conn ch lp d out w); try done.
    { apply length_zero_iff_nil. lia. }
    rewrite Hws, take_ge; [done|]. rewrite Hc, length_drop in Hz. lia.
  - assert (contents out ≠ []) by (by intros E; rewrite E in Hz).
    eexists (set_tc_outputBuffer out conn), ch, lp. split; [by apply Hokw|]. rs.
    rewrite Hws, Hc, <- (assoc_L (++)), take_drop, write_fin, Hf.
    split_and!; try done. rewrite bool_decide_false; [by rewrite andb_false_r|by rewrite <- Hc].
Qed.

Definition run_ops (os : list stream_op) c : M W unit := forM os (λ o, run_op o c).

Lemma run_op_ok o c l chan fd cap s (w : W) :
  streams c l chan fd cap s w → never_resets fd → 0 ≤ cap → cap + op_length o < 2 ^ 63 →
  wp never (run_op o c)
    (λ _ w', streams c l chan fd (cap + op_length o) (stream_step o s) w') w.
Proof.
  intros Hs Hnr H0' Hcap. destruct o; simpl in *.
  - by apply Send_ok.
  - rewrite Z.add_0_r. by apply HandleWrite_ok.
  - rewrite Z.add_0_r. by apply Shutdown_ok.
Qed.

Lemma run_ops_ok os c l chan fd cap s (w : W) :
  streams c l chan fd cap s w → never_resets fd → 0 ≤ cap →
  cap + foldr Z.add 0 (op_length <$> os) < 2 ^ 63 →
  wp never (run_ops os c)
    (λ _ w', streams c l chan fd (cap + foldr Z.add 0 (op_length <$> os))
               (foldl (λ s o, stream_step o s) s os) w') w.
Proof.
  intros Hs Hnr. revert cap s w Hs. induction os as [|o os IH]; intros cap s w Hs Hc0 Hcap.
  - simpl in *. by rewrite Z.add_0_r.
  - assert (0 ≤ foldr Z.add 0 (op_length <$> os)).
    { clear. induction os as [|o os IH]; [done|]. rewrite fmap_cons. cbn [foldr].
      destruct o; cbn [op_length]; lia. }
    assert (0 ≤ op_length o) by (destruct o; simpl; lia).
    rewrite fmap_cons in *. cbn [foldr foldl] in *.
    apply wp_bind. eapply wp_post; [apply run_op_ok; try done; lia|].
    intros [] w' Hs'. eapply wp_post; [apply IH; [done|lia|lia]|].
    intros [] w''. cbv beta. by rewrite Z.add_assoc.
Qed.
End output.

(** ** Properties *)

