(* ===== verification/SimKernel.v ===== *)
(** * A concrete kernel

    An executable operating system that satisfies the laws the theorems
    assume: it keeps interest lists, logs what is written, and is scripted
    with the events, the input and the connections to deliver. The witnesses
    run the models on it. *)
From S2P Require Import Prelude RingBuffer Protocol World Reactor Sockets Connection.

Record sim : Type := mkSim {
  sim_interest : gmap Z (gmap Z (Z * loc));
  sim_sent : gmap Z (list byte);
  sim_fin : gset Z;
  sim_window : nat;                        (* bytes a write can take *)
  sim_input : gmap Z (list (list byte));   (* chunks to read; an empty one is the end *)
  sim_ready : list (list (loc * Z));       (* the results of epoll_wait *)
  sim_backlog : list (Z * sockaddr_in);    (* connections to accept *)
  sim_clock : Z;                           (* seconds *)
  sim_nextfd : Z;
}.

Definition sim_list (k : sim) (ep : Z) : gmap Z (Z * loc) := default ∅ (sim_interest k !! ep).
Definition sim_log (k : sim) (fd : Z) : list byte := default [] (sim_sent k !! fd).

Definition sim_set_interest v k := mkSim v (sim_sent k) (sim_fin k) (sim_window k) (sim_input k)
  (sim_ready k) (sim_backlog k) (sim_clock k) (sim_nextfd k).
Definition sim_set_sent v k := mkSim (sim_interest k) v (sim_fin k) (sim_window k) (sim_input k)
  (sim_ready k) (sim_backlog k) (sim_clock k) (sim_nextfd k).
Definition sim_set_fin v k := mkSim (sim_interest k) (sim_sent k) v (sim_window k) (sim_input k)
  (sim_ready k) (sim_backlog k) (sim_clock k) (sim_nextfd k).
Definition sim_set_input v k := mkSim (sim_interest k) (sim_sent k) (sim_fin k) (sim_window k) v
  (sim_ready k) (sim_backlog k) (sim_clock k) (sim_nextfd k).
Definition sim_set_ready v k := mkSim (sim_interest k) (sim_sent k) (sim_fin k) (sim_window k)
  (sim_input k) v (sim_backlog k) (sim_clock k) (sim_nextfd k).
Definition sim_set_backlog v k := mkSim (sim_interest k) (sim_sent k) (sim_fin k) (sim_window k)
  (sim_input k) (sim_ready k) v (sim_clock k) (sim_nextfd k).
Definition sim_fresh k : Z * sim := (sim_nextfd k,
  mkSim (sim_interest k) (sim_sent k) (sim_fin k) (sim_window k)
    (sim_input k) (sim_ready k) (sim_backlog k) (sim_clock k) (sim_nextfd k + 1)).

Definition sim_ctl (ep op fd ev : Z) (p : loc) (k : sim) : Z * sim :=
  let m := sim_list k ep in
  let set m' := (0, sim_set_interest (<[ep := m']> (sim_interest k)) k) in
  match m !! fd with
  | None => if op =? EPOLL_CTL_ADD then set (<[fd := (ev, p)]> m) else (-1, k)
  | Some _ =>
      if op =? EPOLL_CTL_MOD then set (<[fd := (ev, p)]> m)
      else if op =? EPOLL_CTL_DEL then set (delete fd m) else (-1, k)
  end.

Definition sim_write (fd : Z) (d : list byte) (k : sim) : Z * Z * sim :=
  let n := (sim_window k `min` length d)%nat in
  (Z.of_nat n, 0, sim_set_sent (<[fd := sim_log k fd ++ take n d]> (sim_sent k)) k).

Definition sim_readv (fd : Z) (iov : list Z) (k : sim) : readv_result * sim :=
  match sim_input k !! fd with
  | Some (d :: ds) => (readv_of d iov, sim_set_input (<[fd := ds]> (sim_input k)) k)
  | _ => (readv_err EAGAIN, k)
  end.

(** the pointers that are registered with an epoll instance *)
Definition sim_watched (k : sim) (ep : Z) : list loc := snd ∘ snd <$> map_to_list (sim_list k ep).

Definition sim_epoll_wait (ep n timeout : Z) (k : sim) : (Z + list (loc * Z)) * sim :=
  match sim_ready k with
  | [] => (inr [], k)
  | es :: r => (inr (filter (λ e, e.1 ∈ sim_watched k ep) es), sim_set_ready r k)
  end.

Definition sim_accept (fd : Z) (k : sim) : Z * Z * sockaddr_in * sim :=
  match sim_backlog k with
  | [] => (-1, EAGAIN, mkSockaddr 0 0, k)
  | (connfd, peer) :: r =>
      (connfd, 0, peer,
       mkSim (sim_interest k) (delete connfd (sim_sent k)) (sim_fin k ∖ {[connfd]}) (sim_window k)
         (sim_input k) (sim_ready k) (filter (λ b, b.1 ≠ connfd) r) (sim_clock k)
         (Z.max (connfd + 1) (sim_nextfd k)))
  end.

Definition sim_epoll_create (k : sim) : Z * sim :=
  (sim_nextfd k, sim_set_interest (<[sim_nextfd k := ∅]> (sim_interest k)) (sim_fresh k).2).

#[export] Instance sim_kernel : Kernel sim := {
  sys_epoll_ctl := sim_ctl;
  sys_epoll_wait := sim_epoll_wait;
  sys_write := sim_write;
  sys_readv := sim_readv;
  sys_read8 fd k := (8, k);
  sys_shutdown fd k := (0, sim_set_fin ({[fd]} ∪ sim_fin k) k);
  sys_so_error fd k := (0, 0, 0, k);
  sys_accept := sim_accept;
  sys_listen fd k := (0, k);
  sys_close fd k := (0, k);
  sys_open_null := sim_fresh;
  sys_getsockname fd k := (Some (mkSockaddr 0x7f000001 8001), k);
  sys_getpeername fd k := (None, k);
  sys_now k := (sim_clock k, 0, k);
  sys_epoll_create := sim_epoll_create;
  sys_eventfd := sim_fresh;
  sys_timerfd_create := sim_fresh;
  sys_timerfd_settime fd sec k := (0, k);
  sys_socket := sim_fresh;
  sys_thread := sim_fresh;
  sys_bind fd addr k := (0, k);
  sys_setsockopt fd l n v k := (0, k);
  sys_fcntl fd cmd arg k := (0, k);
  inet_ntop a := "127.0.0.1";
  inet_pton s := Some 0x7f000001;
}.

#[export] Instance sim_epoll : EpollLaws sim.
Proof.
  refine {| interest := sim_list |}.
  - intros ep op fd ev p k e. simpl. unfold sim_ctl.
    destruct (sim_list k ep !! fd); repeat case_match; simpl; done || lia.
  - intros ep op fd ev p k e Hop. simpl. unfold sim_ctl, upd.
    destruct (sim_list k ep !! fd) as [x|] eqn:E; destruct Hop as [->| ->]; simpl; try lia;
      intros _; unfold sim_list; simpl; case_bool_decide as He; subst;
      rewrite ?lookup_insert_eq, ?lookup_insert_ne by done; done.
  - intros ep fd ev p k [x Hx]. simpl. unfold sim_ctl. by rewrite Hx.
  - intros ep fd ev p k e [x Hx]. simpl. unfold sim_ctl, upd. rewrite Hx. simpl. split; [done|].
    unfold sim_list. simpl. case_bool_decide as He; subst;
      rewrite ?lookup_insert_eq, ?lookup_insert_ne by done; done.
Defined.

#[export] Instance sim_sockets : SocketLaws sim.
Proof.
  refine {| sent := sim_log; fin k fd := bool_decide (fd ∈ sim_fin k) |}.
  - intros. simpl. lia.
  - intros fd d k fd'. simpl. rewrite Nat2Z.id. unfold sim_log, upd. simpl.
    case_bool_decide; subst; rewrite ?lookup_insert_eq, ?lookup_insert_ne by done; done.
  - done.
  - done.
  - intros. simpl. unfold sim_ctl. by repeat case_match.
  - intros. simpl. unfold sim_ctl. by repeat case_match.
  - done.
  - intros fd k fd'. simpl. unfold upd. destruct (decide (fd' = fd)) as [->|].
    + rewrite (bool_decide_true (fd = fd)) by done. apply bool_decide_true. set_solver.
    + rewrite (bool_decide_false (fd' = fd)) by done. apply bool_decide_ext. set_solver.
  - done.
  - intros fd k iov data. simpl. unfold sim_readv.
    repeat case_match; simpl; try done. apply readv_of_bounded.
  - intros fd iov k. simpl. unfold sim_readv. by repeat case_match.
  - done.
Defined.

(** ** A process with one established connection *)

Definition sim0 (window : nat) : sim :=
  mkSim {[ 3 := {[ 9 := (Z.lor kReadEvent EPOLLET, 1%nat) ]} ]} ∅ ∅ window ∅ [] [] 1000 20.

Definition loop0 : EventLoop :=
  mkEventLoop true false false false 1 77 0 (mkPoller 3 16 {[ 9 := 1%nat ]}) 4 5%nat [] None [] [].

Definition chan0 : Channel :=
  mkChannel 0%nat 9 kReadEvent 0 1 false true (Some (CbConnRead 2%nat)) (Some (CbConnWrite 2%nat))
    (Some (CbConnClose 2%nat)) (Some (CbConnError 2%nat)).

Definition addr0 : sockaddr_in := mkSockaddr 0x7f000001 8001.

Definition conn0 : TcpConnection :=
  mkTcpConnection 0%nat "GatewayServer-127.0.0.1:8001#1" kConnected true 9 1%nat addr0 addr0 true
    false (64 * 1024 * 1024) 1 (new_RingBuffer 1024) (new_RingBuffer 1024).

Definition server0 : TcpServer :=
  mkTcpServer 0%nat "127.0.0.1:8001" "GatewayServer" (mkAcceptor 0%nat 6 7%nat true true 8)
    (mkThreadPool 0%nat "GatewayServer" true 0 0 [] []) 1 2 {["GatewayServer-127.0.0.1:8001#1" := 2%nat]}.

Definition gs0 : GatewayServer :=
  mkGatewayServer 0%nat true false (-1) None 60 {[ 1 := 999000 ]} 4 4 true [].

Definition world0 (window : nat) : World sim :=
  mkWorld (sim0 window) 77 10%nat {[ 77 := 0%nat ]} {[ 0%nat := loop0 ]} {[ 1%nat := chan0 ]}
    {[ 2%nat := conn0 ]} server0 (mkConnectionManager {[ 1 := 2%nat ]} 2)
    {[ 1 := mkSession 1 "" false 0 999000 ]} gs0.

Lemma world0_loop window lp : w_loops (world0 window) !! 0%nat = Some lp → lp = loop0.
Proof.
  intros Hl. change (({[0%nat := loop0]} : gmap loc EventLoop) !! 0%nat = Some lp) in Hl.
  by apply lookup_singleton_Some in Hl as [_ <-].
Qed.

Lemma world0_chan window c ch :
  w_chans (world0 window) !! c = Some ch → c = 1%nat ∧ ch = chan0.
Proof.
  intros Hc. change (({[1%nat := chan0]} : gmap loc Channel) !! c = Some ch) in Hc.
  by apply lookup_singleton_Some in Hc as [<- <-].
Qed.

Lemma world0_poller window : poller_ok 0%nat (world0 window).
Proof.
  split.
  - by exists loop0.
  - intros fd c lp ->%world0_loop. simpl. intros [<- <-]%lookup_singleton_Some.
    exists chan0. auto.
  - intros c ch lp ->%world0_loop [-> ->]%world0_chan. done.
  - intros fd lp ->%world0_loop. simpl.
    destruct (decide (fd = 9)) as [->|Hne]; [done|].
    rewrite lookup_singleton_ne by done. by apply lookup_singleton_ne.
Qed.

Lemma world0_conn window : conn_ok 2%nat 0%nat 1%nat 9 conn0 chan0 loop0 (world0 window).
Proof.
  split; try done; [apply world0_poller|by apply new_RingBuffer_inv..].
Qed.

Lemma world0_streams window :
  streams 2%nat 0%nat 1%nat 9 1024 (mkStream [] false) (world0 window).
Proof. by exists conn0, chan0, loop0; split; [apply world0_conn|]. Qed.

Lemma sim_never_resets fd : never_resets (K := sim) fd.
Proof. intros d k Hn. simpl in Hn. lia. Qed.


Lemma channel_op_interest_witness :
  match run_chan_op DisableAll 1%nat (world0 2) with
  | Ok (_, w') => interest (w_kern w') 3 = ∅
  | Fail _ => False
  end.
Proof.
  pose proof (channel_op_interest DisableAll 1%nat 0%nat (world0 2) loop0 chan0 (world0_poller 2)
    eq_refl eq_refl eq_refl eq_refl ltac:(done)) as Hop.
  destruct (run_chan_op DisableAll 1%nat (world0 2)) as [[u w']|e].
  - destruct Hop as (_ & Hi & _). exact Hi.
  - destruct Hop as [_ Hr]. vm_compute in Hr. discriminate Hr.
Defined.
