(* ===== verification/Server.v ===== *)
(** * Acceptor, IO threads and TcpServer

    [net/Acceptor], [net/EventLoopThread], [net/EventLoopThreadPool] and
    [net/TcpServer]. The server object is the one of the store; connections
    are shared between its map and the functors that hold a pointer to them,
    and are destroyed with the last reference. *)
From stdpp Require Import sorting.
From S2P Require Import Prelude RingBuffer Protocol World Reactor Sockets Connection.

(** the keys of a map in the order [std::map] iterates *)
Definition string_le (a b : string) : Prop := String.leb a b = true.
#[export] Instance string_le_dec : RelDecision string_le.
Proof. intros a b. unfold string_le. apply _. Defined.

Definition ordered_keys {A} (m : gmap string A) : list string :=
  merge_sort string_le ((map_to_list m).*1).

Section server.
Context {K : Type} `{Kernel K}.
Abbreviation W := (World K).
Implicit Types (c l : loc) (w : W).

(** ** Acceptor *)

Definition mod_acceptor (f : Acceptor → Acceptor) : M W unit :=
  mod_server (λ s, set_ts_acceptor (f (ts_acceptor s)) s).

(** [Acceptor::Acceptor] *)
Definition new_Acceptor (loop : loc) (listenAddr : sockaddr_in) (reuseport : bool) : M W Acceptor :=
  acceptSocket ← sockets_CreateNonblockingOrDie;
  chan ← alloc;
  put_chan chan (new_Channel loop acceptSocket);;
  idleFd ← sys sys_open_null;
  assertM (0 <=? idleFd);;
  sockets_SetReuseAddr acceptSocket true;;
  sockets_SetReusePort acceptSocket reuseport;;
  sockets_BindOrDie acceptSocket listenAddr;;
  mod_chan chan (set_ch_readCallback (Some CbAccept));;
  mret (mkAcceptor loop acceptSocket chan false false idleFd).

(** [Acceptor::~Acceptor] and the destructor of its channel *)
Definition delete_Acceptor (a : Acceptor) : M W unit :=
  Channel_DisableAll (ac_acceptChannel a);;
  Channel_Remove (ac_acceptChannel a);;
  sys (sys_close (ac_idleFd a));;
  sockets_Close (ac_acceptSocket a);;
  delete_Channel (ac_acceptChannel a).

Definition Acceptor_Listen : M W unit :=
  s ← gets w_server;
  let a := ts_acceptor s in
  EventLoop_AssertInLoopThread (ac_loop a);;
  mod_acceptor (set_ac_listening true);;
  sockets_ListenOrDie (ac_acceptSocket a);;
  Channel_EnableReading (ac_acceptChannel a).

(** ** EventLoopThread *)

(** [ThreadFunc] up to the publication of its loop; [w_tid] is the new
    thread's. [callback_] is the thread's initialiser. *)
Definition ThreadFunc_start (callback_ : option (loc → M W unit)) : M W loc :=
  l ← new_EventLoop;
  (match callback_ with Some cb => cb l | None => mret tt end);;
  mret l.

(** [EventLoopThread::StartLoop]: the new thread runs until its loop is
    published, while the caller waits for it *)
Definition EventLoopThread_StartLoop (callback_ : option (loc → M W unit)) (t : EventLoopThread) :
    M W (EventLoopThread * loc) :=
  assertM (negb (et_joinable t));;
  me ← gets w_tid;
  tid ← sys sys_thread;
  modify (set_w_tid tid);;
  l ← ThreadFunc_start callback_;
  modify (set_w_tid me);;
  mret (set_et_joinable true (set_et_loop (Some l) t), l).

(** [EventLoopThread::~EventLoopThread]: destroying a joinable [std::thread]
    terminates the program *)
Definition delete_EventLoopThread (t : EventLoopThread) : M W unit :=
  match et_loop t with
  | Some l => EventLoop_Quit l (* and join *)
  | None => if et_joinable t then failM Exception else mret tt
  end.

(** ** EventLoopThreadPool *)

Definition mod_pool (f : EventLoopThreadPool → EventLoopThreadPool) : M W unit :=
  mod_server (λ s, set_ts_threadPool (f (ts_threadPool s)) s).

Definition new_EventLoopThreadPool (baseLoop : loc) (name : string) : EventLoopThreadPool :=
  mkThreadPool baseLoop name false 0 0 [] [].

(** one turn of the loop of [EventLoopThreadPool::Start] *)
Definition start_thread (callback_ : option (loc → M W unit)) (i : nat) : M W unit :=
  s ← gets w_server;
  let name := snprintf 64 (tp_name (ts_threadPool s) ++ pretty (Z.of_nat i))%string in
  r ← EventLoopThread_StartLoop callback_ (mkEventLoopThread None false false name);
  mod_pool (λ p, set_tp_loops (tp_loops p ++ [r.2]) (set_tp_threads (tp_threads p ++ [r.1]) p)).

Definition EventLoopThreadPool_Start (threadInitCallback_ : option (loc → M W unit)) : M W unit :=
  s ← gets w_server;
  let p := ts_threadPool s in
  assertM (negb (tp_started p));;
  EventLoop_AssertInLoopThread (tp_baseLoop p);;
  mod_pool (set_tp_started true);;
  forM (seq 0 (Z.to_nat (tp_numThreads p))) (start_thread threadInitCallback_);;
  match threadInitCallback_ with
  | Some cb => when (tp_numThreads p =? 0) (cb (tp_baseLoop p))
  | None => mret tt
  end.

Definition EventLoopThreadPool_GetNextLoop : M W loc :=
  s ← gets w_server;
  let p := ts_threadPool s in
  EventLoop_AssertInLoopThread (tp_baseLoop p);;
  assertM (tp_started p);;
  if bool_decide (tp_loops p = []) then mret (tp_baseLoop p)
  else
    loop ← lift (deref (tp_loops p !! Z.to_nat (tp_next p)));
    let next := tp_next p + 1 in
    mod_pool (set_tp_next (if Z.of_nat (length (tp_loops p)) <=? u64 next then 0 else next));;
    mret loop.

Definition EventLoopThreadPool_GetLoopForHash (hashCode : Z) : M W loc :=
  s ← gets w_server;
  let p := ts_threadPool s in
  EventLoop_AssertInLoopThread (tp_baseLoop p);;
  if bool_decide (tp_loops p = []) then mret (tp_baseLoop p)
  else lift (deref (tp_loops p !! Z.to_nat (hashCode mod Z.of_nat (length (tp_loops p))))).

Definition EventLoopThreadPool_GetAllLoops : M W (list loc) :=
  s ← gets w_server;
  let p := ts_threadPool s in
  EventLoop_AssertInLoopThread (tp_baseLoop p);;
  assertM (tp_started p);;
  mret (if bool_decide (tp_loops p = []) then [tp_baseLoop p] else tp_loops p).

(** ** The lifetime of connections *)

(** a [TcpConnectionPtr] to [c] is held by the server or by a functor *)
Definition referenced (c : loc) (w : W) : bool :=
  bool_decide (c ∈ ((map_to_list (ts_connections (w_server w))).*2)) ||
  existsb (λ x : loc * EventLoop,
    existsb (λ f, bool_decide (functor_ref f = Some c))
      (el_pendingFunctors x.2 ++ el_running x.2)) (map_to_list (w_loops w)).

(** the end of one [TcpConnectionPtr] to [c] *)
Definition release c : M W unit :=
  live ← gets (referenced c);
  if negb live then delete_TcpConnection c else mret tt.

(** the destructor of a functor *)
Definition destroy_functor (f : functor) : M W unit :=
  match functor_ref f with Some c => release c | None => mret tt end.

(** ** TcpServer *)

(** the callbacks the application gave the server *)
Context (connectionCallback : loc → M W unit).

(** [TcpServer::TcpServer]: [started_] is left indeterminate. *)
Definition new_TcpServer (loop : loc) (listenAddr : sockaddr_in) (name : string)
    (reuseport : bool) (indeterminate : Z) : M W unit :=
  a ← new_Acceptor loop listenAddr reuseport;
  modify (set_w_server (mkTcpServer loop (sockets_ToIpPort listenAddr) name a
    (new_EventLoopThreadPool loop name) indeterminate 1 ∅));;
  mod_acceptor (set_ac_newConnectionCallback true).

Definition TcpServer_SetThreadNum (numThreads : Z) : M W unit :=
  assertM (0 <=? numThreads);;
  mod_pool (set_tp_numThreads numThreads).

(** [TcpServer::Start]; the pool was never given the server's
    [threadInitCallback_] *)
Definition TcpServer_Start : M W unit :=
  s ← gets w_server;
  mod_server (set_ts_started (i32 (ts_started s + 1)));;
  when (ts_started s =? 0)
    (EventLoopThreadPool_Start None;;
     s ← gets w_server;
     assertM (negb (ac_listening (ts_acceptor s)));;
     EventLoop_RunInLoop (ts_loop s) FListen Acceptor_Listen).

(** the name of the next connection *)
Definition conn_name (s : TcpServer) : string :=
  (ts_name s ++ snprintf 64 ("-" ++ ts_ipPort s ++ "#" ++ pretty (ts_nextConnId s)))%string.

Definition TcpServer_NewConnection (sockfd : Z) (peerAddr : sockaddr_in) : M W unit :=
  s ← gets w_server;
  EventLoop_AssertInLoopThread (ts_loop s);;
  ioLoop ← EventLoopThreadPool_GetNextLoop;
  lift (defined_if (ts_nextConnId s <? 2 ^ 31 - 1));;
  mod_server (λ s, set_ts_nextConnId (ts_nextConnId s + 1) s);;
  localAddr ← sockets_GetLocalAddr sockfd;
  c ← new_TcpConnection ioLoop (conn_name s) sockfd localAddr peerAddr;
  mod_server (λ s', set_ts_connections (<[conn_name s := c]> (ts_connections s')) s');;
  mod_conn c (set_tc_writeCompleteCallback true);;
  EventLoop_RunInLoop ioLoop (FConnectEstablished c)
    (TcpConnection_ConnectEstablished connectionCallback c).

Definition TcpServer_RemoveConnectionInLoop c : M W unit :=
  s ← gets w_server;
  EventLoop_AssertInLoopThread (ts_loop s);;
  conn ← get_conn c;
  let n := bool_decide (is_Some (ts_connections s !! tc_name conn)) in
  mod_server (λ s, set_ts_connections (delete (tc_name conn) (ts_connections s)) s);;
  assertM n;;
  EventLoop_QueueInLoop (tc_loop conn) (FConnectDestroyed c).

Definition TcpServer_RemoveConnection c : M W unit :=
  s ← gets w_server;
  EventLoop_RunInLoop (ts_loop s) (FRemoveConnectionInLoop c) (TcpServer_RemoveConnectionInLoop c).

(** [TcpServer::~TcpServer], and the destructors of its members *)
Definition delete_TcpServer : M W unit :=
  s ← gets w_server;
  EventLoop_AssertInLoopThread (ts_loop s);;
  forM (ordered_keys (ts_connections s)) (λ name,
    c ← lift (deref (ts_connections s !! name));
    mod_server (λ s, set_ts_connections (delete name (ts_connections s)) s);;
    conn ← get_conn c;
    EventLoop_RunInLoop (tc_loop conn) (FConnectDestroyed c)
      (TcpConnection_ConnectDestroyed connectionCallback c);;
    release c);;
  forM (tp_threads (ts_threadPool s)) delete_EventLoopThread;;
  delete_Acceptor (ts_acceptor s).

(** ** Acceptor::HandleRead *)

Definition Acceptor_HandleRead : M W unit :=
  s ← gets w_server;
  let a := ts_acceptor s in
  EventLoop_AssertInLoopThread (ac_loop a);;
  r ← sockets_Accept (ac_acceptSocket a);
  let '(connfd, errno, peerAddr) := r in
  if 0 <=? connfd then
    if ac_newConnectionCallback a then TcpServer_NewConnection connfd peerAddr
    else sockets_Close connfd
  else
    when (errno =? EMFILE)
      (sys (sys_close (ac_idleFd a));;
       r ← sys (sys_accept (ac_acceptSocket a));
       sys (sys_close r.1.1);;
       fd ← sys sys_open_null;
       mod_acceptor (set_ac_idleFd fd)).
End server.
