(* ===== verification/Gateway.v ===== *)
(** * The gateway server

    [gateway/ConnectionManager], [gateway/SessionManager],
    [gateway/GatewayServer] and [main.cpp]: the registries of connections and
    sessions, the callbacks of the server, the heartbeat timer, and what the
    event loops run. *)
From stdpp Require Import sorting.
From S2P Require Import Prelude RingBuffer Protocol World Reactor Sockets Connection Server.

(** the keys of a map in the order [std::map] iterates *)
Definition ordered_ids {A} (m : gmap Z A) : list Z := merge_sort Z.le ((map_to_list m).*1).

Section gateway.
Context {K : Type} `{Kernel K}.
Abbreviation W := (World K).
Implicit Types (c l : loc) (w : W).

(** ** ConnectionManager *)

Definition mod_cm (f : ConnectionManager → ConnectionManager) : M W unit :=
  modify (λ w, set_w_cm (f (w_cm w)) w).

Definition ConnectionManager_AddConnection c : M W Z :=
  cm ← gets w_cm;
  let id := cm_nextConnId cm in
  mod_cm (λ cm, set_cm_connections (<[id := c]> (cm_connections cm))
                  (set_cm_nextConnId (i64 (id + 1)) cm));;
  mret id.

Definition ConnectionManager_RemoveConnection (connId : Z) : M W unit :=
  mod_cm (λ cm, set_cm_connections (delete connId (cm_connections cm)) cm).

(** [weak_ptr::lock]: empty once the connection has been destroyed *)
Definition lock c w : option loc := match w_conns w !! c with Some _ => Some c | None => None end.

Definition ConnectionManager_GetConnection (connId : Z) : M W (option loc) :=
  gets (λ w, c ← cm_connections (w_cm w) !! connId; lock c w).

(** [data] is the memory that can be read at the pointer *)
Definition ConnectionManager_SendToClient (connId : Z) (data : list byte) (len : Z) : M W bool :=
  conn ← ConnectionManager_GetConnection connId;
  match conn with
  | Some c => TcpConnection_Send_ptr c data (i32 len);; mret true
  | None => mret false
  end.

Definition ConnectionManager_Broadcast (data : list byte) (len : Z) : M W bool :=
  cm ← gets w_cm;
  forM (ordered_ids (cm_connections cm)) (λ id,
    conn ← ConnectionManager_GetConnection id;
    match conn with
    | Some c => TcpConnection_Send_ptr c data (i32 len)
    | None => mret tt
    end);;
  mret true.

Definition ConnectionManager_ConnectionCount : M W Z :=
  gets (λ w, Z.of_nat (size (cm_connections (w_cm w)))).

(** ** SessionManager *)

Definition mod_sessions (f : gmap Z Session → gmap Z Session) : M W unit :=
  modify (λ w, set_w_sessions (f (w_sessions w)) w).

Definition now_ms : M W Z := t ← Timestamp_Now; mret (MilliSecondsSinceEpoch t).

Definition SessionManager_AddSession (connId : Z) : M W bool :=
  sessions_ ← gets w_sessions;
  if bool_decide (is_Some (sessions_ !! connId)) then mret false
  else
    now ← now_ms;
    mod_sessions <[connId := mkSession connId "" false 0 (u64 now)]>;;
    mret true.

Definition SessionManager_RemoveSession (connId : Z) : M W bool :=
  sessions_ ← gets w_sessions;
  mod_sessions (delete connId);;
  mret (bool_decide (is_Some (sessions_ !! connId))).

Definition SessionManager_Login (connId : Z) (account : string) : M W bool :=
  sessions_ ← gets w_sessions;
  match sessions_ !! connId with
  | None => mret false
  | Some s =>
      now ← now_ms;
      mod_sessions <[connId := set_s_loginTime (u64 now) (set_s_account account
                                 (set_s_loggedIn true s))]>;;
      mret true
  end.

Definition SessionManager_Logout (connId : Z) : M W bool :=
  sessions_ ← gets w_sessions;
  match sessions_ !! connId with
  | None => mret false
  | Some s => mod_sessions <[connId := set_s_loggedIn false s]>;; mret true
  end.

Definition SessionManager_IsLoggedIn (connId : Z) : M W bool :=
  gets (λ w, match w_sessions w !! connId with Some s => s_loggedIn s | None => false end).

Definition SessionManager_UpdateHeartbeat (connId : Z) : M W unit :=
  sessions_ ← gets w_sessions;
  match sessions_ !! connId with
  | None => mret tt
  | Some s => now ← now_ms; mod_sessions <[connId := set_s_lastHeartbeat (u64 now) s]>
  end.

(** [SessionManager::GetSession]: the session pointed to *)
Definition SessionManager_GetSession (connId : Z) : M W (option Session) :=
  gets (λ w, w_sessions w !! connId).

Definition SessionManager_SessionCount : M W Z := gets (λ w, Z.of_nat (size (w_sessions w))).

(** ** GatewayServer *)

(** the handlers registered before the start, and [GatewaySpi::OnMessage] *)
Context (dispatcher_ : PacketDispatcher W) (spi_OnMessage : Packet → Z → M W unit).

Definition mod_heartbeats (f : gmap Z Z → gmap Z Z) : M W unit :=
  mod_gs (λ g, set_gs_lastHeartbeats (f (gs_lastHeartbeats g)) g).

Definition GatewayServer_OnConnection c : M W unit :=
  g ← gets w_gs;
  EventLoop_AssertInLoopThread (gs_loop g);;
  conn ← get_conn c;
  if Connected conn then
    connId ← ConnectionManager_AddConnection c;
    mod_conn c (set_tc_connId connId);;
    SessionManager_AddSession connId;;
    now ← now_ms;
    mod_heartbeats <[connId := now]>
  else
    let connId := tc_connId conn in
    when (0 <? connId)
      (ConnectionManager_RemoveConnection connId;;
       SessionManager_RemoveSession connId;;
       mod_heartbeats (delete connId)).

(** [ThreadPool::Run] of the task that dispatches a packet: at once when the
    pool has no threads, otherwise by a worker *)
Definition workerPool_Run (packet : Packet) (connId : Z) : M W unit :=
  g ← gets w_gs;
  if gs_workerThreads g =? 0 then action (Dispatch dispatcher_ packet connId)
  else mod_gs (λ g, set_gs_workerTasks (gs_workerTasks g ++ [(packet, connId)]) g).

(** The response to a heartbeat. [&rsp] points at the header, the first
    [kHeaderLength] bytes of the object. *)
Definition heartbeat_rsp (seq : Z) : Packet :=
  mkPacket (mkHeader kHeaderLength (cmd_code kCmdHeartbeatRsp) 0 seq) [].

Definition GatewayServer_OnPacket (packet : Packet) (connId : Z) : M W unit :=
  if Cmd packet =? cmd_code kCmdHeartbeatReq then
    let rsp := heartbeat_rsp (h_seq (header packet)) in
    ConnectionManager_SendToClient connId (header_bytes (header rsp)) (TotalLength rsp);;
    mret tt
  else
    workerPool_Run packet connId;;
    g ← gets w_gs;
    when (gs_spi g) (spi_OnMessage packet (i32 connId)).

(** [codec_->OnMessage(conn, &inputBuffer_, _)]. The fuel is one more than the
    number of bytes: enough, unless the loop diverges. *)
Definition Codec_OnMessage c : M W unit := λ w,
  conn ← deref (w_conns w !! c);
  r ← OnMessage
        (Some (λ p id, transform (GatewayServer_OnPacket p id)))
        (λ w, match w_conns w !! c with Some conn => tc_connId conn | None => 0 end)
        (transform (TcpConnection_ForceClose c))
        (S (length (contents (tc_inputBuffer conn)))) (tc_inputBuffer conn) w;
  mod_conn c (set_tc_inputBuffer r.1) r.2.

Definition GatewayServer_OnMessage c (receiveTime : Z) : M W unit :=
  g ← gets w_gs;
  EventLoop_AssertInLoopThread (gs_loop g);;
  conn ← get_conn c;
  let connId := tc_connId conn in
  when (0 <? connId) (now ← now_ms; mod_heartbeats <[connId := now]>);;
  Codec_OnMessage c.

Definition GatewayServer_OnWriteComplete c : M W unit := mret tt (* LOG_TRACE *).

(** [CreateTimerFd] *)
Definition CreateTimerFd (intervalSec : Z) : M W Z :=
  fd ← sys sys_timerfd_create;
  (if fd <? 0 then failM LogFatal else mret tt);;
  r ← sys (sys_timerfd_settime fd intervalSec);
  (if r <? 0 then failM LogFatal else mret tt);;
  mret fd.

Definition GatewayServer_SetupHeartbeat : M W unit :=
  g ← gets w_gs;
  fd ← CreateTimerFd (Z.quot (gs_heartbeatTimeoutSec g) 2);
  mod_gs (set_gs_heartbeatTimerFd fd);;
  chan ← alloc;
  put_chan chan (new_Channel (gs_loop g) fd);;
  mod_gs (set_gs_heartbeatChannel (Some chan));;
  mod_chan chan (set_ch_readCallback (Some CbHeartbeat));;
  Channel_EnableReading chan.

(** one turn of the loop of [OnHeartbeat], at the entry of [connId] *)
Definition expire (now timeoutMs : Z) (connId : Z) : M W unit :=
  g ← gets w_gs;
  last ← lift (deref (gs_lastHeartbeats g !! connId));
  if timeoutMs <? now - last then
    conn ← ConnectionManager_GetConnection connId;
    (match conn with Some c => TcpConnection_ForceClose c | None => mret tt end);;
    SessionManager_RemoveSession connId;;
    mod_heartbeats (delete connId)
  else mret tt.

Definition GatewayServer_OnHeartbeat (receiveTime : Z) : M W unit :=
  g ← gets w_gs;
  EventLoop_AssertInLoopThread (gs_loop g);;
  sys (sys_read8 (gs_heartbeatTimerFd g));;
  now ← now_ms;
  forM (ordered_ids (gs_lastHeartbeats g)) (expire now (gs_heartbeatTimeoutSec g * 1000)).

Definition workerPool_Start : M W unit :=
  g ← gets w_gs;
  assertM (negb (gs_workerRunning g));;
  mod_gs (λ g, set_gs_workerThreads (gs_workerThreads g + Z.max 0 (gs_workerNumThreads g))
                 (set_gs_workerRunning true g)).

(** the workers are joined: what is queued stays queued *)
Definition workerPool_Stop : M W unit := mod_gs (set_gs_workerRunning false).

Definition GatewayServer_Start : M W unit :=
  g ← gets w_gs;
  assertM (negb (gs_started g));;
  mod_gs (set_gs_started true);;
  workerPool_Start;;
  GatewayServer_SetupHeartbeat;;
  TcpServer_Start.

Definition GatewayServer_Stop : M W unit :=
  g ← gets w_gs;
  mod_gs (set_gs_started false);;
  when (gs_started g) (workerPool_Stop;; EventLoop_Quit (gs_loop g)).

Definition GatewayServer_SetThreadNum (numThreads : Z) : M W unit := TcpServer_SetThreadNum numThreads.
Definition GatewayServer_SetWorkerThreadNum (numThreads : Z) : M W unit :=
  mod_gs (set_gs_workerNumThreads numThreads).

(** [GatewayServer::GatewayServer]; [heartbeatTimeout] is the configured one *)
Definition new_GatewayServer (loop : loc) (listenAddr : sockaddr_in) (indeterminate : Z)
    (heartbeatTimeout : Z) : M W unit :=
  new_TcpServer loop listenAddr "GatewayServer" false indeterminate;;
  modify (λ w, set_w_gs
    (mkGatewayServer loop false false (-1) None heartbeatTimeout ∅ 0 0 false []) w).

(** [GatewayServer::~GatewayServer], up to the destructors of its members *)
Definition delete_GatewayServer : M W unit :=
  GatewayServer_Stop;;
  g ← gets w_gs;
  (match gs_heartbeatChannel g with
   | Some chan => Channel_DisableAll chan;; Channel_Remove chan
   | None => mret tt
   end);;
  when (0 <=? gs_heartbeatTimerFd g) (sys (sys_close (gs_heartbeatTimerFd g));; mret tt).

(** ** What the event loops run *)

Definition OnClose : loc → M W unit := TcpServer_RemoveConnection.

Definition exec (f : functor) : M W unit :=
  match f with
  | FSendInLoop c message => TcpConnection_SendInLoop c message
  | FShutdownInLoop c => TcpConnection_ShutdownInLoop c
  | FForceCloseInLoop c => TcpConnection_ForceCloseInLoop GatewayServer_OnConnection OnClose c
  | FConnectEstablished c => TcpConnection_ConnectEstablished GatewayServer_OnConnection c
  | FConnectDestroyed c => TcpConnection_ConnectDestroyed GatewayServer_OnConnection c
  | FRemoveConnectionInLoop c => TcpServer_RemoveConnectionInLoop c
  | FWriteComplete c => GatewayServer_OnWriteComplete c
  | FHighWaterMark _ _ => mret tt   (* no connection has this callback *)
  | FListen => Acceptor_Listen
  end.

Definition run_callback (cb : callback) (t : Z) : M W unit :=
  match cb with
  | CbWakeup l => EventLoop_HandleRead l
  | CbAccept => Acceptor_HandleRead GatewayServer_OnConnection
  | CbHeartbeat => GatewayServer_OnHeartbeat t
  | CbConnRead c =>
      TcpConnection_HandleRead GatewayServer_OnConnection GatewayServer_OnMessage OnClose c t
  | CbConnWrite c => TcpConnection_HandleWrite c
  | CbConnClose c => TcpConnection_HandleClose GatewayServer_OnConnection OnClose c
  | CbConnError c => TcpConnection_HandleError c
  end.

(** [loop.Loop()] of the gateway *)
Definition gateway_Loop (fuel : nat) l : M W unit :=
  EventLoop_Loop run_callback exec destroy_functor fuel l.

(** the part of [main] between the configuration and [loop.Loop()] *)
Definition main_setup (tradeBindIp : string) (tradePort ioThreadNum workerThreadNum : Z)
    (heartbeatTimeout : Z) (stack_addr : sockaddr_in) (indeterminate : Z) : M W loc :=
  let listenAddr := sockets_FromIpPort tradeBindIp tradePort stack_addr in
  l ← new_EventLoop;
  new_GatewayServer l listenAddr indeterminate heartbeatTimeout;;
  GatewayServer_SetThreadNum ioThreadNum;;
  GatewayServer_SetWorkerThreadNum workerThreadNum;;
  GatewayServer_Start;;
  mret l.
End gateway.

(** ** What the codec and the packets leave alone

    A relation that the parts of [OnMessage] keep, it keeps. *)

Section gateway_frames.
Context {K : Type} `{Kernel K} (R : relation (World K)) `{!PreOrder R}.
Context (dispatcher_ : PacketDispatcher (World K)) (spi_OnMessage : Packet → Z → M (World K) unit).

Lemma preserves_OnPacket p id :
  (∀ cmd h p id, dispatcher_ !! cmd = Some h → preserves R (action (h p id))) →
  (∀ p id, preserves R (spi_OnMessage p id)) →
  (∀ d n, preserves R (ConnectionManager_SendToClient id d n)) →
  (∀ tasks, preserves R (mod_gs (λ g, set_gs_workerTasks (gs_workerTasks g ++ tasks) g))) →
  preserves R (GatewayServer_OnPacket dispatcher_ spi_OnMessage p id).
Proof.
  intros Hd Hs Hc Hg. pose proof (preserves_Dispatch R dispatcher_ p id Hd).
  unfold GatewayServer_OnPacket, workerPool_Run. frame_tac; done || apply Hs || apply Hg || apply Hc.
Qed.

Lemma preserves_Codec_OnMessage_here c :
  let id w := match w_conns w !! c with Some conn => tc_connId conn | None => 0 end in
  (∀ p, preserves R (λ w, GatewayServer_OnPacket dispatcher_ spi_OnMessage p (id w) w)) →
  preserves R (TcpConnection_ForceClose c) →
  (∀ buf, preserves R (mod_conn c (set_tc_inputBuffer buf))) →
  preserves R (Codec_OnMessage dispatcher_ spi_OnMessage c).
Proof.
  intros id Hp Hf Hm w u w' E. unfold Codec_OnMessage in E. inv_bind E as conn Ec.
  inv_bind E as r Er. destruct r as [buf w1]. etrans; [|by eapply Hm].
  eapply (preserves_codec R); [| |exact Er].
  - intros p. apply (preserves_transform R _ (Hp p)).
  - by apply preserves_transform.
Qed.
Lemma preserves_Codec_OnMessage c :
  (∀ p id, preserves R (GatewayServer_OnPacket dispatcher_ spi_OnMessage p id)) →
  preserves R (TcpConnection_ForceClose c) →
  (∀ buf, preserves R (mod_conn c (set_tc_inputBuffer buf))) →
  preserves R (Codec_OnMessage dispatcher_ spi_OnMessage c).
Proof.
  intros Hp. apply preserves_Codec_OnMessage_here. intros p w u w'. apply (Hp p _ w u w').
Qed.
End gateway_frames.
