(* ===== verification/Registry.v ===== *)
(** * The registries of the gateway agree

    The connection manager, the session manager and the heartbeat table are
    kept by callbacks that fire at different times. This file shows that every
    callback and functor the loops run keeps them consistent with the
    connections. *)
From S2P Require Import Prelude RingBuffer Protocol World Reactor Sockets Connection Server.
From S2P Require Import Gateway.

Section registry.
Context {K : Type} `{Kernel K}.
Abbreviation W := (World K).
Implicit Types (c l : loc) (w : W) (id : Z).

(** what a connection shows to the registries *)
Definition conn_view (conn : TcpConnection) : Z * bool :=
  (tc_connId conn, is_open (tc_state conn)).

(** Most operations leave the registries alone, and each connection as far as
    the registries can tell. *)
Definition rframe : relation W := λ w w',
  w_cm w' = w_cm w ∧ w_sessions w' = w_sessions w ∧
  gs_lastHeartbeats (w_gs w') = gs_lastHeartbeats (w_gs w) ∧
  (w_next w ≤ w_next w')%nat ∧
  ∀ c, conn_view <$> w_conns w' !! c = conn_view <$> w_conns w !! c.

#[export] Instance rframe_preorder : PreOrder rframe.
Proof.
  split.
  - intros w. split_and!; auto.
  - intros w1 w2 w3 (? & ? & ? & ? & Hc1) (? & ? & ? & ? & Hc2).
    split_and!; [congruence..|lia|]. intros c. by rewrite Hc2.
Qed.

Lemma rframe_sys {A} (f : K → A * K) : preserves rframe (sys f).
Proof. intros w a w' [= _ <-]. split_and!; auto. Qed.
Lemma rframe_alloc : preserves rframe alloc.
Proof. intros w a w' [= _ <-]. split_and!; rs; auto. Qed.
Lemma rframe_put_loop l x : preserves rframe (put_loop l x).
Proof. apply preserves_modify. intros w. split_and!; auto. Qed.
Lemma rframe_put_chan c x : preserves rframe (put_chan c x).
Proof. apply preserves_modify. intros w. split_and!; auto. Qed.
Lemma rframe_mod_server f : preserves rframe (mod_server f).
Proof. apply preserves_modify. intros w. split_and!; auto. Qed.
Lemma rframe_mod_gs f :
  (∀ g, gs_lastHeartbeats (f g) = gs_lastHeartbeats g) → preserves rframe (mod_gs f).
Proof. intros Hf. apply preserves_modify. intros w. split_and!; simpl; auto. Qed.
Lemma rframe_mod_conn c f :
  (∀ conn, conn_view (f conn) = conn_view conn) → preserves rframe (mod_conn c f).
Proof.
  intros Hf w u w' (conn & Hc & ->)%mod_conn_inv. split_and!; auto. rs. intros c'.
  destruct (decide (c' = c)) as [->|]; [|by rewrite lookup_insert_ne].
  rewrite lookup_insert_eq, Hc. simpl. by rewrite Hf.
Qed.
End registry.

#[export] Hint Resolve rframe_sys rframe_alloc rframe_put_loop rframe_put_chan rframe_mod_server : frame.
#[export] Hint Extern 2 (preserves rframe (mod_conn _ _)) =>
  apply rframe_mod_conn; intros []; reflexivity : frame.
#[export] Hint Extern 2 (preserves rframe (mod_gs _)) =>
  apply rframe_mod_gs; intros []; reflexivity : frame.
#[export] Hint Extern 2 (preserves rframe (mod_loop _ _)) => unfold mod_loop; frame_tac : frame.
#[export] Hint Extern 2 (preserves rframe (mod_chan _ _)) => unfold mod_chan; frame_tac : frame.

(** the operations of the reactor and of the output path are framed *)
Section frames.
Context {K : Type} `{Kernel K}.
Abbreviation R := (rframe (K := K)).
Implicit Types (c l : loc).

Lemma rframe_assert_thread l : preserves R (EventLoop_AssertInLoopThread l).
Proof. frame_tac. Qed.
Lemma rframe_queue l f : preserves R (EventLoop_QueueInLoop l f).
Proof. frame_tac. Qed.
End frames.
#[export] Hint Resolve rframe_assert_thread rframe_queue : frame.

Section more_frames.
Context {K : Type} `{Kernel K}.
Abbreviation R := (rframe (K := K)).
Implicit Types (c l : loc).

Lemma rframe_update c : preserves R (Channel_Update c).
Proof. frame_tac. Qed.
Lemma rframe_remove c : preserves R (Channel_Remove c).
Proof. frame_tac. Qed.
End more_frames.
#[export] Hint Resolve rframe_update rframe_remove : frame.

Section connection_frames.
Context {K : Type} `{Kernel K}.
Abbreviation R := (rframe (K := K)).
Implicit Types (c l : loc).

Lemma rframe_SendInLoop c d : preserves R (TcpConnection_SendInLoop c d).
Proof. frame_tac. Qed.
Lemma rframe_HandleWrite c : preserves R (TcpConnection_HandleWrite c).
Proof. frame_tac. Qed.
Lemma rframe_HandleError c : preserves R (TcpConnection_HandleError c).
Proof. frame_tac. Qed.
Lemma rframe_RemoveConnection c : preserves R (TcpServer_RemoveConnection c).
Proof. frame_tac. Qed.
Lemma rframe_now_ms : preserves R now_ms.
Proof. frame_tac. Qed.
End connection_frames.
#[export] Hint Resolve rframe_SendInLoop rframe_HandleWrite rframe_HandleError
  rframe_RemoveConnection rframe_now_ms : frame.

Section close_frames.
Context {K : Type} `{Kernel K}.
Abbreviation W := (World K).
Abbreviation R := (rframe (K := K)).
Implicit Types (c l : loc) (w : W).

Lemma gets_inv {A} (f : W → A) w a w' : gets f w = Ok (a, w') → a = f w ∧ w' = w.
Proof. by intros [= <- <-]. Qed.
Lemma assert_inv b w u w' : assertM b w = Ok (u, w') → b = true ∧ w' = w.
Proof. destruct b; [|done]. by intros [= <- <-]. Qed.

(** closing starts from an open connection, which stays open for the
    registries until [HandleClose] *)
Lemma rframe_closing c w u w' conn :
  w_conns w !! c = Some conn → is_open (tc_state conn) = true →
  mod_conn c (set_tc_state kDisconnecting) w = Ok (u, w') → R w w'.
Proof.
  intros Hc Ho (conn' & Hc' & ->)%mod_conn_inv. simplify_eq.
  split_and!; auto. rs. intros c'.
  destruct (decide (c' = c)) as [->|]; [|by rewrite lookup_insert_ne].
  rewrite lookup_insert_eq, Hc. unfold conn_view. rs. simpl. by rewrite Ho.
Qed.

Lemma rframe_ForceClose c : preserves R (TcpConnection_ForceClose c).
Proof.
  intros w u w' (conn & w1 & [Hc ->]%get_conn_inv & E)%runM_bind_inv.
  destruct (is_open (tc_state conn)) eqn:Ho; [|by injection E as _ <-].
  apply runM_bind_inv in E as (u' & w2 & E & E'). etrans; [by eapply rframe_closing|].
  revert E'. by apply rframe_queue.
Qed.

Lemma rframe_Shutdown c : preserves R (TcpConnection_Shutdown c).
Proof.
  intros w u w' (conn & w1 & [Hc ->]%get_conn_inv & E)%runM_bind_inv.
  case_bool_decide as Ho; [|by injection E as _ <-].
  apply runM_bind_inv in E as (u' & w2 & E & E').
  etrans; [eapply rframe_closing; [done| |done]; by rewrite Ho|].
  revert E'. set (m := EventLoop_RunInLoop _ _ _). assert (preserves R m) as Hm; [|by apply Hm].
  subst m. frame_tac.
Qed.
End close_frames.
#[export] Hint Resolve rframe_ForceClose rframe_Shutdown : frame.

(** ** The channel operations do not touch the connections at all *)

Section sframe.
Context {K : Type} `{Kernel K}.
Abbreviation W := (World K).
Implicit Types (c l : loc) (w : W).

Definition sframe : relation W := λ w w', w_conns w' = w_conns w ∧ rframe w w'.

#[export] Instance sframe_preorder : PreOrder sframe.
Proof.
  split.
  - by intros w.
  - intros w1 w2 w3 [? ?] [? ?]. split; [congruence|]. by etrans.
Qed.

Lemma sframe_intro {A} (m : M W A) :
  preserves rframe m → (∀ w a w', m w = Ok (a, w') → w_conns w' = w_conns w) → preserves sframe m.
Proof. intros Hr Hc w a w' E. split; [by eapply Hc|by eapply Hr]. Qed.

Lemma sframe_sys {A} (f : K → A * K) : preserves sframe (sys f).
Proof. apply sframe_intro; [apply rframe_sys|]. by intros w a w' [= _ <-]. Qed.
Lemma sframe_put_loop l x : preserves sframe (put_loop l x).
Proof. apply sframe_intro; [apply rframe_put_loop|]. by intros w a w' [= _ <-]. Qed.
Lemma sframe_put_chan c x : preserves sframe (put_chan c x).
Proof. apply sframe_intro; [apply rframe_put_chan|]. by intros w a w' [= _ <-]. Qed.
End sframe.
#[export] Hint Resolve sframe_sys sframe_put_loop sframe_put_chan : frame.
#[export] Hint Extern 2 (preserves sframe (mod_loop _ _)) => unfold mod_loop; frame_tac : frame.
#[export] Hint Extern 2 (preserves sframe (mod_chan _ _)) => unfold mod_chan; frame_tac : frame.

(** ** The invariant *)

Section invariant.
Context {K : Type} `{Kernel K}.
Abbreviation W := (World K).
Abbreviation R := (rframe (K := K)).
Implicit Types (c l : loc) (w : W) (id : Z).

Definition view c w : option (Z * bool) := conn_view <$> w_conns w !! c.

(** The manager maps the ids below the next one to exactly the open
    connections, each under its own id; sessions belong to registered ids;
    heartbeats have ids that were given out. *)
Record registries (w : W) : Prop := {
  rg_next : 1 ≤ cm_nextConnId (w_cm w);
  rg_fresh c : is_Some (view c w) → (c < w_next w)%nat;
  rg_ids c id b : view c w = Some (id, b) → 0 ≤ id < cm_nextConnId (w_cm w);
  rg_manager id c : cm_connections (w_cm w) !! id = Some c →
    1 ≤ id < cm_nextConnId (w_cm w) ∧ view c w = Some (id, true);
  rg_open id c : view c w = Some (id, true) → cm_connections (w_cm w) !! id = Some c;
  rg_session id : is_Some (w_sessions w !! id) → is_Some (cm_connections (w_cm w) !! id);
  rg_heartbeat id : is_Some (gs_lastHeartbeats (w_gs w) !! id) → 1 ≤ id < cm_nextConnId (w_cm w);
}.

Lemma registries_frame w w' : registries w → R w w' → registries w'.
Proof.
  intros [] (Hcm & Hse & Hhb & Hnx & Hv). unfold view in *.
  split; unfold view; setoid_rewrite Hv || idtac; rewrite ?Hcm; try setoid_rewrite Hse;
    try setoid_rewrite Hhb; auto.
  intros c Hc. apply rg_fresh0 in Hc. lia.
Qed.

(** what registering a connection changes *)
Definition registered (id : Z) c (w w' : W) : Prop :=
  cm_connections (w_cm w') = <[id := c]> (cm_connections (w_cm w)) ∧
  cm_nextConnId (w_cm w') = i64 (id + 1) ∧
  (∀ i, is_Some (w_sessions w' !! i) → i = id ∨ is_Some (w_sessions w !! i)) ∧
  (∀ i, is_Some (gs_lastHeartbeats (w_gs w') !! i) →
        i = id ∨ is_Some (gs_lastHeartbeats (w_gs w) !! i)) ∧
  (w_next w ≤ w_next w')%nat ∧
  view c w' = Some (id, true) ∧ (∀ c', c' ≠ c → view c' w' = view c' w).

(** what unregistering the connection of [id] changes *)
Definition unregistered (id : Z) c (w w' : W) : Prop :=
  cm_connections (w_cm w') = delete id (cm_connections (w_cm w)) ∧
  cm_nextConnId (w_cm w') = cm_nextConnId (w_cm w) ∧
  (∀ i, is_Some (w_sessions w' !! i) → i ≠ id ∧ is_Some (w_sessions w !! i)) ∧
  (∀ i, is_Some (gs_lastHeartbeats (w_gs w') !! i) → is_Some (gs_lastHeartbeats (w_gs w) !! i)) ∧
  (w_next w ≤ w_next w')%nat ∧
  view c w' = Some (id, false) ∧ (∀ c', c' ≠ c → view c' w' = view c' w).

Lemma registries_registered id c w w' b0 id0 :
  registries w → id = cm_nextConnId (w_cm w) → id < 2 ^ 63 - 1 →
  view c w = Some (id0, b0) → b0 = false → registered id c w w' → registries w'.
Proof.
  intros [] -> Hb Hvc -> (Hcm & Hnx & Hse & Hhb & Hal & Hv & Hvo).
  rewrite i64_small in Hnx by lia.
  assert (Hother : ∀ c' x, view c' w' = Some x → c' = c ∨ c' ≠ c ∧ view c' w = Some x).
  { intros c' x. destruct (decide (c' = c)) as [->|]; [by left|]. rewrite Hvo by done. auto. }
  split; rewrite ?Hcm, ?Hnx.
  - lia.
  - intros c' Hc'. destruct (decide (c' = c)) as [->|]; [specialize (rg_fresh0 c)|];
      [rewrite Hvc in rg_fresh0; specialize (rg_fresh0 ltac:(eauto)); lia|].
    rewrite Hvo in Hc' by done. apply rg_fresh0 in Hc'. lia.
  - intros c' id b Hc'. destruct (Hother _ _ Hc') as [->|[_ Hc'']]; [|apply rg_ids0 in Hc''; lia].
    rewrite Hv in Hc'. injection Hc' as <- <-. lia.
  - intros id c' [[<- <-]|[Hne Hc']]%lookup_insert_Some; [split; [lia|done]|].
    destruct (rg_manager0 _ _ Hc') as [? Hvw]. split; [lia|]. rewrite Hvo; [done|congruence].
  - intros id c' Hc'. destruct (Hother _ _ Hc') as [->|[_ Hc'']].
    + rewrite Hv in Hc'. injection Hc' as <-. apply lookup_insert_eq.
    + apply rg_open0 in Hc''. pose proof (rg_manager0 _ _ Hc''). rewrite lookup_insert_ne by lia. done.
  - intros id Hid. destruct (Hse _ Hid) as [->|Hid']; [rewrite lookup_insert_eq; eauto|].
    destruct (rg_session0 _ Hid') as [c' Hc']. pose proof (rg_manager0 _ _ Hc').
    rewrite lookup_insert_ne by lia. eauto.
  - intros id Hid. destruct (Hhb _ Hid) as [->|Hid']; [lia|]. apply rg_heartbeat0 in Hid'. lia.
Qed.

Lemma registries_unregistered id c w w' :
  registries w → view c w = Some (id, true) → unregistered id c w w' → registries w'.
Proof.
  intros [] Hvc (Hcm & Hnx & Hse & Hhb & Hal & Hv & Hvo).
  assert (Hother : ∀ c' x, view c' w' = Some x → c' = c ∨ c' ≠ c ∧ view c' w = Some x).
  { intros c' x. destruct (decide (c' = c)) as [->|]; [by left|]. rewrite Hvo by done. auto. }
  split; rewrite ?Hcm, ?Hnx.
  - done.
  - intros c' Hc'. destruct (decide (c' = c)) as [->|]; [specialize (rg_fresh0 c)|];
      [rewrite Hvc in rg_fresh0; specialize (rg_fresh0 ltac:(eauto)); lia|].
    rewrite Hvo in Hc' by done. apply rg_fresh0 in Hc'. lia.
  - intros c' id' b Hc'. destruct (Hother _ _ Hc') as [->|[_ Hc'']]; [|by eapply rg_ids0].
    rewrite Hv in Hc'. injection Hc' as <- <-. by eapply rg_ids0.
  - intros id' c' [Hne Hc']%lookup_delete_Some.
    destruct (rg_manager0 _ _ Hc') as [? Hvw]. split; [done|]. rewrite Hvo; [done|congruence].
  - intros id' c' Hc'. destruct (Hother _ _ Hc') as [->|[Hne Hc'']].
    + rewrite Hv in Hc'. discriminate.
    + apply rg_open0 in Hvc, Hc''. rewrite lookup_delete_ne by congruence. done.
  - intros id' Hid. destruct (Hse _ Hid) as [Hne Hid'].
    rewrite lookup_delete_ne by done. auto.
  - auto.
Qed.
End invariant.

Section events.
Context {K : Type} `{Kernel K}.
Abbreviation W := (World K).
Abbreviation R := (rframe (K := K)).
Implicit Types (c l : loc) (w : W) (id : Z).

Lemma frame_view c w w' : R w w' → view c w' = view c w.
Proof. intros (_ & _ & _ & _ & Hv). apply Hv. Qed.

Lemma wp_any_conn c (Q : TcpConnection → W → Prop) w :
  (∀ conn, w_conns w !! c = Some conn → Q conn w) → wp any (get_conn c) Q w.
Proof. intros HQ. unfold wp, get_conn. destruct (w_conns w !! c); [by apply HQ|done]. Qed.

Lemma wp_any_in_thread l (Q : unit → W → Prop) w :
  Q tt w → wp any (EventLoop_AssertInLoopThread l) Q w.
Proof.
  intros HQ. unfold wp, EventLoop_AssertInLoopThread, EventLoop_IsInLoopThread, ifM, get_loop.
  rewrite !runM_bind. destruct (w_loops w !! l); [|done]. simpl. by destruct (_ =? _).
Qed.

Lemma OnConnection_up c conn w :
  w_conns w !! c = Some conn → tc_state conn = kConnected →
  wp any (GatewayServer_OnConnection c)
    (λ _ w', registered (cm_nextConnId (w_cm w)) c w w') w.
Proof.
  intros Hc Hst. unfold GatewayServer_OnConnection. ws. ws. apply wp_bind, wp_any_in_thread.
  ws. ws. unfold Connected. rewrite bool_decide_true by done.
  unfold ConnectionManager_AddConnection, mod_cm. run.
  set (id := cm_nextConnId (w_cm w)).
  set (conns := <[c := set_tc_connId id conn]> (w_conns w)).
  assert (Hv : conn_view <$> conns !! c = Some (id, true) ∧
               ∀ c', c' ≠ c → conn_view <$> conns !! c' = conn_view <$> w_conns w !! c').
  { split.
    - unfold conns. rewrite lookup_insert_eq. unfold conn_view. simpl. by rewrite Hst.
    - intros c' ?. unfold conns. by rewrite lookup_insert_ne. }
  unfold SessionManager_AddSession, now_ms, Timestamp_Now, mod_sessions, mod_heartbeats, mod_gs.
  run. case_bool_decide as Hs; run; unfold registered, view; rs; split_and!; try done; try apply Hv;
    intros i; rewrite ?lookup_insert_is_Some'; naive_solver.
Qed.

Lemma OnConnection_down c conn w :
  w_conns w !! c = Some conn → tc_state conn = kDisconnected → 1 ≤ tc_connId conn →
  wp any (GatewayServer_OnConnection c) (λ _ w', unregistered (tc_connId conn) c w w') w.
Proof.
  intros Hc Hst Hid. unfold GatewayServer_OnConnection. ws. ws. apply wp_bind, wp_any_in_thread.
  ws. ws. unfold Connected. rewrite bool_decide_false by (by rewrite Hst).
  apply wp_when. rewrite (proj2 (Z.ltb_lt _ _)) by lia.
  unfold ConnectionManager_RemoveConnection, mod_cm, SessionManager_RemoveSession, mod_sessions,
    mod_heartbeats, mod_gs.
  run. unfold unregistered, view. rs. split_and!; try done.
  - intros i [s Hs]. apply lookup_delete_Some in Hs as [??]. eauto.
  - intros i [s Hs]. apply lookup_delete_Some in Hs as [??]. eauto.
  - rewrite Hc. unfold conn_view. simpl. by rewrite Hst.
Qed.

(** steps before the registration that keep the registries and the other
    connections *)
Lemma registered_from id c w w1 w2 w' :
  w_cm w1 = w_cm w ∧ w_sessions w1 = w_sessions w ∧
    gs_lastHeartbeats (w_gs w1) = gs_lastHeartbeats (w_gs w) ∧ w_next w1 = w_next w →
  R w1 w2 → (∀ c', c' ≠ c → view c' w1 = view c' w) →
  registered id c w2 w' → registered id c w w'.
Proof.
  intros (Hcm & Hse & Hhb & Hnx) (Hcm' & Hse' & Hhb' & Hnx' & Hv') Hv
    (? & ? & Hs & Hh & ? & ? & Hvo).
  unfold registered. rewrite <- Hcm, <- Hcm', <- Hse, <- Hse', <- Hhb, <- Hhb'.
  split_and!; auto; [lia|]. intros c' Hne. rewrite Hvo, <- Hv by done. apply Hv'.
Qed.

Lemma unregistered_from id c w w1 w2 w' :
  w_cm w1 = w_cm w ∧ w_sessions w1 = w_sessions w ∧
    gs_lastHeartbeats (w_gs w1) = gs_lastHeartbeats (w_gs w) ∧ w_next w1 = w_next w →
  R w1 w2 → (∀ c', c' ≠ c → view c' w1 = view c' w) →
  unregistered id c w2 w' → unregistered id c w w'.
Proof.
  intros (Hcm & Hse & Hhb & Hnx) (Hcm' & Hse' & Hhb' & Hnx' & Hv') Hv
    (? & ? & Hs & Hh & ? & ? & Hvo).
  unfold unregistered. rewrite <- Hcm, <- Hcm', <- Hse, <- Hse', <- Hhb, <- Hhb'.
  split_and!; auto; [lia|]. intros c' Hne. rewrite Hvo, <- Hv by done. apply Hv'.
Qed.

(** what every event establishes: the registries agree, and at most one id has
    been given out *)
Definition agree w w' : Prop :=
  registries w' ∧ cm_nextConnId (w_cm w') ≤ cm_nextConnId (w_cm w) + 1.

Lemma agree_frame w w' : registries w → R w w' → agree w w'.
Proof. intros Hr Hf. split; [by eapply registries_frame|]. destruct Hf as [-> _]. lia. Qed.

Lemma agree_frame_r w w1 w2 : agree w w1 → R w1 w2 → agree w w2.
Proof.
  intros [Hr Hn] Hf. split; [by eapply registries_frame|]. by destruct Hf as [-> _].
Qed.

Lemma agree_frame_l w w1 w2 : R w w1 → agree w1 w2 → agree w w2.
Proof. intros [Hcm _] [Hr Hn]. split; [done|]. by rewrite Hcm in Hn. Qed.

Lemma agree_of_frame {A} (m : M W A) w :
  preserves R m → registries w → wp any m (λ _ w', agree w w') w.
Proof. intros Hm Hr. eapply wp_any_frame; [done|]. intros _ w'. by apply agree_frame. Qed.

(** a connection is established: it gets the next id *)
Lemma ConnectEstablished_agree c w :
  registries w → cm_nextConnId (w_cm w) < 2 ^ 63 - 1 →
  wp any (TcpConnection_ConnectEstablished GatewayServer_OnConnection c)
    (λ _ w', agree w w') w.
Proof.
  intros Hr Hn. unfold TcpConnection_ConnectEstablished.
  apply wp_bind, wp_any_conn. intros conn Hc. apply wp_bind, wp_any_in_thread.
  apply wp_bind, wp_any_assert. intros Hst%bool_decide_eq_true.
  eapply wp_bind, wp_mod_conn; [done|]. set (w1 := set_w_conns _ _).
  apply wp_bind, (wp_any_frame sframe); [frame_tac|]. intros _ w2 [Hc2 Hf].
  assert (Hnx : cm_nextConnId (w_cm w2) = cm_nextConnId (w_cm w)) by (by destruct Hf as [-> _]).
  eapply wp_post; [apply (OnConnection_up c (set_tc_state kConnected conn))|]; [|done|].
  { rewrite Hc2. apply lookup_insert_eq. }
  intros [] w' Hreg. split.
  - eapply (registries_registered (cm_nextConnId (w_cm w)) c w w' (is_open (tc_state conn))
              (tc_connId conn)); [done|done|done| | |].
    + unfold view. by rewrite Hc.
    + by rewrite Hst.
    + rewrite Hnx in Hreg. eapply (registered_from _ c w w1); [done|done| |done].
      intros c' Hne. unfold w1, view. rs. by rewrite lookup_insert_ne.
  - destruct Hreg as (_ & -> & _). rewrite Hnx, i64_small; [done|]. pose proof (rg_next w Hr). lia.
Qed.

(** leaving the open states: the connection loses its id *)
Lemma close_agree c conn w (m : M W unit) :
  registries w → w_conns w !! c = Some conn → is_open (tc_state conn) = true →
  preserves R m →
  wp any (mod_conn c (set_tc_state kDisconnected);; Channel_DisableAll (tc_channel conn);;
          GatewayServer_OnConnection c;; m) (λ _ w', agree w w') w.
Proof.
  intros Hr Hc Ho Hm.
  assert (Hv : view c w = Some (tc_connId conn, true)).
  { unfold view. rewrite Hc. unfold conn_view. simpl. by rewrite Ho. }
  pose proof (rg_manager w Hr _ _ (rg_open w Hr _ _ Hv)) as [Hid _].
  eapply wp_bind, wp_mod_conn; [done|]. set (w1 := set_w_conns _ _).
  apply wp_bind, (wp_any_frame sframe); [frame_tac|]. intros _ w2 [Hc2 Hf].
  apply wp_bind. eapply wp_post.
  { apply (OnConnection_down c (set_tc_state kDisconnected conn)); [|done|apply Hid].
    rewrite Hc2. apply lookup_insert_eq. }
  intros [] w3 Hun. eapply wp_any_frame; [done|]. intros [] w4 Hf'.
  apply (agree_frame_r w w3); [|done]. rs in Hun. split.
  - eapply (registries_unregistered (tc_connId conn) c w); [done|done|].
    eapply (unregistered_from _ c w w1); [done|done| |done].
    intros c' Hne. unfold w1, view. rs. by rewrite lookup_insert_ne.
  - destruct Hun as (_ & -> & _), Hf as [-> _]. unfold w1. rs. lia.
Qed.

Lemma HandleClose_agree c w :
  registries w →
  wp any (TcpConnection_HandleClose GatewayServer_OnConnection OnClose c)
    (λ _ w', agree w w') w.
Proof.
  intros Hr. unfold TcpConnection_HandleClose. apply wp_bind, wp_any_conn. intros conn Hc.
  apply wp_bind, wp_any_in_thread. apply wp_bind, wp_any_assert. intros Ho.
  apply close_agree; [done|done|done|]. unfold OnClose. frame_tac.
Qed.

Lemma ConnectDestroyed_agree c w :
  registries w →
  wp any (TcpConnection_ConnectDestroyed GatewayServer_OnConnection c) (λ _ w', agree w w') w.
Proof.
  intros Hr. unfold TcpConnection_ConnectDestroyed. apply wp_bind, wp_any_conn. intros conn Hc.
  apply wp_bind, wp_any_in_thread. apply wp_bind.
  apply (wp_post _ _ _ (λ _ w', agree w w')).
  - apply wp_when. case_bool_decide as Hst; [|by apply agree_frame].
    assert (Ho : is_open (tc_state conn) = true) by (by rewrite Hst).
    pose proof (close_agree c conn w (mret tt) Hr Hc Ho (preserves_ret R tt)) as Hw.
    unfold wp in *. revert Hw. rewrite !runM_bind.
    destruct (mod_conn _ _ w) as [[? w1]|]; [|done]. rewrite !runM_bind.
    destruct (Channel_DisableAll _ w1) as [[? w2]|]; [|done]. rewrite runM_bind.
    by destruct (GatewayServer_OnConnection c w2) as [[[] w3]|].
  - intros [] w' Ha. eapply wp_any_frame; [apply rframe_remove|]. intros _ w''.
    by apply agree_frame_r.
Qed.

Lemma ForceCloseInLoop_agree c w :
  registries w →
  wp any (TcpConnection_ForceCloseInLoop GatewayServer_OnConnection OnClose c)
    (λ _ w', agree w w') w.
Proof.
  intros Hr. unfold TcpConnection_ForceCloseInLoop. apply wp_bind, wp_any_conn. intros conn Hc.
  apply wp_bind, wp_any_in_thread. apply wp_when.
  destruct (is_open _); [by apply HandleClose_agree|by apply agree_frame].
Qed.

(** the application behind the gateway: its handlers and its SPI reach the
    gateway only through its interface *)
Context (dispatcher_ : PacketDispatcher W) (spi_OnMessage : Packet → Z → M W unit).
Context (Hdispatch : ∀ cmd h p id, dispatcher_ !! cmd = Some h → preserves R (action (h p id))).
Context (Hspi : ∀ p id, preserves R (spi_OnMessage p id)).

Lemma OnPacket_frame p id : preserves R (GatewayServer_OnPacket dispatcher_ spi_OnMessage p id).
Proof. apply preserves_OnPacket; [exact _|done|done|intros; frame_tac..]. Qed.

Lemma Codec_OnMessage_frame c : preserves R (Codec_OnMessage dispatcher_ spi_OnMessage c).
Proof.
  apply preserves_Codec_OnMessage; [exact _|apply OnPacket_frame|apply rframe_ForceClose|].
  intros buf. apply rframe_mod_conn. by intros [].
Qed.

Lemma OnMessage_agree c t w :
  registries w →
  wp any (GatewayServer_OnMessage dispatcher_ spi_OnMessage c t) (λ _ w', agree w w') w.
Proof.
  intros Hr. unfold GatewayServer_OnMessage. ws. ws. apply wp_bind, wp_any_in_thread.
  apply wp_bind, wp_any_conn. intros conn Hc. cbv zeta. apply wp_bind.
  apply (wp_post _ _ _ (λ _ w', agree w w')).
  - apply wp_when. destruct (Z.ltb_spec 0 (tc_connId conn)) as [Hid|]; [|by apply agree_frame].
    unfold now_ms, Timestamp_Now, mod_heartbeats, mod_gs. run. split; [|rs; lia].
    assert (Hv : view c w = Some (conn_view conn)) by (unfold view; by rewrite Hc).
    destruct (conn_view conn) as [id b] eqn:Ecv. injection Ecv as Eid Eb.
    pose proof (rg_ids w Hr c id b Hv) as Hids. destruct Hr.
    split; unfold view in *; rs; auto.
    intros i [x [[<- <-]|[? Hx]]%lookup_insert_Some]; [lia|]. apply rg_heartbeat0. eauto.
  - intros [] w' Ha. eapply wp_any_frame; [apply Codec_OnMessage_frame|]. intros [] w''.
    by apply agree_frame_r.
Qed.

Lemma HandleRead_agree c t w :
  registries w →
  wp any (TcpConnection_HandleRead GatewayServer_OnConnection
            (GatewayServer_OnMessage dispatcher_ spi_OnMessage) OnClose c t)
    (λ _ w', agree w w') w.
Proof.
  intros Hr. unfold TcpConnection_HandleRead. apply wp_bind, wp_any_conn. intros conn Hc.
  apply wp_bind, wp_any_in_thread. apply wp_bind, (wp_any_frame R); [frame_tac|]. intros ch w1 Hf1.
  apply wp_bind, (wp_any_frame R); [frame_tac|]. intros rv w2 Hf2.
  apply wp_bind, wp_any_lift. intros [[n e] buf] _.
  apply wp_bind, (wp_any_frame R); [by apply rframe_mod_conn; intros []|]. intros _ w3 Hf3.
  assert (Hf : R w w3) by (by etrans; [|etrans]).
  assert (Hr3 : registries w3) by (by eapply registries_frame).
  destruct (0 <? n); [|destruct (n =? 0)].
  - eapply wp_post; [by apply OnMessage_agree|]. intros [] w4. by apply agree_frame_l.
  - eapply wp_post; [by apply HandleClose_agree|]. intros [] w4. by apply agree_frame_l.
  - eapply wp_any_frame; [apply rframe_HandleError|]. intros [] w4 ?.
    apply agree_frame; [done|]. by etrans.
Qed.

(** no id has been given out yet *)
Definition settled w w' : Prop := registries w' ∧ w_cm w' = w_cm w.

Lemma settled_frame w w1 w2 : settled w w1 → R w1 w2 → settled w w2.
Proof.
  intros [Hr Hn] Hf. split; [by eapply registries_frame|]. by destruct Hf as [-> _].
Qed.

(** a new connection is not open yet *)
Lemma new_TcpConnection_agree loop name fd a1 a2 w :
  registries w → wp any (new_TcpConnection loop name fd a1 a2) (λ _ w', settled w w') w.
Proof.
  intros Hr. unfold new_TcpConnection. do 8 (ws; rs).
  match goal with |- wp _ _ _ ?x => set (w1 := x) end.
  assert (Ha : settled w w1).
  { split; [|done].
    assert (Hnone : w_conns w !! w_next w = None).
    { destruct (w_conns w !! w_next w) eqn:E; [|done].
      assert (w_next w < w_next w)%nat; [|lia]. apply (rg_fresh w Hr). unfold view. rewrite E. by eexists. }
    assert (Hv : ∀ c', view c' w1 = if decide (c' = w_next w) then Some (0, false) else view c' w).
    { intros c'. unfold view, w1. rs. case_decide; subst;
        [by rewrite lookup_insert_eq|by rewrite lookup_insert_ne]. }
    assert (Hcm : w_cm w1 = w_cm w) by done. assert (Hse : w_sessions w1 = w_sessions w) by done.
    assert (Hgs : w_gs w1 = w_gs w) by done. assert (Hnx : w_next w1 = S (S (w_next w))) by done.
    clearbody w1. destruct Hr.
    split; rewrite ?Hcm, ?Hse, ?Hgs, ?Hnx; auto; intros *; rewrite ?Hv.
    - case_decide; subst; [lia|]. intros ?%rg_fresh0. lia.
    - case_decide; [intros [= <- <-]; lia|]. apply rg_ids0.
    - intros Hid. destruct (rg_manager0 _ _ Hid) as [? Hvc]. split; [done|].
      rewrite decide_False; [done|]. intros ->. unfold view in Hvc. by rewrite Hnone in Hvc.
    - case_decide; [intros [=]|]. apply rg_open0. }
  clearbody w1.
  apply (wp_any_frame R); [frame_tac|]. intros c w2. by apply settled_frame.
Qed.


Lemma settled_agree {A} (m : M W A) w w1 :
  settled w w1 → wp any m (λ _ w', agree w1 w') w1 → wp any m (λ _ w', agree w w') w1.
Proof.
  intros [_ E] Hm. eapply wp_post; [done|]. intros a w' [Hr' Hn']. split; [done|].
  by rewrite E in Hn'.
Qed.

Lemma NewConnection_agree fd peer w :
  registries w → cm_nextConnId (w_cm w) < 2 ^ 63 - 1 →
  wp any (TcpServer_NewConnection GatewayServer_OnConnection fd peer) (λ _ w', agree w w') w.
Proof.
  intros Hr Hn. unfold TcpServer_NewConnection. ws. ws. apply wp_bind, wp_any_in_thread.
  apply wp_bind, (wp_any_frame R); [frame_tac|]. intros ioLoop w1 Hf1.
  apply wp_bind, (wp_any_frame R); [frame_tac|]. intros _ w2 Hf2.
  apply wp_bind, (wp_any_frame R); [frame_tac|]. intros _ w3 Hf3.
  apply wp_bind, (wp_any_frame R); [frame_tac|]. intros addr w4 Hf4.
  assert (Hs : settled w w4).
  { eapply settled_frame; [by split|]. etrans; [done|]. etrans; [done|]. by etrans. }
  clear Hf1 Hf2 Hf3 Hf4. apply wp_bind. eapply wp_post; [apply new_TcpConnection_agree, Hs|].
  intros c w5 [Hr5 Hcm5]. assert (Hs5 : settled w w5).
  { split; [done|]. rewrite Hcm5. apply Hs. }
  apply wp_bind, (wp_any_frame R); [frame_tac|]. intros _ w6 Hf6.
  apply wp_bind, (wp_any_frame R); [frame_tac|]. intros _ w7 Hf7.
  assert (Hs7 : settled w w7) by (eapply settled_frame; [done|by etrans]).
  eapply settled_agree; [done|]. unfold EventLoop_RunInLoop. apply wp_ifM, (wp_any_frame R);
    [frame_tac|]. intros here w8 Hf8.
  assert (Hr8 : registries w8) by (eapply registries_frame; [apply Hs7|done]).
  destruct here.
  - eapply wp_post; [apply ConnectEstablished_agree; [done|]|].
    + destruct Hf8 as [-> _], Hs7 as [_ ->]. done.
    + intros [] w9. by apply agree_frame_l.
  - eapply wp_any_frame; [apply rframe_queue|]. intros [] w9 ?. apply agree_frame; [apply Hs7|].
    by etrans.
Qed.

Lemma Acceptor_HandleRead_agree w :
  registries w → cm_nextConnId (w_cm w) < 2 ^ 63 - 1 →
  wp any (Acceptor_HandleRead GatewayServer_OnConnection) (λ _ w', agree w w') w.
Proof.
  intros Hr Hn. unfold Acceptor_HandleRead. ws. ws. apply wp_bind, wp_any_in_thread.
  apply wp_bind, (wp_any_frame R); [frame_tac|]. intros [[connfd errno] peer] w1 Hf.
  destruct (0 <=? connfd).
  - destruct (ac_newConnectionCallback _).
    + eapply wp_post; [apply NewConnection_agree; [by eapply registries_frame|by destruct Hf as [-> _]]|].
      intros [] w2. by apply agree_frame_l.
    + apply (wp_any_frame R); [frame_tac|]. intros [] w2 ?. apply agree_frame; [done|by etrans].
  - apply (wp_any_frame R); [frame_tac|]. intros [] w2 ?. apply agree_frame; [done|by etrans].
Qed.

(** the heartbeat timer drops sessions and heartbeats *)
Lemma registries_dropped id w :
  registries w →
  registries (set_w_gs (set_gs_lastHeartbeats (delete id (gs_lastHeartbeats (w_gs w))) (w_gs w))
    (set_w_sessions (delete id (w_sessions w)) w)).
Proof.
  intros []. split; unfold view in *; rs; auto.
  - intros i [x [??]%lookup_delete_Some]. eauto.
  - intros i [x [??]%lookup_delete_Some]. eauto.
Qed.

Lemma OnHeartbeat_agree t w :
  registries w → wp any (GatewayServer_OnHeartbeat t) (λ _ w', agree w w') w.
Proof.
  intros Hr. unfold GatewayServer_OnHeartbeat. ws. ws. apply wp_bind, wp_any_in_thread.
  apply wp_bind, (wp_any_frame R); [frame_tac|]. intros _ w1 Hf1.
  apply wp_bind, (wp_any_frame R); [frame_tac|]. intros now w2 Hf2.
  apply (wp_forM _ _ _ (λ _ w', settled w w')).
  - eapply settled_frame; [by split|by etrans].
  - clear. intros id ids w1 Hs. unfold expire. ws. ws. apply wp_bind, wp_any_lift. intros last _.
    destruct (_ <? _); [|by apply wp_ret].
    apply wp_bind, (wp_any_frame R); [frame_tac|]. intros conn w2 Hf1.
    apply wp_bind, (wp_any_frame R); [frame_tac|]. intros _ w3 Hf2.
    assert (Hs3 : settled w w3) by (eapply settled_frame; [done|by etrans]).
    unfold SessionManager_RemoveSession, mod_sessions, mod_heartbeats. run.
    split; [apply registries_dropped, Hs3|apply Hs3].
  - intros w3 [Hr3 Hcm]. split; [done|]. rewrite Hcm. lia.
Qed.

(** only closed connections are destroyed *)
Lemma release_agree c w : registries w → wp any (release c) (λ _ w', agree w w') w.
Proof.
  intros Hr. unfold release. run. destruct (negb _); [|by apply wp_ret, agree_frame].
  unfold delete_TcpConnection. apply wp_bind, wp_any_conn. intros conn Hc.
  apply wp_bind, wp_any_assert. intros Hst%bool_decide_eq_true.
  apply wp_bind, (wp_any_frame sframe).
  { unfold delete_Channel. repeat (apply preserves_bind; [exact _| |intros ?]); try frame_tac.
    intros w1 u w2 [= _ <-]. split; [done|]. by split_and!. }
  intros _ w1 [Hc1 Hf]. apply wp_modify.
  assert (Hr1 : registries w1) by (by eapply registries_frame).
  assert (Hcm : w_cm w1 = w_cm w) by apply Hf. rewrite <- Hc1 in Hc. clear Hc1 Hf Hr.
  split; [|rs; rewrite Hcm; lia].
  assert (Hv : view c w1 = Some (tc_connId conn, false)).
  { unfold view. rewrite Hc. unfold conn_view. simpl. by rewrite Hst. }
  set (w2 := set_w_conns _ w1).
  assert (Hv2 : ∀ c', view c' w2 = if decide (c' = c) then None else view c' w1).
  { intros c'. unfold view, w2. rs. case_decide; subst;
      [by rewrite lookup_delete_eq|by rewrite lookup_delete_ne]. }
  assert (E : w_cm w2 = w_cm w1 ∧ w_sessions w2 = w_sessions w1 ∧ w_gs w2 = w_gs w1 ∧
              w_next w2 = w_next w1) by done.
  destruct E as (E1 & E2 & E3 & E4). clearbody w2. destruct Hr1.
  split; rewrite ?E1, ?E2, ?E3, ?E4; auto; intros *; rewrite ?Hv2.
  - case_decide; [by intros []|]. auto.
  - case_decide; [done|]. apply rg_ids0.
  - intros Hid. destruct (rg_manager0 _ _ Hid) as [? Hvc]. split; [done|].
    rewrite decide_False; [done|]. intros ->. congruence.
  - case_decide; [done|]. apply rg_open0.
Qed.

(** what a loop runs *)
Inductive event : Type :=
| EvCallback (cb : callback) (t : Z)      (* a channel's callback *)
| EvFunctor (f : functor)                 (* a queued functor *)
| EvDestroy (f : functor).                (* the end of a functor *)

Definition run_event (e : event) : M W unit :=
  match e with
  | EvCallback cb t => run_callback dispatcher_ spi_OnMessage cb t
  | EvFunctor f => exec f
  | EvDestroy f => destroy_functor f
  end.

Lemma event_agree e w :
  registries w → cm_nextConnId (w_cm w) < 2 ^ 63 - 1 →
  wp any (run_event e) (λ _ w', agree w w') w.
Proof.
  intros Hr Hn. destruct e as [[l| | |c|c|c|c] t|[c m|c|c|c|c|c|c|c n|]|f]; simpl.
  - apply agree_of_frame; [frame_tac|done].
  - by apply Acceptor_HandleRead_agree.
  - by apply OnHeartbeat_agree.
  - by apply HandleRead_agree.
  - apply agree_of_frame; [frame_tac|done].
  - by apply HandleClose_agree.
  - apply agree_of_frame; [frame_tac|done].
  - apply agree_of_frame; [frame_tac|done].
  - apply agree_of_frame; [frame_tac|done].
  - by apply ForceCloseInLoop_agree.
  - by apply ConnectEstablished_agree.
  - by apply ConnectDestroyed_agree.
  - apply agree_of_frame; [frame_tac|done].
  - apply agree_of_frame; [frame_tac|done].
  - apply agree_of_frame; [frame_tac|done].
  - apply agree_of_frame; [frame_tac|done].
  - unfold destroy_functor. destruct (functor_ref f); [by apply release_agree|].
    by apply agree_of_frame; [frame_tac|].
Qed.

Lemma events_agree es w :
  registries w → cm_nextConnId (w_cm w) + Z.of_nat (length es) < 2 ^ 63 →
  wp any (forM es run_event) (λ _ w', registries w') w.
Proof.
  revert w. induction es as [|e es IH]; intros w Hr Hn; [done|]. simpl. apply wp_bind.
  eapply wp_post; [apply event_agree; [done|simpl in Hn; lia]|].
  intros [] w1 [Hr1 Hn1]. apply IH; [done|]. cbn [length] in Hn. lia.
Qed.
End events.

