(* ===== verification/GatewayFacts.v ===== *)
(** * What the gateway does for its clients

    Heartbeats are answered on the stream of the connection that asked, other
    packets are handed to the workers; silent connections are closed by the
    timer; and, with IO threads, the first connection aborts the process. *)
From stdpp Require Import sorting.
From S2P Require Import Prelude RingBuffer Protocol World Reactor Sockets Connection Server.
From S2P Require Import Gateway Registry.

(** ** Sending leaves the gateway alone *)

Section gframe.
Context {K : Type} `{Kernel K}.
Abbreviation W := (World K).
Implicit Types (c l : loc) (w : W).

(** the id and the input buffer of a connection *)
Definition conn_input (conn : TcpConnection) : Z * RingBuffer := (tc_connId conn, tc_inputBuffer conn).

Definition gframe : relation W := λ w w',
  w_gs w' = w_gs w ∧ w_cm w' = w_cm w ∧
  ∀ c, conn_input <$> w_conns w' !! c = conn_input <$> w_conns w !! c.

#[export] Instance gframe_preorder : PreOrder gframe.
Proof.
  split; [done|]. intros w1 w2 w3 (? & ? & Hc1) (? & ? & Hc2).
  split_and!; [congruence..|]. intros c. by rewrite Hc2.
Qed.

Lemma gframe_sys {A} (f : K → A * K) : preserves gframe (sys f).
Proof. by intros w a w' [= _ <-]. Qed.
Lemma gframe_get_loop l : preserves gframe (get_loop l).
Proof. intros w a w' E. unfold get_loop in E. by destruct (w_loops w !! l); [injection E as _ <-|]. Qed.
Lemma gframe_get_chan c : preserves gframe (get_chan c).
Proof. intros w a w' E. unfold get_chan in E. by destruct (w_chans w !! c); [injection E as _ <-|]. Qed.
Lemma gframe_get_conn c : preserves gframe (get_conn c).
Proof. intros w a w' E. unfold get_conn in E. by destruct (w_conns w !! c); [injection E as _ <-|]. Qed.
Lemma gframe_put_loop l x : preserves gframe (put_loop l x).
Proof. by apply preserves_modify. Qed.
Lemma gframe_put_chan c x : preserves gframe (put_chan c x).
Proof. by apply preserves_modify. Qed.
Lemma gframe_mod_conn c f :
  (∀ conn, conn_input (f conn) = conn_input conn) → preserves gframe (mod_conn c f).
Proof.
  intros Hf w u w' (conn & Hc & ->)%mod_conn_inv. split_and!; auto. rs. intros c'.
  destruct (decide (c' = c)) as [->|]; [|by rewrite lookup_insert_ne].
  rewrite lookup_insert_eq, Hc. simpl. by rewrite Hf.
Qed.
End gframe.
#[export] Hint Resolve gframe_sys gframe_get_loop gframe_get_chan gframe_get_conn gframe_put_loop
  gframe_put_chan : frame.
#[export] Hint Extern 2 (preserves gframe (mod_conn _ _)) =>
  apply gframe_mod_conn; intros []; reflexivity : frame.
#[export] Hint Extern 2 (preserves gframe (mod_loop _ _)) => unfold mod_loop; frame_tac : frame.
#[export] Hint Extern 2 (preserves gframe (mod_chan _ _)) => unfold mod_chan; frame_tac : frame.

Section service.
Context {K : Type} `{SocketLaws K}.
Abbreviation W := (World K).
Implicit Types (c l : loc) (w : W) (ps : list Packet).

Lemma wp_frame {A} (R : relation W) (m : M W A) (Q : A → W → Prop) w :
  preserves R m → wp never m Q w → wp never m (λ a w', Q a w' ∧ R w w') w.
Proof.
  intros Hm (a & w' & E & HQ)%wp_ok_inv. apply (wp_ok _ _ _ _ a w'); [done|]. split; [done|].
  by eapply Hm.
Qed.

Lemma gframe_Send_ptr c d n : preserves (gframe (K := K)) (TcpConnection_Send_ptr c d n).
Proof. frame_tac. Qed.

(** the bytes of the responses to the heartbeats among [ps]: a header of 12
    bytes and nothing else, with the sequence number of the request *)
Definition heartbeat_reply (p : Packet) : list byte :=
  if Cmd p =? cmd_code kCmdHeartbeatReq
  then le_bytes 4 12 ++ le_bytes 2 (cmd_code kCmdHeartbeatRsp) ++ le_bytes 2 0 ++
    le_bytes 4 (h_seq (header p))
  else [].
Definition heartbeat_replies ps : list byte := concat (heartbeat_reply <$> ps).

(** the packets that are not heartbeats, with the id of their connection *)
Definition work (id : Z) ps : list (Packet * Z) :=
  (λ p, (p, id)) <$> filter (λ p, Cmd p ≠ cmd_code kCmdHeartbeatReq) ps.

(** A connected client [id], served by workers: its connection [c] streams
    [acc], and the workers have [tasks]. *)
Definition serving c l chan (fd cap id : Z) (acc : list byte) (tasks : list (Packet * Z)) w : Prop :=
  streams c l chan fd cap (mkStream acc false) w ∧
  cm_connections (w_cm w) !! id = Some c ∧
  fst ∘ conn_input <$> w_conns w !! c = Some id ∧
  gs_spi (w_gs w) = false ∧ gs_workerThreads (w_gs w) ≠ 0 ∧ gs_workerTasks (w_gs w) = tasks.

(** what packets leave alone *)
Definition unchanged c w w' : Prop :=
  conn_input <$> w_conns w' !! c = conn_input <$> w_conns w !! c ∧
  gs_lastHeartbeats (w_gs w') = gs_lastHeartbeats (w_gs w) ∧ gs_loop (w_gs w') = gs_loop (w_gs w).

Context (dispatcher_ : PacketDispatcher W) (spi_OnMessage : Packet → Z → M W unit).

Lemma OnPacket_serving c l chan fd cap id acc tasks p w :
  serving c l chan fd cap id acc tasks w → never_resets (K := K) fd →
  0 ≤ cap → cap + 12 < 2 ^ 63 →
  wp never (GatewayServer_OnPacket dispatcher_ spi_OnMessage p id)
    (λ _ w', serving c l chan fd (cap + 12) id (acc ++ heartbeat_reply p) (tasks ++ work id [p]) w' ∧
       unchanged c w w') w.
Proof.
  intros (Hs & Hcm & Hid & Hspi & Hth & Htask) Hnr Hc0 Hcap.
  unfold GatewayServer_OnPacket, heartbeat_reply, work. rewrite filter_cons.
  destruct (Z.eqb_spec (Cmd p) (cmd_code kCmdHeartbeatReq)) as [Hhb|Hhb].
  - rewrite decide_False by naive_solver. unfold ConnectionManager_SendToClient.
    apply wp_bind, wp_bind, wp_gets. rewrite Hcm. cbn [mbind option_bind]. unfold lock.
    destruct (Hs) as (conn & ch & lp & Hok & _). rewrite (ck_conn _ _ _ _ _ _ _ _ Hok). cbv beta iota.
    apply wp_bind.
    set (hd := header_bytes _).
    assert (Hhd : length hd = 12%nat) by apply length_header_bytes.
    eapply wp_post.
    { apply (wp_frame gframe); [apply gframe_Send_ptr|]. unfold TcpConnection_Send_ptr.
      eapply wp_bind, wp_lift; [reflexivity|]. change (Z.to_nat _) with 12%nat.
      rewrite take_ge by (rewrite Hhd; done). apply (Send_ok c l chan fd cap (mkStream acc false));
        [done|done|done|lia]. }
    rewrite Hhd. intros [] w1 [Hs1 (Hg1 & Hcm1 & Hv1)]. apply wp_ret, wp_ret.
    rewrite filter_nil, fmap_nil, (right_id_L [] (++)). split.
    + split; [apply Hs1|]. rewrite Hcm1, Hg1. split_and!; try done.
      rewrite <- Hid. rewrite !option_fmap_compose. by rewrite Hv1.
    + split; [apply Hv1|]. by rewrite Hg1.
  - rewrite decide_True by done. unfold workerPool_Run. run.
    rewrite (proj2 (Z.eqb_neq _ _)) by done. run. rewrite Hspi. apply wp_ret.
    rewrite (right_id_L [] (++)). split; [|by split_and!].
    split; [|split_and!; rs; try done; by rewrite Htask].
    destruct Hs as (conn & ch & lp & Hok & Hrest). exists conn, ch, lp.
    destruct Hrest as (? & ? & ? & ?). split; [|split_and!; rs; try done; lia].
    destruct Hok. split; rs; try done. by eapply poller_ok_frame.
Qed.

Abbreviation packet_cb := (λ p i, transform (GatewayServer_OnPacket dispatcher_ spi_OnMessage p i)).
Abbreviation conn_id c :=
  (λ w : W, match w_conns w !! c with Some conn => tc_connId conn | None => 0 end).

Lemma work_app id ps1 ps2 : work id (ps1 ++ ps2) = work id ps1 ++ work id ps2.
Proof. unfold work. by rewrite filter_app, fmap_app. Qed.

Lemma unchanged_trans c w1 w2 w3 : unchanged c w1 w2 → unchanged c w2 w3 → unchanged c w1 w3.
Proof. intros (? & ? & ?) (? & ? & ?). split_and!; congruence. Qed.

Lemma deliver_serving c l chan fd id ps cap acc tasks w :
  serving c l chan fd cap id acc tasks w → never_resets (K := K) fd →
  0 ≤ cap → cap + 12 * Z.of_nat (length ps) < 2 ^ 63 →
  ∃ w', deliver (Some packet_cb) (conn_id c) ps w = Ok w' ∧
    serving c l chan fd (cap + 12 * Z.of_nat (length ps)) id
      (acc ++ heartbeat_replies ps) (tasks ++ work id ps) w' ∧ unchanged c w w'.
Proof.
  intros Hs Hnr. revert cap acc tasks w Hs.
  induction ps as [|p ps IH]; intros cap acc tasks w Hs Hc0 Hcap.
  - exists w. split; [done|]. unfold heartbeat_replies, work. simpl.
    rewrite !(right_id_L [] (++)), Z.add_0_r. split; [done|by split_and!].
  - cbn [length] in Hcap. rewrite Nat2Z.inj_succ in Hcap.
    assert (Hid : conn_id c w = id).
    { destruct Hs as (_ & _ & Hid & _). destruct (w_conns w !! c); [by injection Hid|done]. }
    destruct (wp_ok_inv _ _ _ (OnPacket_serving c l chan fd cap id acc tasks p w Hs Hnr Hc0
      ltac:(lia))) as ([] & w1 & E1 & Hs1 & Hu1).
    destruct (IH (cap + 12) (acc ++ heartbeat_reply p) (tasks ++ work id [p]) w1 Hs1)
      as (w2 & E2 & Hs2 & Hu2); [lia|lia|].
    exists w2. split; [|split; [|by eapply unchanged_trans]].
    + assert (Hp : call_message (Some packet_cb) (conn_id c) p w = Ok w1).
      { unfold call_message, transform. cbv beta in *. by rewrite Hid, E1. }
      change (call_message (Some packet_cb) (conn_id c) p w
              ≫= deliver (Some packet_cb) (conn_id c) ps = Ok w2).
      by rewrite Hp.
    + rewrite <- (assoc_L (++)) in Hs2. rewrite <- (assoc_L (++) tasks), <- work_app in Hs2.
      replace (cap + 12 * Z.of_nat (length (p :: ps)))
        with (cap + 12 + 12 * Z.of_nat (length ps)) by (cbn [length]; lia).
      exact Hs2.
Qed.
End service.

(** every packet takes at least one byte *)
Lemma next_frame_stuck s p s' :
  next_frame s = Frame p s' → h_length (header p) ≤ 0 → s' = s.
Proof.
  unfold next_frame. case_bool_decide; [done|]. destruct (_ <? _); [done|].
  destruct (_ <=? _); [|done]. intros [= <- <-]. cbn [header]. intros Hz.
  by rewrite Z2Nat.nonpos, drop_0 by done.
Qed.
Lemma decodes_no_loop s ps rest b p : decodes s ps rest b → next_frame s ≠ Frame p s.
Proof.
  intros Hd. revert p. induction Hd as [s E|s E|s p' s' ps rest b E Hd IH]; intros p; rewrite E;
    [done..|].
  intros [= -> ->]. by apply (IH p).
Qed.
Lemma decodes_length s ps rest b : decodes s ps rest b → (length ps ≤ length s)%nat.
Proof.
  induction 1 as [s E|s E|s p s' ps rest b E Hd IH]; simpl; [lia..|].
  destruct (Z.le_gt_cases (h_length (header p)) 0) as [Hz|Hz].
  - pose proof (next_frame_stuck _ _ _ E Hz) as ->. by destruct (decodes_no_loop _ _ _ _ p Hd).
  - pose proof (next_frame_shorter _ _ _ E). lia.
Qed.

Section client.
Context {K : Type} `{SocketLaws K}.
Abbreviation W := (World K).
Implicit Types (c l : loc) (w : W) (ps : list Packet).
Context (dispatcher_ : PacketDispatcher W) (spi_OnMessage : Packet → Z → M W unit).

Lemma serving_heartbeat c l chan fd cap id acc tasks w f :
  serving c l chan fd cap id acc tasks w →
  serving c l chan fd cap id acc tasks
    (set_w_gs (set_gs_lastHeartbeats f (w_gs w)) w).
Proof.
  intros ((conn & ch & lp & Hok & Hrest) & Hr). split; [|done].
  exists conn, ch, lp. split; [|done]. destruct Hok. split; rs; try done.
  by eapply poller_ok_frame.
Qed.

Lemma serving_quiet c l chan fd cap id acc tasks w k :
  serving c l chan fd cap id acc tasks w →
  sent k = sent (w_kern w) ∧ fin k = fin (w_kern w) ∧ interest k = interest (w_kern w) →
  serving c l chan fd cap id acc tasks (set_w_kern k w).
Proof. intros (Hs & Hr) Hq. split; [by apply streams_quiet|done]. Qed.

Lemma serving_input c l chan fd cap id acc tasks w conn buf :
  serving c l chan fd cap id acc tasks w → w_conns w !! c = Some conn → rb_inv buf →
  serving c l chan fd cap id acc tasks
    (set_w_conns (<[c := set_tc_inputBuffer buf conn]> (w_conns w)) w).
Proof.
  intros (Hs & Hcm & Hid & Hr) Hc Hbuf. split; [by apply streams_input|]. split; [done|].
  split; [|done]. rs. rewrite lookup_insert_eq. rewrite Hc in Hid. exact Hid.
Qed.

(** the codec hands over the packets, and keeps the rest *)
Lemma Codec_OnMessage_deliver c conn ps rest w :
  w_conns w !! c = Some conn → rb_inv (tc_inputBuffer conn) →
  decodes (contents (tc_inputBuffer conn)) ps rest false →
  ∃ buf, rb_inv buf ∧ contents buf = rest ∧
    Codec_OnMessage dispatcher_ spi_OnMessage c w =
      (w1 ← deliver (Some (λ p i, transform (GatewayServer_OnPacket dispatcher_ spi_OnMessage p i)))
              (λ w, match w_conns w !! c with Some conn => tc_connId conn | None => 0 end) ps w;
       mod_conn c (set_tc_inputBuffer buf) w1).
Proof.
  intros Hc Hin Hd.
  destruct (codec_run
    (Some (λ p i, transform (GatewayServer_OnPacket dispatcher_ spi_OnMessage p i)))
    (λ w, match w_conns w !! c with Some conn => tc_connId conn | None => 0 end)
    (transform (TcpConnection_ForceClose c)) (tc_inputBuffer conn) ps rest false Hin Hd)
    as (buf & Hbuf & Hrest & _ & Hrun).
  exists buf. split; [done|]. split; [done|]. unfold Codec_OnMessage. rewrite Hc. cbn [deref].
  rewrite bind_ok, Hrun by (pose proof (decodes_length _ _ _ _ Hd); lia).
  by destruct (deliver _ _ ps w).
Qed.

(** the codec on the input of a served client *)
Lemma Codec_OnMessage_serving c l chan fd cap id acc tasks w conn ps rest :
  serving c l chan fd cap id acc tasks w → never_resets (K := K) fd →
  w_conns w !! c = Some conn → decodes (contents (tc_inputBuffer conn)) ps rest false →
  0 ≤ cap → cap + 12 * Z.of_nat (length ps) < 2 ^ 63 →
  wp never (Codec_OnMessage dispatcher_ spi_OnMessage c) (λ _ w', ∃ conn' buf,
    w_conns w' !! c = Some (set_tc_inputBuffer buf conn') ∧ rb_inv buf ∧ contents buf = rest ∧
    serving c l chan fd (cap + 12 * Z.of_nat (length ps)) id
      (acc ++ heartbeat_replies ps) (tasks ++ work id ps) w' ∧
    gs_lastHeartbeats (w_gs w') = gs_lastHeartbeats (w_gs w) ∧
    gs_loop (w_gs w') = gs_loop (w_gs w)) w.
Proof.
  intros Hs Hnr Hc Hd Hc0 Hcap.
  assert (Hin : rb_inv (tc_inputBuffer conn)).
  { destruct Hs as ((conn' & ch & lp & Hok & _) & _).
    pose proof (ck_conn _ _ _ _ _ _ _ _ Hok). simplify_eq. apply Hok. }
  destruct (Codec_OnMessage_deliver c conn ps rest w Hc Hin Hd) as (buf & Hbuf & Hrest & Hrun).
  destruct (deliver_serving dispatcher_ spi_OnMessage c l chan fd id ps cap acc tasks w Hs Hnr
    Hc0 Hcap) as (w1 & E1 & Hs1 & Hi1 & Hh1 & Hl1).
  assert (∃ conn1, w_conns w1 !! c = Some conn1) as [conn1 Hc1].
  { destruct Hs1 as (_ & _ & Hid & _). destruct (w_conns w1 !! c); [eauto|done]. }
  eapply (wp_ok _ _ _ _ tt (set_w_conns (<[c := set_tc_inputBuffer buf conn1]> (w_conns w1)) w1)).
  - rewrite Hrun. cbv beta in *. rewrite E1. rewrite bind_ok.
    unfold mod_conn, get_conn, put_conn. rewrite runM_bind. rewrite Hc1. done.
  - exists conn1, buf. rs. rewrite lookup_insert_eq. split_and!; try done.
    by apply serving_input.
Qed.

(** [GatewayServer::OnMessage] on the input of a served client *)
Lemma OnMessage_serving c l chan fd cap id acc tasks w conn ps rest t :
  serving c l chan fd cap id acc tasks w → never_resets (K := K) fd →
  gs_loop (w_gs w) = l → 0 < id → w_conns w !! c = Some conn →
  decodes (contents (tc_inputBuffer conn)) ps rest false →
  0 ≤ cap → cap + 12 * Z.of_nat (length ps) < 2 ^ 63 →
  wp never (GatewayServer_OnMessage dispatcher_ spi_OnMessage c t) (λ _ w', ∃ conn' buf now,
    w_conns w' !! c = Some (set_tc_inputBuffer buf conn') ∧ rb_inv buf ∧ contents buf = rest ∧
    serving c l chan fd (cap + 12 * Z.of_nat (length ps)) id
      (acc ++ heartbeat_replies ps) (tasks ++ work id ps) w' ∧
    gs_lastHeartbeats (w_gs w') = <[id := now]> (gs_lastHeartbeats (w_gs w)) ∧
    gs_loop (w_gs w') = l) w.
Proof.
  intros Hs Hnr Hgl Hid0 Hc Hd Hc0 Hcap. unfold GatewayServer_OnMessage. ws. ws. rewrite Hgl.
  destruct (Hs) as ((conn0 & ch & lp & Hok & _) & _ & Hid & _).
  eapply wp_bind, assert_in_loop_spec; [apply Hok|apply Hok|].
  eapply wp_bind, wp_get_conn; [done|]. cbv zeta. apply wp_bind, wp_when.
  rewrite Hc in Hid. injection Hid as Hid. simpl in Hid. rewrite Hid, (proj2 (Z.ltb_lt 0 id)) by done.
  unfold now_ms, Timestamp_Now, mod_heartbeats. run.
  match goal with |- wp _ _ _ (set_w_gs (set_gs_lastHeartbeats (<[id := ?n]> _) _) _) =>
    set (now := n) end.
  eapply wp_post.
  { eapply Codec_OnMessage_serving; [|done|exact Hc|done|done|done].
    apply (serving_heartbeat _ _ _ _ _ _ _ _ (set_w_kern (sys_now (w_kern w)).2 w)).
    apply serving_quiet; [exact Hs|apply now_quiet]. }
  intros [] w' (conn' & buf & Hc' & Hbuf & Hrest & Hs' & Hh & Hl). rs in Hh. rs in Hl.
  exists conn', buf, now. split_and!; try done. by rewrite Hl.
Qed.
(** the socket delivers the bytes [data]: they are put in the input buffer, and
    the message callback runs *)
Lemma HandleRead_bytes F (Q : unit → W → Prop) c l chan fd conn ch lp w data t :
  conn_ok c l chan fd conn ch lp w →
  (sys_readv fd (ReadFd_iov (tc_inputBuffer conn)) (w_kern w)).1 = readv_ok data →
  buffer_size (tc_inputBuffer conn) + Z.of_nat (length data) < 2 ^ 63 →
  (∀ buf, rb_inv buf → contents buf = contents (tc_inputBuffer conn) ++ data →
    wp F (if decide (data = []) then TcpConnection_HandleClose GatewayServer_OnConnection OnClose c
          else GatewayServer_OnMessage dispatcher_ spi_OnMessage c t) Q
      (set_w_conns (<[c := set_tc_inputBuffer buf conn]> (w_conns w))
         (set_w_kern (sys_readv fd (ReadFd_iov (tc_inputBuffer conn)) (w_kern w)).2 w))) →
  wp F (run_callback dispatcher_ spi_OnMessage (CbConnRead c) t) Q w.
Proof.
  intros Hok Hrd Hsz HQ.
  destruct (ReadFd_spec (tc_inputBuffer conn)
              (λ iov, (sys_readv fd iov (w_kern w)).1) data)
    as (buf & Hrf & Hbuf & Hcb & _); [apply Hok|apply readv_fits|done|done|].
  assert (Hrf' : ReadFd (λ _, readv_ok data) (tc_inputBuffer conn) =
                 Ok (Z.of_nat (length data), 0, buf)).
  { revert Hrf. unfold ReadFd. by rewrite Hrd. }
  cbn [run_callback]. unfold TcpConnection_HandleRead.
  eapply wp_bind, wp_get_conn; [apply Hok|]. rewrite (ck_tcloop _ _ _ _ _ _ _ _ Hok).
  eapply wp_bind, assert_in_loop_spec; [apply Hok|apply Hok|].
  rewrite (ck_tcchan _ _ _ _ _ _ _ _ Hok). eapply wp_bind, wp_get_chan; [apply Hok|].
  rewrite (ck_chfd _ _ _ _ _ _ _ _ Hok). apply wp_bind, wp_sys. rewrite Hrd.
  eapply wp_bind, wp_lift; [exact Hrf'|]. cbv beta iota.
  eapply wp_bind, wp_mod_conn; [rs; apply Hok|]. rs. specialize (HQ buf Hbuf Hcb).
  case_decide as Hd; [by subst data|].
  rewrite (proj2 (Z.ltb_lt 0 _)) by (destruct data; [done|simpl; lia]). exact HQ.
Qed.

Lemma HandleRead_data F (Q : unit → W → Prop) c l chan fd conn ch lp w data t :
  conn_ok c l chan fd conn ch lp w →
  (sys_readv fd (ReadFd_iov (tc_inputBuffer conn)) (w_kern w)).1 = readv_ok data → data ≠ [] →
  buffer_size (tc_inputBuffer conn) + Z.of_nat (length data) < 2 ^ 63 →
  (∀ buf, rb_inv buf → contents buf = contents (tc_inputBuffer conn) ++ data →
    wp F (GatewayServer_OnMessage dispatcher_ spi_OnMessage c t) Q
      (set_w_conns (<[c := set_tc_inputBuffer buf conn]> (w_conns w))
         (set_w_kern (sys_readv fd (ReadFd_iov (tc_inputBuffer conn)) (w_kern w)).2 w))) →
  wp F (run_callback dispatcher_ spi_OnMessage (CbConnRead c) t) Q w.
Proof.
  intros Hok Hrd Hne Hsz HQ. eapply HandleRead_bytes; [done..|]. rewrite decide_False by done. exact HQ.
Qed.

Lemma serving_read c l chan fd cap id acc tasks w conn buf iov :
  serving c l chan fd cap id acc tasks w → w_conns w !! c = Some conn → rb_inv buf →
  serving c l chan fd cap id acc tasks
    (set_w_conns (<[c := set_tc_inputBuffer buf conn]> (w_conns w))
       (set_w_kern (sys_readv fd iov (w_kern w)).2 w)).
Proof.
  intros Hs Hc Hbuf. apply (serving_input _ _ _ _ _ _ _ _ (set_w_kern _ w)); [|done|done].
  apply serving_quiet; [done|apply readv_quiet].
Qed.

(** the socket of a served client delivers the bytes [data] *)
Lemma HandleRead_serving c l chan fd cap id acc tasks w conn data ps rest t :
  serving c l chan fd cap id acc tasks w → never_resets (K := K) fd →
  gs_loop (w_gs w) = l → 0 < id → w_conns w !! c = Some conn →
  (sys_readv fd (ReadFd_iov (tc_inputBuffer conn)) (w_kern w)).1 = readv_ok data → data ≠ [] →
  buffer_size (tc_inputBuffer conn) + Z.of_nat (length data) < 2 ^ 63 →
  decodes (contents (tc_inputBuffer conn) ++ data) ps rest false →
  0 ≤ cap → cap + 12 * Z.of_nat (length ps) < 2 ^ 63 →
  wp never (run_callback dispatcher_ spi_OnMessage (CbConnRead c) t) (λ _ w', ∃ conn' now,
    serving c l chan fd (cap + 12 * Z.of_nat (length ps)) id
      (acc ++ heartbeat_replies ps) (tasks ++ work id ps) w' ∧
    w_conns w' !! c = Some conn' ∧ contents (tc_inputBuffer conn') = rest ∧
    gs_lastHeartbeats (w_gs w') = <[id := now]> (gs_lastHeartbeats (w_gs w)) ∧
    gs_loop (w_gs w') = l) w.
Proof.
  intros Hs Hnr Hgl Hid0 Hc Hrd Hne Hsz Hd Hc0 Hcap.
  destruct (Hs) as ((conn0 & ch & lp & Hok & _) & _).
  pose proof (ck_conn _ _ _ _ _ _ _ _ Hok). simplify_eq.
  eapply HandleRead_data; [done..|]. intros buf Hbuf Hcb. rewrite <- Hcb in Hd.
  pose proof (serving_read _ _ _ _ _ _ _ _ _ _ buf (ReadFd_iov (tc_inputBuffer conn)) Hs Hc Hbuf) as Hs1.
  eapply wp_post.
  { eapply (OnMessage_serving c _ chan fd cap id acc tasks _
      (set_tc_inputBuffer buf conn) ps rest t Hs1 Hnr eq_refl Hid0 (lookup_insert_eq _ _ _) Hd);
      done. }
  intros [] w' (conn' & buf' & now & Hc' & Hb' & Hrest & Hs' & Hh & Hl).
  by exists (set_tc_inputBuffer buf' conn'), now.
Qed.
End client.


(** C35: With IO threads the gateway does not survive its first client. The
    server assigns the connection to the loop of an IO thread, and that thread
    runs [ConnectEstablished]; its connection callback,
    [GatewayServer::OnConnection], insists on the thread of the main loop and
    aborts the process. *)
Theorem io_thread_connection_aborts {K} `{EpollLaws K} c conn ch lp glp (w : World K) :
  w_conns w !! c = Some conn → tc_state conn = kConnecting →
  w_chans w !! tc_channel conn = Some ch → ch_loop ch = tc_loop conn →
  w_loops w !! tc_loop conn = Some lp → el_threadId lp = w_tid w → poller_ok (tc_loop conn) w →
  po_channels (el_poller lp) !! ch_fd ch = None →
  w_loops w !! gs_loop (w_gs w) = Some glp → el_threadId glp ≠ w_tid w →
  exec (FConnectEstablished c) w = Fail LogFatal.
Proof.
  intros Hc Hst Hch Hcl Hl Ht Hok Hfree Hgl Hgt.
  cut (wp (eq LogFatal) (exec (FConnectEstablished c)) (λ _ _, False) w).
  { unfold wp. destruct (exec _ w) as [[? ?]|e]; [done|by intros <-]. }
  cbn [exec]. unfold TcpConnection_ConnectEstablished.
  eapply wp_bind, wp_get_conn; [done|]. eapply wp_bind, assert_in_loop_spec; [done|done|].
  apply wp_bind, wp_assert; [by rewrite Hst|]. eapply wp_bind, wp_mod_conn; [done|].
  set (w1 := set_w_conns _ w). apply wp_bind.
  change (Channel_EnableReading (tc_channel conn))
    with (update_events (λ e, Z.lor e kReadEvent) (tc_channel conn)).
  eapply wp_post; [eapply (update_spec _ (tc_loop conn) _ w1 lp ch); try done|].
  { by eapply (poller_ok_frame _ w). }
  intros [] w2 (k & -> & _). unfold GatewayServer_OnConnection. ws. ws. rs.
  apply wp_bind. unfold wp. erewrite (assert_in_loop_aborts _ glp); [done| |done].
  unfold store_update. rs. rewrite lookup_insert_ne; [done|]. intros E.
  change (tc_loop conn = gs_loop (w_gs w)) in E. rewrite <- E in Hgl. congruence.
Qed.

(** ** The heartbeat timer *)

Section heartbeat.
Context {K : Type} `{Kernel K}.
Abbreviation W := (World K).
Implicit Types (c l : loc) (w : W) (id : Z).

(** the timer finds client [id] silent for too long *)
Definition silent (w : W) (now : Z) (id : Z) : Prop :=
  match gs_lastHeartbeats (w_gs w) !! id with
  | Some last => gs_heartbeatTimeoutSec (w_gs w) * 1000 < now - last
  | None => False
  end.
#[export] Instance silent_dec w now id : Decision (silent w now id).
Proof. unfold silent. destruct (_ !! _); apply _. Defined.

(** the connection [c] is being closed, or is untouched *)
Definition closing c (conn : TcpConnection) w : Prop :=
  w_conns w !! c = Some (set_tc_state kDisconnecting conn) ∧
  ∃ lp, w_loops w !! tc_loop conn = Some lp ∧ FForceCloseInLoop c ∈ el_pendingFunctors lp.

(** [w'] is [w] after the clients in [gone] have been dropped *)
Record dropped (gone : Z → Prop) `{∀ id, Decision (gone id)} (w w' : W) : Prop := {
  dr_gs : gs_heartbeatTimeoutSec (w_gs w') = gs_heartbeatTimeoutSec (w_gs w);
  dr_cm : w_cm w' = w_cm w;
  dr_heartbeats id : gs_lastHeartbeats (w_gs w') !! id =
    if decide (gone id) then None else gs_lastHeartbeats (w_gs w) !! id;
  dr_sessions id : w_sessions w' !! id = if decide (gone id) then None else w_sessions w !! id;
  dr_loops l lp : w_loops w !! l = Some lp →
    ∃ fs, w_loops w' !! l = Some (set_el_pendingFunctors (el_pendingFunctors lp ++ fs) lp);
  dr_conns id c conn :
    cm_connections (w_cm w) !! id = Some c → w_conns w !! c = Some conn →
    if decide (gone id) then closing c conn w' else w_conns w' !! c = Some conn;
}.

Definition loops_live w : Prop :=
  ∀ c conn, w_conns w !! c = Some conn → is_Some (w_loops w !! tc_loop conn).

(** clients that differ have connections that differ *)
Lemma registries_inj w id1 id2 c :
  registries w → cm_connections (w_cm w) !! id1 = Some c → cm_connections (w_cm w) !! id2 = Some c →
  id1 = id2.
Proof.
  intros Hr [_ H1]%(rg_manager _ Hr) [_ H2]%(rg_manager _ Hr). congruence.
Qed.

(** a client the manager knows has an open connection *)
Lemma registries_conn w id c :
  registries w → cm_connections (w_cm w) !! id = Some c →
  ∃ conn, w_conns w !! c = Some conn ∧ is_open (tc_state conn) = true.
Proof.
  intros Hr [_ Hv]%(rg_manager _ Hr). unfold view in Hv.
  destruct (w_conns w !! c) as [conn|]; [|done]. injection Hv as _ Ho. eauto.
Qed.

Lemma pending_extend l lp fs1 fs2 :
  set_el_pendingFunctors (el_pendingFunctors (set_el_pendingFunctors (el_pendingFunctors lp ++ fs1) lp)
    ++ fs2) (set_el_pendingFunctors (el_pendingFunctors lp ++ fs1) lp)
  = set_el_pendingFunctors (el_pendingFunctors lp ++ fs1 ++ fs2) lp.
Proof. destruct lp. simpl. by rewrite <- (assoc_L (++)). Qed.

(** what closing the connection of client [id] does to a state *)
Record closed_only (id : Z) (w w' : W) : Prop := {
  co_gs : w_gs w' = w_gs w;
  co_cm : w_cm w' = w_cm w;
  co_sessions : w_sessions w' = w_sessions w;
  co_loops l lp : w_loops w !! l = Some lp →
    ∃ fs, w_loops w' !! l = Some (set_el_pendingFunctors (el_pendingFunctors lp ++ fs) lp);
  co_closing c conn :
    cm_connections (w_cm w) !! id = Some c → w_conns w !! c = Some conn → closing c conn w';
  co_conns c : cm_connections (w_cm w) !! id ≠ Some c → w_conns w' !! c = w_conns w !! c;
}.

Lemma close_client id (k : M W unit) w (Q : unit → W → Prop) :
  (∀ c, cm_connections (w_cm w) !! id = Some c → ∃ conn, w_conns w !! c = Some conn ∧
        is_open (tc_state conn) = true ∧ is_Some (w_loops w !! tc_loop conn)) →
  (∀ w', closed_only id w w' → wp never k Q w') →
  wp never (conn ← ConnectionManager_GetConnection id;
            match conn with Some c => TcpConnection_ForceClose c | None => mret tt end;; k) Q w.
Proof.
  intros Hc HQ. unfold ConnectionManager_GetConnection. run.
  destruct (cm_connections (w_cm w) !! id) as [c|] eqn:E; cbn [mbind option_bind].
  - destruct (Hc c eq_refl) as (conn & Hconn & Ho & lp & Hlp). unfold lock. rewrite Hconn.
    unfold TcpConnection_ForceClose. apply wp_bind. run. apply wp_when. rewrite Ho. run.
    apply (wp_QueueInLoop _ _ _ lp); [by rs|]. apply HQ. unfold queued.
    split; rs; try done.
    + intros l' lp' Hl'. destruct (decide (l' = tc_loop conn)) as [->|Hne].
      * rewrite lookup_insert_eq. simplify_eq. eauto.
      * rewrite lookup_insert_ne by done. exists []. rewrite (right_id_L [] (++)), Hl'.
        by destruct lp'.
    + intros c' conn' [= <-]%(eq_trans (eq_sym E)) Hc'. simplify_eq. split; rs.
      * by rewrite lookup_insert_eq.
      * rewrite lookup_insert_eq. eexists. split; [done|]. simpl. set_solver.
    + intros c' Hne. rewrite lookup_insert_ne; [done|]. intros ->. by rewrite E in Hne.
  - apply HQ. split; try done; [|intros ?? E'; congruence].
    intros l lp Hl. exists []. rewrite (right_id_L [] (++)), Hl. by destruct lp.
Qed.

Lemma dropped_ext (gone gone' : Z → Prop) `{∀ i, Decision (gone i)} `{∀ i, Decision (gone' i)} w w1 :
  (∀ i, gone i ↔ gone' i) → dropped gone w w1 → dropped gone' w w1.
Proof.
  intros E []. split; try done; intros i.
  - by rewrite dr_heartbeats0, (decide_ext _ _ _ _ (E i)).
  - by rewrite dr_sessions0, (decide_ext _ _ _ _ (E i)).
  - intros c conn Hc Hconn. specialize (dr_conns0 i c conn Hc Hconn).
    destruct (decide (gone i)), (decide (gone' i)); try done; by destruct (E i); exfalso; auto.
Qed.

Lemma dropped_none (gone : Z → Prop) `{∀ i, Decision (gone i)} w w' :
  (∀ i, ¬ gone i) → w_loops w' = w_loops w → w_conns w' = w_conns w → w_cm w' = w_cm w →
  w_sessions w' = w_sessions w → w_gs w' = w_gs w → dropped gone w w'.
Proof.
  intros Hg El Ec Em Es Egs. split; rewrite ?El, ?Ec, ?Em, ?Es, ?Egs; try done; intros *;
    rewrite ?decide_False by apply Hg; try done.
  intros Hl. exists []. rewrite (right_id_L [] (++)), Hl. by destruct lp.
Qed.

(** one more client is dropped *)
Lemma dropped_more (gone gone' : Z → Prop) `{∀ i, Decision (gone i)} `{∀ i, Decision (gone' i)}
    w w1 w2 id :
  registries w → dropped gone w w1 → ¬ gone id → closed_only id w1 w2 →
  (∀ i, gone' i ↔ gone i ∨ i = id) →
  dropped gone' w (set_w_gs (set_gs_lastHeartbeats (delete id (gs_lastHeartbeats (w_gs w2))) (w_gs w2))
    (set_w_sessions (delete id (w_sessions w2)) w2)).
Proof.
  intros Hr [] Hid [] Hg.
  assert (Hdec : ∀ i {A} (x y : A), i ≠ id → (if decide (gone' i) then x else y) =
                                    (if decide (gone i) then x else y)).
  { intros i A x y Hne. apply decide_ext. rewrite Hg. tauto. }
  assert (Hgid : gone' id) by (apply Hg; auto).
  split; rs.
  - by rewrite co_gs0.
  - by rewrite co_cm0.
  - intros i. rewrite co_gs0. destruct (decide (i = id)) as [->|Hne].
    + by rewrite lookup_delete_eq, decide_True.
    + by rewrite lookup_delete_ne, dr_heartbeats0, Hdec.
  - intros i. rewrite co_sessions0. destruct (decide (i = id)) as [->|Hne].
    + by rewrite lookup_delete_eq, decide_True.
    + by rewrite lookup_delete_ne, dr_sessions0, Hdec.
  - intros l lp Hl. destruct (dr_loops0 _ _ Hl) as [fs1 Hl1].
    destruct (co_loops0 _ _ Hl1) as [fs2 Hl2]. exists (fs1 ++ fs2). by rewrite Hl2, pending_extend.
  - intros i c conn Hc Hconn. pose proof (dr_conns0 _ _ _ Hc Hconn) as Hc1.
    destruct (decide (i = id)) as [->|Hne].
    + rewrite decide_True by done. rewrite decide_False in Hc1 by done.
      apply co_closing0; [by rewrite dr_cm0|done].
    + rewrite Hdec by done.
      assert (Hk : w_conns w2 !! c = w_conns w1 !! c).
      { apply co_conns0. rewrite dr_cm0. intros Hc'.
        by apply Hne, (registries_inj w i id c). }
      destruct (decide (gone i)); [|by rewrite <- Hc1].
      destruct Hc1 as (Hst & lp & Hlp & Hin). destruct (co_loops0 _ _ Hlp) as [fs Hfs].
      split; [rs; congruence|]. rs. eexists. split; [done|]. simpl. set_solver.
Qed.

Lemma expire_dropped (gone gone' : Z → Prop) `{∀ i, Decision (gone i)} `{∀ i, Decision (gone' i)}
    w w1 now id :
  registries w → loops_live w → dropped gone w w1 → ¬ gone id →
  is_Some (gs_lastHeartbeats (w_gs w) !! id) →
  (∀ i, gone' i ↔ gone i ∨ i = id ∧ silent w now id) →
  wp never (expire now (gs_heartbeatTimeoutSec (w_gs w) * 1000) id) (λ _ w2, dropped gone' w w2) w1.
Proof.
  intros Hr Hlive Hd Hid [last Hlast] Hg. unfold expire. ws. ws.
  assert (Hl1 : gs_lastHeartbeats (w_gs w1) !! id = Some last).
  { rewrite (dr_heartbeats _ _ _ Hd), decide_False by done. done. }
  eapply wp_bind, wp_lift; [by rewrite Hl1|].
  assert (Hsil : silent w now id ↔ gs_heartbeatTimeoutSec (w_gs w) * 1000 < now - last).
  { unfold silent. by rewrite Hlast. }
  destruct (Z.ltb_spec (gs_heartbeatTimeoutSec (w_gs w) * 1000) (now - last)) as [Hlt|Hge].
  - apply close_client.
    + intros c Hc. rewrite (dr_cm _ _ _ Hd) in Hc.
      destruct (registries_conn _ _ _ Hr Hc) as (conn & Hconn & Ho). exists conn.
      pose proof (dr_conns _ _ _ Hd _ _ _ Hc Hconn) as Hc1. rewrite decide_False in Hc1 by done.
      destruct (Hlive _ _ Hconn) as [lp Hlp]. destruct (dr_loops _ _ _ Hd _ _ Hlp) as [fs Hfs].
      eauto.
    + intros w2 Hco. unfold SessionManager_RemoveSession, mod_sessions, mod_heartbeats. run.
      apply (dropped_more gone gone' w w1 w2 id); [done..|].
      intros i. rewrite Hg. pose proof (proj2 Hsil Hlt). tauto.
  - apply wp_ret. apply (dropped_ext gone gone' w w1); [|done]. intros i. rewrite Hg.
    split; [auto|]. intros [?|[-> ?%Hsil]]; [done|lia].
Qed.

(** the clients found silent, among those already visited *)
Definition gone_of (w : W) (now : Z) (rest : list Z) (i : Z) : Prop := silent w now i ∧ i ∉ rest.
#[export] Instance gone_of_dec w now rest i : Decision (gone_of w now rest i).
Proof. unfold gone_of. apply _. Defined.

Lemma ordered_ids_perm {A} (m : gmap Z A) : ordered_ids m ≡ₚ (map_to_list m).*1.
Proof. apply merge_sort_Permutation. Qed.
Lemma elem_of_ordered_ids {A} (m : gmap Z A) i : i ∈ ordered_ids m ↔ is_Some (m !! i).
Proof.
  rewrite ordered_ids_perm, list_elem_of_fmap. split.
  - intros ([j x] & -> & Hj%elem_of_map_to_list). by exists x.
  - intros [x Hx]. exists (i, x). split; [done|]. by apply elem_of_map_to_list.
Qed.

Lemma expire_all w w1 now :
  registries w → loops_live w →
  dropped (gone_of w now (ordered_ids (gs_lastHeartbeats (w_gs w)))) w w1 →
  wp never (forM (ordered_ids (gs_lastHeartbeats (w_gs w)))
                 (expire now (gs_heartbeatTimeoutSec (w_gs w) * 1000)))
    (λ _ w2, dropped (silent w now) w w2) w1.
Proof.
  intros Hr Hlive Hd0. set (hb := gs_lastHeartbeats (w_gs w)) in *.
  apply (wp_forM _ _ _ (λ ids w', NoDup ids ∧ Forall (λ i, is_Some (hb !! i)) ids ∧
                                  dropped (gone_of w now ids) w w')).
  - split_and!; [rewrite ordered_ids_perm; apply NoDup_fst_map_to_list| |done].
    apply Forall_forall. intros i. apply elem_of_ordered_ids.
  - intros id ids w2 ([Hni Hnd]%NoDup_cons & [Hid Hall]%Forall_cons & Hd).
    eapply wp_post; [apply (expire_dropped _ (gone_of w now ids) w w2 now id Hr Hlive Hd)|].
    + intros [_ Hin]. apply Hin. by left.
    + done.
    + intros i. unfold gone_of. rewrite elem_of_cons. destruct (decide (i = id)); naive_solver.
    + intros [] w3 Hd3. by split_and!.
  - intros w2 (_ & _ & Hd). eapply dropped_ext; [|exact Hd]. intros i. unfold gone_of.
    rewrite elem_of_nil. naive_solver.
Qed.
End heartbeat.

(** C15: The heartbeat timer closes exactly the silent clients. When the timer
    fires in the loop's thread, [OnHeartbeat] returns. A client is dropped
    exactly when more than the configured timeout has passed since its last
    message: its session and its heartbeat entry are erased and its connection
    is disconnecting, its close queued in the loop of the connection. Every
    other client keeps its session, its entry and its connection. *)
Theorem heartbeat_closes_silent {K} `{Kernel K} (w : World K) t lp :
  registries w → loops_live w →
  w_loops w !! gs_loop (w_gs w) = Some lp → el_threadId lp = w_tid w →
  ∃ now w1 w', now_ms (set_w_kern (sys_read8 (gs_heartbeatTimerFd (w_gs w)) (w_kern w)).2 w) =
                 Ok (now, w1) ∧
    GatewayServer_OnHeartbeat t w = Ok (tt, w') ∧ dropped (silent w now) w w'.
Proof.
  intros Hr Hlive Hl Ht. set (w0 := set_w_kern _ w).
  assert (∃ now, now_ms w0 = Ok (now, set_w_kern (sys_now (w_kern w0)).2 w0)) as [now Hnow].
  { eexists. reflexivity. }
  exists now, (set_w_kern (sys_now (w_kern w0)).2 w0).
  cut (wp never (GatewayServer_OnHeartbeat t) (λ _ w', dropped (silent w now) w w') w).
  { intros ([] & w' & E & Hd)%wp_ok_inv. by exists w'. }
  unfold GatewayServer_OnHeartbeat. ws. ws. eapply wp_bind, assert_in_loop_spec; [done|done|].
  apply wp_bind, wp_sys. fold w0.
  apply wp_bind. eapply wp_ok; [exact Hnow|].
  apply expire_all; [done|done|].
  apply dropped_none; [|done..]. intros i [Hs Hn]. apply Hn, elem_of_ordered_ids.
  unfold silent in Hs. by destruct (_ !! i).
Qed.
