(* ===== verification/Wakeup.v ===== *)
(** * No wake-up is lost

    Other threads hand work to an event loop with [QueueInLoop]
    ([net/EventLoop.cpp]): the functor is queued under the mutex, and the loop
    is woken through its eventfd when it might not look at the queue by itself.
    This file shows that between two iterations a loop with something in its
    queue has been woken, whatever it ran and whatever other threads queued
    meanwhile, so that its next call of [epoll_wait] does not time out. *)
From S2P Require Import Prelude RingBuffer Protocol World Reactor Sockets Connection SimKernel.
From S2P Require Import Server Gateway.

(** [rung k fd]: [fd] was written to since [epoll_wait] last reported it. Only
    [epoll_wait] takes this back. *)
Class WakeLaws (K : Type) `{EpollLaws K} : Type := {
  rung : K → Z → Prop;
  write_rung fd d k : 0 ≤ (sys_write fd d k).1.1 → rung (sys_write fd d k).2 fd;
  write_keeps fd d k e : rung k e → rung (sys_write fd d k).2 e;
  ctl_keeps ep op fd ev p k e : rung k e → rung (sys_epoll_ctl ep op fd ev p k).2 e;
  shutdown_keeps fd k e : rung k e → rung (sys_shutdown fd k).2 e;
  listen_keeps fd k e : rung k e → rung (sys_listen fd k).2 e;
  now_keeps k e : rung k e → rung (sys_now k).2 e;
}.

(** What eventfd(2) and epoll(7) document of an eventfd that no thread writes
    2^64 times: a write succeeds, and [epoll_wait] on an epoll descriptor that
    has it registered for reading reports something. *)
Record doorbell {K} `{WakeLaws K} (evt : Z) : Prop := {
  bell_rings k : 0 ≤ (sys_write evt (le_bytes 8 1) k).1.1;
  bell_heard k ep n t ev p : rung k evt → interest k ep !! evt = Some (ev, p) →
    has_bits ev EPOLLIN = true → (sys_epoll_wait ep n t k).1 ≠ inr [];
}.

(** ** What the operations leave alone *)

Section same.
Context {K : Type} `{Kernel K} (l : loc).
Abbreviation W := (World K).

(** the loop [l] stays the loop it is: its thread, its eventfd and its epoll
    descriptor *)
Definition identity (lp : EventLoop) : Z * Z * Z :=
  (el_threadId lp, el_wakeupFd lp, po_epollfd (el_poller lp)).
Definition same_loop : relation W := λ w w',
  identity <$> w_loops w' !! l = identity <$> w_loops w !! l.

#[export] Instance same_loop_preorder : PreOrder same_loop.
Proof. split; [done|]. intros w1 w2 w3 E1 E2. unfold same_loop in *. congruence. Qed.

Lemma same_loop_sys {A} (f : K → A * K) : preserves same_loop (sys f).
Proof. by intros w a w' [= _ <-]. Qed.
Lemma same_loop_alloc : preserves same_loop alloc.
Proof. by intros w a w' [= _ <-]. Qed.
Lemma same_loop_put_chan c x : preserves same_loop (put_chan c x).
Proof. by apply preserves_modify. Qed.
Lemma same_loop_put_conn c x : preserves same_loop (put_conn c x).
Proof. by apply preserves_modify. Qed.
Lemma same_loop_mod_server f : preserves same_loop (mod_server f).
Proof. by apply preserves_modify. Qed.
Lemma same_loop_mod_gs f : preserves same_loop (mod_gs f).
Proof. by apply preserves_modify. Qed.
Lemma same_loop_modify (f : W → W) :
  (∀ w, w_loops (f w) = w_loops w) → preserves same_loop (modify f).
Proof. intros Hf. apply preserves_modify. intros w. unfold same_loop. by rewrite Hf. Qed.

Lemma same_loop_mod_loop l' f :
  (∀ lp, identity (f lp) = identity lp) → preserves same_loop (mod_loop l' f).
Proof.
  intros Hf w u w' (lp & Hl & ->)%mod_loop_inv. unfold same_loop. rs.
  destruct (decide (l = l')) as [<-|]; [|by rewrite lookup_insert_ne].
  rewrite lookup_insert_eq, Hl. simpl. by rewrite Hf.
Qed.
End same.

#[export] Hint Resolve same_loop_sys same_loop_alloc same_loop_put_chan same_loop_put_conn same_loop_mod_server
  same_loop_mod_gs : frame.
#[export] Hint Extern 2 (preserves (same_loop _) (mod_loop _ _)) =>
  apply same_loop_mod_loop; intros []; reflexivity : frame.
#[export] Hint Extern 2 (preserves (same_loop _) (modify _)) =>
  apply same_loop_modify; intros []; reflexivity : frame.
#[export] Hint Extern 2 (preserves (same_loop _) (mod_chan _ _)) => unfold mod_chan; frame_tac : frame.
#[export] Hint Extern 2 (preserves (same_loop _) (mod_conn _ _)) => unfold mod_conn; frame_tac : frame.

Section gateway_same.
Context {K : Type} `{Kernel K} (l : loc).
Abbreviation W := (World K).
Abbreviation R := (same_loop (K := K) l).
Context (dispatcher_ : PacketDispatcher W) (spi_OnMessage : Packet → Z → M W unit).
Context (Hdispatch : ∀ cmd h p id, dispatcher_ !! cmd = Some h → preserves R (action (h p id))).
Context (Hspi : ∀ p id, preserves R (spi_OnMessage p id)).

Lemma same_loop_Update c : preserves R (Channel_Update c).
Proof. frame_tac. Qed.
Lemma same_loop_Remove c : preserves R (Channel_Remove c).
Proof. frame_tac. Qed.
Lemma same_loop_Queue l' f : preserves R (EventLoop_QueueInLoop l' f).
Proof. frame_tac. Qed.
#[local] Hint Resolve same_loop_Update same_loop_Remove same_loop_Queue : frame.

Lemma same_loop_SendInLoop c d : preserves R (TcpConnection_SendInLoop c d).
Proof. frame_tac. Qed.
Lemma same_loop_OnConnection c : preserves R (GatewayServer_OnConnection c).
Proof. frame_tac. Qed.
#[local] Hint Resolve same_loop_SendInLoop same_loop_OnConnection : frame.

Lemma same_loop_exec f : preserves R (exec f).
Proof. destruct f; simpl; frame_tac. Qed.
Lemma same_loop_destroy f : preserves R (destroy_functor f).
Proof. frame_tac. Qed.

Lemma same_loop_OnPacket p id : preserves R (GatewayServer_OnPacket dispatcher_ spi_OnMessage p id).
Proof. apply preserves_OnPacket; [exact _|done|done|intros; frame_tac..]. Qed.
Lemma same_loop_Codec c : preserves R (Codec_OnMessage dispatcher_ spi_OnMessage c).
Proof. apply preserves_Codec_OnMessage; [exact _|apply same_loop_OnPacket|frame_tac|intros; frame_tac]. Qed.
#[local] Hint Resolve same_loop_Codec : frame.

Lemma same_loop_callback cb t : preserves R (run_callback dispatcher_ spi_OnMessage cb t).
Proof. destruct cb; simpl; frame_tac. Qed.
End gateway_same.

(** ** While the functors run *)

(** the part of [identity] another thread relies on *)
Definition bell_of (lp : EventLoop) : Z * Z := (el_threadId lp, el_wakeupFd lp).

Section calm.
Context {K : Type} `{WakeLaws K} (l : loc) (thread evt : Z).
Abbreviation W := (World K).

(** the loop [l], of this thread and this eventfd, need not be rung: nothing
    is queued, or it was *)
Definition awake (w : W) : Prop := ∃ lp,
  w_loops w !! l = Some lp ∧ bell_of lp = (thread, evt) ∧
  (el_pendingFunctors lp = [] ∨ rung (w_kern w) evt).

(** the same, with what [callingPendingFunctors_] is: while it is set, the loop
    rings for itself too *)
Definition calm (b : bool) (w : W) : Prop := ∃ lp,
  w_loops w !! l = Some lp ∧ bell_of lp = (thread, evt) ∧ el_callingPendingFunctors lp = b ∧
  (el_pendingFunctors lp = [] ∨ rung (w_kern w) evt).

Definition stays_calm (b : bool) : relation W := λ w w', calm b w → calm b w'.
#[export] Instance stays_calm_preorder b : PreOrder (stays_calm b).
Proof. split; [by intros w Hw|]. intros w1 w2 w3 E1 E2 Hc. by apply E2, E1. Qed.

(** what of a loop matters here *)
Definition bell_view (lp : EventLoop) : Z * Z * bool * list functor :=
  (bell_of lp, el_callingPendingFunctors lp, el_pendingFunctors lp).

Lemma calm_step b (w w' : W) :
  bell_view <$> w_loops w' !! l = bell_view <$> w_loops w !! l →
  (rung (w_kern w) evt → rung (w_kern w') evt) → stays_calm b w w'.
Proof.
  intros E Hk (lp & Hl & Hb & Hc & Hp). rewrite Hl in E. simpl in E.
  destruct (w_loops w' !! l) as [lp'|] eqn:Hl'; [|done].
  injection E as Et Ee Ec Ep. exists lp'. unfold bell_of in *. rewrite Et, Ee, Ec, Ep. naive_solver.
Qed.

Lemma calm_sys {A} (f : K → A * K) b : (∀ k, rung k evt → rung (f k).2 evt) → preserves (stays_calm b) (sys f).
Proof. intros Hf w a w' [= _ <-]. apply calm_step; [done|]. apply Hf. Qed.
Lemma calm_alloc b : preserves (stays_calm b) alloc.
Proof. intros w a w' [= _ <-]. by apply calm_step. Qed.
Lemma calm_modify (f : W → W) b :
  (∀ w, w_loops (f w) = w_loops w ∧ w_kern (f w) = w_kern w) → preserves (stays_calm b) (modify f).
Proof.
  intros Hf. apply preserves_modify. intros w. destruct (Hf w) as [El Ek].
  apply calm_step; [by rewrite El|by rewrite Ek].
Qed.
Lemma calm_mod_loop l' f b :
  (∀ lp, bell_view (f lp) = bell_view lp) → preserves (stays_calm b) (mod_loop l' f).
Proof.
  intros Hf w u w' (lp & Hl & ->)%mod_loop_inv. apply calm_step; [|done]. rs.
  destruct (decide (l = l')) as [<-|]; [|by rewrite lookup_insert_ne].
  rewrite lookup_insert_eq, Hl. simpl. by rewrite Hf.
Qed.

(** [QueueInLoop]: the queue grows, and the eventfd is written to or not *)
Lemma QueueInLoop_inv l' f (w : W) u w' :
  EventLoop_QueueInLoop l' f w = Ok (u, w') →
  ∃ lp, w_loops w !! l' = Some lp ∧ w' = queued l' lp f w.
Proof.
  intros E. pose proof E as (v & w1 & (lp & Hl & _)%mod_loop_inv & _)%runM_bind_inv.
  exists lp. split; [done|].
  pose proof (wp_QueueInLoop never l' f lp (λ _ w2, w2 = queued l' lp f w) w Hl eq_refl) as Hwp.
  unfold wp in Hwp. by rewrite E in Hwp.
Qed.
Lemma kern_queued_keeps lp w : rung (w_kern w) evt → rung (kern_queued lp w) evt.
Proof. intros Hr. unfold kern_queued. destruct (_ || _); [by apply write_keeps|done]. Qed.

Context (Hbell : doorbell evt).

(** on any loop and by any thread *)
Lemma calm_Queue l' f : preserves (stays_calm true) (EventLoop_QueueInLoop l' f).
Proof.
  intros w u w' (lp' & Hl' & ->)%QueueInLoop_inv (lp & Hl & Hb & Hc & Hp). unfold queued.
  destruct (decide (l = l')) as [<-|Hne].
  - simplify_eq. eexists. rs. rewrite lookup_insert_eq. split_and!; [done|exact Hb|done|right].
    unfold kern_queued. rewrite Hc, orb_true_r. injection Hb as _ ->. apply write_rung, Hbell.
  - exists lp. rs. rewrite lookup_insert_ne by done. split_and!; [done..|].
    destruct Hp; [by left|right]. by apply kern_queued_keeps.
Qed.

(** by another thread, at any time *)
Lemma awake_Queue f (w : W) u w' :
  w_tid w ≠ thread → EventLoop_QueueInLoop l f w = Ok (u, w') → awake w → awake w'.
Proof.
  intros Ht (lp' & Hl' & ->)%QueueInLoop_inv (lp & Hl & Hb & _).
  rewrite Hl in Hl'. injection Hl' as <-.
  unfold queued. eexists. rs. rewrite lookup_insert_eq. split_and!; [done|exact Hb|right].
  injection Hb as Et Ee. unfold kern_queued.
  rewrite (proj2 (Z.eqb_neq (el_threadId lp) (w_tid w))) by congruence.
  rewrite Ee. apply write_rung, Hbell.
Qed.
End calm.

#[export] Hint Resolve calm_alloc : frame.
#[export] Hint Extern 2 (preserves (stays_calm _ _ _ _) (modify _)) =>
  apply calm_modify; intros []; split; reflexivity : frame.
#[export] Hint Extern 2 (preserves (stays_calm _ _ _ _) (mod_loop _ _)) =>
  apply calm_mod_loop; intros []; reflexivity : frame.
#[export] Hint Extern 2 (preserves (stays_calm _ _ _ _) (sys _)) =>
  apply calm_sys; intros ?; first [ apply ctl_keeps | apply write_keeps | apply shutdown_keeps
                                  | apply listen_keeps | apply now_keeps ] : frame.

Section gateway_calm.
Context {K : Type} `{WakeLaws K} (l : loc) (thread evt : Z) (Hbell : doorbell evt).
Abbreviation R := (stays_calm (K := K) l thread evt true).

#[local] Hint Extern 1 (preserves _ (EventLoop_QueueInLoop _ _)) => by apply calm_Queue : frame.

Lemma calm_Update c : preserves R (Channel_Update c).
Proof. frame_tac. Qed.
Lemma calm_Remove c : preserves R (Channel_Remove c).
Proof. frame_tac. Qed.
#[local] Hint Resolve calm_Update calm_Remove : frame.
Lemma calm_SendInLoop c d : preserves R (TcpConnection_SendInLoop c d).
Proof. frame_tac. Qed.
Lemma calm_OnConnection c : preserves R (GatewayServer_OnConnection c).
Proof. frame_tac. Qed.
#[local] Hint Resolve calm_SendInLoop calm_OnConnection : frame.
Lemma calm_exec f : preserves R (exec f).
Proof. destruct f; simpl; frame_tac. Qed.
Lemma calm_destroy f : preserves (stays_calm l thread evt false) (destroy_functor f).
Proof. frame_tac. Qed.
End gateway_calm.

(** ** Threads around a loop *)

Section threads.
Context {K : Type} `{WakeLaws K} (l : loc) (thread evt : Z).
Abbreviation W := (World K).
Context (dispatcher_ : PacketDispatcher W) (spi_OnMessage : Packet → Z → M W unit).

(** thread [t] queues [f] in the loop [l'] *)
Definition queue_from (t : Z) (l' : loc) (f : functor) : M W unit :=
  me ← gets w_tid;
  modify (set_w_tid t);;
  EventLoop_QueueInLoop l' f;;
  modify (set_w_tid me).

(** what other threads queue before the loop's functor [f] runs *)
Definition crowded (others : functor → W → list (Z * loc * functor)) (f : functor) : M W unit :=
  queue ← gets (others f);
  forM queue (λ q, queue_from q.1.1 q.1.2 q.2);;
  exec f.

(** The life of a loop, seen between two of its iterations: it starts with
    nothing queued; it iterates, in the company of other threads; or another
    thread queues something. *)
Inductive life : W → Prop :=
| life_start w lp :
    w_loops w !! l = Some lp → bell_of lp = (thread, evt) → el_pendingFunctors lp = [] → life w
| life_iterate others w w' :
    life w →
    EventLoop_iterate (run_callback dispatcher_ spi_OnMessage) (crowded others) destroy_functor l w
      = Ok (tt, w') →
    life w'
| life_queue t f w w' :
    life w → t ≠ thread → queue_from t l f w = Ok (tt, w') → life w'.
End threads.

Section no_lost_wakeup.
Context {K : Type} `{WakeLaws K} (l : loc) (thread evt : Z) (Hbell : doorbell evt).
Abbreviation W := (World K).

Lemma calm_crowded others f : preserves (stays_calm l thread evt true) (crowded others f).
Proof.
  assert (∀ l' f, preserves (stays_calm (K := K) l thread evt true) (EventLoop_QueueInLoop l' f))
    by (intros; by apply calm_Queue).
  assert (preserves (stays_calm (K := K) l thread evt true) (exec f)) by by apply calm_exec.
  unfold crowded. frame_tac; done.
Qed.
Lemma same_loop_crowded others f : preserves (same_loop (K := K) l) (crowded others f).
Proof.
  pose proof (same_loop_exec (K := K) l f). pose proof (same_loop_Queue (K := K) l).
  unfold crowded. frame_tac; done.
Qed.

(** another thread's turn *)
Lemma queue_from_awake t f (w : W) w' :
  t ≠ thread → awake l thread evt w → queue_from t l f w = Ok (tt, w') → awake l thread evt w'.
Proof.
  intros Ht Ha E. unfold queue_from in E. apply runM_bind_inv in E as (me & w1 & [= <- <-] & E).
  apply runM_bind_inv in E as (u1 & w2 & [= <- <-] & E).
  apply runM_bind_inv in E as (u2 & w3 & E & [= <-]).
  unfold awake in *. by eapply (awake_Queue l thread evt Hbell f (set_w_tid t w) u2 w3).
Qed.

(** [DoPendingFunctors] leaves an empty queue, or rings *)
Lemma DoPending_awake others (w : W) u w' :
  bell_of <$> w_loops w !! l = Some (thread, evt) →
  EventLoop_DoPendingFunctors (crowded others) destroy_functor l w = Ok (u, w') →
  awake l thread evt w'.
Proof.
  intros Hb E.
  apply runM_bind_inv in E as (u1 & w1 & (lp & Hl & ->)%mod_loop_inv & E).
  rewrite Hl in Hb. injection Hb as Ht Ee.
  apply runM_bind_inv in E as (lp1 & w2 & E1 & E).
  unfold get_loop in E1. rs in E1. rewrite lookup_insert_eq in E1. injection E1 as <- <-.
  apply runM_bind_inv in E as (u2 & w3 & (lp2 & Hl2 & ->)%mod_loop_inv & E).
  rs in Hl2. rewrite lookup_insert_eq in Hl2. injection Hl2 as <-.
  apply runM_bind_inv in E as (u3 & w4 & E4 & E).
  assert (H4 : calm l thread evt true w4).
  { eapply (preserves_forM (stays_calm l thread evt true)); [apply calm_crowded|exact E4|].
    eexists. rs. rewrite lookup_insert_eq. split_and!; [done| |done|by left].
    by unfold bell_of; rs; rewrite Ht, Ee. }
  clear E4 Hl. apply runM_bind_inv in E as (u4 & w5 & (lp4 & Hl4 & ->)%mod_loop_inv & E5).
  assert (H6 : calm l thread evt false w').
  { eapply (preserves_forM (stays_calm l thread evt false)); [|exact E5|].
    - intros f. pose proof (calm_destroy (K := K) l thread evt f). cbv beta. frame_tac; done.
    - destruct H4 as (lp4' & Hl4' & Hb4 & _ & Hp). rewrite Hl4' in Hl4. injection Hl4 as <-.
      eexists. rs. rewrite lookup_insert_eq. by split_and!. }
  destruct H6 as (lp6 & Hl6 & Hb6 & _ & Hp6). by exists lp6.
Qed.

(** [EventLoop::Loop], one turn: [DoPendingFunctors] comes last *)
Lemma iterate_awake dispatcher_ spi_OnMessage others (w : W) w' :
  (∀ cmd h p id, dispatcher_ !! cmd = Some h → preserves (same_loop l) (action (h p id))) →
  (∀ p id, preserves (same_loop l) (spi_OnMessage p id)) →
  awake l thread evt w →
  EventLoop_iterate (run_callback dispatcher_ spi_OnMessage) (crowded others) destroy_functor l w
    = Ok (tt, w') →
  awake l thread evt w'.
Proof.
  intros Hd Hs Ha E.
  assert (Hcb : ∀ cb t, preserves (same_loop l) (run_callback dispatcher_ spi_OnMessage cb t))
    by (intros; by apply same_loop_callback).
  unfold EventLoop_iterate in E.
  assert (Hr : same_loop l w w) by done. revert Hr E. generalize w at 2 3.
  do 8 (intros w1 Hr E; eapply (preserves_bind_inv (same_loop l)) in E as (? & w2 & Hr2 & E);
    [clear w1 Hr; revert w2 Hr2 E|frame_tac; done|exact Hr]).
  intros w1 Hr E. destruct Ha as (lp & Hl & Hb & _). eapply (DoPending_awake others w1); [|exact E].
  unfold same_loop in Hr. rewrite Hl in Hr. apply fmap_Some in Hr as (lp1 & -> & Eb).
  injection Eb as Et Ee _. simpl. rewrite <- Hb. unfold bell_of. congruence.
Qed.
End no_lost_wakeup.

(** ** A kernel with bells

    The concrete kernel, which also reports the descriptors that were written
    to. *)
Record belled : Type := mkBelled { bl_sim : sim; bl_rung : gset Z }.

Definition quiet {A} (f : sim → A * sim) (k : belled) : A * belled :=
  ((f (bl_sim k)).1, mkBelled (f (bl_sim k)).2 (bl_rung k)).

Definition ringing (k : belled) (ep : Z) : list (Z * (Z * loc)) :=
  filter (λ x, x.1 ∈ bl_rung k) (map_to_list (sim_list (bl_sim k) ep)).

Definition bell_wait (ep n timeout : Z) (k : belled) : (Z + list (loc * Z)) * belled :=
  match ringing k ep with
  | [] => quiet (sim_epoll_wait ep n timeout) k
  | l => (inr ((λ x, (x.2.2, EPOLLIN)) <$> l), mkBelled (bl_sim k) (bl_rung k ∖ list_to_set l.*1))
  end.

#[export] Instance bell_kernel : Kernel belled := {
  sys_epoll_ctl ep op fd ev p := quiet (sim_ctl ep op fd ev p);
  sys_epoll_wait := bell_wait;
  sys_write fd d k :=
    ((sim_write fd d (bl_sim k)).1, mkBelled (sim_write fd d (bl_sim k)).2 ({[fd]} ∪ bl_rung k));
  sys_readv fd iov := quiet (sim_readv fd iov);
  sys_read8 fd := quiet (sys_read8 fd);
  sys_shutdown fd := quiet (sys_shutdown fd);
  sys_so_error fd := quiet (sys_so_error fd);
  sys_accept fd := quiet (sim_accept fd);
  sys_listen fd := quiet (sys_listen fd);
  sys_close fd := quiet (sys_close fd);
  sys_open_null := quiet sys_open_null;
  sys_getsockname fd := quiet (sys_getsockname fd);
  sys_getpeername fd := quiet (sys_getpeername fd);
  sys_now := quiet sys_now;
  sys_epoll_create := quiet sys_epoll_create;
  sys_eventfd := quiet sys_eventfd;
  sys_timerfd_create := quiet sys_timerfd_create;
  sys_timerfd_settime fd sec := quiet (sys_timerfd_settime fd sec);
  sys_socket := quiet sys_socket;
  sys_thread := quiet sys_thread;
  sys_bind fd addr := quiet (sys_bind fd addr);
  sys_setsockopt fd l n v := quiet (sys_setsockopt fd l n v);
  sys_fcntl fd cmd arg := quiet (sys_fcntl fd cmd arg);
  inet_ntop := @inet_ntop sim _;
  inet_pton := @inet_pton sim _;
}.

#[export] Instance bell_epoll : EpollLaws belled.
Proof.
  refine {| interest k := sim_list (bl_sim k) |}.
  - intros ep op fd ev p k e. exact (epoll_ctl_fails ep op fd ev p (bl_sim k) e).
  - intros ep op fd ev p k e. exact (epoll_ctl_sets ep op fd ev p (bl_sim k) e).
  - intros ep fd ev p k. exact (epoll_ctl_modifies ep fd ev p (bl_sim k)).
  - intros ep fd ev p k e. exact (epoll_ctl_deletes ep fd ev p (bl_sim k) e).
Defined.

#[export] Instance bell_laws : WakeLaws belled.
Proof. refine {| rung k fd := fd ∈ bl_rung k |}; intros; simpl in *; set_solver. Defined.

Lemma bell_doorbell evt : doorbell (K := belled) evt.
Proof.
  split; [intros k; simpl; lia|]. intros k ep n t ev p Hr Hi _ Hw. simpl in Hr, Hi, Hw.
  assert (Hin : (evt, (ev, p)) ∈ ringing k ep).
  { apply list_elem_of_filter. split; [done|]. by apply elem_of_map_to_list. }
  unfold bell_wait in Hw. destruct (ringing k ep); [by apply elem_of_nil in Hin|done].
Qed.

(** the process of [SimKernel] on this kernel, with the wake-up channel *)
Definition wakeup_chan : Channel :=
  mkChannel 0%nat 4 kReadEvent 0 1 false true (Some (CbWakeup 0%nat)) None None None.

Definition bell_world : World belled :=
  mkWorld (mkBelled (sim_set_interest
      {[ 3 := {[ 9 := (Z.lor kReadEvent EPOLLET, 1%nat); 4 := (Z.lor kReadEvent EPOLLET, 5%nat) ]} ]}
      (sim0 8)) ∅)
    77 10%nat {[ 77 := 0%nat ]}
    {[ 0%nat := set_el_poller (mkPoller 3 16 {[ 9 := 1%nat; 4 := 5%nat ]}) loop0 ]}
    {[ 1%nat := chan0; 5%nat := wakeup_chan ]} {[ 2%nat := conn0 ]} server0
    (mkConnectionManager {[ 1 := 2%nat ]} 2) {[ 1 := mkSession 1 "" false 0 999000 ]} gs0.

(** C9: No wake-up is lost. Other threads may queue functors in the loop
    before each functor the loop runs, and between its iterations; the loop's
    own functors and callbacks queue functors too. Whatever happened, when the
    loop is about to wait with a functor in its queue, its eventfd was rung,
    and as long as the eventfd is registered for reading [epoll_wait] returns
    an event instead of timing out. The application's handlers must not replace
    the loop. *)
Theorem no_lost_wakeup {K} `{WakeLaws K} l thread evt dispatcher_ spi_OnMessage (w : World K) :
  doorbell evt →
  (∀ cmd h p id, dispatcher_ !! cmd = Some h → preserves (same_loop l) (action (h p id))) →
  (∀ p id, preserves (same_loop l) (spi_OnMessage p id)) →
  life l thread evt dispatcher_ spi_OnMessage w →
  ∃ lp, w_loops w !! l = Some lp ∧ (el_pendingFunctors lp ≠ [] →
    rung (w_kern w) evt ∧
    ∀ ev p n timeout, interest (w_kern w) (po_epollfd (el_poller lp)) !! evt = Some (ev, p) →
      has_bits ev EPOLLIN = true →
      (sys_epoll_wait (po_epollfd (el_poller lp)) n timeout (w_kern w)).1 ≠ inr []).
Proof.
  intros Hbell Hd Hs Hlife. cut (awake l thread evt w).
  { intros (lp & Hl & _ & Hp). exists lp. split; [done|]. intros Hq. destruct Hp as [|Hp]; [done|].
    split; [done|]. intros. by eapply bell_heard. }
  induction Hlife as [w lp Hl Hb Hq|others w w' _ IH E|t f w w' _ IH Ht E].
  - exists lp. auto.
  - by eapply iterate_awake.
  - by eapply queue_from_awake.
Qed.

(** thread 78 queues bytes to send, and while the loop runs this thread 79
    queues a shutdown *)
Definition sending : functor := FSendInLoop 2%nat (bytes_of [1; 2; 3]).
Definition late (f : functor) (w : World belled) : list (Z * loc * functor) :=
  if bool_decide (f = sending) then [(79, 0%nat, FShutdownInLoop 2%nat)] else [].

Lemma no_lost_wakeup_witness :
  ∃ w' lp, (queue_from 78 0%nat sending;;
    EventLoop_iterate (run_callback ∅ (λ _ _, mret tt)) (crowded late) destroy_functor 0%nat)
      bell_world = Ok (tt, w') ∧
    w_loops w' !! 0%nat = Some lp ∧ el_pendingFunctors lp = [FShutdownInLoop 2%nat; FWriteComplete 2%nat] ∧
    (sys_epoll_wait 3 16 10000 (w_kern w')).1 ≠ inr [].
Proof.
  destruct (queue_from 78 0%nat sending bell_world) as [[[] w1]|e] eqn:E1;
    [|vm_compute in E1; discriminate E1].
  destruct (EventLoop_iterate (run_callback ∅ (λ _ _, mret tt)) (crowded late) destroy_functor 0%nat w1)
    as [[[] w']|e] eqn:E2;
    [|vm_compute in E1; injection E1 as <-; vm_compute in E2; discriminate E2].
  destruct (no_lost_wakeup 0%nat 77 4 ∅ (λ _ _, mret tt) w' (bell_doorbell 4)) as (lp & Hl & Hq).
  - intros cmd h p id E. discriminate E.
  - intros p id. apply preserves_ret, _.
  - apply (life_iterate _ _ _ _ _ late w1); [|exact E2].
    apply (life_queue _ _ _ _ _ 78 sending bell_world); [|discriminate|exact E1].
    by eapply (life_start _ _ _ _ _ bell_world (set_el_poller (mkPoller 3 16 {[ 9 := 1%nat; 4 := 5%nat ]}) loop0)).
  - exists w', lp. rewrite runM_bind, E1. split; [exact E2|].
    vm_compute in E1. injection E1 as <-. vm_compute in E2. injection E2 as <-.
    pose proof Hl as Hlp. vm_compute in Hlp. injection Hlp as <-. split_and!; [exact Hl|done|].
    by eapply (proj2 (Hq ltac:(discriminate))).
Defined.
