(* ===== verification/ServerFacts.v ===== *)
(** * The names of connections and the choice of their loops

    [net/TcpServer] keeps its connections in a map from names, and
    [net/EventLoopThreadPool] assigns them to the IO threads in turn. This file
    shows that names are never given twice, whatever the loops run, so that no
    connection takes the place of another in the map, and that the turns go
    round. *)
From stdpp Require Import sorting.
From S2P Require Import Prelude RingBuffer Protocol World Reactor Sockets Connection SimKernel.
From S2P Require Import Server Gateway Registry.

(** ** Names *)

Lemma pretty_N_go_length n s k :
  (n < 10 ^ N.of_nat k)%N → (String.length (pretty_N_go n s) ≤ k + String.length s)%nat.
Proof.
  revert n s. induction k as [|k IH]; intros n s Hn.
  - replace n with 0%N by (simpl in Hn; lia). by rewrite pretty_N_go_0.
  - destruct (decide (n = 0)%N) as [->|Hn0]; [rewrite pretty_N_go_0; lia|].
    rewrite pretty_N_go_step by lia. etrans; [apply IH|simpl; lia].
    apply N.Div0.div_lt_upper_bound. rewrite <- N.pow_succ_r'. by replace (N.succ (N.of_nat k)) with (N.of_nat (S k)) by lia.
Qed.

(** a positive [int] has at most ten digits *)
Lemma pretty_int_length i : 0 < i < 2 ^ 31 → (String.length (pretty i) ≤ 10)%nat.
Proof.
  intros Hi. destruct i as [|p|]; [lia| |lia]. unfold pretty, pretty_Z.
  change (String.length (pretty (N.pos p)) ≤ 10)%nat. unfold pretty, pretty_N.
  rewrite decide_False by lia. pose proof (pretty_N_go_length (N.pos p) "" 10). simpl in *. lia.
Qed.

Lemma snprintf_fits n s : (String.length s < n)%nat → snprintf n s = s.
Proof.
  unfold snprintf. intros Hn. generalize (n - 1)%nat (ltac:(lia) : (String.length s ≤ n - 1)%nat).
  clear n Hn. induction s as [|a s IH]; intros n Hn; destruct n; simpl in *; try done; [lia|].
  by rewrite IH by lia.
Qed.

Lemma string_app_inj_r (a b c : string) : (a ++ b = a ++ c)%string → b = c.
Proof. induction a as [|x a IH]; [done|]. intros [= E]. auto. Qed.

(** the name of the [i]-th connection *)
Definition name_of (s : TcpServer) (i : Z) : string :=
  (ts_name s ++ snprintf 64 ("-" ++ ts_ipPort s ++ "#" ++ pretty i))%string.

(** an IPv4 address and a port take at most 21 characters *)
Definition short_address (s : TcpServer) : Prop := (String.length (ts_ipPort s) ≤ 51)%nat.

Lemma string_app_length (a b : string) : String.length (a ++ b)%string = (String.length a + String.length b)%nat.
Proof. induction a as [|x a IH]; simpl; [done|]. by rewrite <- IH. Qed.

Lemma name_of_inj s i j :
  short_address s → 0 < i < 2 ^ 31 → 0 < j < 2 ^ 31 → name_of s i = name_of s j → i = j.
Proof.
  unfold short_address, name_of. intros Hs Hi Hj E%string_app_inj_r.
  pose proof (pretty_int_length i Hi). pose proof (pretty_int_length j Hj).
  rewrite !snprintf_fits in E by (rewrite !string_app_length; simpl; lia).
  do 3 apply string_app_inj_r in E. by apply (inj pretty) in E.
Qed.

(** ** The map of connections *)

Section names.
Context {K : Type} `{Kernel K}.
Abbreviation W := (World K).
Implicit Types (c l : loc) (w : W) (s : TcpServer).

(** the names in the map were given out before *)
Record named (s : TcpServer) : Prop := {
  nm_short : short_address s;
  nm_next : 0 < ts_nextConnId s < 2 ^ 31;
  nm_names name c : ts_connections s !! name = Some c →
    ∃ i, 0 < i < ts_nextConnId s ∧ name = name_of s i;
}.

Definition names_view (s : TcpServer) : string * string * Z * gmap string loc :=
  (ts_name s, ts_ipPort s, ts_nextConnId s, ts_connections s).
Definition same_names : relation W := λ w w', names_view (w_server w') = names_view (w_server w).
Definition stays_named : relation W := λ w w', named (w_server w) → named (w_server w').

#[export] Instance same_names_preorder : PreOrder same_names.
Proof. split; [done|]. intros w1 w2 w3 E1 E2. unfold same_names in *. congruence. Qed.
#[export] Instance stays_named_preorder : PreOrder stays_named.
Proof. split; [by intros w Hw|]. intros w1 w2 w3 E1 E2 Hn. by apply E2, E1. Qed.

Lemma named_view s s' : names_view s' = names_view s → named s → named s'.
Proof.
  intros [= En Ei Ex Ec] [Hs Hx Hn]. unfold short_address in *. split.
  - unfold short_address. by rewrite Ei.
  - by rewrite Ex.
  - intros name c. rewrite Ec, Ex. intros (i & Hi & ->)%Hn. exists i. split; [done|].
    unfold name_of. by rewrite En, Ei.
Qed.
Lemma same_stays_named w w' : same_names w w' → stays_named w w'.
Proof. intros E Hn. by eapply named_view. Qed.

(** the accesses to the store that leave the server alone *)
Lemma same_names_sys {A} (f : K → A * K) : preserves same_names (sys f).
Proof. by intros w a w' [= _ <-]. Qed.
Lemma same_names_alloc : preserves same_names alloc.
Proof. by intros w a w' [= _ <-]. Qed.
Lemma same_names_modify (f : W → W) :
  (∀ w, names_view (w_server (f w)) = names_view (w_server w)) → preserves same_names (modify f).
Proof. intros Hf. by apply (preserves_modify same_names). Qed.
Lemma stays_named_same {A} (m : M W A) : preserves same_names m → preserves stays_named m.
Proof. intros Hm w a w' E. apply same_stays_named. by eapply Hm. Qed.

(** a connection is removed from the map *)
Lemma stays_named_delete name :
  preserves stays_named (mod_server (λ s, set_ts_connections (delete name (ts_connections s)) s)).
Proof.
  apply preserves_modify. intros w [Hs Hx Hn]. split; [done|done|]. rs.
  intros n c [_ Hc]%lookup_delete_Some. by apply Hn in Hc.
Qed.
End names.

#[export] Hint Resolve same_names_sys same_names_alloc : frame.
#[export] Hint Extern 2 (preserves same_names (modify _)) =>
  apply same_names_modify; intros []; reflexivity : frame.
#[export] Hint Extern 2 (preserves same_names (mod_server _)) =>
  apply same_names_modify; intros []; unfold names_view; rs; reflexivity : frame.
#[export] Hint Extern 1 (preserves stays_named (modify _)) =>
  apply stays_named_same; solve [auto 1 with frame] : frame.
#[export] Hint Extern 1 (preserves stays_named (sys _)) => apply stays_named_same, same_names_sys : frame.
#[export] Hint Extern 1 (preserves stays_named alloc) => apply stays_named_same, same_names_alloc : frame.
#[export] Hint Extern 1 (preserves stays_named (mod_server _)) =>
  first [ apply stays_named_delete | apply stays_named_same; solve [auto 1 with frame] ] : frame.

Section named_events.
Context {K : Type} `{Kernel K}.
Abbreviation W := (World K).
Abbreviation R := (stays_named (K := K)).
Implicit Types (c l : loc) (w : W) (s : TcpServer).
Context (dispatcher_ : PacketDispatcher W) (spi_OnMessage : Packet → Z → M W unit).
Context (Hdispatch : ∀ cmd h p id, dispatcher_ !! cmd = Some h → preserves R (action (h p id))).
Context (Hspi : ∀ p id, preserves R (spi_OnMessage p id)).

Lemma named_Update c : preserves R (Channel_Update c).
Proof. apply stays_named_same. frame_tac. Qed.
Lemma named_Remove c : preserves R (Channel_Remove c).
Proof. apply stays_named_same. frame_tac. Qed.
Lemma named_Queue l f : preserves R (EventLoop_QueueInLoop l f).
Proof. apply stays_named_same. frame_tac. Qed.
#[local] Hint Resolve named_Update named_Remove named_Queue : frame.
Lemma named_SendInLoop c d : preserves R (TcpConnection_SendInLoop c d).
Proof. frame_tac. Qed.
Lemma named_OnConnection c : preserves R (GatewayServer_OnConnection c).
Proof. frame_tac. Qed.
#[local] Hint Resolve named_SendInLoop named_OnConnection : frame.

Lemma named_OnPacket p id : preserves R (GatewayServer_OnPacket dispatcher_ spi_OnMessage p id).
Proof. apply preserves_OnPacket; [exact _|done|done|intros; frame_tac..]. Qed.
Lemma named_Codec c : preserves R (Codec_OnMessage dispatcher_ spi_OnMessage c).
Proof. apply preserves_Codec_OnMessage; [exact _|apply named_OnPacket|frame_tac|intros; frame_tac]. Qed.
#[local] Hint Resolve named_Codec : frame.

(** the next name is new *)
Lemma named_fresh (s : TcpServer) : named s → ts_connections s !! conn_name s = None.
Proof.
  intros [Hs Hx Hnm]. destruct (ts_connections s !! conn_name s) as [c|] eqn:Hc; [|done].
  apply Hnm in Hc as (i & Hi & Ei). apply name_of_inj in Ei; [lia|done|lia|lia].
Qed.

(** [NewConnection] gives out the next name *)
Lemma named_next (s : TcpServer) c :
  named s → ts_nextConnId s < 2 ^ 31 - 1 → named (set_ts_nextConnId (ts_nextConnId s + 1) s) ∧
  ∀ s', names_view s' = names_view (set_ts_nextConnId (ts_nextConnId s + 1) s) →
    named (set_ts_connections (<[conn_name s := c]> (ts_connections s')) s').
Proof.
  intros [Hs Hx Hn] Hi. assert (Hnext : named (set_ts_nextConnId (ts_nextConnId s + 1) s)).
  { split; [done|rs; lia|]. rs. intros name c' (i & Hi' & ->)%Hn. exists i. split; [lia|done]. }
  split; [done|]. intros s' E. pose proof (named_view _ _ E Hnext) as [Hs' Hx' Hn'].
  split; [done|done|]. rs. injection E as En Ei Ex Ec. rs in En. rs in Ei. rs in Ex.
  intros name c' [[<- _]|[_ Hc]]%lookup_insert_Some; [|by apply (Hn' name c')].
  exists (ts_nextConnId s). rewrite Ex. split; [lia|]. unfold conn_name, name_of. rs. by rewrite En, Ei.
Qed.

Lemma named_NewConnection fd peer :
  preserves R (TcpServer_NewConnection GatewayServer_OnConnection fd peer).
Proof.
  intros w u w' E Hn. unfold TcpServer_NewConnection in E.
  apply runM_bind_inv in E as (s & w0 & [= <- <-] & E).
  eapply (preserves_bind_inv same_names) in E as (u1 & w1 & H1 & E); [|frame_tac|reflexivity].
  eapply (preserves_bind_inv same_names) in E as (ioLoop & w2 & H2 & E); [|frame_tac|exact H1].
  apply runM_bind_inv in E as (u2 & w3 & E3 & E). unfold lift in E3.
  destruct (defined_if _) as [[]|] eqn:Ed in E3; [|done]. injection E3 as _ <-.
  apply defined_ok_inv in Ed. apply Z.ltb_lt in Ed.
  assert (Hnext := λ c, named_next (w_server w) c Hn Ed).
  apply runM_bind_inv in E as (u3 & w3 & [= _ <-] & E).
  eapply (preserves_bind_inv same_names) in E as (localAddr & w4 & H4 & E); [|frame_tac|reflexivity].
  eapply (preserves_bind_inv same_names) in E as (c & w5 & H5 & E); [|frame_tac|exact H4].
  apply runM_bind_inv in E as (u6 & w6 & [= _ <-] & E).
  match type of E with ?m ?w6 = _ => assert (H6 : R w6 w') end.
  { revert E. match goal with |- ?m _ = Ok (?a, _) → _ => cut (preserves R m); [eauto|frame_tac] end. }
  apply H6. rs. apply (Hnext c). unfold same_names in *. rs in H5. rewrite H5.
  injection H2 as En Ei Ex Ec. unfold names_view. rs. by rewrite En, Ei, Ex, Ec.
Qed.
#[local] Hint Resolve named_NewConnection : frame.

Lemma named_callback cb t : preserves R (run_callback dispatcher_ spi_OnMessage cb t).
Proof. destruct cb; simpl; frame_tac. Qed.
Lemma named_exec f : preserves R (exec f).
Proof. destruct f; simpl; frame_tac. Qed.
Lemma named_destroy f : preserves R (destroy_functor f).
Proof. frame_tac. Qed.

Lemma named_events es : preserves R (forM es (run_event dispatcher_ spi_OnMessage)).
Proof.
  apply preserves_forM; [exact _|]. intros [cb t|f|f]; [apply named_callback|apply named_exec|apply named_destroy].
Qed.
End named_events.


(** ** The turns of the IO threads *)

Section turns.
Context {K : Type} `{Kernel K}.
Abbreviation W := (World K).
Implicit Types (w : W).

Definition pool_of w : EventLoopThreadPool := ts_threadPool (w_server w).

(** the pool runs, and this is the thread of its base loop *)
Record pool_ok w : Prop := {
  pk_thread : ∃ lp, w_loops w !! tp_baseLoop (pool_of w) = Some lp ∧ el_threadId lp = w_tid w;
  pk_started : tp_started (pool_of w) = true;
  pk_next : 0 ≤ tp_next (pool_of w) < Z.of_nat (length (tp_loops (pool_of w)));
  pk_bound : Z.of_nat (length (tp_loops (pool_of w))) < 2 ^ 31;
}.

(** [n] calls of [GetNextLoop] *)
Fixpoint next_loops (n : nat) : M W (list loc) :=
  match n with
  | O => mret []
  | S n => l ← EventLoopThreadPool_GetNextLoop; ls ← next_loops n; mret (l :: ls)
  end.

Definition turned (n : Z) w : W :=
  set_w_server (set_ts_threadPool (set_tp_next n (pool_of w)) (w_server w)) w.

Lemma turned_ok n w :
  pool_ok w → 0 ≤ n < Z.of_nat (length (tp_loops (pool_of w))) → pool_ok (turned n w).
Proof. intros [Ht Hs Hn Hb] ?. by split. Qed.

Lemma GetNextLoop_spec w :
  pool_ok w → ∃ l,
    tp_loops (pool_of w) !! Z.to_nat (tp_next (pool_of w)) = Some l ∧
    EventLoopThreadPool_GetNextLoop w =
      Ok (l, turned ((tp_next (pool_of w) + 1) mod Z.of_nat (length (tp_loops (pool_of w)))) w).
Proof.
  intros [(lp & Hl & Ht) Hs Hn Hb].
  destruct (lookup_lt_is_Some_2 (tp_loops (pool_of w)) (Z.to_nat (tp_next (pool_of w)))) as [l El]; [lia|].
  exists l. split; [done|].
  cut (wp never EventLoopThreadPool_GetNextLoop (λ l' w', l' = l ∧
    w' = turned ((tp_next (pool_of w) + 1) mod Z.of_nat (length (tp_loops (pool_of w)))) w) w).
  { by intros (l' & w' & E & -> & ->)%wp_ok_inv. }
  unfold EventLoopThreadPool_GetNextLoop. apply wp_bind, wp_gets, wp_bind.
  eapply assert_in_loop_spec; [exact Hl|exact Ht|]. fold (pool_of w).
  apply wp_bind, wp_assert; [done|]. rewrite bool_decide_false by (by intros E; rewrite E in El).
  rewrite El. run. split; [done|]. unfold turned, pool_of in *. do 3 f_equal.
  rewrite u64_small by lia.
  destruct (Z.leb_spec (Z.of_nat (length (tp_loops (ts_threadPool (w_server w)))))
              (tp_next (ts_threadPool (w_server w)) + 1)) as [Hge|Hlt].
  - replace (tp_next (ts_threadPool (w_server w)) + 1)
      with (Z.of_nat (length (tp_loops (ts_threadPool (w_server w))))) by lia.
    by rewrite Z.mod_same by lia.
  - by rewrite Z.mod_small by lia.
Qed.

Lemma next_loops_spec n w :
  pool_ok w → ∃ ls, next_loops n w =
    Ok (ls, turned ((tp_next (pool_of w) + Z.of_nat n) mod Z.of_nat (length (tp_loops (pool_of w)))) w) ∧
    length ls = n ∧
    ∀ i, (i < n)%nat → ls !! i = tp_loops (pool_of w) !!
      Z.to_nat ((tp_next (pool_of w) + Z.of_nat i) mod Z.of_nat (length (tp_loops (pool_of w)))).
Proof.
  revert w. induction n as [|n IH]; intros w Hok.
  - exists []. split_and!; [|done|lia]. simpl. rewrite Z.add_0_r, Z.mod_small by apply Hok.
    unfold turned, pool_of. by destruct w as [? ? ? ? ? ? ? [? ? ? ? [] ? ? ?] ? ? ?].
  - destruct (GetNextLoop_spec w Hok) as (l & El & E1).
    set (m := Z.of_nat (length (tp_loops (pool_of w)))) in *.
    assert (Hm : 0 < m) by (pose proof (pk_next w Hok); lia).
    destruct (IH (turned ((tp_next (pool_of w) + 1) mod m) w)) as (ls & E2 & Hlen & Hls).
    { apply turned_ok; [done|]. apply Z.mod_pos_bound. lia. }
    change (tp_next (pool_of (turned ?n w))) with n in E2, Hls.
    change (pool_of (turned ((tp_next (pool_of w) + 1) mod m) w))
      with (set_tp_next ((tp_next (pool_of w) + 1) mod m) (pool_of w)) in E2, Hls.
    rs in E2. rs in Hls. fold m in E2, Hls.
    exists (l :: ls). split_and!; [|by simpl; rewrite Hlen|].
    + cbn [next_loops]. rewrite runM_bind, E1, runM_bind, E2. simpl.
      rewrite Zplus_mod_idemp_l. replace (tp_next (pool_of w) + 1 + Z.of_nat n)
        with (tp_next (pool_of w) + Z.of_nat (S n)) by lia. done.
    + intros [|i] Hi; simpl.
      * rewrite Z.add_0_r, Z.mod_small by apply Hok. done.
      * rewrite Hls by lia. rewrite Zplus_mod_idemp_l. do 3 f_equal. lia.
Qed.
End turns.

(** The IO threads take turns. From a pool that runs, [n] calls of
    [GetNextLoop] in the thread of the base loop return, and the [i]-th returns
    the loop [i] places after the one whose turn it was, counting round the
    pool. *)
Theorem round_robin {K} `{Kernel K} n (w : World K) :
  pool_ok w → ∃ ls w', next_loops n w = Ok (ls, w') ∧ length ls = n ∧ pool_ok w' ∧
    (∀ i, (i < n)%nat → ls !! i = tp_loops (pool_of w) !!
      Z.to_nat ((tp_next (pool_of w) + Z.of_nat i) mod Z.of_nat (length (tp_loops (pool_of w))))) ∧
    tp_next (pool_of w') =
      (tp_next (pool_of w) + Z.of_nat n) mod Z.of_nat (length (tp_loops (pool_of w))).
Proof.
  intros Hok. destruct (next_loops_spec n w Hok) as (ls & E & Hlen & Hls). eexists ls, _.
  split_and!; [exact E|done| |done|done]. apply turned_ok; [done|].
  apply Z.mod_pos_bound. pose proof (pk_next w Hok). lia.
Qed.

(** ** Witnesses *)

(** a connection waits to be accepted *)
Definition accept_world : World sim :=
  set_w_kern (sim_set_backlog [(10, mkSockaddr 0x7f000001 40000)] (sim0 8)) (world0 8).

Lemma server0_named : named server0.
Proof.
  split; [unfold short_address; simpl; lia|simpl; lia|].
  intros name c Hc. change (({["GatewayServer-127.0.0.1:8001#1" := 2%nat]} : gmap string loc)
    !! name = Some c) in Hc. apply lookup_singleton_Some in Hc as [<- _].
  exists 1. split; [simpl; lia|]. by vm_compute.
Qed.


(** three IO threads, and it is the turn of the last *)
Definition pool_world : World sim :=
  set_w_server (set_ts_threadPool
    (mkThreadPool 0%nat "GatewayServer" true 3 2 [] [11; 12; 13]%nat) server0) (world0 8).

Lemma round_robin_witness :
  ∃ w', next_loops 5 pool_world = Ok ([13; 11; 12; 13; 11]%nat, w') ∧ tp_next (pool_of w') = 1.
Proof.
  destruct (round_robin 5 pool_world) as (ls & w' & E & _ & _ & _ & Hn).
  - split; [by exists loop0|done|simpl; lia|simpl; lia].
  - exists w'. split; [|exact Hn]. rewrite E. vm_compute in E. by injection E as <- _.
Defined.
