(* ===== verification/Typing.v ===== *)
(** * A typing of the store

    The objects of the reactor point at each other: channels at their loop and,
    through their callbacks, at connections; connections at their loop and
    channel; queued functors, the server's map and epoll's interest lists at
    connections and channels. This file gives the store a typing for a process
    with a single thread, under which every pointer that is followed leads to
    an object of its class and every buffer is well formed, and a judgement of
    the programs that keep it and reach no undefined behaviour, with its
    rules. *)
From S2P Require Import Prelude RingBuffer Protocol World Reactor Sockets Connection.
From S2P Require Import Server Gateway.

(** the faults that stop the program in a defined way *)
Definition harmless (e : fault) : Prop := e ≠ UndefinedBehaviour.

(** ** Buffers *)

(** an outcome that is not undefined, and a result that is well formed *)
Definition sound {A} (Q : A → Prop) (o : outcome A) : Prop :=
  match o with Ok a => Q a | Fail e => harmless e end.

Section buffers.
Implicit Types (b : RingBuffer) (data : list byte).

Lemma sound_bind {A B} (Q : A → Prop) (R : B → Prop) (o : outcome A) (k : A → outcome B) :
  sound Q o → (∀ a, Q a → sound R (k a)) → sound R (o ≫= k).
Proof. destruct o; simpl; auto. Qed.
Lemma sound_assert {B} (R : B → Prop) (b : bool) (o : outcome B) :
  (b = true → sound R o) → sound R (_ ← assert_ b; o).
Proof. destruct b; simpl; [auto|done]. Qed.

(** [MakeSpace] makes space, or the vector is too long *)
Lemma MakeSpace_sound len b :
  rb_inv b → WritableBytes b < len < 2 ^ 63 →
  sound (λ b', rb_inv b' ∧ len ≤ WritableBytes b') (MakeSpace len b).
Proof.
  intros H Hw. destruct (decide (writeIndex_ b + len < 2 ^ 63)) as [Hm|Hm].
  { destruct (MakeSpace_spec len b) as (b' & -> & ? & _ & ? & _); [done|lia|done|done]. }
  unfold MakeSpace. rewrite WritableBytes_inv in * by done. pose proof H as [??].
  unfold kCheapPrepend, PrependableBytes. rewrite !u64_small by lia.
  destruct (Z.ltb_spec (buffer_size b - writeIndex_ b + readIndex_ b) (len + 8)).
  - unfold vector_resize. by rewrite (proj2 (Z.ltb_lt _ _)) by (unfold vector_max_size; lia).
  - unfold sound. rewrite ReadableBytes_inv by done.
    destruct (copy_forward_down (Z.to_nat (writeIndex_ b - readIndex_ b))
      (Z.to_nat (readIndex_ b)) (Z.to_nat 8) (buffer_ b)) as (buf & E & Hl & _);
      [lia|unfold buffer_size in *; lia|].
    rewrite E. simpl. rewrite u64_small by lia.
    assert (Hi : rb_inv (mkRingBuffer buf 8 (8 + (writeIndex_ b - readIndex_ b))))
      by (unfold rb_inv, buffer_size in *; simpl; rewrite Hl; lia).
    split; [done|]. rewrite WritableBytes_inv by done. unfold buffer_size in *. simpl. lia.
Qed.

Lemma Append_sound data b :
  rb_inv b → Z.of_nat (length data) < 2 ^ 63 → sound rb_inv (Append data b).
Proof.
  intros H Hlen. destruct (decide (writeIndex_ b + Z.of_nat (length data) < 2 ^ 63)) as [Hm|Hm].
  { by destruct (Append_spec data b) as (b' & -> & ? & _). }
  unfold Append. eapply (sound_bind (λ b1, rb_inv b1 ∧ Z.of_nat (length data) ≤ WritableBytes b1)).
  - unfold EnsureWritableBytes. eapply (sound_bind (λ b1, rb_inv b1 ∧ Z.of_nat (length data) ≤ WritableBytes b1)).
    + destruct (Z.ltb_spec (WritableBytes b) (Z.of_nat (length data))); [by apply MakeSpace_sound|done].
    + intros b1 [? ?]. by apply sound_assert.
  - intros b1 [H1 Hw]. destruct (store_written b1 data H1 Hw) as (buf & Es & Hl). rewrite Es. simpl.
    destruct (contents_written b1 data buf H1 Hw Es) as [Hi _]. unfold HasWritten.
    apply sound_assert. intros _. simpl. rewrite WritableBytes_inv in Hw by done. destruct H1.
    by rewrite u64_small by (unfold buffer_size in *; lia).
Qed.

Lemma ReadFd_sound rv b :
  rb_inv b → (∀ data, rv = readv_ok data → Z.of_nat (length data) ≤ foldr Z.add 0 (ReadFd_iov b)) →
  sound (λ r, rb_inv r.2) (ReadFd (λ _, rv) b).
Proof.
  intros H Hb. unfold ReadFd. destruct rv as [data|e]; [|done]. specialize (Hb data eq_refl).
  pose proof H as [??]. pose proof (WritableBytes_inv b H) as Hwr.
  destruct (Z.leb_spec (Z.of_nat (length data)) (WritableBytes b)) as [Hle|Hgt].
  - destruct (store_written b data H Hle) as (buf & Es & Hl).
    destruct (contents_written b data buf H Hle Es) as [Hi Hc].
    rewrite Es. simpl. by rewrite u64_small by (unfold buffer_size in *; lia).
  - unfold ReadFd_iov in Hb.
    destruct (Z.ltb_spec (WritableBytes b) sizeof_extrabuf) as [Hs|Hs]; simpl in Hb; [|lia].
    set (d1 := take (Z.to_nat (WritableBytes b)) data).
    assert (Hd1 : Z.of_nat (length d1) = WritableBytes b) by (unfold d1; rewrite length_take; lia).
    destruct (store_written b d1 H ltac:(lia)) as (buf & Es & Hl).
    destruct (contents_written b d1 buf H ltac:(lia) Es) as [Hi Hc].
    rewrite Es. simpl.
    replace (writeIndex_ b + Z.of_nat (length d1)) with (Z.of_nat (length buf)) in Hi
      by (unfold buffer_size in *; lia).
    eapply sound_bind; [apply Append_sound; [exact Hi|]|by intros b' Hb'].
    rewrite length_drop. unfold sizeof_extrabuf in *. lia.
Qed.
End buffers.

(** ** What the kernel promises *)

(** from [k] to [k'] no interest list grows, and no more connections are to
    come than before *)
Definition meek {K} `{EpollLaws K} (left : K → Z) (k k' : K) : Prop :=
  (∀ e, interest k' e ⊆ interest k e) ∧ left k' ≤ left k.

(** [epoll_wait] reports what is registered; only [epoll_ctl] registers; and
    [accepts_left] counts the connections that will ever be accepted. *)
Class SafeLaws (K : Type) `{SocketLaws K} : Type := {
  accepts_left : K → Z;
  accepts_nonneg k : 0 ≤ accepts_left k;
  wait_registered ep n t k es c ev :
    (sys_epoll_wait ep n t k).1 = inr es → (c, ev) ∈ es →
    ∃ fd ev', interest k ep !! fd = Some (ev', c);
  accept_counts fd k : meek accepts_left k (sys_accept fd k).2 ∧
    (0 ≤ (sys_accept fd k).1.1.1 → accepts_left (sys_accept fd k).2 < accepts_left k);
  ctl_counts ep op fd ev p k : accepts_left (sys_epoll_ctl ep op fd ev p k).2 ≤ accepts_left k;
  del_deletes ep fd ev p k :
    interest (sys_epoll_ctl ep EPOLL_CTL_DEL fd ev p k).2 ep ⊆ delete fd (interest k ep);
  wait_meek ep n t k : meek accepts_left k (sys_epoll_wait ep n t k).2;
  write_meek fd d k : meek accepts_left k (sys_write fd d k).2;
  readv_meek fd iov k : meek accepts_left k (sys_readv fd iov k).2;
  read8_meek fd k : meek accepts_left k (sys_read8 fd k).2;
  shutdown_meek fd k : meek accepts_left k (sys_shutdown fd k).2;
  so_error_meek fd k : meek accepts_left k (sys_so_error fd k).2;
  close_meek fd k : meek accepts_left k (sys_close fd k).2;
  open_null_meek k : meek accepts_left k (sys_open_null k).2;
  getsockname_meek fd k : meek accepts_left k (sys_getsockname fd k).2;
  setsockopt_meek fd l n v k : meek accepts_left k (sys_setsockopt fd l n v k).2;
  now_meek k : meek accepts_left k (sys_now k).2;
  (** an epoll instance starts empty *)
  create_empty k : 0 ≤ (sys_epoll_create k).1 →
    interest (sys_epoll_create k).2 (sys_epoll_create k).1 = ∅;
  create_counts k : accepts_left (sys_epoll_create k).2 ≤ accepts_left k;
  eventfd_meek k : meek accepts_left k (sys_eventfd k).2;
  socket_meek k : meek accepts_left k (sys_socket k).2;
  bind_meek fd a k : meek accepts_left k (sys_bind fd a k).2;
  listen_meek fd k : meek accepts_left k (sys_listen fd k).2;
  timerfd_create_meek k : meek accepts_left k (sys_timerfd_create k).2;
  timerfd_settime_meek fd n k : meek accepts_left k (sys_timerfd_settime fd n k).2;
}.

#[export] Instance meek_preorder {K} `{EpollLaws K} (left : K → Z) : PreOrder (meek left).
Proof.
  split; [intros k; split; [done|lia]|]. intros k1 k2 k3 [Hi1 Hl1] [Hi2 Hl2]. split; [|lia].
  intros e. etrans; [apply Hi2|apply Hi1].
Qed.

(** ** The typing of the store *)

Section typing.
Context {K : Type} `{SafeLaws K} (l : loc).
Abbreviation W := (World K).
Implicit Types (c : loc) (w : W) (conn : TcpConnection) (ch : Channel) (lp : EventLoop).

Definition live_conn c w : Prop := is_Some (w_conns w !! c).
Definition live_chan c w : Prop := is_Some (w_chans w !! c).

(** a callback of the channel [c] *)
Definition callback_typed c w (cb : option callback) : Prop :=
  match cb with
  | Some (CbConnRead c' | CbConnWrite c' | CbConnClose c' | CbConnError c') =>
      tc_channel <$> w_conns w !! c' = Some c
  | Some (CbWakeup l') => l' = l
  | Some CbAccept | Some CbHeartbeat | None => True
  end.

(** a functor: the others run at once, because there is one thread *)
Definition functor_typed w (f : functor) : Prop :=
  match f with
  | FForceCloseInLoop c | FConnectDestroyed c | FWriteComplete c | FHighWaterMark c _ => live_conn c w
  | _ => False
  end.

Record chan_typed c ch w : Prop := {
  ct_loop : ch_loop ch = l;
  ct_read : callback_typed c w (ch_readCallback ch);
  ct_write : callback_typed c w (ch_writeCallback ch);
  ct_close : callback_typed c w (ch_closeCallback ch);
  ct_error : callback_typed c w (ch_errorCallback ch);
}.

Record conn_typed c conn w : Prop := {
  nt_loop : tc_loop conn = l;
  nt_channel : ch_readCallback <$> w_chans w !! tc_channel conn = Some (Some (CbConnRead c));
  nt_input : rb_inv (tc_inputBuffer conn);
  nt_output : rb_inv (tc_outputBuffer conn);
}.

Record typed w : Prop := {
  ty_loop : ∃ lp, w_loops w !! l = Some lp ∧ el_threadId lp = w_tid w;
  ty_conn c conn : w_conns w !! c = Some conn → conn_typed c conn w;
  ty_chan c ch : w_chans w !! c = Some ch → chan_typed c ch w;
  ty_registered lp fd c : w_loops w !! l = Some lp → po_channels (el_poller lp) !! fd = Some c →
    ch_fd <$> w_chans w !! c = Some fd;
  ty_interest lp fd ev c : w_loops w !! l = Some lp →
    interest (w_kern w) (po_epollfd (el_poller lp)) !! fd = Some (ev, c) →
    po_channels (el_poller lp) !! fd = Some c ∧ ch_index <$> w_chans w !! c = Some 1;
  ty_functors lp : w_loops w !! l = Some lp →
    Forall (functor_typed w) (el_pendingFunctors lp ++ el_running lp);
  ty_server name c : ts_connections (w_server w) !! name = Some c → live_conn c w;
  ty_fresh c : (w_next w ≤ c)%nat → w_conns w !! c = None ∧ w_chans w !! c = None;
  ty_home : ts_loop (w_server w) = l ∧ ac_loop (ts_acceptor (w_server w)) = l ∧
    tp_baseLoop (ts_threadPool (w_server w)) = l ∧ tp_loops (ts_threadPool (w_server w)) = [] ∧
    tp_numThreads (ts_threadPool (w_server w)) = 0 ∧ gs_loop (w_gs w) = l;
  ty_count : ts_nextConnId (w_server w) + accepts_left (w_kern w) < 2 ^ 31;
}.

(** the channel of the acceptor *)
Definition accept_chan w : loc := ac_acceptChannel (ts_acceptor (w_server w)).

(** [w'] is a later state: nothing has been destroyed, and the functors that
    run are the same *)
Record later w w' : Prop := {
  lt_conn c conn : w_conns w !! c = Some conn →
    ∃ conn', w_conns w' !! c = Some conn' ∧ tc_channel conn' = tc_channel conn;
  lt_chan c : live_chan c w → live_chan c w';
  lt_running : el_running <$> w_loops w' !! l = el_running <$> w_loops w !! l;
  lt_accept : accept_chan w' = accept_chan w;
}.

#[export] Instance later_preorder : PreOrder later.
Proof.
  split.
  - intros w. split; eauto.
  - intros w1 w2 w3 [Hc1 Hh1 Hr1 Ha1] [Hc2 Hh2 Hr2 Ha2]. split; [|auto|congruence..].
    intros c conn (conn2 & E2 & T2)%Hc1. destruct (Hc2 _ _ E2) as (conn3 & E3 & T3).
    exists conn3. split; [done|congruence].
Qed.

Lemma later_live_conn w w' c : later w w' → live_conn c w → live_conn c w'.
Proof. intros Hl [conn E]. destruct (lt_conn _ _ Hl c conn E) as (conn' & E' & _). by exists conn'. Qed.
Lemma later_live_chan w w' c : later w w' → live_chan c w → live_chan c w'.
Proof. intros Hl. apply Hl. Qed.
(** the acceptor's channel is there *)
Definition accept_live w : Prop := live_chan (accept_chan w) w.
Lemma later_accept_live w w' : later w w' → accept_live w → accept_live w'.
Proof. intros Hl. unfold accept_live. rewrite (lt_accept _ _ Hl). by apply later_live_chan. Qed.
Lemma later_functor w w' f : later w w' → functor_typed w f → functor_typed w' f.
Proof. intros Hl. destruct f; simpl; try done; by apply later_live_conn. Qed.

Lemma typed_live_chan w c conn : typed w → w_conns w !! c = Some conn → live_chan (tc_channel conn) w.
Proof.
  intros Ht E. pose proof (nt_channel _ _ _ (ty_conn _ Ht c conn E)) as Hc. unfold live_chan.
  by destruct (w_chans w !! tc_channel conn).
Qed.

(** what the typing sees of the objects *)
Definition conn_shape conn : loc * loc := (tc_loop conn, tc_channel conn).
Definition chan_shape ch :=
  (ch_loop ch, ch_fd ch, ch_index ch, ch_readCallback ch, ch_writeCallback ch, ch_closeCallback ch,
   ch_errorCallback ch).
Definition loop_shape lp :=
  (el_threadId lp, po_epollfd (el_poller lp), po_channels (el_poller lp), el_pendingFunctors lp,
   el_running lp).
Definition server_shape (s : TcpServer) :=
  (ts_loop s, ac_loop (ts_acceptor s), tp_baseLoop (ts_threadPool s), tp_loops (ts_threadPool s),
   ts_connections s, ts_nextConnId s, tp_numThreads (ts_threadPool s),
   ac_acceptChannel (ts_acceptor s)).

Record same_shape w w' : Prop := {
  sh_conn c : conn_shape <$> w_conns w' !! c = conn_shape <$> w_conns w !! c;
  sh_buffers c conn : w_conns w' !! c = Some conn →
    rb_inv (tc_inputBuffer conn) ∧ rb_inv (tc_outputBuffer conn);
  sh_chan c : chan_shape <$> w_chans w' !! c = chan_shape <$> w_chans w !! c;
  sh_loop : loop_shape <$> w_loops w' !! l = loop_shape <$> w_loops w !! l;
  sh_server : server_shape (w_server w') = server_shape (w_server w);
  sh_gs : gs_loop (w_gs w') = gs_loop (w_gs w);
  sh_tid : w_tid w' = w_tid w;
  sh_next : w_next w' = w_next w;
  sh_kern : meek accepts_left (w_kern w) (w_kern w');
}.

Lemma shape_conn w w' c conn' :
  same_shape w w' → w_conns w' !! c = Some conn' →
  ∃ conn, w_conns w !! c = Some conn ∧ tc_loop conn' = tc_loop conn ∧ tc_channel conn' = tc_channel conn.
Proof.
  intros Hs E. pose proof (sh_conn _ _ Hs c) as Hc. rewrite E in Hc. simpl in Hc.
  destruct (w_conns w !! c) as [conn|]; [|done]. injection Hc as El Ec. eauto.
Qed.
Lemma shape_chan w w' c ch' :
  same_shape w w' → w_chans w' !! c = Some ch' →
  ∃ ch, w_chans w !! c = Some ch ∧ chan_shape ch' = chan_shape ch.
Proof.
  intros Hs E. pose proof (sh_chan _ _ Hs c) as Hc. rewrite E in Hc. simpl in Hc.
  destruct (w_chans w !! c) as [ch|]; [|done]. injection Hc as Hc. exists ch. split; [done|].
  unfold chan_shape. congruence.
Qed.
(** a part of the shape, at an address that may be absent *)
Lemma shape_chan_part {A} (f : Channel → A) (g : _ → A) w w' c :
  same_shape w w' → (∀ ch, f ch = g (chan_shape ch)) → f <$> w_chans w' !! c = f <$> w_chans w !! c.
Proof.
  intros Hs Hf. pose proof (sh_chan _ _ Hs c) as Hc.
  destruct (w_chans w' !! c), (w_chans w !! c); simpl in *; try done. injection Hc as Hc.
  rewrite !Hf. unfold chan_shape in *. congruence.
Qed.
Lemma shape_channel w w' c :
  same_shape w w' → tc_channel <$> w_conns w' !! c = tc_channel <$> w_conns w !! c.
Proof.
  intros Hs. pose proof (sh_conn _ _ Hs c) as Hc.
  destruct (w_conns w' !! c), (w_conns w !! c); simpl in *; try done. injection Hc as _ Hc. congruence.
Qed.
Lemma shape_live_conn w w' c : same_shape w w' → live_conn c w ↔ live_conn c w'.
Proof.
  intros Hs. pose proof (shape_channel _ _ c Hs) as Hc. unfold live_conn.
  destruct (w_conns w' !! c), (w_conns w !! c); split; try done; intros [? ?]; done.
Qed.
Lemma shape_callback w w' c cb : same_shape w w' → callback_typed c w cb → callback_typed c w' cb.
Proof. intros Hs. destruct cb as [[]|]; simpl; try done; by rewrite (shape_channel w w'). Qed.
Lemma shape_functor w w' f : same_shape w w' → functor_typed w f → functor_typed w' f.
Proof. intros Hs. destruct f; simpl; try done; by rewrite (shape_live_conn w w'). Qed.

(** the typing depends on the shape alone *)
Lemma typed_shape w w' : same_shape w w' → typed w → typed w'.
Proof.
  intros Hs Ht. pose proof (sh_loop _ _ Hs) as Hl. destruct (ty_loop _ Ht) as (lp & El & Et).
  rewrite El in Hl. destruct (w_loops w' !! l) as [lp'|] eqn:El'; [|done]. injection Hl as E1 E2 E3 E4 E5.
  pose proof (sh_server _ _ Hs) as Hsv. injection Hsv as S1 S2 S3 S4 S5 S6 S7 _.
  destruct (sh_kern _ _ Hs) as [Hk1 Hk2].
  assert (Hlp : ∀ x, w_loops w' !! l = Some x → x = lp') by congruence. split.
  - exists lp'. split; [done|]. rewrite (sh_tid _ _ Hs). congruence.
  - intros c conn' E'. destruct (shape_conn _ _ _ _ Hs E') as (conn & E & L & C).
    destruct (ty_conn _ Ht c conn E) as [? Hch ? ?]. destruct (sh_buffers _ _ Hs c conn' E').
    split; [congruence| |done|done]. rewrite C.
    by rewrite (shape_chan_part ch_readCallback (λ s, s.1.1.1.2) w w') by done.
  - intros c ch' E'. destruct (shape_chan _ _ _ _ Hs E') as (ch & E & Ev).
    destruct (ty_chan _ Ht c ch E). injection Ev as V1 V2 V3 V4 V5 V6 V7.
    split; [congruence|..]; rewrite ?V4, ?V5, ?V6, ?V7; by eapply shape_callback.
  - intros lp2 fd c ->%Hlp E. rewrite E3 in E.
    rewrite (shape_chan_part ch_fd (λ s, s.1.1.1.1.1.2) w w') by done. by eapply ty_registered.
  - intros lp2 fd ev c ->%Hlp E. rewrite E2 in E. rewrite E3.
    rewrite (shape_chan_part ch_index (λ s, s.1.1.1.1.2) w w') by done.
    eapply (ty_interest _ Ht lp); [done|]. eapply lookup_weaken; [exact E|apply Hk1].
  - intros lp2 ->%Hlp. rewrite E4, E5. eapply Forall_impl; [by apply (ty_functors _ Ht)|].
    intros f. by apply shape_functor.
  - intros name c. rewrite S5. intros E. apply (shape_live_conn w w'); [done|]. by eapply ty_server.
  - intros c. rewrite (sh_next _ _ Hs). intros [Hc Hh]%(ty_fresh _ Ht). split.
    + pose proof (sh_conn _ _ Hs c) as E. rewrite Hc in E. by destruct (w_conns w' !! c).
    + pose proof (sh_chan _ _ Hs c) as E. rewrite Hh in E. by destruct (w_chans w' !! c).
  - rewrite S1, S2, S3, S4, S7, (sh_gs _ _ Hs). apply Ht.
  - rewrite S6. pose proof (ty_count _ Ht). lia.
Qed.
Lemma later_shape w w' : same_shape w w' → later w w'.
Proof.
  intros Hs. split.
  - intros c conn E. pose proof (shape_channel _ _ c Hs) as Hc. rewrite E in Hc.
    destruct (w_conns w' !! c) as [conn'|]; [|done]. injection Hc as Hc. eauto.
  - intros c [ch E]. pose proof (sh_chan _ _ Hs c) as Hc. rewrite E in Hc. unfold live_chan.
    by destruct (w_chans w' !! c).
  - pose proof (sh_loop _ _ Hs) as Hl. destruct (w_loops w' !! l), (w_loops w !! l); simpl in *; try done.
    injection Hl as _ _ _ _ E. congruence.
  - pose proof (sh_server _ _ Hs) as Hsv. injection Hsv as _ _ _ _ _ _ _ E. exact E.
Qed.
End typing.

(** ** Type-safe programs *)

Section judgement.
Context {K : Type} `{SafeLaws K} (l : loc).
Abbreviation W := (World K).
Implicit Types (c : loc) (w : W) (conn : TcpConnection) (ch : Channel) (lp : EventLoop).

(** From the typed state [w], [m] reaches no undefined behaviour; if it
    returns, it leaves a later typed state, of which [Q] holds. *)
Definition safely {A} (m : M W A) (Q : A → W → Prop) w : Prop :=
  typed l w → wp harmless m (λ a w', typed l w' ∧ later l w w' ∧ Q a w') w.

Lemma safely_bind {A B} (m : M W A) (k : A → M W B) Q R w :
  safely m Q w →
  (∀ a w', typed l w' → later l w w' → Q a w' → safely (k a) R w') → safely (m ≫= k) R w.
Proof.
  intros Hm Hk Ht. apply wp_bind. eapply wp_post; [by apply Hm|]. intros a w' (Ht' & Hl & HQ).
  eapply wp_post; [by apply Hk|]. intros b w'' (? & ? & ?). split_and!; [done| |done]. by etrans.
Qed.
Lemma safely_post {A} (m : M W A) Q R w :
  safely m Q w → (∀ a w', typed l w' → later l w w' → Q a w' → R a w') → safely m R w.
Proof.
  intros Hm HR Ht. eapply wp_post; [by apply Hm|]. intros a w' (? & ? & ?). split_and!; auto.
Qed.
Lemma safely_ret {A} (a : A) Q w : Q a w → safely (mret a) Q w.
Proof. intros HQ Ht. apply wp_ret. by split_and!. Qed.
Lemma safely_gets {A} (f : W → A) Q w : (typed l w → Q (f w) w) → safely (gets f) Q w.
Proof. intros HQ Ht. apply wp_gets. by split_and!; auto. Qed.
Lemma safely_fail {A} e Q w : harmless e → safely (failM (A := A) e) Q w.
Proof. intros He Ht. by apply wp_fail. Qed.
Lemma safely_assert b (Q : unit → W → Prop) w : (b = true → Q tt w) → safely (assertM b) Q w.
Proof. intros HQ Ht. destruct b; [|done]. apply wp_assert; [done|]. by split_and!; auto. Qed.
Lemma safely_lift {A} (P : A → Prop) (o : outcome A) Q w :
  sound P o → (∀ a, P a → Q a w) → safely (lift o) Q w.
Proof. intros Ho HQ Ht. destruct o as [a|e]; [|done]. apply wp_ok with a w; [done|]. by split_and!; auto. Qed.
Lemma safely_when (b : bool) m (Q : unit → W → Prop) w :
  (b = true → safely m Q w) → (b = false → Q tt w) → safely (when b m) Q w.
Proof. destruct b; intros Hb Hnb; [by apply Hb|by apply safely_ret, Hnb]. Qed.
Lemma safely_ifM {A} mb (m1 m2 : M W A) P Q w :
  safely mb P w →
  (∀ (b : bool) w', typed l w' → later l w w' → P b w' → safely (if b then m1 else m2) Q w') →
  safely (ifM mb m1 m2) Q w.
Proof. intros Hb Hm. eapply safely_bind; [exact Hb|]. intros b w' ? ? ?. specialize (Hm b w'). destruct b; by apply Hm. Qed.
(** a loop with an invariant on what is left to do *)
Lemma safely_forM {A} (xs : list A) (f : A → M W unit) (I : list A → W → Prop) w :
  I xs w → (∀ x xs w, typed l w → I (x :: xs) w → safely (f x) (λ _, I xs) w) →
  safely (forM xs f) (λ _, I []) w.
Proof.
  intros Hw Hf. revert w Hw. induction xs as [|x xs IH]; intros w Hw Ht; [by apply safely_ret|].
  eapply (safely_bind (f x) (λ _, forM xs f)); [by apply Hf| |done]. intros [] w' _ _ Hw'. by apply IH.
Qed.
(** what [m] leaves alone besides *)
Lemma safely_preserves {A} (R : relation W) (m : M W A) Q w :
  safely m Q w → preserves R m → safely m (λ a w', Q a w' ∧ R w w') w.
Proof.
  intros Hm HR Ht. specialize (Hm Ht). unfold wp in *. destruct (m w) as [[a w']|e] eqn:E; [|done].
  destruct Hm as (? & ? & ?). split_and!; [done|done|done|]. by eapply HR.
Qed.

(** a change of the state that keeps its shape *)
Lemma safely_shape (f : W → W) (Q : unit → W → Prop) w :
  (typed l w → same_shape l w (f w)) → Q tt (f w) → safely (modify f) Q w.
Proof.
  intros Hs HQ Ht. apply wp_modify. specialize (Hs Ht).
  split_and!; [by eapply typed_shape|by apply later_shape|done].
Qed.
Lemma shape_refl w : typed l w → same_shape l w w.
Proof.
  intros Ht. split; try done. intros c conn E. destruct (ty_conn _ _ Ht c conn E). by split.
Qed.

Lemma safely_sys {A} (f : K → A * K) (Q : A → W → Prop) w :
  meek accepts_left (w_kern w) (f (w_kern w)).2 →
  Q (f (w_kern w)).1 (set_w_kern (f (w_kern w)).2 w) → safely (sys f) Q w.
Proof.
  intros Hm HQ Ht. apply wp_sys.
  assert (Hs : same_shape l w (set_w_kern (f (w_kern w)).2 w)) by (by destruct (shape_refl w Ht)).
  split_and!; [by eapply typed_shape|by apply later_shape|done].
Qed.

(** the accesses; what an object says of itself comes from the typing *)
Lemma safely_get_conn c (Q : TcpConnection → W → Prop) w :
  live_conn c w → (∀ conn, w_conns w !! c = Some conn → conn_typed l c conn w → Q conn w) →
  safely (get_conn c) Q w.
Proof.
  intros [conn E] HQ Ht. eapply wp_get_conn; [done|]. split_and!; [done|done|]. apply HQ; [done|].
  by apply Ht.
Qed.
Lemma safely_get_chan c (Q : Channel → W → Prop) w :
  live_chan c w → (∀ ch, w_chans w !! c = Some ch → chan_typed l c ch w → Q ch w) →
  safely (get_chan c) Q w.
Proof.
  intros [ch E] HQ Ht. eapply wp_get_chan; [done|]. split_and!; [done|done|]. apply HQ; [done|].
  by apply Ht.
Qed.
Lemma safely_get_loop (Q : EventLoop → W → Prop) w :
  (∀ lp, w_loops w !! l = Some lp → el_threadId lp = w_tid w → Q lp w) → safely (get_loop l) Q w.
Proof.
  intros HQ Ht. destruct (ty_loop _ _ Ht) as (lp & E & Et). eapply wp_get_loop; [done|].
  split_and!; [done|done|]. by apply HQ.
Qed.

Lemma safely_mod_conn c f (Q : unit → W → Prop) w :
  live_conn c w →
  (∀ conn, conn_shape (f conn) = conn_shape conn ∧
    (rb_inv (tc_inputBuffer conn) → rb_inv (tc_inputBuffer (f conn))) ∧
    (rb_inv (tc_outputBuffer conn) → rb_inv (tc_outputBuffer (f conn)))) →
  (∀ conn, w_conns w !! c = Some conn → Q tt (set_w_conns (<[c := f conn]> (w_conns w)) w)) →
  safely (mod_conn c f) Q w.
Proof.
  intros [conn E] Hf HQ Ht. eapply wp_mod_conn; [done|]. destruct (Hf conn) as (Hs & Hi & Ho).
  destruct (ty_conn _ _ Ht c conn E) as [_ _ Hin Hout].
  assert (Hsh : same_shape l w (set_w_conns (<[c := f conn]> (w_conns w)) w)).
  { destruct (shape_refl w Ht) as [Hsc Hb ???????]. split; try done; rs.
    - intros c'. destruct (decide (c' = c)) as [->|].
      + rewrite lookup_insert_eq, E. simpl. by rewrite Hs.
      + by rewrite lookup_insert_ne.
    - intros c' conn'. destruct (decide (c' = c)) as [->|].
      + rewrite lookup_insert_eq. intros [= <-]. auto.
      + rewrite lookup_insert_ne by done. apply Hb. }
  split_and!; [by eapply typed_shape|by apply later_shape|by apply HQ].
Qed.
Lemma safely_mod_chan c f (Q : unit → W → Prop) w :
  live_chan c w → (∀ ch, chan_shape (f ch) = chan_shape ch) →
  (∀ ch, w_chans w !! c = Some ch → Q tt (set_w_chans (<[c := f ch]> (w_chans w)) w)) →
  safely (mod_chan c f) Q w.
Proof.
  intros [ch E] Hf HQ Ht. eapply wp_mod_chan; [done|].
  assert (Hsh : same_shape l w (set_w_chans (<[c := f ch]> (w_chans w)) w)).
  { destruct (shape_refl w Ht). split; try done; rs.
    intros c'. destruct (decide (c' = c)) as [->|]; [|by rewrite lookup_insert_ne].
    rewrite lookup_insert_eq, E. simpl. by rewrite Hf. }
  split_and!; [by eapply typed_shape|by apply later_shape|by apply HQ].
Qed.
Lemma safely_mod_loop f (Q : unit → W → Prop) w :
  (∀ lp, loop_shape (f lp) = loop_shape lp) →
  (∀ lp, w_loops w !! l = Some lp → Q tt (set_w_loops (<[l := f lp]> (w_loops w)) w)) →
  safely (mod_loop l f) Q w.
Proof.
  intros Hf HQ Ht. destruct (ty_loop _ _ Ht) as (lp & E & _). eapply wp_mod_loop; [done|].
  assert (Hsh : same_shape l w (set_w_loops (<[l := f lp]> (w_loops w)) w)).
  { destruct (shape_refl w Ht). split; try done; rs. rewrite lookup_insert_eq, E. simpl. by rewrite Hf. }
  split_and!; [by eapply typed_shape|by apply later_shape|by apply HQ].
Qed.
Lemma safely_mod_server f (Q : unit → W → Prop) w :
  (∀ s, server_shape (f s) = server_shape s) → Q tt (set_w_server (f (w_server w)) w) →
  safely (mod_server f) Q w.
Proof. intros Hf. apply safely_shape. intros Ht. destruct (shape_refl w Ht). split; try done; apply Hf. Qed.
Lemma safely_mod_gs f (Q : unit → W → Prop) w :
  (∀ g, gs_loop (f g) = gs_loop g) → Q tt (set_w_gs (f (w_gs w)) w) → safely (mod_gs f) Q w.
Proof. intros Hf. apply safely_shape. intros Ht. destruct (shape_refl w Ht). split; try done; apply Hf. Qed.
End judgement.

(** The tactic [safe_tac] runs a program under the typing. The database
    [safety] holds what each operation promises. *)
Create HintDb safety.
Abbreviation safe l m w := (safely l m (λ _ _, True) w).

Section binds.
Context {K : Type} `{SafeLaws K} (l : loc).
Abbreviation W := (World K).
Implicit Types (c : loc) (w : W).

Lemma bind_get_conn {A} c (k : TcpConnection → M W A) Q w :
  live_conn c w →
  (∀ conn, tc_loop conn = l → live_chan (tc_channel conn) w → rb_inv (tc_inputBuffer conn) →
    rb_inv (tc_outputBuffer conn) → safely l (k conn) Q w) →
  safely l (get_conn c ≫= k) Q w.
Proof.
  intros Hc Hk Ht. apply wp_bind. destruct Hc as [conn E]. eapply wp_get_conn; [done|].
  destruct (ty_conn _ _ Ht c conn E). apply Hk; try done. by eapply typed_live_chan.
Qed.
Lemma bind_get_chan {A} c (k : Channel → M W A) Q w :
  live_chan c w → (∀ ch, ch_loop ch = l → safely l (k ch) Q w) → safely l (get_chan c ≫= k) Q w.
Proof.
  intros Hc Hk Ht. apply wp_bind. destruct Hc as [ch E]. eapply wp_get_chan; [done|].
  destruct (ty_chan _ _ Ht c ch E). by apply Hk.
Qed.
Lemma bind_get_loop {A} (k : EventLoop → M W A) Q w :
  (∀ lp, w_loops w !! l = Some lp → el_threadId lp = w_tid w → safely l (k lp) Q w) →
  safely l (get_loop l ≫= k) Q w.
Proof.
  intros Hk Ht. apply wp_bind. destruct (ty_loop _ _ Ht) as (lp & E & Et).
  eapply wp_get_loop; [done|]. by apply (Hk lp).
Qed.
Lemma bind_gets {A B} (f : W → B) (k : B → M W A) Q w :
  safely l (k (f w)) Q w → safely l (gets f ≫= k) Q w.
Proof. done. Qed.
(** the loops that the gateway and the server know are [l] *)
Lemma bind_gets_gs {A} (k : GatewayServer → M W A) Q w :
  (∀ g, g = w_gs w → gs_loop g = l → safely l (k g) Q w) → safely l (gets w_gs ≫= k) Q w.
Proof. intros Hk Ht. apply wp_bind, wp_gets. apply Hk; [done| |done]. apply Ht. Qed.
Lemma bind_gets_server {A} (k : TcpServer → M W A) Q w :
  (∀ s, s = w_server w → ts_loop s = l → ac_loop (ts_acceptor s) = l →
    tp_baseLoop (ts_threadPool s) = l → tp_loops (ts_threadPool s) = [] → safely l (k s) Q w) →
  safely l (gets w_server ≫= k) Q w.
Proof.
  intros Hk Ht. destruct (ty_home _ _ Ht) as (? & ? & ? & ? & _). apply wp_bind, wp_gets.
  by apply Hk.
Qed.
Lemma bind_GetConnection {A} id (k : option loc → M W A) Q w :
  (∀ o, (∀ c, o = Some c → live_conn c w) → safely l (k o) Q w) →
  safely l (ConnectionManager_GetConnection id ≫= k) Q w.
Proof.
  intros Hk Ht. apply wp_bind, wp_gets. apply Hk; [|done]. intros c E.
  apply bind_Some in E as (c' & _ & E). unfold lock in E.
  destruct (w_conns w !! c') eqn:Ec; [|done]. injection E as <-. by eexists.
Qed.
Lemma bind_lift {A B} (P : B → Prop) (o : outcome B) (k : B → M W A) Q w :
  sound P o → (∀ b, P b → safely l (k b) Q w) → safely l (lift o ≫= k) Q w.
Proof.
  intros Ho Hk Ht. destruct o as [b|e]; [|done]. apply wp_bind, wp_ok with b w; [done|]. by apply Hk.
Qed.
Lemma bind_assert {A} b (k : unit → M W A) Q w :
  (b = true → safely l (k tt) Q w) → safely l (assertM b ≫= k) Q w.
Proof. intros Hk Ht. destruct b; [|done]. apply wp_bind, wp_assert; [done|]. by apply Hk. Qed.
Lemma safe_true {A} (m : M W A) Q w : safely l m Q w → safe l m w.
Proof. intros Hm. by eapply safely_post. Qed.
End binds.

Ltac transport Hl :=
  repeat match goal with
  | Hc : live_conn _ ?w |- _ => apply (later_live_conn _ _ _ _ Hl) in Hc
  | Hc : live_chan _ ?w |- _ => apply (later_live_chan _ _ _ _ Hl) in Hc
  | Hc : accept_live ?w |- _ => apply (later_accept_live _ _ _ Hl) in Hc
  end.
Ltac safe_next :=
  let w := fresh "w" in let Ht := fresh "Ht" in let Hl := fresh "Hlat" in
  intros ? w Ht Hl ?; transport Hl; clear Hl.
Ltac meek :=
  first [ apply write_meek | apply readv_meek | apply read8_meek | apply shutdown_meek
        | apply so_error_meek | apply close_meek | apply open_null_meek | apply getsockname_meek
        | apply setsockopt_meek | apply now_meek | apply wait_meek | apply eventfd_meek
        | apply socket_meek | apply bind_meek | apply listen_meek | apply timerfd_create_meek
        | apply timerfd_settime_meek
        | match goal with |- meek _ _ (sys_accept ?fd ?k).2 => apply (accept_counts fd k) end ].

(** a program at the end, or at the head of a sequence *)
Ltac safe_atom :=
  lazymatch goal with
  | |- safely _ (mret _) _ _ => apply safely_ret
  | |- safely _ (gets _) _ _ => apply safely_gets; intros ?
  | |- safely _ (failM _) _ _ => by apply safely_fail
  | |- safely _ (assertM _) _ _ => apply safely_assert; intros ?
  | |- safely _ (when _ _) _ _ => apply safely_when; intros ?
  | |- safely _ (sys _) _ _ => apply safely_sys; [meek|]
  | |- safely _ (get_conn _) _ _ => apply safely_get_conn; [eauto with safety|intros]
  | |- safely _ (get_chan _) _ _ => apply safely_get_chan; [eauto with safety|intros]
  | |- safely _ (get_loop _) _ _ => apply safely_get_loop; intros
  | |- safely _ (mod_conn _ _) _ _ =>
      apply safely_mod_conn; [eauto with safety|intros []; by split_and!|intros]
  | |- safely _ (mod_chan _ _) _ _ =>
      apply safely_mod_chan; [eauto with safety|by intros []|intros]
  | |- safely _ (mod_loop _ _) _ _ => apply safely_mod_loop; [by intros []|intros]
  | |- safely _ (mod_server _) _ _ => apply safely_mod_server; [by intros []|]
  | |- safely _ (mod_gs _) _ _ => apply safely_mod_gs; [by intros []|]
  | |- safely _ (modify _) _ _ => apply safely_shape; [let Ht := fresh "Ht" in intros Ht; by destruct (shape_refl _ _ Ht)|]
  end.
Ltac safe_step :=
  cbv zeta;
  lazymatch goal with
  | |- safely _ (mbind _ (get_conn _)) _ _ =>
      apply bind_get_conn; [eauto with safety|];
      let E := fresh "Eloop" in intros ? E ? ? ?; rewrite ?E
  | |- safely _ (mbind _ (get_chan _)) _ _ =>
      apply bind_get_chan; [eauto with safety|]; let E := fresh "Eloop" in intros ? E; rewrite ?E
  | |- safely _ (mbind _ (get_loop _)) _ _ => apply bind_get_loop; intros ? ? ?
  | |- safely _ (mbind _ (gets w_gs)) _ _ =>
      apply bind_gets_gs; let E := fresh "Eloop" in intros ? _ E; rewrite ?E
  | |- safely _ (mbind _ (gets w_server)) _ _ =>
      apply bind_gets_server; let E := fresh "Eloop" in let E' := fresh "Eloop" in
      intros ? _ E E' ? ?; rewrite ?E, ?E'
  | |- safely _ (mbind _ (gets _)) _ _ => apply bind_gets
  | |- safely _ (mbind _ (assertM _)) _ _ => apply bind_assert; intros ?
  | |- safely _ (mbind _ _) _ _ =>
      eapply (safely_bind _ _ _ (λ _ _, True)); [|safe_next]
  | |- safely _ (ifM _ _ _) _ _ =>
      eapply (safely_ifM _ _ _ _ (λ _ _, True)); [|safe_next]
  | |- safely _ (match ?x with _ => _ end) _ _ => destruct x eqn:?
  | |- safely _ ?m _ _ =>
      first [ solve [eauto with safety] | safe_atom | let f := head_of m in progress unfold f ]
  | |- True => exact I
  end.
Ltac safe_tac := repeat safe_step.
