(* ===== verification/Safety.v ===== *)
(** * The operations of the reactor are type safe

    With a single thread, the operations of the event loop, of channels, of
    connections and of the gateway keep the store typed ([Typing]): whatever
    the peers send and the kernel answers, none reaches undefined behaviour. *)
From S2P Require Import Prelude RingBuffer Protocol World Reactor Sockets Connection.
From S2P Require Import Server Gateway Registry GatewayFacts Typing.

(** ** The event loop *)

Section loop.
Context {K : Type} `{SafeLaws K} (l : loc).
Abbreviation W := (World K).
Implicit Types (c : loc) (w : W) (lp : EventLoop).

(** a change of the loop's queues *)
Lemma typed_queues w lp lp' :
  typed l w → w_loops w !! l = Some lp → el_threadId lp' = el_threadId lp →
  el_poller lp' = el_poller lp →
  Forall (functor_typed w) (el_pendingFunctors lp' ++ el_running lp') →
  typed l (set_w_loops (<[l := lp']> (w_loops w)) w).
Proof.
  intros Ht E Eth Ep Hf. assert (Hlp : ∀ x, <[l := lp']> (w_loops w) !! l = Some x → x = lp')
    by (intros x; rewrite lookup_insert_eq; by intros [= <-]).
  destruct Ht as [Hl Hc Hh Hr Hi _ Hs Hfr Hhome Hn]. split; rs; try done.
  - exists lp'. rewrite lookup_insert_eq. split; [done|]. destruct Hl as (x & Ex & <-).
    rewrite E in Ex. injection Ex as <-. done.
  - intros c conn Ec. by destruct (Hc c conn Ec).
  - intros c ch Ec. by destruct (Hh c ch Ec).
  - intros x fd c ->%Hlp. rewrite Ep. by apply Hr.
  - intros x fd ev c ->%Hlp. rewrite Ep. by apply Hi.
  - intros x ->%Hlp. done.
Qed.

Lemma safely_push f (Q : unit → W → Prop) w :
  functor_typed w f →
  (∀ lp, Q tt (set_w_loops (<[l := set_el_pendingFunctors (el_pendingFunctors lp ++ [f]) lp]> (w_loops w)) w)) →
  safely l (mod_loop l (λ lp, set_el_pendingFunctors (el_pendingFunctors lp ++ [f]) lp)) Q w.
Proof.
  intros Hf HQ Ht. destruct (ty_loop _ _ Ht) as (lp & E & _). eapply wp_mod_loop; [done|].
  pose proof (ty_functors _ _ Ht lp E) as Hfs. split_and!; [| |apply HQ].
  - apply (typed_queues w lp); try done. rs. rewrite !Forall_app in *. naive_solver.
  - split; rs; [eauto|done| |done]. by rewrite lookup_insert_eq, E.
Qed.

Lemma safe_Wakeup w : safe l (EventLoop_Wakeup l) w.
Proof. safe_tac. Qed.
Lemma safe_IsInLoopThread w :
  safely l (EventLoop_IsInLoopThread l) (λ b w', b = true ∧ w' = w) w.
Proof.
  unfold EventLoop_IsInLoopThread. apply bind_get_loop. intros lp E Et. apply bind_gets, safely_ret.
  rewrite Et, Z.eqb_refl. done.
Qed.
Lemma safe_AssertInLoopThread w : safe l (EventLoop_AssertInLoopThread l) w.
Proof.
  unfold EventLoop_AssertInLoopThread. eapply safely_ifM; [apply safe_IsInLoopThread|].
  intros b w' _ _ [-> _]. by apply safely_ret.
Qed.
Lemma safe_QueueInLoop f w : functor_typed w f → safe l (EventLoop_QueueInLoop l f) w.
Proof.
  intros Hf. unfold EventLoop_QueueInLoop.
  eapply (safely_bind _ _ _ (λ _ _, True)); [by apply safely_push|]. intros [] w1 _ _ _.
  eapply safely_bind; [apply safe_IsInLoopThread|]. intros b w2 _ _ _. apply bind_get_loop.
  intros lp _ _. destruct (_ || _); [apply safe_Wakeup|by apply safely_ret].
Qed.
(** there is one thread: the functor runs at once *)
Lemma safely_RunInLoop f body (Q : unit → W → Prop) w :
  safely l body Q w → safely l (EventLoop_RunInLoop l f body) Q w.
Proof.
  intros Hb. unfold EventLoop_RunInLoop. eapply safely_ifM; [apply safe_IsInLoopThread|].
  by intros b w' _ _ [-> ->].
Qed.
Lemma safe_HandleRead_wakeup w : safe l (EventLoop_HandleRead l) w.
Proof. safe_tac. Qed.
Lemma safe_now w : safe l Timestamp_Now w.
Proof. safe_tac. Qed.
Lemma safe_now_ms w : safe l now_ms w.
Proof. unfold now_ms. safe_tac. Qed.
End loop.

#[export] Hint Extern 2 (safely _ (EventLoop_RunInLoop _ _ _) _ _) =>
  apply safely_RunInLoop; safe_tac : safety.
#[export] Hint Resolve safe_Wakeup safe_AssertInLoopThread safe_QueueInLoop safe_HandleRead_wakeup
  safe_now safe_now_ms : safety.

(** ** Channels and the poller *)

Section poller.
Context {K : Type} `{SafeLaws K} (l : loc).
Abbreviation W := (World K).
Implicit Types (c : loc) (w : W) (lp : EventLoop) (ch : Channel).

(** The channel map, a channel's index and the kernel change together. *)
Lemma typed_store_update k lp (m : gmap Z loc) c ch ch' w :
  typed l w → w_loops w !! l = Some lp → w_chans w !! c = Some ch →
  chan_shape (set_ch_index 0 ch') = chan_shape (set_ch_index 0 ch) →
  accepts_left k ≤ accepts_left (w_kern w) →
  (∀ fd c', m !! fd = Some c' → ch_fd <$> w_chans w !! c' = Some fd) →
  (∀ fd ev c', interest k (po_epollfd (el_poller lp)) !! fd = Some (ev, c') →
    m !! fd = Some c' ∧ ch_index <$> <[c := ch']> (w_chans w) !! c' = Some 1) →
  typed l (store_update k l lp m c ch' w) ∧ later l w (store_update k l lp m c ch' w).
Proof.
  intros Ht El Ec Es Hk Hm Hi. injection Es as S1 S2 S3 S4 S5 S6.
  assert (Hp : ∀ (A : Type) (f : Channel → A) c', f ch' = f ch →
    f <$> <[c := ch']> (w_chans w) !! c' = f <$> w_chans w !! c').
  { intros A f c' Ef. destruct (decide (c' = c)) as [->|]; [|by rewrite lookup_insert_ne].
    rewrite lookup_insert_eq, Ec. simpl. by rewrite Ef. }
  destruct Ht as [Hl Hc Hh Hr _ Hf Hs Hfr Hhome Hn]. unfold store_update. split.
  2:{ split; rs; [eauto| |by rewrite lookup_insert_eq, El|done]. intros c' Hlc. unfold live_chan. rs.
      destruct (decide (c' = c)) as [->|];
        [rewrite lookup_insert_eq; eauto|by rewrite lookup_insert_ne]. }
  split; rs; try done.
  - rewrite lookup_insert_eq. destruct Hl as (x & Ex & ?). exists (set_channels (λ _, m) lp).
    split; [done|]. unfold set_channels. rs. congruence.
  - intros c' conn E. destruct (Hc c' conn E) as [? Hch ? ?]. split; try done. rs.
    by rewrite (Hp _ ch_readCallback).
  - intros c' x [[<- <-]|[_ E]]%lookup_insert_Some.
    + destruct (Hh c ch Ec). split; [congruence|..]; rewrite ?S3, ?S4, ?S5, ?S6; done.
    + by destruct (Hh c' x E).
  - intros x fd c'. rewrite lookup_insert_eq. intros [= <-] E. rewrite (Hp _ ch_fd) by done.
    by apply Hm.
  - intros x fd ev c'. rewrite lookup_insert_eq. intros [= <-] E. by apply (Hi fd ev).
  - intros x. rewrite lookup_insert_eq. intros [= <-]. exact (Hf lp El).
  - intros c' Hc'. destruct (Hfr c' Hc') as [? Hn']. split; [done|].
    rewrite lookup_insert_ne; [done|]. intros <-. by rewrite Ec in Hn'.
  - lia.
Qed.

Lemma wp_assume b (Q : unit → W → Prop) w : (b = true → Q tt w) → wp harmless (assertM b) Q w.
Proof. destruct b; [|done]. intros HQ. apply wp_assert; auto. Qed.
Lemma wp_Poller_Update op c lp ch (Q : unit → W → Prop) w :
  w_loops w !! l = Some lp → w_chans w !! c = Some ch →
  let r := sys_epoll_ctl (po_epollfd (el_poller lp)) op (ch_fd ch) (Z.lor (ch_events ch) EPOLLET) c
             (w_kern w) in
  (0 ≤ r.1 ∨ op = EPOLL_CTL_DEL → Q tt (set_w_kern r.2 w)) →
  wp harmless (Poller_Update l op c) Q w.
Proof.
  intros El Ec r HQ. unfold Poller_Update. run. fold r.
  destruct (Z.ltb_spec r.1 0); [|apply HQ; by left].
  destruct (Z.eqb_spec op EPOLL_CTL_DEL); [apply HQ; by right|done].
Qed.

(** epoll watches a descriptor whose channel is in the map *)
Lemma typed_watched k lp fd c ch ch' ev w :
  typed l w → w_loops w !! l = Some lp → w_chans w !! c = Some ch →
  interest k (po_epollfd (el_poller lp)) =
    <[fd := (ev, c)]> (interest (w_kern w) (po_epollfd (el_poller lp))) →
  ch_fd ch = fd → ch_index ch' = 1 →
  ∀ fd' ev' c', interest k (po_epollfd (el_poller lp)) !! fd' = Some (ev', c') →
    <[fd := c]> (po_channels (el_poller lp)) !! fd' = Some c' ∧
    ch_index <$> <[c := ch']> (w_chans w) !! c' = Some 1.
Proof.
  intros Ht El Ec Ek Efd Hi fd' ev' c'. rewrite Ek.
  intros [[<- [= _ <-]]|[Hne E]]%lookup_insert_Some.
  - rewrite !lookup_insert_eq. simpl. by rewrite Hi.
  - destruct (ty_interest _ _ Ht lp _ _ _ El E) as [Em Ex].
    rewrite lookup_insert_ne by done. split; [done|].
    destruct (decide (c' = c)) as [->|]; [rewrite lookup_insert_eq; simpl; by rewrite Hi|].
    by rewrite lookup_insert_ne.
Qed.
(** epoll forgets a descriptor *)
Lemma typed_unwatched k (m : gmap Z loc) lp fd c ch ch' w :
  typed l w → w_loops w !! l = Some lp → w_chans w !! c = Some ch →
  interest k (po_epollfd (el_poller lp)) ⊆
    delete fd (interest (w_kern w) (po_epollfd (el_poller lp))) →
  ch_fd ch = fd → (∀ fd', fd' ≠ fd → m !! fd' = po_channels (el_poller lp) !! fd') →
  ∀ fd' ev' c', interest k (po_epollfd (el_poller lp)) !! fd' = Some (ev', c') →
    m !! fd' = Some c' ∧ ch_index <$> <[c := ch']> (w_chans w) !! c' = Some 1.
Proof.
  intros Ht El Ec Hk Efd Hm fd' ev' c' E. eapply lookup_weaken in E; [|exact Hk].
  apply lookup_delete_Some in E as [Hne E]. destruct (ty_interest _ _ Ht lp _ _ _ El E) as [Em Ex].
  rewrite Hm by done. split; [done|]. rewrite lookup_insert_ne; [done|]. intros <-.
  pose proof (ty_registered _ _ Ht lp _ _ El Em) as Er. rewrite Ec in Er. simpl in Er. congruence.
Qed.

(** what a call of [epoll_ctl] for the channel [c] leaves, when it is watched
    from then on *)
Lemma typed_ctl_watch op lp c ch w :
  typed l w → w_loops w !! l = Some lp → w_chans w !! c = Some ch →
  op = EPOLL_CTL_ADD ∨ op = EPOLL_CTL_MOD →
  let r := sys_epoll_ctl (po_epollfd (el_poller lp)) op (ch_fd ch) (Z.lor (ch_events ch) EPOLLET)
             c (w_kern w) in
  0 ≤ r.1 ∨ op = EPOLL_CTL_DEL →
  let w' := store_update r.2 l lp (<[ch_fd ch := c]> (po_channels (el_poller lp))) c
              (set_ch_index 1 ch) w in
  typed l w' ∧ later l w w'.
Proof.
  intros Ht El Ec Hop r Hr. destruct Hr as [Hr| ->]; [|by destruct Hop].
  apply (typed_store_update r.2 lp _ c ch); try done; [apply ctl_counts| |].
  - intros fd c' [[<- <-]|[_ E]]%lookup_insert_Some; [by rewrite Ec|by eapply ty_registered].
  - eapply typed_watched; try done. unfold r. rewrite epoll_ctl_sets by done. unfold upd.
    by rewrite bool_decide_true.
Qed.

Lemma typed_eq w w1 w2 : typed l w1 ∧ later l w w1 → w2 = w1 → typed l w2 ∧ later l w w2.
Proof. by intros ? ->. Qed.

Lemma safe_Poller_UpdateChannel c w : live_chan c w → safe l (Poller_UpdateChannel l c) w.
Proof.
  intros [ch Ec] Ht. destruct (ty_loop _ _ Ht) as (lp & El & Eth).
  cut (wp harmless (Poller_UpdateChannel l c) (λ _ w', typed l w' ∧ later l w w') w).
  { intros Hw. eapply wp_post; [exact Hw|]. naive_solver. }
  pose proof (typed_ctl_watch EPOLL_CTL_ADD lp c ch w Ht El Ec ltac:(by left)) as Hadd.
  pose proof (typed_ctl_watch EPOLL_CTL_MOD lp c ch w Ht El Ec ltac:(by right)) as Hmod.
  unfold Poller_UpdateChannel. eapply wp_bind, assert_in_loop_spec; [done|done|]. run.
  destruct (_ || _) eqn:Ei.
  - destruct (ch_index ch =? -1).
    + apply wp_bind, wp_bind, wp_assume. intros _. run.
      eapply (wp_Poller_Update _ c (set_channels <[ch_fd ch := c]> lp)); [lookup_now|lookup_now|].
      intros Hr. eapply typed_eq; [by apply Hadd|]. unfold store_update, set_channels. by store_eq.
    + apply wp_bind, wp_bind, wp_assume. intros _. apply wp_assume. intros Hm%bool_decide_eq_true.
      run. eapply (wp_Poller_Update _ c lp); [lookup_now|lookup_now|]. rs. intros Hr.
      specialize (Hadd Hr). rewrite store_update_same in Hadd by done. exact Hadd.
  - apply wp_bind, wp_assume. intros _. apply wp_bind, wp_assume. intros Hm%bool_decide_eq_true.
    apply wp_bind, wp_assume. intros Hi%Z.eqb_eq. destruct (IsNoneEvent ch).
    + apply wp_bind. eapply (wp_Poller_Update _ c lp); [done|done|]. rs. intros _. run.
      set (k := (sys_epoll_ctl _ _ _ _ _ _).2).
      pose proof (typed_store_update k lp (po_channels (el_poller lp)) c ch (set_ch_index 2 ch) w
        Ht El Ec eq_refl ltac:(apply ctl_counts) ltac:(by intros; eapply ty_registered)) as Hd.
      rewrite <- (insert_id (po_channels (el_poller lp)) (ch_fd ch) c), store_update_same in Hd by done.
      apply Hd. rewrite insert_id by done. eapply typed_unwatched; try done. apply del_deletes.
    + eapply (wp_Poller_Update _ c lp); [done|done|]. rs. intros Hr. specialize (Hmod Hr).
      rewrite store_update_same in Hmod by done.
      replace (set_ch_index 1 ch) with ch in Hmod
        by (destruct ch; unfold set_ch_index; simpl in *; by rewrite Hi).
      rewrite insert_id in Hmod by done. by destruct w.
Qed.

Lemma safe_Poller_RemoveChannel c w : live_chan c w → safe l (Poller_RemoveChannel l c) w.
Proof.
  intros [ch Ec] Ht. destruct (ty_loop _ _ Ht) as (lp & El & Eth).
  cut (wp harmless (Poller_RemoveChannel l c) (λ _ w', typed l w' ∧ later l w w') w).
  { intros Hw. eapply wp_post; [exact Hw|]. naive_solver. }
  set (m := delete (ch_fd ch) (po_channels (el_poller lp))).
  assert (Hreg : ∀ fd c', m !! fd = Some c' → ch_fd <$> w_chans w !! c' = Some fd)
    by (intros fd c' [_ E]%lookup_delete_Some; by eapply ty_registered).
  assert (Hother : ∀ fd, fd ≠ ch_fd ch → m !! fd = po_channels (el_poller lp) !! fd)
    by (intros; by apply lookup_delete_ne).
  unfold Poller_RemoveChannel. eapply wp_bind, assert_in_loop_spec; [done|done|].
  eapply wp_bind, wp_get_chan; [done|]. eapply wp_bind, wp_get_loop; [done|].
  apply wp_bind, wp_assume. intros _. apply wp_bind, wp_assume. intros Hm%bool_decide_eq_true.
  apply wp_bind, wp_assume. intros _. apply wp_bind, wp_assume. intros Hi.
  eapply wp_bind, wp_mod_loop; [done|]. apply wp_bind.
  destruct (Z.eqb_spec (ch_index ch) 1) as [_|Hne].
  - eapply (wp_Poller_Update _ c (set_channels (delete (ch_fd ch)) lp)); [lookup_now|done|].
    rs. intros _. run. set (k := (sys_epoll_ctl _ _ _ _ _ _).2).
    eapply typed_eq; [apply (typed_store_update k lp m c ch (set_ch_index (-1) ch) w); try done|].
    + apply ctl_counts.
    + eapply typed_unwatched; try done. apply del_deletes.
    + unfold store_update, set_channels, m. by store_eq.
  - apply wp_ret. run.
    eapply typed_eq;
      [apply (typed_store_update (w_kern w) lp m c ch (set_ch_index (-1) ch) w); try done|].
    + eapply typed_unwatched; try done. apply map_subseteq_spec. intros fd x E.
      apply lookup_delete_Some. split; [|done]. intros <-. destruct x as [ev c'].
      destruct (ty_interest _ _ Ht lp _ _ _ El E) as [Em Ex]. rewrite Hm in Em.
      injection Em as <-. rewrite Ec in Ex. simpl in Ex. congruence.
    + unfold store_update, set_channels, m. by store_eq.
Qed.
End poller.

#[export] Hint Resolve safe_Poller_UpdateChannel safe_Poller_RemoveChannel : safety.

Section channels.
Context {K : Type} `{SafeLaws K} (l : loc).
Abbreviation W := (World K).
Implicit Types (c : loc) (w : W).

Lemma safe_Channel_Update c w : live_chan c w → safe l (Channel_Update c) w.
Proof. intros Hc. safe_tac. Qed.
Lemma safe_Channel_EnableReading c w : live_chan c w → safe l (Channel_EnableReading c) w.
Proof. intros Hc. safe_tac. Qed.
Lemma safe_Channel_EnableWriting c w : live_chan c w → safe l (Channel_EnableWriting c) w.
Proof. intros Hc. safe_tac. Qed.
Lemma safe_Channel_DisableWriting c w : live_chan c w → safe l (Channel_DisableWriting c) w.
Proof. intros Hc. safe_tac. Qed.
Lemma safe_Channel_DisableAll c w : live_chan c w → safe l (Channel_DisableAll c) w.
Proof. intros Hc. safe_tac. Qed.
Lemma safe_Channel_Remove c w : live_chan c w → safe l (Channel_Remove c) w.
Proof. intros Hc. safe_tac. Qed.
End channels.

#[export] Hint Resolve safe_Channel_EnableReading safe_Channel_EnableWriting
  safe_Channel_DisableWriting safe_Channel_DisableAll safe_Channel_Remove : safety.

(** ** Connections *)

#[export] Hint Extern 1 (Z.of_nat (length _) < 2 ^ 63) =>
  rewrite ?length_take, ?length_drop; lia : safety.

Section sending.
Context {K : Type} `{SafeLaws K} (l : loc).
Abbreviation W := (World K).
Implicit Types (c : loc) (w : W).

Lemma safe_SendInLoop_buffer c rest w :
  live_conn c w → Z.of_nat (length rest) < 2 ^ 63 → safe l (SendInLoop_buffer c rest) w.
Proof.
  intros Hc Hlen. unfold SendInLoop_buffer. safe_step. safe_step. { safe_tac. }
  safe_step. eapply bind_lift; [by apply Append_sound|]. intros out Hout. safe_tac.
Qed.
End sending.

#[export] Hint Resolve safe_SendInLoop_buffer : safety.

Section connections.
Context {K : Type} `{SafeLaws K} (l : loc).
Abbreviation W := (World K).
Implicit Types (c : loc) (w : W).

Lemma safe_SendInLoop c data w :
  live_conn c w → Z.of_nat (length data) < 2 ^ 63 → safe l (TcpConnection_SendInLoop c data) w.
Proof. intros Hc Hlen. safe_tac. Qed.
Lemma safe_Send c data w :
  live_conn c w → Z.of_nat (length data) < 2 ^ 63 → safe l (TcpConnection_Send c data) w.
Proof.
  intros Hc Hlen. unfold TcpConnection_Send. safe_step. destruct (bool_decide _); [|safe_tac].
  eapply safely_ifM; [apply safe_IsInLoopThread|]. intros b w' _ _ [-> ->]. by apply safe_SendInLoop.
Qed.
(** the bytes that are sent are there, or the length is negative *)
Lemma safe_Send_ptr c data len w :
  live_conn c w → len ≤ Z.of_nat (length data) → len < 2 ^ 63 →
  safe l (TcpConnection_Send_ptr c data len) w.
Proof.
  intros Hc Hle Hlen. unfold TcpConnection_Send_ptr. safe_step; [safe_tac|].
  rewrite (proj2 (Z.leb_le _ _)) by done. apply (bind_lift _ (λ _, True)); [exact I|]. intros [] _.
  apply safe_Send; [done|]. rewrite length_take. lia.
Qed.
Lemma safe_ShutdownInLoop c w : live_conn c w → safe l (TcpConnection_ShutdownInLoop c) w.
Proof. intros Hc. safe_tac. Qed.
Lemma safe_ForceClose c w : live_conn c w → safe l (TcpConnection_ForceClose c) w.
Proof. intros Hc. safe_tac. Qed.
Lemma safe_HandleError c w : live_conn c w → safe l (TcpConnection_HandleError c) w.
Proof. intros Hc. safe_tac. Qed.

Lemma safe_HandleWrite c w : live_conn c w → safe l (TcpConnection_HandleWrite c) w.
Proof.
  intros Hc. unfold TcpConnection_HandleWrite. safe_step. safe_step; [eauto with safety|].
  safe_step. destruct (IsWriting _); [|safe_tac].
  match goal with Hb : rb_inv (tc_outputBuffer ?conn) |- _ =>
    set (out := tc_outputBuffer conn) in *; clearbody out end.
  pose proof (ReadableBytes_contents out ltac:(done)) as Hrb.
  rewrite Peek_spec by (done || lia). set (d := take _ _).
  assert (Hd : Z.of_nat (length d) = ReadableBytes out)
    by (unfold d; rewrite length_take; lia).
  apply (bind_lift _ (λ x, x = d)); [done|]. intros ? ->. clearbody d.
  eapply safely_bind.
  { apply (safely_sys _ _ (λ r _, r.1 ≤ Z.of_nat (length d))); [meek|apply write_bound]. }
  intros r w' _ Hl Hr. cbv beta in Hr. transport Hl. destruct (Z.ltb_spec 0 r.1); [|safe_tac].
  destruct (Retrieve_spec r.1 out) as (out' & E & Hout & _); [done|lia|]. rewrite E.
  apply (bind_lift _ rb_inv); [done|]. intros. safe_tac.
Qed.
End connections.

#[export] Hint Resolve safe_SendInLoop safe_Send safe_ShutdownInLoop safe_ForceClose
  safe_HandleError safe_HandleWrite : safety.

(** ** The gateway's callbacks *)

Section gateway.
Context {K : Type} `{SafeLaws K} (l : loc).
Abbreviation W := (World K).
Implicit Types (c : loc) (w : W).

Lemma safe_OnConnection c w : live_conn c w → safe l (GatewayServer_OnConnection c) w.
Proof. intros Hc. safe_tac. Qed.

Lemma safe_SendToClient id data len w :
  i32 len ≤ Z.of_nat (length data) → safe l (ConnectionManager_SendToClient id data len) w.
Proof.
  intros Hlen. unfold ConnectionManager_SendToClient. apply bind_GetConnection. intros [c|] Hc.
  - eapply (safely_bind _ _ _ (λ _ _, True)); [|safe_next; safe_tac].
    apply safe_Send_ptr; [by apply Hc|done|]. unfold i32. pose proof (Z.mod_pos_bound (len + 2 ^ 31) (2 ^ 32)). lia.
  - by apply safely_ret.
Qed.
(** the server's map and its counter *)
Lemma safely_server f (Q : unit → W → Prop) w :
  (∀ s, ts_loop (f s) = ts_loop s ∧ ts_acceptor (f s) = ts_acceptor s ∧
    ts_threadPool (f s) = ts_threadPool s) →
  (∀ name c, ts_connections (f (w_server w)) !! name = Some c →
    ts_connections (w_server w) !! name = Some c ∨ live_conn c w) →
  ts_nextConnId (f (w_server w)) + accepts_left (w_kern w) < 2 ^ 31 →
  Q tt (set_w_server (f (w_server w)) w) → safely l (mod_server f) Q w.
Proof.
  intros Hf Hconn Hn HQ Ht. destruct (Hf (w_server w)) as (E1 & E2 & E3).
  apply wp_modify. split_and!; [|split; rs; eauto; unfold accept_chan; rs; by rewrite E2|done].
  destruct Ht as [Hl Hc Hh Hr Hi Hfs Hs Hfr Hhome _]. split; rs; try done.
  - intros c conn E. by destruct (Hc c conn E).
  - intros c ch E. by destruct (Hh c ch E).
  - intros name c [E|?]%Hconn; [by eapply Hs|done].
  - by rewrite E1, E2, E3.
Qed.

Lemma safe_RemoveConnection c w : live_conn c w → safe l (TcpServer_RemoveConnection c) w.
Proof.
  intros Hc. unfold TcpServer_RemoveConnection. safe_step. apply safely_RunInLoop.
  unfold TcpServer_RemoveConnectionInLoop. apply bind_gets_server. intros s' Es Eloop' _ _ _.
  rewrite Eloop'. safe_step; [eauto with safety|]. safe_step. safe_step; [|safe_tac].
  intros Ht'. eapply safely_server; [done| |by apply Ht'|done|done]. rs.
  intros name c' [_ E]%lookup_delete_Some. by left.
Qed.
End gateway.

#[export] Hint Resolve safe_OnConnection safe_RemoveConnection : safety.
#[export] Hint Extern 2 (safely _ (OnClose _) _ _) => unfold OnClose : safety.

Section callbacks.
Context {K : Type} `{SafeLaws K} (l : loc).
Abbreviation W := (World K).
Implicit Types (c : loc) (w : W).

Lemma safe_HandleClose c w :
  live_conn c w → safe l (TcpConnection_HandleClose GatewayServer_OnConnection OnClose c) w.
Proof. intros Hc. safe_tac. Qed.
Lemma safe_ForceCloseInLoop c w :
  live_conn c w → safe l (TcpConnection_ForceCloseInLoop GatewayServer_OnConnection OnClose c) w.
Proof. intros Hc. safe_tac. Qed.
Lemma safe_ConnectEstablished c w :
  live_conn c w → safe l (TcpConnection_ConnectEstablished GatewayServer_OnConnection c) w.
Proof. intros Hc. safe_tac. Qed.
Lemma safe_ConnectDestroyed c w :
  live_conn c w → safe l (TcpConnection_ConnectDestroyed GatewayServer_OnConnection c) w.
Proof. intros Hc. safe_tac. Qed.
End callbacks.

#[export] Hint Resolve safe_HandleClose safe_ForceCloseInLoop safe_ConnectEstablished
  safe_ConnectDestroyed : safety.

(** ** Packets *)

Section packets.
Context {K : Type} `{SafeLaws K} (l : loc).
Abbreviation W := (World K).
Implicit Types (c : loc) (w : W).

(** an outcome that is a later typed state *)
Definition goes_on w : outcome W → Prop := sound (λ w', typed l w' ∧ later l w w').

Lemma goes_on_transform m w : typed l w → safe l m w → goes_on w (transform m w).
Proof.
  intros Ht Hm. specialize (Hm Ht). unfold wp, transform, goes_on in *.
  destruct (m w) as [[[] w']|e]; [|done]. by destruct Hm as (? & ? & _).
Qed.
Lemma safe_action f w : (typed l w → goes_on w (f w)) → safe l (action f) w.
Proof.
  intros Hf Ht. specialize (Hf Ht). unfold wp, action, goes_on in *. destruct (f w) as [w'|e]; [|done].
  by destruct Hf.
Qed.

(** the codec, for a callback that goes on *)
Lemma OnMessage_safe (cb : Packet → Z → W → outcome W) getConnId (forceClose : W → outcome W) (I : W → Prop)
    fuel (buf : RingBuffer) w :
  (∀ w w', later l w w' → I w → I w') →
  (∀ p id w, typed l w → I w → goes_on w (cb p id w)) →
  (∀ w, typed l w → I w → goes_on w (forceClose w)) →
  rb_inv buf → typed l w → I w →
  sound (λ r, rb_inv r.1 ∧ typed l r.2 ∧ later l w r.2)
    (OnMessage (Some cb) getConnId forceClose fuel buf w).
Proof.
  intros HI Hcb Hfc. revert buf w. induction fuel as [|fuel IH]; intros buf w Hb Ht Hw; [done|].
  rewrite OnMessage_iter by done. destruct (next_frame _) as [| |p rest] eqn:E.
  - done.
  - eapply sound_bind; [by apply Hfc|]. intros w' [??]. done.
  - destruct (next_frame_retrieve buf p rest) as (buf' & -> & Hb' & _); [exact Hb|exact E|].
    rewrite bind_ok. eapply sound_bind; [by apply Hcb|]. intros w' [Ht' Hl].
    specialize (IH buf' w' Hb' Ht' ltac:(eauto)). destruct (OnMessage _ _ _ _ _ _) as [[b w'']|e]; [|done].
    destruct IH as (? & ? & ?). split_and!; [done|done|by etrans].
Qed.

Context (dispatcher_ : PacketDispatcher W) (spi_OnMessage : Packet → Z → M W unit).
Context (Hdispatcher : ∀ cmd h p id w, dispatcher_ !! cmd = Some h → safe l (action (h p id)) w).
Context (Hspi : ∀ p id w, safe l (spi_OnMessage p id) w).

Lemma safe_workerPool_Run p id w : safe l (workerPool_Run dispatcher_ p id) w.
Proof.
  unfold workerPool_Run. safe_step. destruct (_ =? _); [|safe_tac].
  unfold Dispatch, action.
  match goal with |- context [match ?x with Some handler => _ | None => _ end] =>
    destruct x as [h|] eqn:E end; [by apply (Hdispatcher _ h p id w E)|].
  by apply (safely_ret _ tt).
Qed.
Lemma safe_OnPacket p id w : safe l (GatewayServer_OnPacket dispatcher_ spi_OnMessage p id) w.
Proof.
  unfold GatewayServer_OnPacket. destruct (_ =? _).
  - eapply (safely_bind _ _ _ (λ _ _, True)); [by apply safe_SendToClient|safe_next; safe_tac].
  - eapply (safely_bind _ _ _ (λ _ _, True)); [apply safe_workerPool_Run|safe_next]. safe_tac.
Qed.
Lemma safe_Codec_OnMessage c w : live_conn c w → safe l (Codec_OnMessage dispatcher_ spi_OnMessage c) w.
Proof.
  intros Hc Ht. destruct (Hc) as [conn E]. unfold wp, Codec_OnMessage. rewrite E.
  change (deref (Some conn)) with (Ok conn). rewrite bind_ok.
  destruct (ty_conn _ _ Ht c conn E) as [_ _ Hin _].
  match goal with |- context [OnMessage ?cb ?g ?f ?n ?b w] =>
    pose proof (OnMessage_safe (λ p id, transform (GatewayServer_OnPacket dispatcher_ spi_OnMessage p id))
      g f (live_conn c) n b w) as Hm end.
  specialize (Hm ltac:(intros; by eapply later_live_conn)).
  specialize (Hm ltac:(intros; apply goes_on_transform; [done|apply safe_OnPacket])).
  specialize (Hm ltac:(intros; apply goes_on_transform; [done|by apply safe_ForceClose]) Hin Ht Hc).
  destruct (OnMessage _ _ _ _ _ _) as [[b w1]|e]; [|done]. destruct Hm as (Hb & Ht1 & Hl1). simpl in *.
  apply (later_live_conn _ _ _ _ Hl1) in Hc.
  assert (Hs : safe l (mod_conn c (set_tc_inputBuffer b)) w1) by safe_tac.
  specialize (Hs Ht1). unfold wp in Hs. destruct (mod_conn _ _ w1) as [[[] w2]|e]; [|done].
  destruct Hs as (? & Hl2 & _). split_and!; [done|by etrans|done].
Qed.
Lemma safe_OnMessage c t w :
  live_conn c w → safe l (GatewayServer_OnMessage dispatcher_ spi_OnMessage c t) w.
Proof.
  intros Hc. unfold GatewayServer_OnMessage. safe_tac. by apply safe_Codec_OnMessage.
Qed.
Lemma safe_HandleRead c t w :
  live_conn c w →
  safe l (TcpConnection_HandleRead GatewayServer_OnConnection
    (GatewayServer_OnMessage dispatcher_ spi_OnMessage) OnClose c t) w.
Proof.
  intros Hc. unfold TcpConnection_HandleRead. safe_step. safe_step; [eauto with safety|]. safe_step.
  match goal with Hb : rb_inv (tc_inputBuffer ?conn) |- _ => set (b := tc_inputBuffer conn) in * end.
  eapply safely_bind.
  { apply (safely_sys _ _ (λ rv _, ∀ data, rv = readv_ok data →
      Z.of_nat (length data) ≤ foldr Z.add 0 (ReadFd_iov b))); [meek|].
    intros data. apply readv_fits. }
  intros rv w' _ Hl Hr. transport Hl.
  eapply bind_lift; [by apply ReadFd_sound|]. intros [[n e] b'] Hb'. simpl in Hb'.
  safe_step; [safe_tac|]. destruct (0 <? n); [by apply safe_OnMessage|]. safe_tac.
Qed.
End packets.

(** ** New connections *)

Section accepting.
Context {K : Type} `{SafeLaws K} (l : loc).
Abbreviation W := (World K).
Implicit Types (c : loc) (w : W).

(** two fresh addresses become a connection and its channel *)
Lemma typed_new_conn conn ch w :
  let n := w_next w in
  typed l w → tc_loop conn = l → tc_channel conn = S n →
  rb_inv (tc_inputBuffer conn) → rb_inv (tc_outputBuffer conn) → ch_loop ch = l →
  ch_readCallback ch = Some (CbConnRead n) → ch_writeCallback ch = Some (CbConnWrite n) →
  ch_closeCallback ch = Some (CbConnClose n) → ch_errorCallback ch = Some (CbConnError n) →
  let w' := set_w_conns (<[n := conn]> (w_conns w))
    (set_w_chans (<[S n := ch]> (w_chans w)) (set_w_next (S (S n)) w)) in
  typed l w' ∧ later l w w'.
Proof.
  intros n Ht El Ec Hin Hout Ehl E1 E2 E3 E4 w'. assert (Hnext : w_next w = n) by done.
  clearbody n.
  destruct (ty_fresh _ _ Ht n ltac:(lia)) as [Hnc _].
  destruct (ty_fresh _ _ Ht (S n) ltac:(lia)) as [_ Hnh].
  assert (Hconn : ∀ c, c ≠ n → w_conns w' !! c = w_conns w !! c)
    by (intros; by apply lookup_insert_ne).
  assert (Hchan : ∀ c, c ≠ S n → w_chans w' !! c = w_chans w !! c)
    by (intros; by apply lookup_insert_ne).
  assert (En : w_conns w' !! n = Some conn) by apply lookup_insert_eq.
  assert (Eh : w_chans w' !! S n = Some ch) by apply lookup_insert_eq.
  assert (Hold : ∀ c x, w_conns w !! c = Some x → w_conns w' !! c = Some x)
    by (intros c x E; rewrite Hconn; [done|congruence]).
  assert (Hlive : ∀ c, live_conn c w → live_conn c w') by (intros c [x E]; eexists; eauto).
  assert (Hpart : ∀ A (f : Channel → A) c x, f <$> w_chans w !! c = Some x → f <$> w_chans w' !! c = Some x).
  { intros A f c x E. rewrite Hchan; [done|]. intros ->. by rewrite Hnh in E. }
  assert (Hcb : ∀ c cb, callback_typed l c w cb → callback_typed l c w' cb).
  { intros c [[]|]; simpl; try done; intros E; rewrite Hconn; try done; intros ->; by rewrite Hnc in E. }
  destruct Ht as [Hl Hc Hh Hr Hi Hfs Hs Hfr Hhome Hn]. split.
  2:{ split; [eauto| |done..]. intros c [x E]. exists x. rewrite Hchan; [done|congruence]. }
  split; try done.
  - intros c x Ex. destruct (decide (c = n)) as [->|].
    + rewrite En in Ex. injection Ex as <-. split; try done. by rewrite Ec, Eh, <- E1.
    + rewrite Hconn in Ex by done. destruct (Hc c x Ex). split; try done. by apply Hpart.
  - intros c x Ex. destruct (decide (c = S n)) as [->|].
    + rewrite Eh in Ex. injection Ex as <-.
      assert (Et : tc_channel <$> w_conns w' !! n = Some (S n)) by (rewrite En; simpl; congruence).
      split; [done|..]; rewrite ?E1, ?E2, ?E3, ?E4; exact Et.
    + rewrite Hchan in Ex by done. destruct (Hh c x Ex). split; auto.
  - intros lp fd c Elp Ex. apply Hpart. by eapply Hr.
  - intros lp fd ev c Elp Ex. destruct (Hi lp fd ev c Elp Ex). split; [done|by apply Hpart].
  - intros lp Elp. eapply Forall_impl; [by apply Hfs|]. intros []; simpl; auto.
  - intros name c Ex. by eapply Hlive, Hs.
  - intros c Hge. unfold w' in Hge. rs in Hge. rewrite Hconn, Hchan by lia. apply Hfr. lia.
Qed.

Lemma safely_new_TcpConnection name fd la pa w :
  safely l (new_TcpConnection l name fd la pa) live_conn w.
Proof.
  intros Ht. set (n := w_next w).
  set (conn := mkTcpConnection l name kConnecting true fd (S n) la pa false false (64 * 1024 * 1024) 0
    (new_RingBuffer 1024) (new_RingBuffer 1024)).
  set (ch := mkChannel l fd 0 0 (-1) false false (Some (CbConnRead n)) (Some (CbConnWrite n))
    (Some (CbConnClose n)) (Some (CbConnError n))).
  destruct (typed_new_conn conn ch w) as [Ht1 Hl1]; try done; try (by apply new_RingBuffer_inv).
  set (w1 := set_w_conns _ _) in *. set (k := (sys_setsockopt fd SOL_SOCKET SO_KEEPALIVE 1 (w_kern w)).2).
  assert (Hs : same_shape l w1 (set_w_kern k w1))
    by (destruct (shape_refl l w1 Ht1); split; try done; apply setsockopt_meek).
  unfold new_TcpConnection, sockets_SetKeepAlive, set_option. run.
  match goal with |- typed l ?X ∧ _ => assert (E : X = set_w_kern k w1) end.
  { assert (Ecc : ∀ a b w, set_w_chans a (set_w_chans b w) = set_w_chans a w) by done.
    assert (Ecn : ∀ a b w, set_w_chans a (set_w_conns b w) = set_w_conns b (set_w_chans a w)) by done.
    assert (Enn : ∀ a b w, set_w_next a (set_w_next b w) = set_w_next a w) by done.
    unfold w1. by rewrite !Ecc, Ecn, Ecc, Enn, !insert_insert_eq. }
  rewrite E. split_and!; [by eapply typed_shape|etrans; [done|by apply later_shape]|].
  exists conn. unfold w1. rs. apply lookup_insert_eq.
Qed.

(** [OnConnection] follows the registration of the connection with the server *)
Lemma safely_assert_thread (Q : unit → W → Prop) w : Q tt w → safely l (EventLoop_AssertInLoopThread l) Q w.
Proof.
  intros HQ Ht. destruct (ty_loop _ _ Ht) as (lp & E & Et). by apply (assert_in_loop_spec l lp).
Qed.
Lemma safely_GetNextLoop w :
  safely l EventLoopThreadPool_GetNextLoop (λ io w', io = l ∧ w' = w) w.
Proof.
  unfold EventLoopThreadPool_GetNextLoop. apply bind_gets_server. intros s _ _ _ Eb El.
  rewrite Eb, El. eapply safely_bind; [by apply (safely_assert_thread (λ _ w', w' = w))|].
  intros [] ? _ _ ->. apply bind_assert. intros _. rewrite bool_decide_true by done. by apply safely_ret.
Qed.
Lemma safe_NewConnection fd peer w :
  ts_nextConnId (w_server w) + accepts_left (w_kern w) + 1 < 2 ^ 31 →
  safe l (TcpServer_NewConnection GatewayServer_OnConnection fd peer) w.
Proof.
  intros Hn. unfold TcpServer_NewConnection. apply bind_gets_server. intros s Es Eloop _ _ _.
  rewrite Eloop. eapply safely_bind; [by apply (safely_assert_thread (λ _ w', w' = w))|].
  intros [] ? _ _ ->. eapply safely_bind; [apply safely_GetNextLoop|]. intros ? ? _ _ [-> ->].
  pose proof (accepts_nonneg (w_kern w)). rewrite Es, (proj2 (Z.ltb_lt _ _)) by lia.
  apply (bind_lift _ (λ _, True)); [done|]. intros [] _.
  eapply (safely_bind _ _ _ (λ _ _, True)).
  { intros Ht. apply safely_server; [done| |rs; lia|done|done]. intros name c E. by left. }
  safe_next. safe_step; [safe_tac|]. eapply safely_bind; [apply safely_new_TcpConnection|].
  intros c w4 _ _ Hc. eapply (safely_bind _ _ _ (λ _ _, True)).
  { intros Ht'. apply safely_server; [done| |by apply Ht'|done|done]. rs.
    intros name' c'. rewrite lookup_insert_Some. intros [[_ <-]|[_ ?]]; [by right|by left]. }
  safe_next. safe_tac.
Qed.

Lemma safe_Acceptor_HandleRead w : safe l (Acceptor_HandleRead GatewayServer_OnConnection) w.
Proof.
  unfold Acceptor_HandleRead. apply bind_gets_server. intros s Es Eloop Ea _ _. rewrite Ea.
  eapply safely_bind; [by apply (safely_assert_thread (λ _ w', w' = w))|]. intros [] ? _ _ ->.
  eapply (safely_bind _ _ _ (λ r w', 0 ≤ r.1.1 →
    ts_nextConnId (w_server w') + accepts_left (w_kern w') + 1 < 2 ^ 31)).
  - intros Ht. pose proof (ty_count _ _ Ht) as Hn. revert Ht.
    unfold sockets_Accept. destruct (accept_counts (ac_acceptSocket (ts_acceptor s)) (w_kern w)) as [Hm Hlt].
    eapply (safely_bind _ _ _ (λ r w', 0 ≤ r.1.1 →
      ts_nextConnId (w_server w') + accepts_left (w_kern w') + 1 < 2 ^ 31)).
    { apply safely_sys; [done|]. intros Hr. specialize (Hlt Hr). rs. lia. }
    intros r w' _ _ HQ. destruct (Z.ltb_spec r.1.1 0); [|by apply safely_ret].
    destruct (accept_errno _); [|safe_tac]. by apply safely_ret.
  - intros [[connfd errno] peer] w' _ _ HQ. simpl in HQ. destruct (Z.leb_spec 0 connfd).
    + destruct (ac_newConnectionCallback _); [|safe_tac]. apply safe_NewConnection. auto.
    + safe_tac.
Qed.
End accepting.

(** ** The heartbeat timer *)

Section heartbeat.
Context {K : Type} `{SafeLaws K} (l : loc).
Abbreviation W := (World K).
Implicit Types (c : loc) (w : W) (xs : list Z).

(** the heartbeats that the loop has still to look at are there *)
Definition heartbeats_of xs w : Prop :=
  NoDup xs ∧ ∀ id, id ∈ xs → is_Some (gs_lastHeartbeats (w_gs w) !! id).
Definition same_heartbeats : relation W := λ w w', gs_lastHeartbeats (w_gs w') = gs_lastHeartbeats (w_gs w).

Lemma safe_expire now timeoutMs id xs w :
  heartbeats_of (id :: xs) w → safely l (expire now timeoutMs id) (λ _, heartbeats_of xs) w.
Proof.
  intros [[Hid Hnd]%NoDup_cons Hin]. unfold expire. apply bind_gets.
  destruct (Hin id) as [last E]; [set_solver|]. rewrite E.
  apply (bind_lift _ (λ _, True)); [done|]. intros last' _.
  assert (Hxs : ∀ id, id ∈ xs → is_Some (gs_lastHeartbeats (w_gs w) !! id)) by set_solver.
  destruct (_ <? _); [|by apply safely_ret]. apply bind_GetConnection. intros o Ho.
  eapply (safely_bind _ _ _ (λ _ w', same_heartbeats w w')).
  { destruct o as [c|]; [|by apply safely_ret].
    eapply safely_post; [apply (safely_preserves _ rframe); [by apply safe_ForceClose; eauto|]|].
    - apply rframe_ForceClose.
    - intros [] w' _ _ [_ (_ & _ & Hh & _)]. exact Hh. }
  intros [] w1 _ _ E1. unfold SessionManager_RemoveSession, mod_sessions.
  eapply (safely_bind _ _ _ (λ _ w', same_heartbeats w1 w')).
  { apply bind_gets. eapply (safely_bind _ _ _ (λ _ w', same_heartbeats w1 w'));
      [|intros [] w' _ _ E2; by apply safely_ret].
    apply safely_shape; [|done]. intros Ht. by destruct (shape_refl _ _ Ht). }
  intros b w2 _ _ E2. unfold mod_heartbeats. apply safely_mod_gs; [by intros []|].
  unfold same_heartbeats in *. split; [done|]. intros id' Hid'. rs. rewrite E2, E1.
  rewrite lookup_delete_ne by congruence. auto.
Qed.
Lemma safe_OnHeartbeat t w : safe l (GatewayServer_OnHeartbeat t) w.
Proof.
  unfold GatewayServer_OnHeartbeat. apply bind_gets_gs. intros g Eg Eloop. rewrite Eloop.
  eapply safely_bind; [by apply (safely_assert_thread _ (λ _ w', w' = w))|]. intros [] ? _ _ ->.
  eapply (safely_bind _ _ _ (λ _, same_heartbeats w)); [by apply safely_sys; [meek|]|].
  intros _ w1 _ _ E1. eapply (safely_bind _ _ _ (λ _, same_heartbeats w1)).
  { eapply safely_post; [apply (safely_preserves _ rframe); [apply safe_now_ms|apply rframe_now_ms]|].
    intros now w' _ _ [_ (_ & _ & Hh & _)]. exact Hh. }
  intros now w2 _ _ E2. eapply safe_true, safely_forM; [|intros id xs w' _; apply safe_expire].
  unfold heartbeats_of, same_heartbeats in *. rewrite E2, E1, Eg. split.
  - rewrite ordered_ids_perm. apply NoDup_fst_map_to_list.
  - intros id. by rewrite elem_of_ordered_ids.
Qed.
End heartbeat.
