(* ===== verification/Config.v ===== *)
(** * The configuration file

    [gateway/GatewayContext]: the parser of [conf/gateway.yaml]. Lines are
    trimmed, comments and section headers skipped, and [key: value] pairs
    assigned; what a value means is [atoi]'s business. *)
From Stdlib Require Import Ascii.
From S2P Require Import Prelude.

(** ** Strings *)

Definition TAB : ascii := "009".
Definition LF : ascii := "010".
Definition VT : ascii := "011".
Definition FF : ascii := "012".
Definition CR : ascii := "013".
Definition QUOTE : ascii := "034".

#[export] Instance ascii_eq_dec' : EqDecision ascii := ascii_dec.

(** [std::find_if_not] on a sequence: how many elements precede the first that
    fails [p] *)
Fixpoint find_if_not (p : ascii → bool) (l : list ascii) : nat :=
  match l with
  | [] => 0
  | c :: l => if p c then S (find_if_not p l) else 0
  end.

Definition blank (c : ascii) : bool := bool_decide (c = " "%char) || bool_decide (c = TAB).
Definition blank_end (c : ascii) : bool := blank c || bool_decide (c = CR).

(** [GatewayContext::Trim], on characters: [start] counts from the front and
    [end] from the back *)
Definition trim (l : list ascii) : list ascii :=
  let start := find_if_not blank l in
  let end_ := (length l - find_if_not blank_end (rev l))%nat in
  if (start <? end_)%nat then take (end_ - start) (drop start l) else [].

Definition Trim (s : string) : string :=
  String.string_of_list_ascii (trim (String.list_ascii_of_string s)).

(** [s.find(c)]: [None] is [npos] *)
Fixpoint find (c : ascii) (s : string) : option nat :=
  match s with
  | EmptyString => None
  | String a s => if decide (a = c) then Some 0%nat else S <$> find c s
  end.

Definition substr (pos n : nat) (s : string) : string := String.substring pos n s.
Definition substr_from (pos : nat) (s : string) : string := String.substring pos (String.length s - pos) s.

Definition front (s : string) : option ascii := String.get 0 s.
Definition back (s : string) : option ascii := String.get (String.length s - 1) s.

(** ** [atoi] *)

Definition isspace (c : ascii) : bool :=
  bool_decide (c ∈ [" "%char; TAB; LF; VT; FF; CR]).

Definition digit (c : ascii) : option Z :=
  let n := Z.of_nat (nat_of_ascii c) - 48 in
  if (0 <=? n) && (n <=? 9) then Some n else None.

Fixpoint skip_space (s : string) : string :=
  match s with
  | String c s' => if isspace c then skip_space s' else s
  | EmptyString => s
  end.

(** the value of the leading digits *)
Fixpoint digits (acc : Z) (s : string) : Z :=
  match s with
  | String c s' => match digit c with Some d => digits (10 * acc + d) s' | None => acc end
  | EmptyString => acc
  end.

(** [std::atoi]: undefined when the value is not an [int] *)
Definition atoi (s : string) : outcome Z :=
  let v := match skip_space s with
           | String c s' as t =>
               if decide (c = "-"%char) then - digits 0 s'
               else if decide (c = "+"%char) then digits 0 s' else digits 0 t
           | EmptyString => 0
           end in
  defined_if ((- 2 ^ 31 <=? v) && (v <? 2 ^ 31));; Ok v.

(** ** GatewayConfig *)

Record GatewayConfig : Type := mkConfig {
  tradeBindIp : string;
  tradePort : Z;
  quoteBindIp : string;
  quotePort : Z;
  ioThreadNum : Z;
  workerThreadNum : Z;
  maxConnections : Z;
  heartbeatTimeout : Z;
  logLevel : string;
}.

#[export] Instance GatewayConfig_eq_dec : EqDecision GatewayConfig.
Proof. solve_decision. Defined.

(** the member initialisers *)
Definition default_config : GatewayConfig :=
  mkConfig "0.0.0.0" 8001 "0.0.0.0" 8002 4 4 10000 60 "info".

(** the assignment of a value to the key that names it *)
Definition assign (key value : string) (c : GatewayConfig) : outcome GatewayConfig :=
  let '(mkConfig ip tp qip qp io wk mx hb lv) := c in
  if decide (key = "trade_bind_ip") then Ok (mkConfig value tp qip qp io wk mx hb lv)
  else if decide (key = "trade_port") then
    n ← atoi value; Ok (mkConfig ip (u16 n) qip qp io wk mx hb lv)
  else if decide (key = "quote_bind_ip") then Ok (mkConfig ip tp value qp io wk mx hb lv)
  else if decide (key = "quote_port") then
    n ← atoi value; Ok (mkConfig ip tp qip (u16 n) io wk mx hb lv)
  else if decide (key = "io_thread_num") then
    n ← atoi value; Ok (mkConfig ip tp qip qp n wk mx hb lv)
  else if decide (key = "worker_thread_num") then
    n ← atoi value; Ok (mkConfig ip tp qip qp io n mx hb lv)
  else if decide (key = "max_connections") then
    n ← atoi value; Ok (mkConfig ip tp qip qp io wk n hb lv)
  else if decide (key = "heartbeat_timeout") then
    n ← atoi value; Ok (mkConfig ip tp qip qp io wk mx n lv)
  else if decide (key = "log_level") then Ok (mkConfig ip tp qip qp io wk mx hb value)
  else Ok c.

(** the quotes around a value are dropped *)
Definition unquote (value : string) : string :=
  if (2 <=? String.length value)%nat && bool_decide (front value = Some QUOTE) &&
     bool_decide (back value = Some QUOTE)
  then substr 1 (String.length value - 2) value else value.

(** [GatewayContext::ParseLine] *)
Definition ParseLine (line : string) (c : GatewayConfig) : outcome GatewayConfig :=
  let trimmed := Trim line in
  if decide (trimmed = "") then Ok c
  else if decide (front trimmed = Some "#"%char) then Ok c
  else if decide (back trimmed = Some ":"%char ∧ find " "%char trimmed = None) then Ok c
  else match find ":"%char trimmed with
       | None => Ok c
       | Some colon =>
           let key := Trim (substr 0 colon trimmed) in
           let value := Trim (substr_from (colon + 1) trimmed) in
           assign key (unquote value) c
       end.

(** the lines [std::getline] returns until it fails *)
Fixpoint getlines (cur : string) (s : string) : list string :=
  match s with
  | EmptyString => if decide (cur = "") then [] else [cur]
  | String c s' => if decide (c = LF) then cur :: getlines "" s'
                   else getlines (cur ++ String c "")%string s'
  end.

(** [GatewayContext::LoadConfig]; [file] is [None] when it cannot be opened *)
Definition LoadConfig (file : option string) (c : GatewayConfig) : outcome (bool * GatewayConfig) :=
  match file with
  | None => Ok (false, c)
  | Some text => c' ← foldM ParseLine (getlines "" text) c; Ok (true, c')
  end.

(** ** Facts on strings *)

Abbreviation chars := String.list_ascii_of_string.

Lemma app_cons a s t : String a s +:+ t = String a (s +:+ t).
Proof. done. Qed.
Lemma app_empty t : "" +:+ t = t.
Proof. done. Qed.

Lemma chars_app s t : chars (s +:+ t) = chars s ++ chars t.
Proof. induction s as [|a s IH]; [done|]. rewrite app_cons. simpl. by rewrite IH. Qed.
Lemma length_chars s : String.length s = length (chars s).
Proof. induction s as [|a s IH]; [done|]. simpl. f_equal. exact IH. Qed.
Lemma string_app_assoc (s t u : string) : (s +:+ t) +:+ u = s +:+ (t +:+ u).
Proof. induction s as [|a s IH]; [done|]. by rewrite !app_cons, IH. Qed.
Lemma string_app_nil (s : string) : s +:+ "" = s.
Proof. induction s as [|a s IH]; [done|]. by rewrite app_cons, IH. Qed.

Lemma substring_app_l s t : String.substring 0 (String.length s) (s +:+ t) = s.
Proof.
  induction s as [|a s IH]; [by destruct t|].
  change (String a (String.substring 0 (String.length s) (s +:+ t)) = String a s). by rewrite IH.
Qed.
Lemma substring_all t n : (String.length t <= n)%nat → String.substring 0 n t = t.
Proof.
  revert n. induction t as [|b t IH]; intros [|n] Hn; simpl in *; try done; try lia.
  by rewrite IH by lia.
Qed.
Lemma substring_app_r s t n :
  (String.length t <= n)%nat → String.substring (String.length s) n (s +:+ t) = t.
Proof. intros Hn. induction s as [|a s IH]; [by apply substring_all|exact IH]. Qed.

Lemma find_app c s t : c ∉ chars s → find c (s +:+ String c t) = Some (String.length s).
Proof.
  induction s as [|a s IH]; rewrite ?app_empty, ?app_cons; cbn; intros Hc.
  - by rewrite decide_True.
  - rewrite not_elem_of_cons in Hc. rewrite decide_False by naive_solver. by rewrite IH by tauto.
Qed.
Lemma find_None c s : find c s = None ↔ c ∉ chars s.
Proof.
  induction s as [|a s IH]; cbn; [by split; [inversion 2|]|].
  rewrite not_elem_of_cons. case_decide; subst; [naive_solver|].
  rewrite fmap_None, IH. naive_solver.
Qed.

Lemma front_chars s : front s = head (chars s).
Proof. by destruct s. Qed.
Lemma back_chars s : back s = last (chars s).
Proof.
  unfold back. rewrite length_chars. induction s as [|a [|b s] IH]; [done..|].
  cbn in *. rewrite Nat.sub_0_r in *. exact IH.
Qed.

(** ** Trim *)

Lemma find_if_not_le p l : (find_if_not p l <= length l)%nat.
Proof. induction l as [|c l IH]; cbn; [done|]. destruct (p c); lia. Qed.
Lemma find_if_not_take p l : Forall (λ c, p c = true) (take (find_if_not p l) l).
Proof.
  induction l as [|c l IH]; cbn; [done|]. destruct (p c) eqn:E; cbn; [|done].
  by constructor.
Qed.
Lemma find_if_not_drop p l c : head (drop (find_if_not p l) l) = Some c → p c = false.
Proof.
  induction l as [|a l IH]; cbn; [done|]. destruct (p a) eqn:E; cbn; [done|by intros [= <-]].
Qed.
Lemma find_if_not_app p l1 l2 :
  Forall (λ c, p c = true) l1 → find_if_not p (l1 ++ l2) = (length l1 + find_if_not p l2)%nat.
Proof.
  induction 1 as [|c l Hc Hl IH]; cbn; [done|]. by rewrite Hc, IH.
Qed.
Lemma find_if_not_0 p c l : p c = false → find_if_not p (c :: l) = 0%nat.
Proof. cbn. by intros ->. Qed.

(** a text without blanks at its ends *)
Definition trimmed (l : list ascii) : Prop :=
  (∃ c, head l = Some c ∧ blank c = false) ∧ (∃ c, last l = Some c ∧ blank_end c = false).

Lemma trim_pad l1 l : Forall (λ c, blank c = true) l1 → trimmed l → trim (l1 ++ l) = l.
Proof.
  intros H1 [(c & Hc & Hb) (d & Hd & He)]. destruct l as [|x l]; [done|]. injection Hc as ->.
  assert (Hr : find_if_not blank_end (rev (l1 ++ c :: l)) = 0%nat).
  { apply last_Some in Hd as [l' ->]. rewrite (assoc_L (++)), List.rev_unit. cbn. by rewrite He. }
  unfold trim. rewrite Hr, find_if_not_app, find_if_not_0, length_app by done. cbn [length].
  rewrite (proj2 (Nat.ltb_lt _ _)) by lia.
  rewrite drop_app_le, drop_ge, (left_id_L [] (++)) by lia. apply take_ge. cbn. lia.
Qed.
Lemma trim_trimmed l : trimmed l → trim l = l.
Proof. intros Hl. apply (trim_pad []); [constructor|done]. Qed.

Lemma Trim_pad s t : Forall (λ c, blank c = true) (chars s) → trimmed (chars t) → Trim (s +:+ t) = t.
Proof.
  intros Hs Ht. unfold Trim. rewrite chars_app, trim_pad by done.
  apply String.string_of_list_ascii_of_string.
Qed.
Lemma Trim_trimmed t : trimmed (chars t) → Trim t = t.
Proof. apply (Trim_pad ""). constructor. Qed.

(** [Trim] cuts blanks off both ends, and cuts all of them *)
Lemma trim_cuts l : ∃ l1 l2, l = l1 ++ trim l ++ l2 ∧
  Forall (λ c, blank c = true) l1 ∧ Forall (λ c, blank_end c = true) l2 ∧
  (trim l = [] ∨ trimmed (trim l)).
Proof.
  set (n := find_if_not blank l). set (m := find_if_not blank_end (rev l)).
  set (e := (length l - m)%nat).
  assert (Hm : (m <= length l)%nat).
  { unfold m. etrans; [apply find_if_not_le|by rewrite List.length_rev]. }
  assert (Hend : Forall (λ c, blank_end c = true) (drop e l)).
  { pose proof (find_if_not_take blank_end (rev l)) as Ht. fold m in Ht.
    rewrite List.firstn_rev in Ht. fold e in Ht. apply List.Forall_rev in Ht.
    by rewrite List.rev_involutive in Ht. }
  pose proof (find_if_not_take blank l) as Hstart. fold n in Hstart.
  unfold trim. fold n m e. destruct (Nat.ltb_spec n e) as [Hlt|Hge].
  - exists (take n l), (drop e l). split_and!; [|done|done|right].
    + rewrite <- (take_drop n l) at 1. f_equal. rewrite <- (take_drop (e - n) (drop n l)) at 1.
      rewrite drop_drop. by replace (n + (e - n))%nat with e by lia.
    + split.
      * destruct (lookup_lt_is_Some_2 l n) as [c Hc]; [lia|]. exists c.
        assert (Hh : head (drop n l) = Some c) by (by rewrite head_lookup, lookup_drop, Nat.add_0_r).
        split; [|by apply (find_if_not_drop blank l)].
        by rewrite head_lookup, lookup_take_lt, lookup_drop, Nat.add_0_r by lia.
      * destruct (lookup_lt_is_Some_2 l (e - 1)) as [c Hc]; [lia|]. exists c.
        assert (Hh : head (drop m (rev l)) = Some c).
        { rewrite List.skipn_rev. fold e. rewrite List.rev_alt.
          change (head (reverse (take e l)) = Some c).
          by rewrite head_reverse, last_lookup, length_take, Nat.min_l, lookup_take_lt, <- Nat.sub_1_r by lia. }
        split; [|by apply (find_if_not_drop blank_end (rev l))].
        rewrite last_lookup, length_take, length_drop, lookup_take_lt, lookup_drop by lia.
        rewrite <- Hc. f_equal. lia.
  - exists (take e l), (drop e l). split_and!; [by rewrite (left_id_L [] (++)), take_drop| |done|by left].
    replace (take e l) with (take e (take n l)) by (by rewrite take_take, Nat.min_l).
    by apply Forall_take.
Qed.

(** ** Numbers *)

Lemma digit_char n : (n < 10)%N → digit (pretty_N_char n) = Some (Z.of_N n).
Proof.
  intros Hn. assert (In n [0; 1; 2; 3; 4; 5; 6; 7; 8; 9]%N) as Hin.
  { cbn. lia. }
  cbn in Hin. by repeat destruct Hin as [<-|Hin].
Qed.

(** a printed number starts with a digit, and is read back *)
Lemma digits_pretty x s :
  digits 0 (pretty_N_go x s) = digits (Z.of_N x) s ∧
  ((0 < x)%N → ∃ n s', (n < 10)%N ∧ pretty_N_go x s = String (pretty_N_char n) s').
Proof.
  revert s. induction (N.lt_wf_0 x) as [x _ IH]. intros s.
  destruct (decide (x = 0)%N) as [->|Hx]; [by rewrite pretty_N_go_0|].
  rewrite pretty_N_go_step by lia.
  destruct (IH (x `div` 10)%N ltac:(apply N.div_lt; lia)
    (String (pretty_N_char (x `mod` 10)) s)) as [E1 E2].
  pose proof (N.mod_lt x 10 ltac:(lia)) as Hm. split.
  - rewrite E1. cbn [digits]. rewrite digit_char by done. f_equal.
    pose proof (N.div_mod x 10 ltac:(lia)). lia.
  - intros _. destruct (decide (x `div` 10 = 0)%N) as [E|Hne]; [|by apply E2, N.neq_0_lt_0].
    rewrite E, pretty_N_go_0. eauto.
Qed.

Lemma pretty_pos (p : positive) :
  ∃ n s', (n < 10)%N ∧ pretty (N.pos p) = String (pretty_N_char n) s' ∧
          digits 0 (pretty (N.pos p)) = Z.pos p.
Proof.
  destruct (digits_pretty (N.pos p) "") as [E1 E2]. destruct (E2 ltac:(lia)) as (n & s' & Hn & E).
  exists n, s'. change (pretty (N.pos p)) with (pretty_N_go (N.pos p) ""). by rewrite E1.
Qed.

Lemma atoi_pretty z : - 2 ^ 31 <= z < 2 ^ 31 → atoi (pretty z) = Ok z.
Proof.
  intros Hz. unfold atoi. destruct z as [|p|p].
  - done.
  - destruct (pretty_pos p) as (n & s' & Hn & E & Ed).
    change (pretty (Z.pos p)) with (pretty (N.pos p)). rewrite E in *.
    assert (Hs : isspace (pretty_N_char n) = false ∧ pretty_N_char n ≠ "-"%char ∧
                 pretty_N_char n ≠ "+"%char).
    { pose proof (digit_char n Hn) as Hd. split_and!; [|intros Hc; by rewrite Hc in Hd..].
      unfold isspace. apply bool_decide_eq_false. intros Hc.
      repeat (apply elem_of_cons in Hc as [Hc|Hc]; [by rewrite Hc in Hd|]). inversion Hc. }
    cbn [skip_space]. destruct Hs as (-> & ? & ?). rewrite !decide_False by done.
    rewrite Ed. rewrite (proj2 (Z.leb_le _ _)), (proj2 (Z.ltb_lt _ _)) by lia. done.
  - destruct (pretty_pos p) as (n & s' & Hn & E & Ed).
    change (pretty (Z.neg p)) with (String "-" (pretty (N.pos p))). cbn [skip_space].
    change (isspace "-") with false. cbv iota. rewrite decide_True by done. rewrite Ed.
    change (- Z.pos p) with (Z.neg p).
    rewrite (proj2 (Z.leb_le _ _)), (proj2 (Z.ltb_lt _ _)) by lia. done.
Qed.

(** ** Lines *)

Lemma getlines_line cur l s :
  LF ∉ chars l → getlines cur (l +:+ String LF s) = (cur +:+ l) :: getlines "" s.
Proof.
  revert cur. induction l as [|a l IH]; intros cur; rewrite ?app_empty, ?app_cons; cbn [getlines].
  - intros _. rewrite decide_True by done. by rewrite string_app_nil.
  - intros [Ha Hl]%not_elem_of_cons. rewrite decide_False by done.
    rewrite IH by done. by rewrite string_app_assoc, app_cons, app_empty.
Qed.

(** a line that assigns a value *)
Lemma ParseLine_pair indent key value c :
  Forall (λ a, blank a = true) (chars indent) → trimmed (chars key) → front key ≠ Some "#"%char →
  ":"%char ∉ chars key → trimmed (chars value) →
  ParseLine (indent +:+ key +:+ ": " +:+ value) c = assign key (unquote value) c.
Proof.
  intros Hi Hk Hf Hc Hv.
  assert (Ht : Trim (indent +:+ key +:+ ": " +:+ value) = key +:+ ": " +:+ value).
  { apply Trim_pad; [done|]. rewrite !chars_app. destruct Hk as [(a & Ha & Hb) _], Hv as [_ (b & Hb' & He)].
    split.
    - exists a. split; [|done]. by destruct (chars key).
    - exists b. split; [|done]. rewrite last_app, last_app, Hb'. done. }
  unfold ParseLine. rewrite Ht.
  destruct Hk as [(a & Ha & Hb) Hk']. destruct key as [|a' key]; [done|].
  rewrite decide_False by done. rewrite decide_False by (by rewrite app_cons).
  rewrite decide_False.
  2:{ intros [_ Hn%find_None]. apply Hn. rewrite !chars_app. set_solver. }
  change (": " +:+ value) with (String ":" (" " +:+ value)). rewrite find_app by done.
  unfold substr, substr_from. rewrite substring_app_l.
  rewrite (Trim_trimmed (String a' key)) by (split; eauto).
  replace (String a' key +:+ String ":" (" " +:+ value))
    with ((String a' key +:+ ":") +:+ (" " +:+ value)) by (by rewrite string_app_assoc).
  replace (String.length (String a' key) + 1)%nat with (String.length (String a' key +:+ ":")).
  2:{ rewrite !length_chars, chars_app, length_app. done. }
  rewrite substring_app_r.
  2:{ rewrite !length_chars, !chars_app, !length_app. lia. }
  by rewrite Trim_pad by (done || by repeat constructor).
Qed.

(** ** The file of a configuration *)

Definition quoted (v : string) : string := String QUOTE v +:+ String QUOTE "".

(** the pairs of [conf/gateway.yaml], in its order *)
Definition config_pairs (c : GatewayConfig) : list (string * string) :=
  [("trade_bind_ip", quoted (tradeBindIp c)); ("trade_port", pretty (tradePort c));
   ("quote_bind_ip", quoted (quoteBindIp c)); ("quote_port", pretty (quotePort c));
   ("io_thread_num", pretty (ioThreadNum c)); ("worker_thread_num", pretty (workerThreadNum c));
   ("max_connections", pretty (maxConnections c));
   ("heartbeat_timeout", pretty (heartbeatTimeout c)); ("log_level", quoted (logLevel c))].

Definition pair_line (kv : string * string) : string := "  " +:+ kv.1 +:+ ": " +:+ kv.2.

Definition unlines (l : list string) : string := foldr (λ s t, s +:+ String LF t) "" l.

Definition render_config (c : GatewayConfig) : string :=
  unlines ("# HPGateway Configuration" :: "gateway:" :: (pair_line <$> config_pairs c)).

(** the members hold what their types can hold, and the strings are one line *)
Definition int_range (z : Z) : Prop := - 2 ^ 31 <= z < 2 ^ 31.
Definition uint16_range (z : Z) : Prop := 0 <= z < 2 ^ 16.
Definition one_line (s : string) : Prop := LF ∉ chars s.

Record config_ok (c : GatewayConfig) : Prop := {
  co_tradeBindIp : one_line (tradeBindIp c);
  co_tradePort : uint16_range (tradePort c);
  co_quoteBindIp : one_line (quoteBindIp c);
  co_quotePort : uint16_range (quotePort c);
  co_ioThreadNum : int_range (ioThreadNum c);
  co_workerThreadNum : int_range (workerThreadNum c);
  co_maxConnections : int_range (maxConnections c);
  co_heartbeatTimeout : int_range (heartbeatTimeout c);
  co_logLevel : one_line (logLevel c);
}.

Lemma getlines_unlines l : Forall one_line l → getlines "" (unlines l) = l.
Proof.
  induction 1 as [|s l Hs Hl IH]; [done|]. change (unlines (s :: l)) with (s +:+ String LF (unlines l)).
  rewrite getlines_line by done. by rewrite app_empty, IH.
Qed.

Lemma chars_quoted v : chars (quoted v) = (QUOTE :: chars v) ++ [QUOTE].
Proof. unfold quoted. by rewrite chars_app. Qed.

Lemma unquote_quoted v : unquote (quoted v) = v.
Proof.
  unfold unquote. rewrite back_chars, front_chars, length_chars, chars_quoted, last_snoc, length_app.
  rewrite !bool_decide_true by done. cbn [length]. rewrite (proj2 (Nat.leb_le _ _)) by lia.
  replace (S (length (chars v)) + 1 - 2)%nat with (String.length v) by (rewrite length_chars; lia).
  exact (substring_app_l v (String QUOTE "")).
Qed.

Lemma trimmed_quoted v : trimmed (chars (quoted v)).
Proof. rewrite chars_quoted. split; exists QUOTE; [done|]. by rewrite last_snoc. Qed.

(** the characters of a printed number *)
Definition num_char (a : ascii) : bool := bool_decide (a = "-"%char) || bool_decide (is_Some (digit a)).

Lemma pretty_N_go_chars x s :
  Forall (λ a, num_char a = true) (chars s) → Forall (λ a, num_char a = true) (chars (pretty_N_go x s)).
Proof.
  revert s. induction (N.lt_wf_0 x) as [x _ IH]. intros s Hs.
  destruct (decide (x = 0)%N) as [->|Hx]; [by rewrite pretty_N_go_0|].
  rewrite pretty_N_go_step by lia. apply IH; [apply N.div_lt; lia|].
  simpl. constructor; [|done]. unfold num_char. rewrite digit_char by (apply N.mod_lt; lia).
  apply orb_true_r.
Qed.

Lemma pretty_chars (z : Z) : Forall (λ a, num_char a = true) (chars (pretty z)).
Proof.
  destruct z as [|p|p]; [by repeat constructor|apply (pretty_N_go_chars (N.pos p) ""); constructor|].
  change (pretty (Z.neg p)) with (String "-" (pretty_N_go (N.pos p) "")).
  constructor; [done|]. apply pretty_N_go_chars. constructor.
Qed.

Lemma num_char_visible a :
  num_char a = true → blank a = false ∧ blank_end a = false ∧ a ≠ LF ∧ a ≠ QUOTE.
Proof. intros Hn. by destruct a as [[] [] [] [] [] [] [] []]; try discriminate Hn. Qed.

Lemma trimmed_pretty (z : Z) : trimmed (chars (pretty z)).
Proof.
  pose proof (pretty_chars z) as Hall.
  assert (Hne : chars (pretty z) ≠ []).
  { destruct z as [|p|p]; [done| |done]. destruct (pretty_pos p) as (n & s' & _ & E & _).
    change (pretty (Z.pos p)) with (pretty (N.pos p)). by rewrite E. }
  split.
  - destruct (chars (pretty z)) as [|a l]; [done|]. exists a. split; [done|].
    apply Forall_cons in Hall as [Ha _]. apply (num_char_visible a Ha).
  - destruct (last (chars (pretty z))) as [a|] eqn:E; [|by apply last_None in E].
    exists a. split; [done|]. apply last_Some in E as [l E]. rewrite E in Hall.
    apply Forall_app in Hall as [_ Ha]. apply Forall_cons in Ha as [Ha _].
    apply (num_char_visible a Ha).
Qed.

Lemma unquote_pretty (z : Z) : unquote (pretty z) = pretty z.
Proof.
  unfold unquote. rewrite (bool_decide_false (front _ = _)); [by rewrite andb_false_r|].
  rewrite front_chars. pose proof (pretty_chars z) as Hall. destruct (chars (pretty z)) as [|a l]; [done|].
  intros [= ->]. apply Forall_cons in Hall as [Ha _]. by apply num_char_visible in Ha as (_ & _ & _ & []).
Qed.

Lemma one_line_app s t : one_line s → one_line t → one_line (s +:+ t).
Proof. unfold one_line. rewrite chars_app. set_solver. Qed.
Lemma one_line_quoted v : one_line v → one_line (quoted v).
Proof.
  unfold one_line. rewrite chars_quoted. intros Hv.
  rewrite not_elem_of_app, !not_elem_of_cons. split_and!; done || apply not_elem_of_nil.
Qed.
Lemma one_line_pretty (z : Z) : one_line (pretty z).
Proof.
  intros Hl. pose proof (pretty_chars z) as Hall. rewrite Forall_forall in Hall.
  apply Hall, num_char_visible in Hl as (_ & _ & [] & _). done.
Qed.

Lemma render_one_line c :
  config_ok c →
  Forall one_line ("# HPGateway Configuration" :: "gateway:" :: (pair_line <$> config_pairs c)).
Proof.
  intros []. repeat (apply Forall_cons; split); try apply Forall_nil_2; try (by vm_compute);
    unfold pair_line; cbn [fst snd]; repeat apply one_line_app;
    try (by apply one_line_quoted) || (by apply one_line_pretty); unfold one_line; cbn;
    rewrite !not_elem_of_cons; split_and!; try done; apply not_elem_of_nil.
Qed.

(** a key of the file *)
Definition key_ok (key : string) : bool :=
  match chars key with
  | a :: l => negb (blank a) && bool_decide (a ≠ "#"%char) && bool_decide (":"%char ∉ a :: l) &&
              match last (a :: l) with Some b => negb (blank_end b) | None => false end
  | [] => false
  end.

Lemma ParseLine_line kv c :
  key_ok kv.1 = true → trimmed (chars kv.2) → ParseLine (pair_line kv) c = assign kv.1 (unquote kv.2) c.
Proof.
  intros Hk Hv. unfold key_ok in Hk. destruct (chars kv.1) as [|a l] eqn:E; [done|].
  apply andb_prop in Hk as [[[Ha Hh]%andb_prop Hc]%andb_prop Hb].
  apply bool_decide_eq_true in Hh, Hc. apply negb_true_iff in Ha.
  destruct (last (a :: l)) as [b|] eqn:El; [|done]. apply negb_true_iff in Hb.
  apply ParseLine_pair; rewrite ?front_chars, ?E; [by repeat constructor| |by intros [= ->]|done|done].
  split; [by exists a|by exists b].
Qed.

Lemma foldM_line kv l c c1 (r : outcome (bool * GatewayConfig)) :
  key_ok kv.1 = true → trimmed (chars kv.2) → assign kv.1 (unquote kv.2) c = Ok c1 →
  (c' ← foldM ParseLine l c1; Ok (true, c')) = r →
  (c' ← foldM ParseLine (pair_line kv :: l) c; Ok (true, c')) = r.
Proof. intros Hk Hv Ha Hr. cbn [foldM]. by rewrite ParseLine_line, Ha. Qed.

(** C28: A configuration survives its file. The text that lists the members of
    a configuration as [key: value] lines, strings in quotes, is parsed back
    into that configuration, whatever configuration was there before: no
    member is missed, swapped or changed. *)
Theorem config_roundtrip c c0 :
  config_ok c → LoadConfig (Some (render_config c)) c0 = Ok (true, c).
Proof.
  intros Hc. unfold LoadConfig, render_config. rewrite getlines_unlines by by apply render_one_line.
  change (foldM ParseLine (?a :: ?b :: ?l) ?c) with (foldM ParseLine l c).
  destruct Hc, c as [ip tp qip qp io wk mx hb lv], c0. cbn [config_pairs fmap list_fmap].
  unfold uint16_range, int_range in *.
  do 9 (eapply foldM_line; [done|apply trimmed_quoted || apply trimmed_pretty|cbn [fst snd];
    rewrite ?unquote_quoted, ?unquote_pretty; unfold assign at 1;
    rewrite ?atoi_pretty by (simpl in *; lia); reflexivity|]).
  cbn -[u16]. by rewrite !u16_small by (simpl in *; lia).
Qed.

Lemma config_roundtrip_witness :
  LoadConfig (Some (render_config (mkConfig "127.0.0.1" 9001 "" 65535 0 8 (-1) 30 "a: #b")))
    default_config = Ok (true, mkConfig "127.0.0.1" 9001 "" 65535 0 8 (-1) 30 "a: #b").
Proof.
  apply config_roundtrip.
  split; try (by vm_compute); apply (bool_decide_unpack (LF ∉ chars _)); by vm_compute.
Defined.

(** [Trim] removes exactly the blanks at the ends of a line: spaces and
    tabs before it, and spaces, tabs and carriage returns after it. *)
Theorem Trim_exact s :
  ∃ s1 s2, s = s1 +:+ Trim s +:+ s2 ∧ Forall (λ c, blank c = true) (chars s1) ∧
    Forall (λ c, blank_end c = true) (chars s2) ∧ (Trim s = "" ∨ trimmed (chars (Trim s))).
Proof.
  destruct (trim_cuts (chars s)) as (l1 & l2 & E & H1 & H2 & Ht).
  exists (String.string_of_list_ascii l1), (String.string_of_list_ascii l2).
  unfold Trim. rewrite !String.list_ascii_of_string_of_list_ascii. split_and!; [|done|done|].
  - rewrite <- (String.string_of_list_ascii_of_string s) at 1. rewrite E at 1.
    assert (Happ : ∀ a b, String.string_of_list_ascii (a ++ b) =
      String.string_of_list_ascii a +:+ String.string_of_list_ascii b).
    { intros a b. induction a as [|x a IH]; [done|]. simpl. by rewrite app_cons, IH. }
    by rewrite !Happ.
  - destruct Ht as [->|]; [by left|by right].
Qed.
