(* ===== verification/Structs.v ===== *)
(** * The messages of the gateway protocol

    [include/gateway/GatewayStruct.h] and [GatewayError.h]: the structs that
    travel as packet bodies, as the bytes the System V x86-64 ABI lays them out
    in, and the error codes. A [double] is kept as its 64 bits, and a [char]
    array as its characters. *)
From S2P Require Import Prelude.

(** ** The layout of a struct *)

Inductive field : Type :=
| FChars (n : nat)     (* char[n] *)
| FInt                 (* int, and the enumerations *)
| FDouble
| FUInt64.

Inductive fval : Type :=
| VChars (l : list byte)
| VInt (z : Z)
| VDouble (bits : Z)
| VUInt64 (z : Z).

Definition fsize (f : field) : nat :=
  match f with FChars n => n | FInt => 4 | FDouble | FUInt64 => 8 end.
Definition falign (f : field) : nat :=
  match f with FChars _ => 1 | FInt => 4 | FDouble | FUInt64 => 8 end.

(** the padding that brings [off] to a multiple of [a] *)
Definition pad (off a : nat) : nat := (a - off mod a) mod a.

Definition zeros (n : nat) : list byte := replicate n Byte.x00.

Definition struct_align (fs : list field) : nat := foldr (λ f a, (falign f `max` a)%nat) 1%nat fs.

(** the bytes from the offset [off] on *)
Fixpoint size_from (off a : nat) (fs : list field) : nat :=
  match fs with
  | [] => pad off a
  | f :: fs => let p := pad off (falign f) in (p + fsize f + size_from (off + p + fsize f) a fs)%nat
  end.
Definition sizeof (fs : list field) : nat := size_from 0 (struct_align fs) fs.

Definition field_bytes (v : fval) : list byte :=
  match v with
  | VChars l => l
  | VInt z => le_bytes 4 (u32 z)
  | VDouble z | VUInt64 z => le_bytes 8 z
  end.

Definition field_value (f : field) (l : list byte) : fval :=
  match f with
  | FChars _ => VChars l
  | FInt => VInt (i32 (le_value l))
  | FDouble => VDouble (le_value l)
  | FUInt64 => VUInt64 (le_value l)
  end.

(** the image of an object that was value-initialised: its padding is zero *)
Fixpoint image_from (off a : nat) (fs : list field) (vs : list fval) : list byte :=
  match fs, vs with
  | f :: fs, v :: vs =>
      let p := pad off (falign f) in
      zeros p ++ field_bytes v ++ image_from (off + p + fsize f) a fs vs
  | _, _ => zeros (pad off a)
  end.
Definition image (fs : list field) (vs : list fval) : list byte :=
  image_from 0 (struct_align fs) fs vs.

(** the members read at the start of [mem]; [None] when they are beyond it *)
Fixpoint members_from (off : nat) (fs : list field) (mem : list byte) : option (list fval) :=
  match fs with
  | [] => Some []
  | f :: fs =>
      let p := pad off (falign f) in
      if (p + fsize f <=? length mem)%nat then
        let mem := drop p mem in
        (field_value f (take (fsize f) mem) ::.)
          <$> members_from (off + p + fsize f) fs (drop (fsize f) mem)
      else None
  end.
Definition members (fs : list field) (mem : list byte) : option (list fval) := members_from 0 fs mem.

(** the values a member can hold *)
Definition holds (f : field) (v : fval) : Prop :=
  match f, v with
  | FChars n, VChars l => length l = n
  | FInt, VInt z => - 2 ^ 31 ≤ z < 2 ^ 31
  | FDouble, VDouble z | FUInt64, VUInt64 z => 0 ≤ z < 2 ^ 64
  | _, _ => False
  end.

Section layout_facts.
Implicit Types (f : field) (v : fval) (fs : list field) (vs : list fval).

Lemma length_field_bytes f v : holds f v → length (field_bytes v) = fsize f.
Proof. destruct f, v; simpl; try done; intros; by rewrite ?length_le_bytes. Qed.

Lemma field_value_bytes f v : holds f v → field_value f (field_bytes v) = v.
Proof.
  destruct f, v; cbn [holds field_bytes field_value]; try done; intros Hz; f_equal.
  - rewrite le_value_bytes. unfold u32, i32. change (256 ^ Z.of_nat 4) with (2 ^ 32).
    rewrite Z.mod_mod, <- Zplus_mod_idemp_l, Z.mod_mod, Zplus_mod_idemp_l by done.
    rewrite Z.mod_small by lia. lia.
  - rewrite le_value_bytes. by apply Z.mod_small.
  - rewrite le_value_bytes. by apply Z.mod_small.
Qed.

Lemma length_image_from off a fs vs :
  Forall2 holds fs vs → length (image_from off a fs vs) = size_from off a fs.
Proof.
  intros Hf. revert off. induction Hf as [|f v fs vs Hv Hf IH]; intros off; cbn.
  - unfold zeros. by rewrite length_replicate.
  - unfold zeros. rewrite !length_app, length_replicate, IH. rewrite (length_field_bytes f v) by done. lia.
Qed.

Lemma members_image_from off a fs vs rest :
  Forall2 holds fs vs → members_from off fs (image_from off a fs vs ++ rest) = Some vs.
Proof.
  intros Hf. revert off. induction Hf as [|f v fs vs Hv Hf IH]; intros off; [done|].
  cbn [members_from image_from]. set (p := pad off (falign f)).
  pose proof (length_field_bytes f v Hv) as Hlen.
  rewrite (proj2 (Nat.leb_le _ _)).
  2:{ unfold zeros. rewrite !length_app, length_replicate, Hlen. lia. }
  rewrite <- !(assoc_L (++)). rewrite drop_app_length' by (unfold zeros; by rewrite length_replicate).
  rewrite take_app_length', drop_app_length' by done.
  by rewrite IH, field_value_bytes.
Qed.
End layout_facts.

(** ** Structs *)

(** a struct: its members, and the record that stands for it *)
Class Struct (A : Type) : Type := {
  fields : list field;
  values : A → list fval;
  of_values : list fval → option A;
  of_values_values a : of_values (values a) = Some a;
}.

Section struct.
Context {A : Type} `{Struct A}.

Definition struct_ok (a : A) : Prop := Forall2 holds (fields (A := A)) (values a).

(** [sizeof(A)], the bytes of an object, and the object [reinterpret_cast]
    finds at the start of [mem] *)
Definition struct_size : Z := Z.of_nat (sizeof (fields (A := A))).
Definition to_bytes (a : A) : list byte := image fields (values a).
Definition of_bytes (mem : list byte) : option A := members (fields (A := A)) mem ≫= of_values.

Lemma length_to_bytes a : struct_ok a → Z.of_nat (length (to_bytes a)) = struct_size.
Proof. intros Ha. unfold to_bytes, struct_size, image. by rewrite length_image_from. Qed.

Lemma of_to_bytes a rest : struct_ok a → of_bytes (to_bytes a ++ rest) = Some a.
Proof.
  intros Ha. unfold of_bytes, to_bytes, members, image. rewrite members_image_from by done.
  apply of_values_values.
Qed.
End struct.
Arguments struct_size A {_}.

Definition ACCOUNT_LEN : nat := 32.
Definition PASSWORD_LEN : nat := 64.
Definition SYMBOL_LEN : nat := 32.
Definition EXCHANGE_LEN : nat := 16.
Definition ORDER_ID_LEN : nat := 64.
Definition ERROR_MSG_LEN : nat := 256.

(** the enumerations, and their values as [int]s *)
Inductive Direction : Type := Direction_Buy | Direction_Sell.
Definition direction_code (d : Direction) : Z :=
  match d with Direction_Buy => 0 | Direction_Sell => 1 end.

Inductive OffsetFlag : Type := Offset_Open | Offset_Close | Offset_CloseToday.
Definition offset_code (o : OffsetFlag) : Z :=
  match o with Offset_Open => 0 | Offset_Close => 1 | Offset_CloseToday => 2 end.

Inductive OrderStatus : Type :=
| OrderStatus_Unknown | OrderStatus_Submitted | OrderStatus_Accepted | OrderStatus_PartFilled
| OrderStatus_Filled | OrderStatus_Canceled | OrderStatus_Rejected.
Definition status_code (s : OrderStatus) : Z :=
  match s with
  | OrderStatus_Unknown => 0 | OrderStatus_Submitted => 1 | OrderStatus_Accepted => 2
  | OrderStatus_PartFilled => 3 | OrderStatus_Filled => 4 | OrderStatus_Canceled => 5
  | OrderStatus_Rejected => 6
  end.

Inductive ErrorCode : Type :=
| ErrorCode_Success | ErrorCode_Network | ErrorCode_Timeout | ErrorCode_LoginFailed
| ErrorCode_NotLogin | ErrorCode_OrderRejected.
Definition error_code (e : ErrorCode) : Z :=
  match e with
  | ErrorCode_Success => 0 | ErrorCode_Network => 1001 | ErrorCode_Timeout => 1002
  | ErrorCode_LoginFailed => 2001 | ErrorCode_NotLogin => 2002 | ErrorCode_OrderRejected => 3001
  end.

(** a member of an enumeration type is kept as its [int] *)

Record ErrorInfo : Type := mkErrorInfo {
  ei_errorCode : Z;
  ei_errorMsg : list byte;
}.

#[export] Instance ErrorInfo_struct : Struct ErrorInfo.
Proof.
  refine {| fields := [FInt; FChars ERROR_MSG_LEN];
    values x := [VInt (ei_errorCode x); VChars (ei_errorMsg x)];
    of_values l := match l with [VInt a; VChars b] => Some (mkErrorInfo a b) | _ => None end |}.
  by intros [].
Defined.

Record LoginRequest : Type := mkLoginRequest {
  lq_account : list byte;
  lq_password : list byte;
}.

#[export] Instance LoginRequest_struct : Struct LoginRequest.
Proof.
  refine {| fields := [FChars ACCOUNT_LEN; FChars PASSWORD_LEN];
    values x := [VChars (lq_account x); VChars (lq_password x)];
    of_values l := match l with [VChars a; VChars b] => Some (mkLoginRequest a b) | _ => None end
      |}.
  by intros [].
Defined.

Record LoginResponse : Type := mkLoginResponse {
  lr_tradingDay : Z;
  lr_account : list byte;
  lr_balance : Z;
  lr_available : Z;
  lr_frontId : Z;
  lr_sessionId : Z;
}.

#[export] Instance LoginResponse_struct : Struct LoginResponse.
Proof.
  refine {| fields := [FInt; FChars ACCOUNT_LEN; FDouble; FDouble; FInt; FInt];
    values x := [VInt (lr_tradingDay x); VChars (lr_account x); VDouble (lr_balance x); VDouble
      (lr_available x); VInt (lr_frontId x); VInt (lr_sessionId x)];
    of_values l := match l with [VInt a; VChars b; VDouble c; VDouble d; VInt e; VInt f] => Some
      (mkLoginResponse a b c d e f) | _ => None end |}.
  by intros [].
Defined.

Record LogoutRequest : Type := mkLogoutRequest {
  lo_account : list byte;
}.

#[export] Instance LogoutRequest_struct : Struct LogoutRequest.
Proof.
  refine {| fields := [FChars ACCOUNT_LEN];
    values x := [VChars (lo_account x)];
    of_values l := match l with [VChars a] => Some (mkLogoutRequest a) | _ => None end |}.
  by intros [].
Defined.

Record Instrument : Type := mkInstrument {
  in_symbol : list byte;
  in_exchange : list byte;
  in_tickSize : Z;
  in_volumeMultiple : Z;
}.

#[export] Instance Instrument_struct : Struct Instrument.
Proof.
  refine {| fields := [FChars SYMBOL_LEN; FChars EXCHANGE_LEN; FDouble; FInt];
    values x := [VChars (in_symbol x); VChars (in_exchange x); VDouble (in_tickSize x); VInt
      (in_volumeMultiple x)];
    of_values l := match l with [VChars a; VChars b; VDouble c; VInt d] => Some (mkInstrument a b
      c d) | _ => None end |}.
  by intros [].
Defined.

Record OrderRequest : Type := mkOrderRequest {
  oq_symbol : list byte;
  oq_exchange : list byte;
  oq_clientOrderId : list byte;
  oq_direction : Z;
  oq_offset : Z;
  oq_price : Z;
  oq_volume : Z;
}.

#[export] Instance OrderRequest_struct : Struct OrderRequest.
Proof.
  refine {| fields := [FChars SYMBOL_LEN; FChars EXCHANGE_LEN; FChars ORDER_ID_LEN; FInt; FInt;
    FDouble; FInt];
    values x := [VChars (oq_symbol x); VChars (oq_exchange x); VChars (oq_clientOrderId x); VInt
      (oq_direction x); VInt (oq_offset x); VDouble (oq_price x); VInt (oq_volume x)];
    of_values l := match l with [VChars a; VChars b; VChars c; VInt d; VInt e; VDouble f; VInt g]
      => Some (mkOrderRequest a b c d e f g) | _ => None end |}.
  by intros [].
Defined.

Record CancelOrderRequest : Type := mkCancelOrderRequest {
  cq_orderId : list byte;
  cq_symbol : list byte;
  cq_exchange : list byte;
}.

#[export] Instance CancelOrderRequest_struct : Struct CancelOrderRequest.
Proof.
  refine {| fields := [FChars ORDER_ID_LEN; FChars SYMBOL_LEN; FChars EXCHANGE_LEN];
    values x := [VChars (cq_orderId x); VChars (cq_symbol x); VChars (cq_exchange x)];
    of_values l := match l with [VChars a; VChars b; VChars c] => Some (mkCancelOrderRequest a b
      c) | _ => None end |}.
  by intros [].
Defined.

Record OrderInfo : Type := mkOrderInfo {
  oi_orderId : list byte;
  oi_clientOrderId : list byte;
  oi_symbol : list byte;
  oi_exchange : list byte;
  oi_direction : Z;
  oi_offset : Z;
  oi_price : Z;
  oi_volume : Z;
  oi_tradedVolume : Z;
  oi_status : Z;
  oi_submitTime : Z;
  oi_updateTime : Z;
}.

#[export] Instance OrderInfo_struct : Struct OrderInfo.
Proof.
  refine {| fields := [FChars ORDER_ID_LEN; FChars ORDER_ID_LEN; FChars SYMBOL_LEN; FChars
    EXCHANGE_LEN; FInt; FInt; FDouble; FInt; FInt; FInt; FUInt64; FUInt64];
    values x := [VChars (oi_orderId x); VChars (oi_clientOrderId x); VChars (oi_symbol x); VChars
      (oi_exchange x); VInt (oi_direction x); VInt (oi_offset x); VDouble (oi_price x); VInt
      (oi_volume x); VInt (oi_tradedVolume x); VInt (oi_status x); VUInt64 (oi_submitTime x);
      VUInt64 (oi_updateTime x)];
    of_values l := match l with [VChars a; VChars b; VChars c; VChars d; VInt e; VInt f; VDouble
      g; VInt h; VInt i; VInt j; VUInt64 k; VUInt64 l] => Some (mkOrderInfo a b c d e f g h i j k
      l) | _ => None end |}.
  by intros [].
Defined.

Record TradeInfo : Type := mkTradeInfo {
  ti_tradeId : list byte;
  ti_orderId : list byte;
  ti_symbol : list byte;
  ti_exchange : list byte;
  ti_direction : Z;
  ti_offset : Z;
  ti_price : Z;
  ti_volume : Z;
  ti_tradeTime : Z;
}.

#[export] Instance TradeInfo_struct : Struct TradeInfo.
Proof.
  refine {| fields := [FChars ORDER_ID_LEN; FChars ORDER_ID_LEN; FChars SYMBOL_LEN; FChars
    EXCHANGE_LEN; FInt; FInt; FDouble; FInt; FUInt64];
    values x := [VChars (ti_tradeId x); VChars (ti_orderId x); VChars (ti_symbol x); VChars
      (ti_exchange x); VInt (ti_direction x); VInt (ti_offset x); VDouble (ti_price x); VInt
      (ti_volume x); VUInt64 (ti_tradeTime x)];
    of_values l := match l with [VChars a; VChars b; VChars c; VChars d; VInt e; VInt f; VDouble
      g; VInt h; VUInt64 i] => Some (mkTradeInfo a b c d e f g h i) | _ => None end |}.
  by intros [].
Defined.

Record PositionInfo : Type := mkPositionInfo {
  pi_symbol : list byte;
  pi_exchange : list byte;
  pi_direction : Z;
  pi_volume : Z;
  pi_ydVolume : Z;
  pi_avgPrice : Z;
  pi_pnl : Z;
}.

#[export] Instance PositionInfo_struct : Struct PositionInfo.
Proof.
  refine {| fields := [FChars SYMBOL_LEN; FChars EXCHANGE_LEN; FInt; FInt; FInt; FDouble;
    FDouble];
    values x := [VChars (pi_symbol x); VChars (pi_exchange x); VInt (pi_direction x); VInt
      (pi_volume x); VInt (pi_ydVolume x); VDouble (pi_avgPrice x); VDouble (pi_pnl x)];
    of_values l := match l with [VChars a; VChars b; VInt c; VInt d; VInt e; VDouble f; VDouble g]
      => Some (mkPositionInfo a b c d e f g) | _ => None end |}.
  by intros [].
Defined.

Record AccountInfo : Type := mkAccountInfo {
  ai_account : list byte;
  ai_balance : Z;
  ai_available : Z;
  ai_frozen : Z;
  ai_margin : Z;
  ai_pnl : Z;
}.

#[export] Instance AccountInfo_struct : Struct AccountInfo.
Proof.
  refine {| fields := [FChars ACCOUNT_LEN; FDouble; FDouble; FDouble; FDouble; FDouble];
    values x := [VChars (ai_account x); VDouble (ai_balance x); VDouble (ai_available x); VDouble
      (ai_frozen x); VDouble (ai_margin x); VDouble (ai_pnl x)];
    of_values l := match l with [VChars a; VDouble b; VDouble c; VDouble d; VDouble e; VDouble f]
      => Some (mkAccountInfo a b c d e f) | _ => None end |}.
  by intros [].
Defined.

Record SubscribeQuoteRequest : Type := mkSubscribeQuoteRequest {
  sq_symbol : list byte;
  sq_exchange : list byte;
}.

#[export] Instance SubscribeQuoteRequest_struct : Struct SubscribeQuoteRequest.
Proof.
  refine {| fields := [FChars SYMBOL_LEN; FChars EXCHANGE_LEN];
    values x := [VChars (sq_symbol x); VChars (sq_exchange x)];
    of_values l := match l with [VChars a; VChars b] => Some (mkSubscribeQuoteRequest a b) | _ =>
      None end |}.
  by intros [].
Defined.

Record UnSubscribeQuoteRequest : Type := mkUnSubscribeQuoteRequest {
  uq_symbol : list byte;
  uq_exchange : list byte;
}.

#[export] Instance UnSubscribeQuoteRequest_struct : Struct UnSubscribeQuoteRequest.
Proof.
  refine {| fields := [FChars SYMBOL_LEN; FChars EXCHANGE_LEN];
    values x := [VChars (uq_symbol x); VChars (uq_exchange x)];
    of_values l := match l with [VChars a; VChars b] => Some (mkUnSubscribeQuoteRequest a b) | _
      => None end |}.
  by intros [].
Defined.

Record TickData : Type := mkTickData {
  tk_symbol : list byte;
  tk_exchange : list byte;
  tk_lastPrice : Z;
  tk_bidPrice1 : Z;
  tk_bidVolume1 : Z;
  tk_askPrice1 : Z;
  tk_askVolume1 : Z;
  tk_highPrice : Z;
  tk_lowPrice : Z;
  tk_openPrice : Z;
  tk_updateTime : Z;
}.

#[export] Instance TickData_struct : Struct TickData.
Proof.
  refine {| fields := [FChars SYMBOL_LEN; FChars EXCHANGE_LEN; FDouble; FDouble; FInt; FDouble;
    FInt; FDouble; FDouble; FDouble; FUInt64];
    values x := [VChars (tk_symbol x); VChars (tk_exchange x); VDouble (tk_lastPrice x); VDouble
      (tk_bidPrice1 x); VInt (tk_bidVolume1 x); VDouble (tk_askPrice1 x); VInt (tk_askVolume1 x);
      VDouble (tk_highPrice x); VDouble (tk_lowPrice x); VDouble (tk_openPrice x); VUInt64
      (tk_updateTime x)];
    of_values l := match l with [VChars a; VChars b; VDouble c; VDouble d; VInt e; VDouble f; VInt
      g; VDouble h; VDouble i; VDouble j; VUInt64 k] => Some (mkTickData a b c d e f g h i j k) |
      _ => None end |}.
  by intros [].
Defined.

(** ** C strings *)

(** [strncpy(dst, s, n)] for a [dst] of [len] characters that were zero *)
Definition strncpy (len n : nat) (s : list byte) : list byte :=
  take n s ++ zeros (len - length (take n s)).

(** what [printf("%.*s", len, arr)] prints: the characters up to the first
    null, or all of them *)
Fixpoint c_string (l : list byte) : list byte :=
  match l with
  | [] => []
  | b :: l => if decide (b = Byte.x00) then [] else b :: c_string l
  end.

(** ** Error codes *)

Inductive GatewayError : Type :=
| kSuccess
| kNetworkError | kTimeout | kConnectionClosed | kSendFailed | kRecvFailed
| kLoginFailed | kNotLogin | kSessionNotFound | kAlreadyLogin
| kOrderRejected | kOrderNotFound | kInvalidSymbol | kInvalidPrice | kInvalidVolume
| kInvalidPacket | kPacketTooLarge | kUnknownCmd
| kInternalError | kNotInitialized | kConfigError.

#[export] Instance GatewayError_eq_dec : EqDecision GatewayError.
Proof. solve_decision. Defined.

Definition GatewayError_code (e : GatewayError) : Z :=
  match e with
  | kSuccess => 0
  | kNetworkError => 1001 | kTimeout => 1002 | kConnectionClosed => 1003 | kSendFailed => 1004
  | kRecvFailed => 1005
  | kLoginFailed => 2001 | kNotLogin => 2002 | kSessionNotFound => 2003 | kAlreadyLogin => 2004
  | kOrderRejected => 3001 | kOrderNotFound => 3002 | kInvalidSymbol => 3003
  | kInvalidPrice => 3004 | kInvalidVolume => 3005
  | kInvalidPacket => 4001 | kPacketTooLarge => 4002 | kUnknownCmd => 4003
  | kInternalError => 9001 | kNotInitialized => 9002 | kConfigError => 9003
  end.

Definition all_errors : list GatewayError :=
  [kSuccess; kNetworkError; kTimeout; kConnectionClosed; kSendFailed; kRecvFailed; kLoginFailed;
   kNotLogin; kSessionNotFound; kAlreadyLogin; kOrderRejected; kOrderNotFound; kInvalidSymbol;
   kInvalidPrice; kInvalidVolume; kInvalidPacket; kPacketTooLarge; kUnknownCmd; kInternalError;
   kNotInitialized; kConfigError].

(** [GetErrorString] on the [int] value of an error *)
Definition GetErrorString (code : Z) : string :=
  match list_find (λ e, GatewayError_code e = code) all_errors with
  | Some (_, e) =>
      match e with
      | kSuccess => "Success"
      | kNetworkError => "Network error"
      | kTimeout => "Timeout"
      | kConnectionClosed => "Connection closed"
      | kSendFailed => "Send failed"
      | kRecvFailed => "Receive failed"
      | kLoginFailed => "Login failed"
      | kNotLogin => "Not logged in"
      | kSessionNotFound => "Session not found"
      | kAlreadyLogin => "Already logged in"
      | kOrderRejected => "Order rejected"
      | kOrderNotFound => "Order not found"
      | kInvalidSymbol => "Invalid symbol"
      | kInvalidPrice => "Invalid price"
      | kInvalidVolume => "Invalid volume"
      | kInvalidPacket => "Invalid packet"
      | kPacketTooLarge => "Packet too large"
      | kUnknownCmd => "Unknown command"
      | kInternalError => "Internal error"
      | kNotInitialized => "Not initialized"
      | kConfigError => "Configuration error"
      end
  | None => "Unknown error"
  end.

(** ** Facts *)

(** a text that fits is stored whole, with its terminator *)
Lemma c_string_strncpy len n s :
  Byte.x00 ∉ s → (length s ≤ n)%nat → (n < len)%nat → c_string (strncpy len n s) = s.
Proof.
  intros Hs Hn Hl. unfold strncpy. rewrite take_ge by done.
  replace (len - length s)%nat with (S (len - length s - 1)) by lia.
  generalize (len - length s - 1)%nat as k. clear Hn Hl. intros k.
  induction s as [|b s IH]; [done|]. apply not_elem_of_cons in Hs as [Hb Hs].
  cbn [app c_string]. rewrite decide_False by done. by rewrite IH.
Qed.

Lemma length_strncpy len n s : (n ≤ len)%nat → length (strncpy len n s) = len.
Proof. intros Hn. unfold strncpy, zeros. rewrite length_app, length_replicate, length_take. lia. Qed.

Example struct_sizes :
  [struct_size LoginRequest; struct_size LoginResponse; struct_size OrderRequest;
   struct_size CancelOrderRequest; struct_size OrderInfo; struct_size TradeInfo;
   struct_size SubscribeQuoteRequest; struct_size TickData] = [96; 64; 136; 112; 224; 208; 48; 120].
Proof. reflexivity. Qed.


Definition sample_tick : TickData :=
  mkTickData (strncpy SYMBOL_LEN 31 (Z_to_byte <$> [114; 98])) (strncpy EXCHANGE_LEN 15 (Z_to_byte <$> [83]))
    0x40a9640000000000 1 (-2) 3 2147483647 4 5 6 (2 ^ 64 - 1).


(** An error code can be told from its description: codes that are
    described alike are the same code, or neither is a [GatewayError]. *)
Theorem error_string_injective c1 c2 :
  GetErrorString c1 = GetErrorString c2 →
  c1 = c2 ∨ ∀ e, GatewayError_code e ≠ c1 ∧ GatewayError_code e ≠ c2.
Proof.
  assert (Hnone : ∀ c, list_find (λ e, GatewayError_code e = c) all_errors = None →
                       ∀ e, GatewayError_code e ≠ c).
  { intros c Hc%list_find_None e. rewrite Forall_forall in Hc. apply Hc.
    by destruct e; repeat constructor. }
  unfold GetErrorString.
  destruct (list_find _ all_errors) as [[i1 e1]|] eqn:E1;
    [apply list_find_Some in E1 as (_ & <- & _)|];
    (destruct (list_find (λ e, _ = c2) all_errors) as [[i2 e2]|] eqn:E2;
     [apply list_find_Some in E2 as (_ & <- & _)|]); intros E.
  - left. destruct e1, e2; (reflexivity || discriminate E).
  - by destruct e1.
  - by destruct e2.
  - right. intros e. split; by apply Hnone.
Qed.

Lemma error_string_injective_witness :
  (2001 = 2001 ∨ ∀ e, GatewayError_code e ≠ 2001 ∧ GatewayError_code e ≠ 2001).
Proof. apply (error_string_injective 2001 2001). reflexivity. Defined.
