(* ===== verification/GatewayApi.v ===== *)
(** * The gateway API

    [gateway/GatewayApiImpl]: the requests an application makes through
    [TradeApi] and [QuoteApi]. Each request takes a sequence number; most are
    recorded as pending; a login or a logout is sent to the current client. *)
From S2P Require Import Prelude RingBuffer Protocol World Reactor Connection Server Gateway Structs.

Record RequestContext : Type := mkContext {
  rc_connId : Z;
  rc_seq : Z;
  rc_cmd : Z;
  rc_requestTime : Z;
}.

(** [class GatewayApiImpl]; [ga_spi] tells whether an SPI is registered *)
Record GatewayApiImpl : Type := mkApi {
  ga_spi : bool;
  ga_initialized : bool;
  ga_seq : Z;
  ga_currentConnId : Z;
  ga_pendingRequests : gmap Z RequestContext;
}.

Definition new_GatewayApiImpl : GatewayApiImpl := mkApi false false 1 0 ∅.

Section api.
Context {K : Type} `{Kernel K}.
Abbreviation W := (World K).
Abbreviation S := (GatewayApiImpl * World K)%type.

(** an operation of the process, and one of the API object *)
Definition in_world {A} (m : M W A) : M S A := λ s,
  r ← m s.2; Ok (r.1, (s.1, r.2)).
Definition get_api : M S GatewayApiImpl := gets fst.
Definition put_api (a : GatewayApiImpl) : M S unit := modify (λ s, (a, s.2)).

(** the registered SPI *)
Context (spi_OnConnected : M S unit) (spi_OnDisconnected : Z → M S unit).

(** what follows the header in the memory of a [Packet] object: padding and
    the representation of its vector *)
Context (packet_rest : Packet → list byte).

Definition NextSeq : M S Z :=
  a ← get_api;
  put_api (mkApi (ga_spi a) (ga_initialized a) (u32 (ga_seq a + 1)) (ga_currentConnId a)
             (ga_pendingRequests a));;
  mret (ga_seq a).

Definition RegisterSpi (spi : bool) : M S unit :=
  a ← get_api;
  put_api (mkApi spi (ga_initialized a) (ga_seq a) (ga_currentConnId a) (ga_pendingRequests a)).

Definition SetCurrentConnId (connId : Z) : M S unit :=
  a ← get_api;
  put_api (mkApi (ga_spi a) (ga_initialized a) (ga_seq a) connId (ga_pendingRequests a)).

Definition set_initialized (b : bool) : M S unit :=
  a ← get_api;
  put_api (mkApi (ga_spi a) b (ga_seq a) (ga_currentConnId a) (ga_pendingRequests a)).

Definition Init : M S bool :=
  set_initialized true;;
  a ← get_api;
  when (ga_spi a) spi_OnConnected;;
  mret true.

Definition Release : M S unit :=
  set_initialized false;;
  a ← get_api;
  when (ga_spi a) (spi_OnDisconnected 0).

(** the context of a request is recorded under its id *)
Definition record_request (requestId seq cmd : Z) : M S RequestContext :=
  a ← get_api;
  now ← in_world now_ms;
  let ctx := mkContext (ga_currentConnId a) seq cmd (u64 now) in
  a ← get_api;
  put_api (mkApi (ga_spi a) (ga_initialized a) (ga_seq a) (ga_currentConnId a)
             (<[requestId := ctx]> (ga_pendingRequests a)));;
  mret ctx.

Definition SendToClient (connId : Z) (data : list byte) (len : Z) : M S bool :=
  in_world (ConnectionManager_SendToClient connId data len).

Definition Broadcast (data : list byte) (len : Z) : M S bool :=
  in_world (ConnectionManager_Broadcast data len).

(** [SendToClient(connId, &packet, packet.TotalLength())] *)
Definition send_packet_object (connId : Z) (packet : Packet) : M S unit :=
  SendToClient connId (header_bytes (header packet) ++ packet_rest packet) (TotalLength packet);;
  mret tt.

Definition ReqLogin (req : LoginRequest) (requestId : Z) : M S Z :=
  seq ← NextSeq;
  let packet := Encode (cmd_code kCmdLoginReq) seq (to_bytes req) in
  ctx ← record_request requestId seq (cmd_code kCmdLoginReq);
  when (0 <? rc_connId ctx) (send_packet_object (rc_connId ctx) packet);;
  mret 0.

Definition ReqLogout (req : LogoutRequest) (requestId : Z) : M S Z :=
  seq ← NextSeq;
  let packet := Encode (cmd_code kCmdLogoutReq) seq (to_bytes req) in
  a ← get_api;
  let connId := ga_currentConnId a in
  when (0 <? connId) (send_packet_object connId packet);;
  mret 0.

(** The encoded packets of the next two are dropped. *)
Definition ReqOrderInsert (req : OrderRequest) (requestId : Z) : M S Z :=
  seq ← NextSeq;
  record_request requestId seq (cmd_code kCmdOrderInsertReq);;
  mret 0.

Definition ReqOrderCancel (req : CancelOrderRequest) (requestId : Z) : M S Z :=
  seq ← NextSeq;
  record_request requestId seq (cmd_code kCmdOrderCancelReq);;
  mret 0.

Definition ReqQueryAccount (requestId : Z) : M S Z :=
  seq ← NextSeq;
  record_request requestId seq 0;;
  mret 0.

Definition ReqQueryPosition (requestId : Z) : M S Z := mret 0.
Definition ReqQueryOrder (requestId : Z) : M S Z := mret 0.

(** the log reads the first request, then all [count] of them *)
Definition SubscribeQuote (req : list SubscribeQuoteRequest) (count : Z) : M S Z :=
  lift (defined_if (Z.max 1 count <=? Z.of_nat (length req)));;
  mret 0.

Definition UnSubscribeQuote (req : list UnSubscribeQuoteRequest) (count : Z) : M S Z :=
  lift (defined_if (1 <=? Z.of_nat (length req)));;
  mret 0.

(** ** Requests *)

(** the requests of the API, with their ids *)
Inductive request : Type :=
| Login (req : LoginRequest) | Logout (req : LogoutRequest) | OrderInsert (req : OrderRequest)
| OrderCancel (req : CancelOrderRequest) | QueryAccount | QueryPosition | QueryOrder.

Definition run_request (r : request * Z) : M S unit :=
  (match r.1 with
   | Login req => ReqLogin req r.2
   | Logout req => ReqLogout req r.2
   | OrderInsert req => ReqOrderInsert req r.2
   | OrderCancel req => ReqOrderCancel req r.2
   | QueryAccount => ReqQueryAccount r.2
   | QueryPosition => ReqQueryPosition r.2
   | QueryOrder => ReqQueryOrder r.2
   end);;
  mret tt.

(** the command a request is recorded with, when it is *)
Definition recorded (r : request) : option Z :=
  match r with
  | Login _ => Some (cmd_code kCmdLoginReq)
  | OrderInsert _ => Some (cmd_code kCmdOrderInsertReq)
  | OrderCancel _ => Some (cmd_code kCmdOrderCancelReq)
  | QueryAccount => Some 0
  | Logout _ | QueryPosition | QueryOrder => None
  end.

Definition takes_seq (r : request) : bool :=
  match r with QueryPosition | QueryOrder => false | _ => true end.

(** what the requests come to: the next number and the pending requests, the
    time of a request left out *)
Definition ledger : Type := (Z * gmap Z (Z * Z))%type.

Definition spec_request (l : ledger) (r : request * Z) : ledger :=
  (if takes_seq r.1 then u32 (l.1 + 1) else l.1,
   match recorded r.1 with Some cmd => <[r.2 := (l.1, cmd)]> l.2 | None => l.2 end).

Definition ledger_of (a : GatewayApiImpl) : ledger :=
  (ga_seq a, (λ c, (rc_seq c, rc_cmd c)) <$> ga_pendingRequests a).
End api.

Section api_facts.
Context {K : Type} `{Kernel K}.
Context (packet_rest : Packet → list byte).
Abbreviation S := (GatewayApiImpl * World K)%type.
Abbreviation run := (run_request packet_rest).

(** only the clock of the process is used *)
Definition same_process (w w' : World K) : Prop := w' = set_w_kern (w_kern w') w.

Lemma same_process_refl w : same_process w w.
Proof. by destruct w. Qed.
Lemma same_process_trans w1 w2 w3 : same_process w1 w2 → same_process w2 w3 → same_process w1 w3.
Proof. unfold same_process. intros -> ->. reflexivity. Qed.

Lemma record_request_spec a (w : World K) requestId seq cmd :
  ∃ t w', record_request requestId seq cmd (a, w) =
    Ok (mkContext (ga_currentConnId a) seq cmd t,
        (mkApi (ga_spi a) (ga_initialized a) (ga_seq a) (ga_currentConnId a)
           (<[requestId := mkContext (ga_currentConnId a) seq cmd t]> (ga_pendingRequests a)), w')) ∧
    same_process w w'.
Proof.
  set (tv := (sys_now (w_kern w)).1).
  exists (u64 (MilliSecondsSinceEpoch (i64 (tv.1 * kMicroSecondsPerSecond + tv.2)))),
    (set_w_kern (sys_now (w_kern w)).2 w).
  by destruct a.
Qed.

Definition bump (a : GatewayApiImpl) : GatewayApiImpl :=
  mkApi (ga_spi a) (ga_initialized a) (u32 (ga_seq a + 1)) (ga_currentConnId a)
    (ga_pendingRequests a).

Lemma NextSeq_spec a (w : World K) : NextSeq (a, w) = Ok (ga_seq a, (bump a, w)).
Proof. reflexivity. Qed.

Lemma run_request_spec r a (w : World K) :
  ga_currentConnId a <= 0 →
  ∃ a' w', run r (a, w) = Ok (tt, (a', w')) ∧ ledger_of a' = spec_request (ledger_of a) r ∧
    ga_currentConnId a' = ga_currentConnId a ∧ same_process w w'.
Proof.
  intros Hc. assert (E : (0 <? ga_currentConnId a) = false) by (apply Z.ltb_ge; lia).
  destruct r as [[q|q|q|q| | |] id]; unfold run_request; cbn [fst snd];
    unfold ReqLogin, ReqLogout, ReqOrderInsert, ReqOrderCancel, ReqQueryAccount;
    rewrite ?runM_bind, ?NextSeq_spec, ?runM_bind;
    try (match goal with |- context [record_request id ?s ?c (bump a, w)] =>
           destruct (record_request_spec (bump a) w id s c) as (t & w' & -> & Hw) end;
         cbn [ga_currentConnId bump rc_connId]; rewrite ?E;
         eexists _, w'; split; [reflexivity|];
         split; [unfold ledger_of; cbn; by rewrite fmap_insert|by split]).
  - change (get_api (bump a, w)) with (Ok (bump a, (bump a, w))). cbv iota beta.
    change (ga_currentConnId (bump a)) with (ga_currentConnId a). rewrite E.
    exists (bump a), w. split_and!; reflexivity || apply same_process_refl.
  - exists a, w. split_and!; reflexivity || apply same_process_refl.
  - exists a, w. split_and!; reflexivity || apply same_process_refl.
Qed.

(** sending more than can be read is undefined *)
Lemma SendToClient_oob connId data len (w : World K) c conn :
  cm_connections (w_cm w) !! connId = Some c → w_conns w !! c = Some conn →
  Z.of_nat (length data) < len < 2 ^ 31 →
  ConnectionManager_SendToClient connId data len w = Fail UndefinedBehaviour.
Proof.
  intros Hcm Hc Hlen. unfold ConnectionManager_SendToClient, ConnectionManager_GetConnection.
  rewrite runM_bind. unfold gets. rewrite Hcm. cbn [mbind option_bind]. unfold lock. rewrite Hc.
  rewrite runM_bind. unfold TcpConnection_Send_ptr. rewrite i32_small by lia.
  rewrite (proj2 (Z.ltb_ge _ _)) by lia. rewrite runM_bind.
  by rewrite (proj2 (Z.leb_gt _ _)) by lia.
Qed.

Lemma send_packet_object_oob connId p a (w : World K) c conn :
  cm_connections (w_cm w) !! connId = Some c → w_conns w !! c = Some conn →
  Z.of_nat (length (header_bytes (header p) ++ packet_rest p)) < TotalLength p < 2 ^ 31 →
  send_packet_object packet_rest connId p (a, w) = Fail UndefinedBehaviour.
Proof.
  intros Hcm Hc Hlen. unfold send_packet_object. rewrite runM_bind.
  unfold SendToClient, in_world. cbn [snd]. by erewrite SendToClient_oob.
Qed.
End api_facts.

(** C30: Requests are numbered and recorded. While no client is current, any
    sequence of requests succeeds: the login, logout, order and account
    requests take consecutive sequence numbers, modulo 2^32, and each id of a
    recorded request is pending with the number and the command of the last
    request made under it. *)
Theorem requests_ledger {K} `{Kernel K} packet_rest rs a (w : World K) :
  ga_currentConnId a <= 0 →
  ∃ a' w', forM rs (run_request packet_rest) (a, w) = Ok (tt, (a', w')) ∧
    ledger_of a' = foldl spec_request (ledger_of a) rs ∧ same_process w w'.
Proof.
  revert a w. induction rs as [|r rs IH]; intros a w Hc; [exists a, w; split_and!; reflexivity || apply same_process_refl|].
  destruct (run_request_spec packet_rest r a w Hc) as (a1 & w1 & E1 & El & Ec & Hw).
  destruct (IH a1 w1 ltac:(lia)) as (a2 & w2 & E2 & El2 & Hw2).
  exists a2, w2. split; [|split; [by rewrite El2, El|by eapply same_process_trans]].
  cbn [forM]. by rewrite runM_bind, E1.
Qed.

(** Sending a login to a client reads out of bounds. [ReqLogin] passes the
    address of the [Packet] object where the bytes of the packet are meant:
    once a client is current, it reads the object's representation up to the
    total length of the packet, which is more than the object has. *)
Theorem login_reads_out_of_bounds {K} `{Kernel K} packet_rest req id a (w : World K) c conn :
  (∀ p, Z.of_nat (length (packet_rest p)) < struct_size LoginRequest) → struct_ok req →
  0 < ga_currentConnId a →
  cm_connections (w_cm w) !! ga_currentConnId a = Some c → w_conns w !! c = Some conn →
  ReqLogin packet_rest req id (a, w) = Fail UndefinedBehaviour.
Proof.
  intros Hrest Hreq Hid Hcm Hc. unfold ReqLogin.
  rewrite runM_bind, NextSeq_spec. rewrite runM_bind.
  destruct (record_request_spec (bump a) w id (ga_seq a) (cmd_code kCmdLoginReq))
    as (t & w' & -> & Hw).
  cbn [ga_currentConnId bump rc_connId]. rewrite runM_bind, (proj2 (Z.ltb_lt _ _)) by done.
  cbn [when]. erewrite send_packet_object_oob; [done|by rewrite Hw|by rewrite Hw|].
  cbn [TotalLength Encode header h_length h_seq]. rewrite length_app, length_header_bytes.
  rewrite (length_to_bytes req Hreq) in *. specialize (Hrest
    (Encode (cmd_code kCmdLoginReq) (ga_seq a) (to_bytes req))).
  change (struct_size LoginRequest) with 96 in *. change kHeaderLength with 12.
  unfold u32. rewrite !Z.mod_small by (rewrite ?Z.mod_small; lia). lia.
Qed.
