(* ===== verification/ApiClient.v ===== *)
(** * The command-line client

    [api_cli/ApiClient] and [api_cli/main]: a blocking client of the gateway,
    the wrappers that send requests through it, the demonstrations and the
    interactive menu. What is printed is kept as values. *)
From Stdlib Require Import Ascii.
From S2P Require Import Prelude RingBuffer Protocol Reactor Structs Config.

(** ** The operating system *)

Inductive recv_result : Type :=
| RecvData (d : list byte)    (* a positive result *)
| RecvClosed                  (* 0 *)
| RecvError (errno : Z).

Class ClientOS (K : Type) : Type := {
  (** [getaddrinfo(host, port)] for IPv4 streams: [None] on an error *)
  os_getaddrinfo : string → string → K → option Z * K;
  (** [socket] for an address *)
  os_socket : Z → K → Z * K;
  (** [fcntl(fd, F_GETFL)] and [fcntl(fd, F_SETFL, flags)] *)
  os_getfl : Z → K → Z * K;
  os_setfl : Z → Z → K → Z * K;
  (** [connect]: the result and [errno] *)
  os_connect : Z → Z → K → Z * Z * K;
  (** [poll] of one descriptor: the result and [revents] *)
  os_poll : Z → Z → Z → K → Z * Z * K;
  (** [getsockopt(SO_ERROR)] *)
  os_so_error : Z → K → Z * K;
  os_writev : Z → list (list byte) → K → Z * K;
  os_write : Z → list byte → K → Z * K;
  (** [recv(fd, buf, len, 0)] *)
  os_recv : Z → nat → K → recv_result * K;
  os_close : Z → K → K;
  (** [time(nullptr)] *)
  os_time : K → Z * K;
  (** [fgets] on the standard input: [None] at its end *)
  os_fgets : nat → K → option string * K;
  (** a signal has stopped the program *)
  os_interrupted : K → bool;
}.

Definition O_NONBLOCK : Z := 2048.
Definition POLLOUT : Z := 4.
Definition EINPROGRESS : Z := 115.

(** ** ApiClient *)

Record ApiClient : Type := mkClient { sockfd_ : Z; seq_ : Z }.

Definition new_ApiClient : ApiClient := mkClient (-1) 1.
Definition IsConnected (c : ApiClient) : bool := 0 <=? sockfd_ c.

(** what [RecvPacket] prints of a body *)
Inductive shown : Type :=
| ShownLogin (r : LoginResponse)
| ShownOrder (i : OrderInfo)
| ShownCancel (i : OrderInfo)
| ShownSymbols (l : list SubscribeQuoteRequest)
| ShownTick (t : TickData)
| ShownStatus (i : OrderInfo)
| ShownTrade (t : TradeInfo)
| ShownRaw (dump : list byte).

(** the object at the start of a body that is long enough *)
Definition view {A} `{Struct A} (f : A → shown) (body : list byte) : option shown :=
  if struct_size A <=? Z.of_nat (length body) then f <$> of_bytes body else None.

(** the array of requests of a subscription *)
Fixpoint symbols (n : nat) (body : list byte) : list SubscribeQuoteRequest :=
  match n with
  | O => []
  | S n => option_list (of_bytes body) ++
           symbols n (drop (Z.to_nat (struct_size SubscribeQuoteRequest)) body)
  end.

(** the switch of [RecvPacket] *)
Definition show_body (cmd : Z) (body : list byte) : option shown :=
  if decide (body = []) then None
  else if cmd =? cmd_code kCmdLoginRsp then view ShownLogin body
  else if cmd =? cmd_code kCmdOrderInsertRsp then view ShownOrder body
  else if cmd =? cmd_code kCmdOrderCancelRsp then view ShownCancel body
  else if cmd =? cmd_code kCmdSubscribeRsp then
    Some (ShownSymbols (symbols
      (Z.to_nat (Z.of_nat (length body) / struct_size SubscribeQuoteRequest)) body))
  else if cmd =? cmd_code kCmdTickNotify then view ShownTick body
  else if cmd =? cmd_code kCmdOrderNotify then view ShownStatus body
  else if cmd =? cmd_code kCmdTradeNotify then view ShownTrade body
  else Some (ShownRaw (take 64 body)).

(** the name of a command *)
Definition cmdName (cmd : Z) : string :=
  match list_find (λ c, cmd_code c = cmd)
    [kCmdLoginReq; kCmdLoginRsp; kCmdLogoutReq; kCmdLogoutRsp; kCmdOrderInsertReq;
     kCmdOrderInsertRsp; kCmdOrderCancelReq; kCmdOrderCancelRsp; kCmdSubscribeReq;
     kCmdSubscribeRsp; kCmdUnsubscribeReq; kCmdUnsubscribeRsp; kCmdTickNotify; kCmdOrderNotify;
     kCmdTradeNotify; kCmdHeartbeatReq; kCmdHeartbeatRsp] with
  | None => "Unknown"
  | Some (_, c) =>
      match c with
      | kCmdLoginReq => "LoginReq" | kCmdLoginRsp => "LoginRsp"
      | kCmdLogoutReq => "LogoutReq" | kCmdLogoutRsp => "LogoutRsp"
      | kCmdOrderInsertReq => "OrderInsertReq" | kCmdOrderInsertRsp => "OrderInsertRsp"
      | kCmdOrderCancelReq => "OrderCancelReq" | kCmdOrderCancelRsp => "OrderCancelRsp"
      | kCmdSubscribeReq => "SubscribeReq" | kCmdSubscribeRsp => "SubscribeRsp"
      | kCmdUnsubscribeReq => "UnsubscribeReq" | kCmdUnsubscribeRsp => "UnsubscribeRsp"
      | kCmdTickNotify => "TickNotify" | kCmdOrderNotify => "OrderNotify"
      | kCmdTradeNotify => "TradeNotify"
      | kCmdHeartbeatReq => "HeartbeatReq" | kCmdHeartbeatRsp => "HeartbeatRsp"
      end
  end.

(** a response, as it is printed and as it is passed to the callback *)
Record response : Type := mkResponse {
  rs_name : string;
  rs_cmd : Z;
  rs_seq : Z;
  rs_body : list byte;
  rs_shown : option shown;
}.

(** the client, the responses printed so far, and the system *)
Record cstate (K : Type) : Type := mkC {
  c_client : ApiClient;
  c_out : list response;
  c_kern : K;
}.
Arguments mkC {K}. Arguments c_client {K}. Arguments c_out {K}. Arguments c_kern {K}.

Section client.
Context {K : Type} `{ClientOS K}.
Abbreviation S := (cstate K).

(** the user's callback, called with the command, the number and the body *)
Context (responseCb_ : option (Z → Z → list byte → M S unit)).

Definition os {A} (f : K → A * K) : M S A := λ s,
  Ok ((f (c_kern s)).1, mkC (c_client s) (c_out s) (f (c_kern s)).2).
Definition os_ (f : K → K) : M S unit := os (λ k, (tt, f k)).
Definition get_client : M S ApiClient := gets c_client.
Definition put_client (c : ApiClient) : M S unit := modify (λ s, mkC c (c_out s) (c_kern s)).
Definition set_sockfd (fd : Z) : M S unit := c ← get_client; put_client (mkClient fd (seq_ c)).

Definition Disconnect : M S unit :=
  c ← get_client;
  when (0 <=? sockfd_ c) (os_ (os_close (sockfd_ c));; set_sockfd (-1)).

(** the connection attempt failed: the socket is closed *)
Definition abandon (fd : Z) : M S bool :=
  os_ (os_close fd);; set_sockfd (-1);; mret false.

Definition Connect (host : string) (port : Z) : M S bool :=
  c ← get_client;
  when (0 <=? sockfd_ c) Disconnect;;
  result ← os (os_getaddrinfo host (pretty port));
  match result with
  | None => mret false
  | Some addr =>
      fd ← os (os_socket addr);
      set_sockfd fd;;
      if fd <? 0 then mret false
      else
        flags ← os (os_getfl fd);
        os (os_setfl fd (Z.lor flags O_NONBLOCK));;
        r ← os (os_connect fd addr);
        let '(ret, errno) := r in
        if (ret <? 0) && negb (errno =? EINPROGRESS) then abandon fd
        else if ret <? 0 then
          p ← os (os_poll fd POLLOUT 3000);
          let '(ret, revents) := p in
          if (ret <=? 0) || (Z.land revents POLLOUT =? 0) then abandon fd
          else
            sockErr ← os (os_so_error fd);
            if negb (sockErr =? 0) then abandon fd else mret true
        else mret true
  end.

(** the header [SendRequest] builds with [memcpy] *)
Definition request_header (cmd seq len : Z) : list byte :=
  le_bytes 4 (u32 (kHeaderLength + u32 len)) ++ le_bytes 2 cmd ++ le_bytes 2 0 ++ le_bytes 4 seq.

Definition SendRequest (cmd : Z) (data : list byte) : M S Z :=
  c ← get_client;
  if sockfd_ c <? 0 then mret 0
  else
    let seq := seq_ c in
    put_client (mkClient (sockfd_ c) (u32 (seq + 1)));;
    n ← os (os_writev (sockfd_ c) [request_header cmd seq (Z.of_nat (length data)); data]);
    mret (if n <? 0 then 0 else seq).

Definition SendHeartbeatRsp (seq : Z) : M S unit :=
  c ← get_client;
  if sockfd_ c <? 0 then mret tt
  else
    os (os_write (sockfd_ c)
          (le_bytes 4 kHeaderLength ++ le_bytes 2 (cmd_code kCmdHeartbeatRsp) ++ le_bytes 2 0 ++
           le_bytes 4 seq));;
    mret tt.

(** the loop of [RecvAll], with the bytes received so far; every turn receives
    one byte at least, so that [len] turns are enough *)
Fixpoint RecvAll_loop (fuel : nat) (fd : Z) (len : nat) (got : list byte) :
    M S (option (list byte)) :=
  match fuel with
  | O => failM OutOfFuel
  | Datatypes.S fuel =>
      if (length got <? len)%nat then
        r ← os (os_recv fd (len - length got));
        match r with
        | RecvData d => RecvAll_loop fuel fd len (got ++ d)
        | RecvClosed | RecvError _ => mret None
        end
      else mret (Some got)
  end.

(** [RecvAll]: on [false] the caller never looks at its buffer *)
Definition RecvAll (fd : Z) (len : nat) : M S (option (list byte)) :=
  RecvAll_loop (Datatypes.S len) fd len [].

(** the end of [RecvPacket]: the response is printed, a heartbeat request is
    answered, and the callback called *)
Definition respond (h : PacketHeader) (body : list byte) : M S unit :=
  modify (λ s, mkC (c_client s)
    (c_out s ++ [mkResponse (cmdName (h_cmd h)) (h_cmd h) (h_seq h) body (show_body (h_cmd h) body)])
    (c_kern s));;
  when (h_cmd h =? cmd_code kCmdHeartbeatReq) (SendHeartbeatRsp (h_seq h));;
  match responseCb_ with
  | Some cb => cb (h_cmd h) (h_seq h) body
  | None => mret tt
  end.

(** [RecvPacket]; [timeoutMs] is not used by the code *)
Definition RecvPacket (timeoutMs : Z) : M S bool :=
  c ← get_client;
  if sockfd_ c <? 0 then mret false
  else
    hd ← RecvAll (sockfd_ c) 12;
    match hd with
    | None => mret false
    | Some hd =>
        let h := header_of hd in
        if (h_length h <? kHeaderLength) || (64 * 1024 <? h_length h) then mret false
        else
          let bodyLen := Z.to_nat (h_length h - kHeaderLength) in
          body ← (if (0 <? bodyLen)%nat then RecvAll (sockfd_ c) bodyLen else mret (Some []));
          match body with
          | None => mret false
          | Some body => respond h body;; mret true
          end
    end.

(** ** TradeApiDemo and QuoteApiDemo

    The results are [int]s; the requests are printed first. *)

Definition send_struct {A} `{Struct A} (cmd : CmdType) (req : A) : M S Z :=
  n ← SendRequest (cmd_code cmd) (to_bytes req); mret (i32 n).

Definition Trade_ReqLogin (req : LoginRequest) (requestId : Z) : M S Z :=
  send_struct kCmdLoginReq req.
Definition Trade_ReqLogout (req : LogoutRequest) (requestId : Z) : M S Z :=
  send_struct kCmdLogoutReq req.
Definition Trade_ReqOrderInsert (req : OrderRequest) (requestId : Z) : M S Z :=
  send_struct kCmdOrderInsertReq req.
Definition Trade_ReqOrderCancel (req : CancelOrderRequest) (requestId : Z) : M S Z :=
  send_struct kCmdOrderCancelReq req.
(** an empty login request stands in for the query *)
Definition Trade_ReqQueryAccount (requestId : Z) : M S Z :=
  send_struct kCmdLoginReq (mkLoginRequest (zeros ACCOUNT_LEN) (zeros PASSWORD_LEN)).
Definition Trade_ReqQueryPosition (requestId : Z) : M S Z := mret 0.
Definition Trade_ReqQueryOrder (requestId : Z) : M S Z := mret 0.

Definition Quote_ReqLogin (req : LoginRequest) (requestId : Z) : M S Z :=
  send_struct kCmdLoginReq req.
Definition Quote_ReqLogout (req : LogoutRequest) (requestId : Z) : M S Z :=
  send_struct kCmdLogoutReq req.

(** [count] requests of the array, the bytes of each after the other *)
Definition Quote_SubscribeQuote (req : list SubscribeQuoteRequest) (count : Z) : M S Z :=
  lift (defined_if ((0 <=? count) && (count <=? Z.of_nat (length req))));;
  n ← SendRequest (cmd_code kCmdSubscribeReq) (concat (to_bytes <$> take (Z.to_nat count) req));
  mret (i32 n).
Definition Quote_UnSubscribeQuote (req : list UnSubscribeQuoteRequest) (count : Z) : M S Z :=
  lift (defined_if ((0 <=? count) && (count <=? Z.of_nat (length req))));;
  n ← SendRequest (cmd_code kCmdUnsubscribeReq) (concat (to_bytes <$> take (Z.to_nat count) req));
  mret (i32 n).
End client.

(** ** Facts *)

(** the bytes the peer has sent and the client has not received, and what
    [recv] does with them *)
Class ClientLaws (K : Type) `{ClientOS K} : Type := {
  incoming : K → Z → list byte;
  recv_data fd n k d k' :
    os_recv fd n k = (RecvData d, k') →
    d ≠ [] ∧ (length d ≤ n)%nat ∧ incoming k fd = d ++ incoming k' fd;
  recv_none fd n k r k' :
    os_recv fd n k = (r, k') → (∀ d, r ≠ RecvData d) → incoming k' fd = incoming k fd;
}.

(** [recv] on [fd] delivers what has come *)
Definition delivers {K} `{ClientLaws K} (fd : Z) : Prop :=
  ∀ n k, (0 < n)%nat → incoming k fd ≠ [] → ∃ d k', os_recv fd n k = (RecvData d, k').

Section facts.
Context {K : Type} `{ClientLaws K}.
Abbreviation S := (cstate K).
Implicit Types (s : S).

(** [s'] differs from [s] in the system only *)
Definition same_client s s' : Prop := c_client s' = c_client s ∧ c_out s' = c_out s.

(** Receiving keeps what [recv] keeps of the system. *)
Context (fd : Z) (P : K → Prop).
Hypothesis recv_keeps : ∀ n k, P k → P (os_recv fd n k).2.

Lemma RecvAll_loop_ok len fuel got s data rest :
  delivers fd → incoming (c_kern s) fd = data ++ rest → P (c_kern s) →
  length (got ++ data) = len → (length data < fuel)%nat →
  ∃ s', RecvAll_loop fuel fd len got s = Ok (Some (got ++ data), s') ∧
    incoming (c_kern s') fd = rest ∧ P (c_kern s') ∧ same_client s s'.
Proof using recv_keeps.
  intros Hdel. revert got s data. induction fuel as [|fuel IH]; intros got s data Hin HP Hlen Hf; [lia|].
  cbn [RecvAll_loop]. rewrite length_app in Hlen.
  destruct (Nat.ltb_spec (length got) len) as [Hlt|Hge].
  - destruct (Hdel (len - length got)%nat (c_kern s)) as (d & k' & E); [lia| |].
    { rewrite Hin. destruct data; [simpl in *; lia|done]. }
    pose proof (recv_keeps (len - length got)%nat _ HP) as HP'. rewrite E in HP'.
    destruct (recv_data _ _ _ _ _ E) as (Hd & Hdl & Hdin).
    rewrite runM_bind. unfold os. rewrite E. cbn [fst snd].
    assert (∃ data', data = d ++ data') as [data' ->].
    { rewrite Hin in Hdin. apply app_eq_inv in Hdin as [(x & -> & _)|(x & -> & _)]; [by exists x|].
      assert (x = []) as ->; [|exists []; by rewrite !(right_id_L [] (++))].
      rewrite length_app in Hdl. apply length_zero_iff_nil. lia. }
    rewrite Hin, <- (assoc_L (++)) in Hdin. apply app_inv_head in Hdin.
    rewrite length_app in *.
    destruct (IH (got ++ d) (mkC (c_client s) (c_out s) k') data') as (s' & E' & Hin' & HP'' & Hs').
    + by cbn.
    + done.
    + rewrite !length_app. lia.
    + destruct d; [done|]. simpl in *. lia.
    + exists s'. rewrite E', <- (assoc_L (++)). by split_and!.
  - assert (data = []) as -> by (apply length_zero_iff_nil; lia).
    exists s. rewrite (right_id_L [] (++)). by split_and!.
Qed.

Lemma RecvAll_ok s data rest :
  delivers fd → incoming (c_kern s) fd = data ++ rest → P (c_kern s) →
  ∃ s', RecvAll fd (length data) s = Ok (Some data, s') ∧
    incoming (c_kern s') fd = rest ∧ P (c_kern s') ∧ same_client s s'.
Proof using recv_keeps. intros Hd Hin HP. apply (RecvAll_loop_ok _ _ []); [done..|lia]. Qed.

(** a packet that has come is received *)
Lemma RecvPacket_ok cb timeoutMs p rest s :
  sockfd_ (c_client s) = fd → 0 ≤ fd → delivers fd → packet_wf p →
  incoming (c_kern s) fd = wire p ++ rest → P (c_kern s) →
  ∃ s', incoming (c_kern s') fd = rest ∧ P (c_kern s') ∧ same_client s s' ∧
    RecvPacket cb timeoutMs s = (respond cb (header p) (body p);; mret true) s'.
Proof using recv_keeps.
  intros Efd Hfd Hdel (Hh & Hl & Hm) Hin HP. unfold wire in Hin. rewrite <- (assoc_L (++)) in Hin.
  unfold kHeaderLength, max_packet in *.
  destruct (RecvAll_ok s _ _ Hdel Hin HP) as (s1 & E1 & Hin1 & HP1 & Hs1).
  rewrite length_header_bytes in E1.
  unfold RecvPacket, get_client. rewrite runM_bind. unfold gets. rewrite Efd.
  rewrite (proj2 (Z.ltb_ge fd 0)) by done. rewrite runM_bind, E1.
  rewrite <- (app_nil_r (header_bytes _)), header_of_bytes by done.
  unfold kHeaderLength.
  rewrite (proj2 (Z.ltb_ge _ 12)), (proj2 (Z.ltb_ge (64 * 1024) _)) by lia. cbn [orb].
  rewrite runM_bind.
  replace (Z.to_nat (h_length (header p) - 12)) with (length (body p)) by lia.
  destruct (Nat.ltb_spec 0 (length (body p))) as [Hb|Hb].
  - destruct (RecvAll_ok s1 _ _ Hdel Hin1 HP1) as (s2 & E2 & Hin2 & HP2 & Hs2). rewrite E2.
    exists s2. split; [done|]. split; [done|]. split; [|done].
    destruct Hs1, Hs2. split; congruence.
  - assert (E : body p = []) by (apply length_zero_iff_nil; lia). rewrite E in *.
    by exists s1.
Qed.
End facts.

(** the bytes of a request, and the call that hands them to the system *)
Lemma request_wire cmd seq data :
  concat [request_header cmd seq (Z.of_nat (length data)); data] = wire (Encode cmd seq data).
Proof. cbn. by rewrite (right_id_L [] (++)). Qed.

Lemma SendRequest_writes {K} `{ClientOS K} cmd data (s : cstate K) :
  0 ≤ sockfd_ (c_client s) →
  let seq := seq_ (c_client s) in
  let r := os_writev (sockfd_ (c_client s))
             [request_header cmd seq (Z.of_nat (length data)); data] (c_kern s) in
  SendRequest cmd data s =
    Ok (if r.1 <? 0 then 0 else seq,
        mkC (mkClient (sockfd_ (c_client s)) (u32 (seq + 1))) (c_out s) r.2).
Proof.
  intros Hfd seq r. unfold SendRequest, get_client, put_client, os. rewrite runM_bind. unfold gets.
  by rewrite (proj2 (Z.ltb_ge _ _)).
Qed.

(** C31: The client's encoder is the codec's. A request of a connected client
    goes out as a [writev] of exactly the bytes of [Codec::Encode]'s packet,
    under the client's next sequence number; the gateway's codec reads it back
    as that packet. *)
Theorem SendRequest_encodes {K} `{ClientOS K} cmd data (s : cstate K) :
  0 ≤ sockfd_ (c_client s) → 0 ≤ cmd < 2 ^ 16 → 0 ≤ seq_ (c_client s) < 2 ^ 32 →
  kHeaderLength + Z.of_nat (length data) ≤ max_packet →
  let p := Encode cmd (seq_ (c_client s)) data in
  ∃ iov, concat iov = wire p ∧ decodes (concat iov) [p] [] false ∧
    let r := os_writev (sockfd_ (c_client s)) iov (c_kern s) in
    SendRequest cmd data s = Ok (if r.1 <? 0 then 0 else seq_ (c_client s),
      mkC (mkClient (sockfd_ (c_client s)) (u32 (seq_ (c_client s) + 1))) (c_out s) r.2).
Proof.
  intros Hfd Hcmd Hseq Hlen p.
  exists [request_header cmd (seq_ (c_client s)) (Z.of_nat (length data)); data].
  rewrite request_wire. split; [done|]. split; [|by apply SendRequest_writes].
  pose proof (decodes_wires [p] []) as Hd. cbn in Hd.
  rewrite !(right_id_L [] (++)) in Hd. apply Hd; [|lia].
  apply Forall_singleton. by apply Encode_wf.
Qed.

(** The client reads whole packets. When a packet of at most 64 KiB has
    come, followed by anything, [RecvPacket] receives exactly that packet,
    prints it, answers it if it is a heartbeat request, hands it to the
    callback and returns true; what follows stays to be received. *)
Theorem RecvPacket_reads {K} `{ClientLaws K} cb timeoutMs p rest (s : cstate K) :
  let fd := sockfd_ (c_client s) in
  0 ≤ fd → delivers fd → packet_wf p → incoming (c_kern s) fd = wire p ++ rest →
  ∃ s', incoming (c_kern s') fd = rest ∧ same_client s s' ∧
    RecvPacket cb timeoutMs s = (respond cb (header p) (body p);; mret true) s'.
Proof.
  intros fd Hfd Hdel Hp Hin.
  destruct (RecvPacket_ok fd (λ _, True) (λ _ _ _, I) cb timeoutMs p rest s)
    as (s' & ? & _ & ? & ?); [done..|]. by exists s'.
Qed.

(** A packet received in part is lost. If the system delivers fewer bytes
    than a header and then reports that it would block, as the socket
    [Connect] made non-blocking may, [RecvPacket] returns false and the bytes
    are gone: the next call starts in the middle of the packet. *)
Theorem RecvPacket_loses_partial {K} `{ClientLaws K} cb timeoutMs d k1 e k2 (s : cstate K) :
  let fd := sockfd_ (c_client s) in
  0 ≤ fd → (length d < 12)%nat → os_recv fd 12 (c_kern s) = (RecvData d, k1) →
  os_recv fd (12 - length d) k1 = (RecvError e, k2) →
  RecvPacket cb timeoutMs s = Ok (false, mkC (c_client s) (c_out s) k2) ∧
  incoming (c_kern s) fd = d ++ incoming k2 fd ∧ d ≠ [].
Proof.
  intros fd Hfd Hd E1 E2. destruct (recv_data _ _ _ _ _ E1) as (Hne & _ & Hin).
  split; [|split; [|done]].
  - unfold RecvPacket, get_client. rewrite runM_bind. unfold gets. fold fd.
    rewrite (proj2 (Z.ltb_ge fd 0)) by done. rewrite runM_bind.
    unfold RecvAll. cbn [RecvAll_loop]. rewrite (proj2 (Nat.ltb_lt _ _)) by (simpl; lia).
    rewrite runM_bind. unfold os at 1. change (12 - length [])%nat with 12%nat. rewrite E1.
    cbn [fst snd app]. rewrite (proj2 (Nat.ltb_lt _ _)) by done.
    rewrite runM_bind. unfold os at 1. cbn [c_kern]. by rewrite E2.
  - rewrite Hin. f_equal. symmetry. by eapply recv_none.
Qed.

Section connect.
Context {K : Type} `{ClientOS K}.
Abbreviation S := (cstate K).
Implicit Types (s : S).
Abbreviation tells := (λ b s', IsConnected (c_client s') = b).

Lemma wp_os {A} (f : K → A * K) (Q : A → S → Prop) s :
  (∀ a k, Q a (mkC (c_client s) (c_out s) k)) → wp never (os f) Q s.
Proof. intros HQ. apply HQ. Qed.

Lemma wp_abandon fd s : wp never (abandon fd) tells s.
Proof. done. Qed.

(** the attempt on a socket *)
Lemma Connect_tells host port s : wp never (Connect host port) tells s.
Proof.
  unfold Connect. apply wp_bind, wp_gets, wp_bind.
  eapply wp_post with (R := λ (_ : unit) s', IsConnected (c_client s') = false).
  { apply wp_when. unfold IsConnected. destruct (0 <=? sockfd_ (c_client s)) eqn:Ec; [|done].
    unfold Disconnect. apply wp_bind, wp_gets. by rewrite Ec. }
  intros [] s1 Hs1. apply wp_bind, wp_os. intros [addr|] k1; [|by apply wp_ret].
  apply wp_bind, wp_os. intros fd k2. apply wp_bind. unfold set_sockfd.
  apply wp_bind, wp_gets, wp_modify. cbn [c_client c_out c_kern].
  destruct (Z.ltb_spec fd 0) as [Hfd|Hfd].
  { apply wp_ret. unfold IsConnected. cbn. by apply Z.leb_gt. }
  assert (Hok : ∀ q o (k : K), wp never (mret true) tells (mkC (mkClient fd q) o k)).
  { intros q o k. apply wp_ret. by apply Z.leb_le. }
  apply wp_bind, wp_os. intros flags k3. apply wp_bind, wp_os. intros _ k4.
  apply wp_bind, wp_os. intros [ret errno] k5. cbn [c_client c_out c_kern].
  destruct (_ && _); [apply wp_abandon|]. destruct (ret <? 0); [|apply Hok].
  apply wp_bind, wp_os. intros [ret2 revents] k6.
  destruct (_ || _); [apply wp_abandon|]. apply wp_bind, wp_os. intros sockErr k7.
  destruct (negb _); [apply wp_abandon|apply Hok].
Qed.
End connect.

(** [Connect] tells the truth. It returns, and returns true exactly when it
    leaves the client connected, whatever the system answers; on a failure no descriptor
    is kept. *)
Theorem Connect_result {K} `{ClientOS K} host port (s : cstate K) :
  ∃ b s', Connect host port s = Ok (b, s') ∧ IsConnected (c_client s') = b.
Proof. apply wp_ok_inv, Connect_tells. Qed.

(** ** A concrete system

    The peer's bytes come in chunks. With [nonblocking], an empty chunk is a
    moment at which nothing has come. *)
Record chunks (nonblocking : bool) : Type := mkChunks { ck_list : list (list byte) }.
Arguments mkChunks {_}. Arguments ck_list {_}.

Definition EAGAIN : Z := 11.

Fixpoint recv_chunks (nonblocking : bool) (n : nat) (l : list (list byte)) :
    recv_result * list (list byte) :=
  match l with
  | [] => (RecvClosed, [])
  | [] :: l => if nonblocking then (RecvError EAGAIN, l) else recv_chunks nonblocking n l
  | c :: l => if (0 <? n)%nat then (RecvData (take n c), drop n c :: l) else (RecvError EAGAIN, c :: l)
  end.

#[export] Instance chunks_os nb : ClientOS (chunks nb) := {
  os_getaddrinfo host port k := (Some 1, k);
  os_socket addr k := (3, k);
  os_getfl fd k := (2, k);
  os_setfl fd flags k := (0, k);
  os_connect fd addr k := (-1, EINPROGRESS, k);
  os_poll fd events t k := (1, POLLOUT, k);
  os_so_error fd k := (0, k);
  os_writev fd iov k := (Z.of_nat (length (concat iov)), k);
  os_write fd d k := (Z.of_nat (length d), k);
  os_recv fd n k := let r := recv_chunks nb n (ck_list k) in (r.1, mkChunks r.2);
  os_close fd k := k;
  os_time k := (0, k);
  os_fgets n k := (None, k);
  os_interrupted k := false;
}.

Lemma recv_chunks_spec nb n l :
  match recv_chunks nb n l with
  | (RecvData d, l') => d ≠ [] ∧ (length d ≤ n)%nat ∧ concat l = d ++ concat l'
  | (_, l') => concat l' = concat l
  end.
Proof.
  induction l as [|[|b c] l IH]; [done| |]; cbn [recv_chunks].
  - by destruct nb.
  - destruct (Nat.ltb_spec 0 n) as [Hn|Hn]; [|done]. split_and!.
    + by destruct n; [lia|].
    + rewrite length_take. lia.
    + cbn [concat]. by rewrite (assoc_L (++)), take_drop.
Qed.

#[export] Instance chunks_laws nb : ClientLaws (chunks nb).
Proof.
  refine {| incoming k fd := concat (ck_list k) |}.
  - intros fd n k d k' [= E <-]. pose proof (recv_chunks_spec nb n (ck_list k)) as Hs.
    destruct (recv_chunks _ _ _) as [r l]. cbn in *. by subst.
  - intros fd n k r k' [= E <-] Hr. pose proof (recv_chunks_spec nb n (ck_list k)) as Hs.
    destruct (recv_chunks _ _ _) as [r' l]. cbn in *. subst. destruct r; [by destruct (Hr d)|done..].
Defined.

Lemma chunks_deliver fd : delivers (K := chunks false) fd.
Proof.
  intros n [l] Hn Hin. cbn in *. cut (∃ d, (recv_chunks false n l).1 = RecvData d).
  { intros [d E]. eexists d, _. by rewrite E. }
  induction l as [|[|b c] l IH]; [done|by apply IH|].
  destruct n; [lia|]. cbn. eauto.
Qed.

Definition connected_client {nb} (l : list (list byte)) : cstate (chunks nb) :=
  mkC (mkClient 3 7) [] (mkChunks l).

Definition some_packet : Packet := Encode (cmd_code kCmdTickNotify) 5 (Z_to_byte <$> [1; 2; 3]).

Lemma SendRequest_encodes_witness :
  ∃ iov, concat iov = wire (Encode 0x101 7 (Z_to_byte <$> [1; 2])) ∧
    SendRequest 0x101 (Z_to_byte <$> [1; 2]) (connected_client (nb := false) []) =
      Ok (7, mkC (mkClient 3 8) [] (mkChunks [])).
Proof.
  destruct (SendRequest_encodes 0x101 (Z_to_byte <$> [1; 2]) (connected_client (nb := false) []))
    as (iov & E & _ & Es); [done|done|done|done|].
  exists iov. split; [exact E|]. rewrite Es. cbn [os_writev chunks_os fst snd]. rewrite E. by vm_compute.
Defined.

Lemma RecvPacket_reads_witness :
  ∃ s', incoming (c_kern s') 3 = Z_to_byte <$> [9] ∧
    RecvPacket None 3000 (connected_client (nb := false)
      ((λ b, [b]) <$> (wire some_packet ++ (Z_to_byte <$> [9])))) =
    (respond None (header some_packet) (body some_packet);; mret true) s'.
Proof.
  destruct (RecvPacket_reads None 3000 some_packet (Z_to_byte <$> [9])
    (connected_client (nb := false) ((λ b, [b]) <$> (wire some_packet ++ (Z_to_byte <$> [9])))))
    as (s' & Hin & _ & E); [done|apply chunks_deliver|apply Encode_wf; done|by vm_compute|].
  exists s'. split; [exact Hin|exact E].
Defined.

Lemma RecvPacket_loses_partial_witness :
  ∃ s', RecvPacket None 3000 (connected_client (nb := true)
      [take 5 (wire some_packet); []; drop 5 (wire some_packet)]) = Ok (false, s') ∧
    incoming (c_kern s') 3 = drop 5 (wire some_packet).
Proof.
  destruct (RecvPacket_loses_partial None 3000 (take 5 (wire some_packet))
    (mkChunks [[]; []; drop 5 (wire some_packet)]) EAGAIN
    (mkChunks [[]; drop 5 (wire some_packet)])
    (connected_client (nb := true) [take 5 (wire some_packet); []; drop 5 (wire some_packet)]))
    as (E & _); [by vm_compute|by apply Nat.ltb_lt; vm_compute|by vm_compute|by vm_compute|].
  eexists. split; [exact E|]. by vm_compute.
Defined.
