(* ===== verification/ApiMenu.v ===== *)
(** * The demonstrations and the menu of the command-line client

    [api_cli/main]: the scripted scenarios, the interactive loop over a trade
    and a quote channel, and the program. The text of the menu is in [Printed]. *)
From Stdlib Require Import Ascii.
From S2P Require Import Prelude RingBuffer Protocol Reactor Sockets Structs Config ApiClient.

(** ** Requests *)

Definition text (s : string) : list byte := String.list_byte_of_string s.

(** [strncpy] of a literal into a member of [len] characters that are zero *)
Definition member (len : nat) (s : string) : list byte := strncpy len (len - 1) (text s).

Definition login_request (account password : string) : LoginRequest :=
  mkLoginRequest (member ACCOUNT_LEN account) (member PASSWORD_LEN password).
Definition logout_request (account : string) : LogoutRequest :=
  mkLogoutRequest (member ACCOUNT_LEN account).
Definition order_request (clientOrderId : string) (d : Direction) (o : OffsetFlag)
    (price volume : Z) : OrderRequest :=
  mkOrderRequest (member SYMBOL_LEN "rb2512") (member EXCHANGE_LEN "SHFE")
    (member ORDER_ID_LEN clientOrderId) (direction_code d) (offset_code o) price volume.
Definition cancel_request : CancelOrderRequest :=
  mkCancelOrderRequest (member ORDER_ID_LEN "cli-ord-001") (member SYMBOL_LEN "rb2512")
    (member EXCHANGE_LEN "SHFE").
Definition subscribe_request (symbol exchange : string) : SubscribeQuoteRequest :=
  mkSubscribeQuoteRequest (member SYMBOL_LEN symbol) (member EXCHANGE_LEN exchange).
Definition unsubscribe_request (symbol exchange : string) : UnSubscribeQuoteRequest :=
  mkUnSubscribeQuoteRequest (member SYMBOL_LEN symbol) (member EXCHANGE_LEN exchange).

(** the prices 3250.0 and 3280.0 *)
Definition price_3250 : Z := 0x40a9640000000000.
Definition price_3280 : Z := 0x40a9a00000000000.

Section demo.
Context {K : Type} `{ClientOS K}.
Abbreviation S := (cstate K).

(** no response callback is set *)
Definition receive (timeoutMs : Z) : M S bool := RecvPacket None timeoutMs.

Definition DemoTradeApi : M S unit :=
  Trade_ReqLogin (login_request "trader001" "pass123") 1;;
  receive 3000;;
  Trade_ReqOrderInsert (order_request "cli-ord-001" Direction_Buy Offset_Open price_3250 10) 2;;
  receive 3000;;
  Trade_ReqOrderInsert (order_request "cli-ord-002" Direction_Sell Offset_Close price_3280 5) 3;;
  receive 3000;;
  Trade_ReqOrderCancel cancel_request 4;;
  receive 3000;;
  Trade_ReqQueryAccount 5;;
  receive 2000;;
  Trade_ReqLogout (logout_request "trader001") 6;;
  receive 3000;;
  mret tt.

Definition DemoQuoteApi : M S unit :=
  Quote_ReqLogin (login_request "quoteguest" "guest123") 1;;
  receive 3000;;
  Quote_SubscribeQuote [subscribe_request "rb2512" "SHFE"; subscribe_request "hc2512" "SHFE";
                        subscribe_request "IF2512" "CFFEX"] 3;;
  receive 3000;;
  Quote_UnSubscribeQuote [unsubscribe_request "IF2512" "CFFEX"] 1;;
  receive 3000;;
  Quote_ReqLogout (logout_request "quoteguest") 2;;
  receive 3000;;
  mret tt.
End demo.

(** ** The program *)

(** the two clients of [main] *)
Inductive channel : Type := TradeChannel | QuoteChannel.

Record app (K : Type) : Type := mkApp {
  a_trade : ApiClient;
  a_quote : ApiClient;
  a_out : list response;
  a_running : bool;            (* g_running *)
  a_kern : K;
}.
Arguments mkApp {K}. Arguments a_trade {K}. Arguments a_quote {K}. Arguments a_out {K}.
Arguments a_running {K}. Arguments a_kern {K}.

Section menu.
Context {K : Type} `{ClientOS K}.
Abbreviation A := (app K).

Definition client_of (ch : channel) (a : A) : ApiClient :=
  match ch with TradeChannel => a_trade a | QuoteChannel => a_quote a end.

(** an operation on one of the clients *)
Definition at_ {R : Type} (ch : channel) (m : M (cstate K) R) : M A R := λ a,
  match m (mkC (client_of ch a) (a_out a) (a_kern a)) with
  | Fail e => Fail e
  | Ok (x, s) =>
      Ok (x, match ch with
             | TradeChannel => mkApp (c_client s) (a_quote a) (c_out s) (a_running a) (c_kern s)
             | QuoteChannel => mkApp (a_trade a) (c_client s) (c_out s) (a_running a) (c_kern s)
             end)
  end.

Definition at_os {R : Type} (f : K → R * K) : M A R := λ a,
  Ok ((f (a_kern a)).1,
      mkApp (a_trade a) (a_quote a) (a_out a) (a_running a) (f (a_kern a)).2).

(** [snprintf(req.clientOrderId, ORDER_ID_LEN, "cli-%ld", time(nullptr))] *)
Definition timed_order_id : M A string :=
  t ← at_os os_time; mret (snprintf 64 ("cli-" ++ pretty t)%string).

(** the switch of [InteractiveLoop]; the result tells whether to return.
    [trade] and [quote] are the objects its parameters refer to. *)
Definition menu_choice (trade quote : channel) (choice : ascii) : M A bool :=
  let go (m : M A unit) : M A bool := m;; mret false in
  if decide (choice = "1"%char) then
    go (at_ trade (Trade_ReqLogin (login_request "trader001" "pass123") 100;; receive 3000;; mret tt))
  else if decide (choice = "2"%char) then
    go (at_ trade (Trade_ReqLogout (logout_request "trader001") 101;; receive 3000;; mret tt))
  else if decide (choice = "3"%char) then
    id ← timed_order_id;
    go (at_ trade (Trade_ReqOrderInsert
                     (order_request id Direction_Buy Offset_Open price_3250 10) 102;;
                   receive 3000;; mret tt))
  else if decide (choice = "4"%char) then
    id ← timed_order_id;
    go (at_ trade (Trade_ReqOrderInsert
                     (order_request id Direction_Sell Offset_Close price_3280 5) 103;;
                   receive 3000;; mret tt))
  else if decide (choice = "5"%char) then
    go (at_ trade (Trade_ReqOrderCancel cancel_request 104;; receive 3000;; mret tt))
  else if decide (choice = "6"%char) then
    go (at_ quote (Quote_SubscribeQuote [subscribe_request "rb2512" "SHFE"] 1);;
        at_ trade (receive 3000);; mret tt)
  else if decide (choice = "7"%char) then
    go (at_ quote (Quote_UnSubscribeQuote [unsubscribe_request "rb2512" "SHFE"] 1);;
        at_ trade (receive 3000);; mret tt)
  else if decide (choice = "d"%char) then go (at_ trade DemoTradeApi)
  else if decide (choice = "q"%char) then go (at_ trade DemoQuoteApi)
  else if decide (choice = "a"%char) then go (at_ trade DemoTradeApi;; at_ trade DemoQuoteApi)
  else if decide (choice = "0"%char) then
    modify (λ a, mkApp (a_trade a) (a_quote a) (a_out a) false (a_kern a));; mret true
  else mret false.

(** [InteractiveLoop]; a unit of fuel is a line read *)
Fixpoint InteractiveLoop (fuel : nat) (trade quote : channel) : M A unit :=
  match fuel with
  | O => failM OutOfFuel
  | Datatypes.S fuel =>
      ifM (gets (λ a, a_running a && negb (os_interrupted (a_kern a)))) (
        line ← at_os (os_fgets 256);
        match line with
        | Some (String choice _) =>
            ifM (menu_choice trade quote choice) (mret tt) (InteractiveLoop fuel trade quote)
        | Some EmptyString => failM UndefinedBehaviour  (* [fgets] never returns one *)
        | None => mret tt
        end) (mret tt)
  end.

(** the options [main] collects *)
Record options : Type := mkOptions {
  o_demo : bool; o_tradeOnly : bool; o_quoteOnly : bool;
  o_host : string; o_tradePort : Z; o_quotePort : Z;
}.
Definition default_options : options := mkOptions false false false "127.0.0.1" 8001 8002.

(** the loop over what [getopt_long] returns, an option and its argument: the
    options, or the exit code of [--help] and of a wrong option *)
Fixpoint parse_options (l : list (ascii * string)) (o : options) : outcome (options + Z) :=
  match l with
  | [] => Ok (inl o)
  | (c, arg) :: l =>
      let '(mkOptions d t q h tp qp) := o in
      if decide (c = "D"%char) then parse_options l (mkOptions true t q h tp qp)
      else if decide (c = "T"%char) then parse_options l (mkOptions d true q h tp qp)
      else if decide (c = "Q"%char) then parse_options l (mkOptions d t true h tp qp)
      else if decide (c = "h"%char) then parse_options l (mkOptions d t q arg tp qp)
      else if decide (c = "p"%char) then
        n ← atoi arg; parse_options l (mkOptions d t q h (u16 n) qp)
      else if decide (c = "q"%char) then
        n ← atoi arg; parse_options l (mkOptions d t q h tp (u16 n))
      else if decide (c = "H"%char) then Ok (inr 0)
      else Ok (inr 1)
  end.

(** [main] after its options: the exit code *)
Definition main_run (fuel : nat) (o : options) : M A Z :=
  (if negb (o_quoteOnly o) then at_ TradeChannel (Connect (o_host o) (o_tradePort o))
   else mret false) ≫= λ tradeOk : bool,
  (if negb (o_tradeOnly o) then at_ QuoteChannel (Connect (o_host o) (o_quotePort o))
   else mret false) ≫= λ quoteOk : bool,
  if negb tradeOk && negb quoteOk then mret 1
  else
    (if o_demo o then
       when tradeOk (at_ TradeChannel DemoTradeApi;;
                     when (negb quoteOk) (at_ TradeChannel DemoQuoteApi));;
       when quoteOk (at_ QuoteChannel DemoQuoteApi)
     else
       InteractiveLoop fuel (if tradeOk then TradeChannel else QuoteChannel)
         (if quoteOk then QuoteChannel else TradeChannel));;
    at_ TradeChannel Disconnect;;
    at_ QuoteChannel Disconnect;;
    mret 0.

Definition main (fuel : nat) (argv : list (ascii * string)) : M A Z :=
  o ← lift (parse_options argv default_options);
  match o with inl o => main_run fuel o | inr code => mret code end.
End menu.

(** ** The program ends

    [lines] is how many lines the standard input still has: [fgets] takes one,
    which is not empty, and no other call takes any. *)
Class StdinLaws (K : Type) `{ClientLaws K} : Type := {
  lines : K → nat;
  fgets_line n k s k' : os_fgets n k = (Some s, k') → s ≠ ""%string ∧ (lines k' < lines k)%nat;
  fgets_end n k k' : os_fgets n k = (None, k') → (lines k' ≤ lines k)%nat;
  getaddrinfo_lines h p k : (lines (os_getaddrinfo h p k).2 ≤ lines k)%nat;
  socket_lines a k : (lines (os_socket a k).2 ≤ lines k)%nat;
  getfl_lines fd k : (lines (os_getfl fd k).2 ≤ lines k)%nat;
  setfl_lines fd f k : (lines (os_setfl fd f k).2 ≤ lines k)%nat;
  connect_lines fd a k : (lines (os_connect fd a k).2 ≤ lines k)%nat;
  poll_lines fd e t k : (lines (os_poll fd e t k).2 ≤ lines k)%nat;
  so_error_lines fd k : (lines (os_so_error fd k).2 ≤ lines k)%nat;
  writev_lines fd iov k : (lines (os_writev fd iov k).2 ≤ lines k)%nat;
  write_lines fd d k : (lines (os_write fd d k).2 ≤ lines k)%nat;
  recv_lines fd n k : (lines (os_recv fd n k).2 ≤ lines k)%nat;
  close_lines fd k : (lines (os_close fd k) ≤ lines k)%nat;
  time_lines k : (lines (os_time k).2 ≤ lines k)%nat;
}.

Section client_ends.
Context {K : Type} `{StdinLaws K} (n : nat).
Abbreviation S := (cstate K).

Definition lines_le (s : S) : Prop := (lines (c_kern s) ≤ n)%nat.

Lemma keeping_os {A} (f : K → A * K) :
  (∀ k, (lines (f k).2 ≤ lines k)%nat) → keeping lines_le (os f).
Proof. intros Hf s Hs. change (lines (f (c_kern s)).2 ≤ n)%nat. by etrans; [apply Hf|]. Qed.
Lemma keeping_client (f : S → S) :
  (∀ s, c_kern (f s) = c_kern s) → keeping lines_le (modify f).
Proof. intros Hf. apply keeping_modify. intros s Hs. unfold lines_le. by rewrite Hf. Qed.
Lemma keeping_defined (b : bool) : b = true → keeping lines_le (lift (defined_if b)).
Proof. intros -> s Hs. exact Hs. Qed.
#[local] Hint Extern 1 (keeping lines_le (modify _)) => apply keeping_client; intros []; reflexivity : keeping.
#[local] Hint Extern 1 (keeping lines_le (lift (defined_if _))) => by apply keeping_defined : keeping.
#[local] Hint Extern 1 (keeping lines_le (os _)) => apply keeping_os; intros ?;
  first [ apply getaddrinfo_lines | apply socket_lines | apply getfl_lines | apply setfl_lines
        | apply connect_lines | apply poll_lines | apply so_error_lines | apply writev_lines
        | apply write_lines | apply recv_lines | apply close_lines | apply time_lines ] : keeping.

(** [RecvAll] returns: every turn of its loop receives a byte *)
Lemma RecvAll_loop_ends fuel fd len got :
  (len < fuel + length got)%nat → (length got ≤ len)%nat →
  keeping lines_le (RecvAll_loop fuel fd len got).
Proof.
  revert got. induction fuel as [|fuel IH]; intros got Hf Hg; [simpl in Hf; lia|].
  cbn [RecvAll_loop]. destruct (length got <? len)%nat; [|apply keeping_ret].
  intros s Hs. apply wp_bind. unfold os, wp at 1. cbn [fst snd].
  pose proof (recv_lines fd (len - length got) (c_kern s)) as Hl.
  destruct (os_recv fd (len - length got) (c_kern s)) as [r k'] eqn:E. cbn [fst snd] in *.
  assert (Hs' : lines_le (mkC (c_client s) (c_out s) k')) by (unfold lines_le in *; simpl; lia).
  destruct r as [d| |e]; [|by apply keeping_ret..].
  apply recv_data in E as (Hd & Hdl & _). destruct d as [|b d]; [done|].
  apply IH; [| |done]; rewrite length_app; simpl in *; lia.
Qed.
Lemma RecvAll_ends fd len : keeping lines_le (RecvAll fd len).
Proof. apply RecvAll_loop_ends; simpl; lia. Qed.
#[local] Hint Resolve RecvAll_ends : keeping.

Lemma Connect_ends host port : keeping lines_le (Connect host port).
Proof. keeping_tac. Qed.
Lemma Disconnect_ends : keeping lines_le Disconnect.
Proof. keeping_tac. Qed.
Lemma SendRequest_ends cmd d : keeping lines_le (SendRequest cmd d).
Proof. keeping_tac. Qed.
Lemma receive_ends t : keeping lines_le (receive t).
Proof. keeping_tac. Qed.
#[local] Hint Resolve Connect_ends Disconnect_ends SendRequest_ends receive_ends : keeping.
Lemma DemoTradeApi_ends : keeping lines_le DemoTradeApi.
Proof. keeping_tac. Qed.
Lemma DemoQuoteApi_ends : keeping lines_le DemoQuoteApi.
Proof. keeping_tac. Qed.
End client_ends.
#[export] Hint Resolve Connect_ends Disconnect_ends SendRequest_ends receive_ends DemoTradeApi_ends
  DemoQuoteApi_ends : keeping.
#[export] Hint Extern 1 (keeping (lines_le _) (lift (defined_if _))) => by apply keeping_defined : keeping.

Section program_ends.
Context {K : Type} `{StdinLaws K}.
Abbreviation A := (app K).
Implicit Types (a : A) (ch : channel).

Definition app_lines (n : nat) a : Prop := (lines (a_kern a) ≤ n)%nat.

Lemma keeping_at {R} n ch (m : M (cstate K) R) :
  keeping (lines_le n) m → keeping (app_lines n) (at_ ch m).
Proof.
  intros Hm a Ha. destruct (keeping_ok _ _ (mkC (client_of ch a) (a_out a) (a_kern a)) Hm Ha)
    as (x & s & E & Hs). unfold at_, wp. rewrite E. by destruct ch.
Qed.
#[local] Hint Extern 1 (keeping (app_lines _) (at_ _ _)) => apply keeping_at; keeping_tac : keeping.

Lemma timed_order_id_ends n : keeping (app_lines n) timed_order_id.
Proof.
  apply keeping_bind; [|intros; apply keeping_ret]. intros a Ha.
  change (lines (os_time (a_kern a)).2 ≤ n)%nat. by etrans; [apply time_lines|].
Qed.
#[local] Hint Resolve timed_order_id_ends : keeping.

Lemma menu_choice_ends n trade quote choice : keeping (app_lines n) (menu_choice trade quote choice).
Proof.
  unfold menu_choice. cbv zeta.
  repeat (destruct (decide _); [first [by keeping_tac|by apply keeping_bind; [apply keeping_modify|intros; apply keeping_ret]]|]).
  apply keeping_ret.
Qed.

(** the menu returns: every turn takes a line *)
Lemma InteractiveLoop_ends fuel trade quote n a :
  (n < fuel)%nat → app_lines n a → wp never (InteractiveLoop fuel trade quote) (λ _ _, True) a.
Proof.
  revert n a. induction fuel as [|fuel IH]; intros n a Hn Ha; [lia|]. cbn [InteractiveLoop].
  apply wp_ifM, wp_gets. destruct (_ && _); [|done]. apply wp_bind. unfold at_os, wp at 1. cbn [fst snd].
  destruct (os_fgets 256 (a_kern a)) as [[line|] k'] eqn:E; cbn [fst snd]; [|done].
  apply fgets_line in E as [Hl Hk]. destruct line as [|choice rest]; [done|].
  unfold app_lines in Ha. apply wp_ifM. eapply wp_post.
  { apply (menu_choice_ends (n - 1)). unfold app_lines. cbn. lia. }
  intros [] a' Ha'; [done|]. apply (IH (n - 1)%nat); [lia|done].
Qed.

(** the state with the client of [ch] and the system of [s] *)
Definition put_at ch (s : cstate K) a : A :=
  match ch with
  | TradeChannel => mkApp (c_client s) (a_quote a) (c_out s) (a_running a) (c_kern s)
  | QuoteChannel => mkApp (a_trade a) (c_client s) (c_out s) (a_running a) (c_kern s)
  end.
Lemma wp_at {R} ch (m : M (cstate K) R) (Q : R → A → Prop) a :
  wp never m (λ x s, Q x (put_at ch s a)) (mkC (client_of ch a) (a_out a) (a_kern a)) →
  wp never (at_ ch m) Q a.
Proof. unfold at_, wp. by destruct (m _) as [[x s]|e]. Qed.

Lemma Disconnect_closes (s : cstate K) :
  wp never Disconnect (λ _ s', sockfd_ (c_client s') < 0) s.
Proof.
  unfold Disconnect. apply wp_bind, wp_gets. destruct (Z.leb_spec 0 (sockfd_ (c_client s))); [done|].
  by apply wp_ret.
Qed.

(** the connection of [main], tried or not *)
Lemma try_connect n (b : bool) ch host port a :
  app_lines n a → IsConnected (client_of ch a) = false →
  wp never (if b then at_ ch (Connect host port) else mret false) (λ ok a', app_lines n a' ∧
    ∃ s, a' = put_at ch s a ∧ IsConnected (c_client s) = ok) a.
Proof.
  intros Ha Hc. destruct b.
  - apply wp_at. pose proof (Connect_ends n host port (mkC (client_of ch a) (a_out a) (a_kern a)) Ha) as Hn.
    pose proof (Connect_tells host port (mkC (client_of ch a) (a_out a) (a_kern a))) as Ht.
    unfold wp in *. destruct (Connect _ _ _) as [[ok s]|e]; [|done]. split; [by destruct ch|by exists s].
  - apply wp_ret. split; [done|]. exists (mkC (client_of ch a) (a_out a) (a_kern a)).
    split; [by destruct a, ch|done].
Qed.

Definition all_closed (a : A) : Prop := sockfd_ (a_trade a) < 0 ∧ sockfd_ (a_quote a) < 0.

Lemma IsConnected_false c : IsConnected c = false ↔ sockfd_ c < 0.
Proof. apply Z.leb_gt. Qed.

(** the end of [main] *)
Lemma close_all a :
  wp never (at_ TradeChannel Disconnect;; at_ QuoteChannel Disconnect;; mret 0) (λ _, all_closed) a.
Proof.
  apply wp_bind, wp_at. eapply wp_post; [apply Disconnect_closes|]. intros [] s Hs.
  apply wp_bind, wp_at. eapply wp_post; [apply Disconnect_closes|]. intros [] s' Hs'.
  by apply wp_ret.
Qed.

Lemma main_run_ends fuel o a :
  (lines (a_kern a) < fuel)%nat → all_closed a → wp never (main_run fuel o) (λ _, all_closed) a.
Proof.
  intros Hf [Ht%IsConnected_false Hq%IsConnected_false]. set (n := lines (a_kern a)) in *.
  assert (Ha : app_lines n a) by (unfold app_lines; lia).
  unfold main_run. apply wp_bind. eapply wp_post; [by apply (try_connect n _ TradeChannel)|].
  intros tradeOk a1 (Ha1 & s1 & -> & Hok1). apply wp_bind.
  eapply wp_post; [by apply (try_connect n _ QuoteChannel)|].
  intros quoteOk a2 (Ha2 & s2 & -> & Hok2).
  destruct (negb tradeOk && negb quoteOk) eqn:Eok.
  { apply andb_prop in Eok as [->%negb_true_iff ->%negb_true_iff]. apply wp_ret.
    split; by apply IsConnected_false. }
  apply wp_bind. eapply wp_post; [|intros [] a3 _; apply close_all].
  destruct (o_demo o); [|by eapply InteractiveLoop_ends].
  eapply wp_post; [|done]. eapply (keeping_bind (app_lines n)); [| |exact Ha2]; [|intros ?]; keeping_tac.
Qed.
End program_ends.


(** ** A system with a keyboard *)

Record typed : Type := mkTyped { ty_lines : list string; ty_net : chunks true }.

Definition net {R} (f : chunks true → R * chunks true) (k : typed) : R * typed :=
  ((f (ty_net k)).1, mkTyped (ty_lines k) (f (ty_net k)).2).

Definition newline : string := String (ascii_of_nat 10) "".

#[export] Instance typed_os : ClientOS typed := {
  os_getaddrinfo host port := net (os_getaddrinfo host port);
  os_socket addr := net (os_socket addr);
  os_getfl fd := net (os_getfl fd);
  os_setfl fd flags := net (os_setfl fd flags);
  os_connect fd addr := net (os_connect fd addr);
  os_poll fd events t := net (os_poll fd events t);
  os_so_error fd := net (os_so_error fd);
  os_writev fd iov := net (os_writev fd iov);
  os_write fd d := net (os_write fd d);
  os_recv fd n := net (os_recv fd n);
  os_close fd k := k;
  os_time := net os_time;
  os_fgets n k :=
    match ty_lines k with
    | [] => (None, k)
    | l :: ls => (Some (l ++ newline)%string, mkTyped ls (ty_net k))
    end;
  os_interrupted k := false;
}.

#[export] Instance typed_laws : ClientLaws typed.
Proof.
  refine {| incoming k fd := incoming (ty_net k) fd |}.
  - intros fd n k d k' E. unfold os_recv, typed_os, net in E.
    destruct (os_recv fd n (ty_net k)) as [r l] eqn:Er. injection E as -> <-.
    exact (recv_data fd n (ty_net k) d l Er).
  - intros fd n k r k' E Hr. unfold os_recv, typed_os, net in E.
    destruct (os_recv fd n (ty_net k)) as [r' l] eqn:Er. injection E as -> <-.
    exact (recv_none fd n (ty_net k) r l Er Hr).
Defined.

#[export] Instance typed_stdin : StdinLaws typed.
Proof.
  refine {| lines k := length (ty_lines k) |}; try done.
  - intros n [[|l ls] c] s k' E; [done|]. injection E as <- <-. split; [by destruct l|cbn; lia].
  - intros n [[|l ls] c] k' E; [|done]. by injection E as <-.
Defined.

(** the trade channel only: a login, an order and the end; another line stays *)
Definition api_session : app typed :=
  mkApp (mkClient (-1) 1) (mkClient (-1) 1) [] true
    (mkTyped ["1"; "3"; "0"; "9"]%string
       (mkChunks [wire (Encode (cmd_code kCmdHeartbeatReq) 5 [])])).

