(* ===== verification/Messages.v ===== *)
(** * Messages over ZeroMQ

    [gateway/common/message_utils]: sockets, their options, and messages as
    sequences of frames. ZeroMQ is a parameter: a state with its calls. *)
From S2P Require Import Prelude.

(** ** ZeroMQ *)

Inductive socket_type : Type := ZMQ_ROUTER | ZMQ_DEALER | ZMQ_PUB | ZMQ_SUB.

Inductive socket_option : Type :=
| ZMQ_LINGER | ZMQ_RCVTIMEO
| ZMQ_TCP_KEEPALIVE | ZMQ_TCP_KEEPALIVE_IDLE | ZMQ_TCP_KEEPALIVE_INTVL | ZMQ_TCP_KEEPALIVE_CNT
| ZMQ_HEARTBEAT_IVL | ZMQ_HEARTBEAT_TIMEOUT | ZMQ_HEARTBEAT_TTL
| ZMQ_SUBSCRIBE | ZMQ_UNSUBSCRIBE.

(** a socket or a context is a pointer, and 0 the null one *)
Class Zmq (K : Type) : Type := {
  zmq_ctx_new : K → Z * K;
  zmq_socket : Z → socket_type → K → Z * K;
  (** an [int] option *)
  zmq_set_int : Z → socket_option → Z → K → Z * K;
  (** an option that is a string of bytes *)
  zmq_set_bytes : Z → socket_option → list byte → K → Z * K;
  zmq_close : Z → K → K;
  zmq_bind : Z → string → K → Z * K;
  zmq_connect : Z → string → K → Z * K;
  zmq_msg_init : K → Z * K;
  zmq_msg_init_size : Z → K → Z * K;
  (** [zmq_msg_recv(&msg, sock, 0)]: the frame, [None] on an error *)
  zmq_msg_recv : Z → K → option (list byte) * K;
  (** [zmq_getsockopt(sock, ZMQ_RCVMORE)]; 0 when it fails *)
  zmq_rcvmore : Z → K → Z * K;
  (** [zmq_msg_send], with [ZMQ_SNDMORE] or not *)
  zmq_msg_send : Z → list byte → bool → K → Z * K;
  (** [zmq_poll] of one socket for [ZMQ_POLLIN]: the result and [revents] *)
  zmq_poll : Z → Z → K → Z * Z * K;
}.

Definition ZMQ_POLLIN : Z := 1.

(** [std::chrono] and [std::this_thread], on the same state: nanoseconds of
    the steady clock, milliseconds of the system clock *)
Class Clock (K : Type) : Type := {
  steady_now : K → Z * K;
  system_now_ms : K → Z * K;
  sleep_for_ms : Z → K → K;
}.

(** the process: [g_zmqCtx], [None] before the first call, and ZeroMQ *)
Record zstate (K : Type) : Type := mkZ { z_ctx : option Z; z_kern : K }.
Arguments mkZ {K}. Arguments z_ctx {K}. Arguments z_kern {K}.

Section messages.
Context {K : Type} `{Zmq K}.
Abbreviation S := (zstate K).
Implicit Types (sock msgType : Z) (body identity topic : list byte).

Definition zmq {A} (f : K → A * K) : M S A := λ s,
  Ok ((f (z_kern s)).1, mkZ (z_ctx s) (f (z_kern s)).2).

(** ** Sockets *)

Definition GetZmqContext : M S Z := λ s,
  match z_ctx s with
  | Some ctx => Ok (ctx, s)
  | None => let r := zmq_ctx_new (z_kern s) in Ok (r.1, mkZ (Some r.1) r.2)
  end.

Definition create_socket (t : socket_type) : M S Z :=
  ctx ← GetZmqContext;
  sock ← zmq (zmq_socket ctx t);
  when (negb (sock =? 0)) (zmq (zmq_set_int sock ZMQ_LINGER 0);; mret tt);;
  mret sock.

Definition CreateRouterSocket : M S Z := create_socket ZMQ_ROUTER.
Definition CreateDealerSocket : M S Z := create_socket ZMQ_DEALER.
Definition CreatePubSocket : M S Z := create_socket ZMQ_PUB.
Definition CreateSubSocket : M S Z := create_socket ZMQ_SUB.

Definition CloseSocket sock : M S unit :=
  when (negb (sock =? 0)) (zmq (λ k, (tt, zmq_close sock k))).

(** ** Options *)

Definition SetLinger sock (ms : Z) : M S unit := zmq (zmq_set_int sock ZMQ_LINGER ms);; mret tt.
Definition SetRecvTimeout sock (ms : Z) : M S unit :=
  zmq (zmq_set_int sock ZMQ_RCVTIMEO ms);; mret tt.

Definition SetTcpKeepalive sock (keepalive idle interval count : Z) : M S unit :=
  zmq (zmq_set_int sock ZMQ_TCP_KEEPALIVE keepalive);;
  zmq (zmq_set_int sock ZMQ_TCP_KEEPALIVE_IDLE idle);;
  zmq (zmq_set_int sock ZMQ_TCP_KEEPALIVE_INTVL interval);;
  zmq (zmq_set_int sock ZMQ_TCP_KEEPALIVE_CNT count);;
  mret tt.

Definition SetZmqHeartbeat sock (ivlMs timeoutMs ttlMs : Z) : M S unit :=
  zmq (zmq_set_int sock ZMQ_HEARTBEAT_IVL ivlMs);;
  zmq (zmq_set_int sock ZMQ_HEARTBEAT_TIMEOUT timeoutMs);;
  zmq (zmq_set_int sock ZMQ_HEARTBEAT_TTL ttlMs);;
  mret tt.

(** [filter] is the string before the null *)
Definition SetSubSubscribe sock (filter : list byte) : M S unit :=
  zmq (zmq_set_bytes sock ZMQ_SUBSCRIBE filter);; mret tt.

Definition BindSocket sock (address : string) : M S bool :=
  rc ← zmq (zmq_bind sock address); mret (rc =? 0).
Definition ConnectSocket sock (address : string) : M S bool :=
  rc ← zmq (zmq_connect sock address); mret (rc =? 0).

(** ** Frames *)

Definition RecvFrameToVector sock : M S (option (list byte)) :=
  rc ← zmq zmq_msg_init;
  if negb (rc =? 0) then mret None else zmq (zmq_msg_recv sock).

Definition SendFrame sock (data : list byte) (more : bool) : M S bool :=
  rc ← zmq (zmq_msg_init_size (Z.of_nat (length data)));
  if negb (rc =? 0) then mret false
  else
    rc ← zmq (zmq_msg_send sock data more);
    mret (0 <=? rc).

(** in the next two, [None] is [return false] *)
Definition option_bindM {A B} (m : M S (option A)) (k : A → M S (option B)) : M S (option B) :=
  m ≫= λ o : option A, match o with Some a => k a | None => mret None end.

(** the frames after the first: there must be one *)
Definition more_frame sock : M S (option (list byte)) :=
  more ← zmq (zmq_rcvmore sock);
  if more =? 0 then mret None else RecvFrameToVector sock.

(** the [uint16_t] at the start of a frame *)
Definition msg_type (frame : list byte) : option Z :=
  if (length frame <? 2)%nat then None else Some (le_value (take 2 frame)).

Definition type_bytes msgType : list byte := le_bytes 2 msgType.

(** ** Messages *)

Definition RecvMessage sock : M S (option (Z * list byte)) :=
  option_bindM (RecvFrameToVector sock) (λ typeFrame,
    match msg_type typeFrame with
    | None => mret None
    | Some t => option_bindM (more_frame sock) (λ body, mret (Some (t, body)))
    end).

Definition RecvRouterMessage sock : M S (option (list byte * Z * list byte)) :=
  option_bindM (RecvFrameToVector sock) (λ identity,
  option_bindM (more_frame sock) (λ typeFrame,
    match msg_type typeFrame with
    | None => mret None
    | Some t => option_bindM (more_frame sock) (λ body, mret (Some (identity, t, body)))
    end)).

Definition RecvPubMessage sock : M S (option (list byte * Z * list byte)) :=
  option_bindM (RecvFrameToVector sock) (λ topic,
  option_bindM (more_frame sock) (λ typeFrame,
    match msg_type typeFrame with
    | None => mret None
    | Some t => option_bindM (more_frame sock) (λ body, mret (Some (topic, t, body)))
    end)).

(** the frames of a message, the first ones with [ZMQ_SNDMORE], until one
    cannot be sent *)
Definition SendMessage sock msgType body : M S bool :=
  ifM (SendFrame sock (type_bytes msgType) true) (SendFrame sock body false) (mret false).

Definition SendRouterMessage sock identity msgType body : M S bool :=
  ifM (SendFrame sock identity true)
    (ifM (SendFrame sock (type_bytes msgType) true) (SendFrame sock body false) (mret false))
    (mret false).

Definition SendPubMessage sock topic msgType body : M S bool :=
  ifM (SendFrame sock topic true)
    (ifM (SendFrame sock (type_bytes msgType) true) (SendFrame sock body false) (mret false))
    (mret false).

Lemma wp_zmq {A} (f : K → A * K) (Q : A → S → Prop) s :
  Q (f (z_kern s)).1 (mkZ (z_ctx s) (f (z_kern s)).2) → wp never (zmq f) Q s.
Proof. exact id. Qed.
End messages.

(** ** The documented behaviour of ZeroMQ *)

(** a frame, and whether more of its message follow *)
Definition frame : Type := (list byte * bool)%type.

(** the frames of a multipart message *)
Fixpoint frames (l : list (list byte)) : list frame :=
  match l with
  | [] => []
  | [f] => [(f, false)]
  | f :: l => (f, true) :: frames l
  end.

Class ZmqLaws (K : Type) `{Zmq K} : Type := {
  (** the frames that have come, and those sent; a frame that comes while a
      call runs has come before it *)
  inbox : K → Z → list frame;
  outbox : K → Z → list frame;
  init_ok k : (zmq_msg_init k).1 = 0;
  init_quiet k : inbox (zmq_msg_init k).2 = inbox k ∧ outbox (zmq_msg_init k).2 = outbox k;
  init_size_quiet n k :
    inbox (zmq_msg_init_size n k).2 = inbox k ∧ outbox (zmq_msg_init_size n k).2 = outbox k;
  (** frames are received in order, and [ZMQ_RCVMORE] tells about the last *)
  recv_frame sock k f m r :
    inbox k sock = (f, m) :: r →
    ∃ k', zmq_msg_recv sock k = (Some f, k') ∧ inbox k' sock = r ∧
      (zmq_rcvmore sock k').1 = Z.b2z m ∧ inbox (zmq_rcvmore sock k').2 sock = r ∧
      outbox k' = outbox k ∧ outbox (zmq_rcvmore sock k').2 = outbox k;
  (** a socket with frames to receive is ready *)
  poll_ready sock t k :
    inbox k sock ≠ [] →
    ∃ k', zmq_poll sock t k = (1, ZMQ_POLLIN, k') ∧ inbox k' = inbox k ∧ outbox k' = outbox k;
  (** a frame is sent, or it is not *)
  send_frame sock f m k k' rc :
    zmq_msg_send sock f m k = (rc, k') →
    outbox k' sock = outbox k sock ++ (if 0 <=? rc then [(f, m)] else []);
  send_inbox sock f m k : inbox (zmq_msg_send sock f m k).2 = inbox k;
}.

(** telling the time and sleeping move no frames *)
Class ClockLaws (K : Type) `{ZmqLaws K, Clock K} : Prop := {
  steady_quiet k : inbox (steady_now k).2 = inbox k ∧ outbox (steady_now k).2 = outbox k;
  system_quiet k : inbox (system_now_ms k).2 = inbox k ∧ outbox (system_now_ms k).2 = outbox k;
  sleep_outbox n k : outbox (sleep_for_ms n k) = outbox k;
  (** the milliseconds are an [int64_t] *)
  system_range k : - 2 ^ 63 ≤ (system_now_ms k).1 < 2 ^ 63;
}.

(** the steady clock: it does not go back, and sleeping takes its time *)
Class TimeLaws (K : Type) `{Zmq K, Clock K} : Prop := {
  steady_time k : (steady_now k).1 ≤ (steady_now (steady_now k).2).1;
  sleep_time n k : 0 ≤ n → (steady_now k).1 + n * 10 ^ 6 ≤ (steady_now (sleep_for_ms n k)).1;
  init_size_time n k : (steady_now k).1 ≤ (steady_now (zmq_msg_init_size n k).2).1;
  send_time sock f m k : (steady_now k).1 ≤ (steady_now (zmq_msg_send sock f m k).2).1;
}.

(** no call fails for lack of memory or of a peer *)
Definition sends {K} `{Zmq K} (sock : Z) : Prop :=
  ∀ k f m, (zmq_msg_init_size (Z.of_nat (length f)) k).1 = 0 ∧ 0 ≤ (zmq_msg_send sock f m k).1.

(** the messages of the three kinds of sockets *)
Inductive message : Type :=
| DealerMessage (msgType : Z) (body : list byte)
| RouterMessage (identity : list byte) (msgType : Z) (body : list byte)
| PubMessage (topic : list byte) (msgType : Z) (body : list byte).

Definition message_frames (m : message) : list frame :=
  match m with
  | DealerMessage t b => frames [type_bytes t; b]
  | RouterMessage i t b | PubMessage i t b => frames [i; type_bytes t; b]
  end.

Definition message_ok (m : message) : Prop :=
  match m with
  | DealerMessage t _ | RouterMessage _ t _ | PubMessage _ t _ => 0 ≤ t < 2 ^ 16
  end.

Section message_facts.
Context {K : Type} `{ZmqLaws K}.
Abbreviation S := (zstate K).
Implicit Types (s : S) (sock : Z).

Definition send_message sock (m : message) : M S bool :=
  match m with
  | DealerMessage t b => SendMessage sock t b
  | RouterMessage i t b => SendRouterMessage sock i t b
  | PubMessage i t b => SendPubMessage sock i t b
  end.

(** receiving a message of the kind of [m] *)
Definition recv_message sock (m : message) : M S (option message) :=
  match m with
  | DealerMessage _ _ =>
      option_bindM (RecvMessage sock) (λ r, mret (Some (DealerMessage r.1 r.2)))
  | RouterMessage _ _ _ =>
      option_bindM (RecvRouterMessage sock) (λ r, mret (Some (RouterMessage r.1.1 r.1.2 r.2)))
  | PubMessage _ _ _ =>
      option_bindM (RecvPubMessage sock) (λ r, mret (Some (PubMessage r.1.1 r.1.2 r.2)))
  end.

Lemma msg_type_bytes t : 0 ≤ t < 2 ^ 16 → msg_type (type_bytes t) = Some t.
Proof.
  intros Ht. unfold msg_type, type_bytes. rewrite length_le_bytes. cbn [Nat.ltb Nat.leb].
  rewrite take_ge by (by rewrite length_le_bytes). rewrite le_value_bytes. f_equal.
  by apply Z.mod_small.
Qed.

(** the state after a frame: [more] tells whether its message goes on *)
Definition after sock (more : bool) (rest : list frame) (out : Z → list frame) s : Prop :=
  inbox (z_kern s) sock = rest ∧ (zmq_rcvmore sock (z_kern s)).1 = Z.b2z more ∧
  inbox (zmq_rcvmore sock (z_kern s)).2 sock = rest ∧
  outbox (z_kern s) = out ∧ outbox (zmq_rcvmore sock (z_kern s)).2 = out.

Lemma wp_recv_frame sock f m r s (Q : option (list byte) → S → Prop) :
  inbox (z_kern s) sock = (f, m) :: r → (∀ s', after sock m r (outbox (z_kern s)) s' → Q (Some f) s') →
  wp never (RecvFrameToVector sock) Q s.
Proof.
  intros Hin HQ. unfold RecvFrameToVector. apply wp_bind. unfold zmq at 1. unfold wp.
  rewrite init_ok. cbn [Z.eqb negb]. unfold zmq. cbn [z_kern z_ctx].
  destruct (recv_frame sock (zmq_msg_init (z_kern s)).2 f m r) as (k' & -> & H1 & H2 & H3 & H4 & H5).
  { by rewrite (proj1 (init_quiet _)). }
  rewrite (proj2 (init_quiet _)) in *. apply HQ. by split_and!.
Qed.

Lemma wp_more_frame sock f m r out s (Q : option (list byte) → S → Prop) :
  after sock true ((f, m) :: r) out s → (∀ s', after sock m r out s' → Q (Some f) s') →
  wp never (more_frame sock) Q s.
Proof.
  intros (_ & Hm & Hin & _ & Hout) HQ. unfold more_frame. apply wp_bind. unfold wp at 1, zmq.
  rewrite Hm. cbn [Z.b2z Z.eqb]. apply (wp_recv_frame _ f m r); [done|]. cbn. by rewrite Hout.
Qed.

Lemma wp_option_bindM {A B} (m : M S (option A)) (k : A → M S (option B)) a Q s :
  wp never m (λ o s', o = Some a ∧ wp never (k a) Q s') s → wp never (option_bindM m k) Q s.
Proof.
  intros Hm. unfold option_bindM. apply wp_bind. eapply wp_post; [exact Hm|].
  by intros o s' [-> HQ].
Qed.

Lemma wp_send_frame sock f m s (Q : bool → S → Prop) :
  sends (K := K) sock →
  (∀ s', outbox (z_kern s') sock = outbox (z_kern s) sock ++ [(f, m)] →
     inbox (z_kern s') = inbox (z_kern s) → Q true s') →
  wp never (SendFrame sock f m) Q s.
Proof.
  intros Hs HQ. unfold SendFrame. apply wp_bind. unfold wp at 1, zmq at 1.
  rewrite (proj1 (Hs (z_kern s) f m)). cbn [Z.eqb negb]. apply wp_bind. unfold wp at 1, zmq.
  cbn [z_kern z_ctx].
  destruct (zmq_msg_send sock f m (zmq_msg_init_size (Z.of_nat (length f)) (z_kern s)).2)
    as [rc k'] eqn:E.
  pose proof (send_frame _ _ _ _ _ _ E) as Hout. cbn [fst snd].
  pose proof (proj2 (Hs (zmq_msg_init_size (Z.of_nat (length f)) (z_kern s)).2 f m)) as Hrc.
  rewrite E in Hrc. cbn [fst] in Hrc. rewrite (proj2 (Z.leb_le _ _)) in * by done.
  pose proof (send_inbox sock f m (zmq_msg_init_size (Z.of_nat (length f)) (z_kern s)).2) as Hin.
  rewrite E in Hin. cbn [snd] in Hin.
  apply wp_ret. apply HQ; cbn.
  - by rewrite Hout, (proj2 (init_size_quiet _ _)).
  - by rewrite Hin, (proj1 (init_size_quiet _ _)).
Qed.

Lemma send_message_ok sock m s :
  sends (K := K) sock →
  wp never (send_message sock m)
    (λ b s', b = true ∧ outbox (z_kern s') sock = outbox (z_kern s) sock ++ message_frames m ∧
       inbox (z_kern s') = inbox (z_kern s)) s.
Proof.
  intros Hs. destruct m as [t b|i t b|i t b]; cbn [send_message];
    unfold SendMessage, SendRouterMessage, SendPubMessage; cbn [message_frames frames].
  - apply wp_ifM, wp_send_frame; [done|]. intros s1 E1 I1. apply wp_send_frame; [done|].
    intros s2 E2 I2. split_and!; [done| |congruence]. by rewrite E2, E1, <- (assoc_L (++)).
  - apply wp_ifM, wp_send_frame; [done|]. intros s1 E1 I1. apply wp_ifM, wp_send_frame; [done|].
    intros s2 E2 I2. apply wp_send_frame; [done|]. intros s3 E3 I3. split_and!; [done| |congruence].
    by rewrite E3, E2, E1, <- !(assoc_L (++)).
  - apply wp_ifM, wp_send_frame; [done|]. intros s1 E1 I1. apply wp_ifM, wp_send_frame; [done|].
    intros s2 E2 I2. apply wp_send_frame; [done|]. intros s3 E3 I3. split_and!; [done| |congruence].
    by rewrite E3, E2, E1, <- !(assoc_L (++)).
Qed.

(** the three frames of a router's or a subscriber's message, the last of
    which may be followed by more *)
Lemma recv_router_frames sock i tf t b more rest s :
  inbox (z_kern s) sock = (i, true) :: (tf, true) :: (b, more) :: rest → msg_type tf = Some t →
  wp never (RecvRouterMessage sock)
    (λ o s', o = Some (i, t, b) ∧ inbox (z_kern s') sock = rest ∧
       outbox (z_kern s') = outbox (z_kern s)) s.
Proof.
  intros Hin Ht. unfold RecvRouterMessage.
  eapply wp_option_bindM, wp_recv_frame; [exact Hin|]. intros s1 H1. split; [done|].
  eapply wp_option_bindM, wp_more_frame; [exact H1|]. intros s2 H2. split; [done|]. rewrite Ht.
  eapply wp_option_bindM, wp_more_frame; [exact H2|]. intros s3 H3. split; [done|].
  apply wp_ret. split; [done|]. split; apply H3.
Qed.

Lemma recv_pub_frames sock i tf t b more rest s :
  inbox (z_kern s) sock = (i, true) :: (tf, true) :: (b, more) :: rest → msg_type tf = Some t →
  wp never (RecvPubMessage sock)
    (λ o s', o = Some (i, t, b) ∧ inbox (z_kern s') sock = rest ∧
       outbox (z_kern s') = outbox (z_kern s)) s.
Proof. exact (recv_router_frames sock i tf t b more rest s). Qed.

Lemma recv_dealer_frames sock tf t b more rest s :
  inbox (z_kern s) sock = (tf, true) :: (b, more) :: rest → msg_type tf = Some t →
  wp never (RecvMessage sock)
    (λ o s', o = Some (t, b) ∧ inbox (z_kern s') sock = rest ∧
       outbox (z_kern s') = outbox (z_kern s)) s.
Proof.
  intros Hin Ht. unfold RecvMessage.
  eapply wp_option_bindM, wp_recv_frame; [exact Hin|]. intros s1 H1. split; [done|]. rewrite Ht.
  eapply wp_option_bindM, wp_more_frame; [exact H1|]. intros s2 H2. split; [done|].
  apply wp_ret. split; [done|]. split; apply H2.
Qed.

Lemma recv_message_ok sock m rest s :
  message_ok m → inbox (z_kern s) sock = message_frames m ++ rest →
  wp never (recv_message sock m) (λ o s', o = Some m ∧ inbox (z_kern s') sock = rest) s.
Proof.
  intros Hok Hin. destruct m as [t b|i t b|i t b]; cbn [message_frames frames app] in Hin;
    cbn [message_ok] in Hok; cbn [recv_message];
    [apply wp_option_bindM with (t, b)|apply wp_option_bindM with (i, t, b)..].
  - eapply wp_post; [by eapply recv_dealer_frames, msg_type_bytes|].
    intros o s1 (-> & H1 & _). split; [done|]. by apply wp_ret.
  - eapply wp_post; [by eapply recv_router_frames, msg_type_bytes|].
    intros o s1 (-> & H1 & _). split; [done|]. by apply wp_ret.
  - eapply wp_post; [by eapply recv_pub_frames, msg_type_bytes|].
    intros o s1 (-> & H1 & _). split; [done|]. by apply wp_ret.
Qed.

End message_facts.

(** No call of ZeroMQ fails as a program fails: its errors are results. *)
Section messages_return.
Context {K : Type} `{Zmq K}.
Abbreviation returns := (keeping (λ _ : zstate K, True)).

Lemma zmq_returns {A} (f : K → A * K) : returns (zmq f).
Proof. done. Qed.
Lemma GetZmqContext_returns : returns GetZmqContext.
Proof. intros s _. unfold wp, GetZmqContext. by destruct (z_ctx s). Qed.
Lemma option_bindM_returns {A B} (m : M (zstate K) (option A)) (k : A → M (zstate K) (option B)) :
  returns m → (∀ a, returns (k a)) → returns (option_bindM m k).
Proof. intros Hm Hk. apply keeping_bind; [done|]. intros [a|]; [done|apply keeping_ret]. Qed.
Lemma CloseSocket_returns sock : returns (CloseSocket sock).
Proof. by apply keeping_when. Qed.
End messages_return.
#[export] Hint Resolve zmq_returns GetZmqContext_returns : keeping.
#[export] Hint Extern 1 (keeping _ (option_bindM _ _)) =>
  apply option_bindM_returns; [|intros ?]; keeping_tac : keeping.

(** Sending a message takes no time back, whether it succeeds or not. *)
Section message_time.
Context {K : Type} `{TimeLaws K}.
Implicit Types (s : zstate K).

Definition steady (s : zstate K) : Z := (steady_now (z_kern s)).1.

Lemma send_frame_time sock f m s : wp never (SendFrame sock f m) (λ _ s', steady s ≤ steady s') s.
Proof.
  unfold SendFrame. apply wp_bind, wp_zmq. destruct (negb _); [apply wp_ret; apply init_size_time|].
  apply wp_bind, wp_zmq, wp_ret. unfold steady. cbn [z_kern].
  etrans; [apply init_size_time|apply send_time].
Qed.

Lemma send_message_time sock t b s : wp never (SendMessage sock t b) (λ _ s', steady s ≤ steady s') s.
Proof.
  unfold SendMessage. apply wp_ifM. eapply wp_post; [apply send_frame_time|]. intros [] s1 Hs1; cbv beta in *.
  - eapply wp_post; [apply send_frame_time|]. intros ok s2 Hs2. cbv beta in *. lia.
  - by apply wp_ret.
Qed.
End message_time.

(** C26: Messages arrive as they were sent. Sending a message of any of the
    three kinds puts its frames on the socket; and when these frames have come
    to the socket of a peer, followed by anything, receiving a message of that
    kind returns the same identity or topic, type and body, and leaves what
    follows. *)
Theorem message_roundtrip {K} `{ZmqLaws K} m rest sock sock' (s s' : zstate K) :
  message_ok m → sends (K := K) sock → inbox (z_kern s') sock' = message_frames m ++ rest →
  (∃ s1, send_message sock m s = Ok (true, s1) ∧
     outbox (z_kern s1) sock = outbox (z_kern s) sock ++ message_frames m) ∧
  (∃ s2, recv_message sock' m s' = Ok (Some m, s2) ∧ inbox (z_kern s2) sock' = rest).
Proof.
  intros Hok Hs Hin. split.
  - destruct (wp_ok_inv _ _ _ (send_message_ok sock m s Hs)) as (b & s1 & E & -> & Ho & _). eauto.
  - destruct (wp_ok_inv _ _ _ (recv_message_ok sock' m rest s' Hok Hin)) as (o & s2 & E & -> & Hi).
    eauto.
Qed.

(** A client can speak for another. A message to the router socket may
    have more frames than the three the server expects; [RecvRouterMessage]
    leaves them, and takes the next one for the identity of a message of its
    own: whatever identity the client chose to put there. *)
Theorem router_extra_frames_forge {K} `{ZmqLaws K} sock identity t body victim t' body' rest
    (s : zstate K) :
  0 ≤ t < 2 ^ 16 → 0 ≤ t' < 2 ^ 16 →
  inbox (z_kern s) sock =
    frames [identity; type_bytes t; body; victim; type_bytes t'; body'] ++ rest →
  ∃ s1 s2, RecvRouterMessage sock s = Ok (Some (identity, t, body), s1) ∧
    RecvRouterMessage sock s1 = Ok (Some (victim, t', body'), s2) ∧
    inbox (z_kern s2) sock = rest.
Proof.
  intros Ht Ht' Hin. cbn [frames app] in Hin.
  destruct (wp_ok_inv _ _ _ (recv_router_frames sock _ _ _ _ _ _ s Hin (msg_type_bytes t Ht)))
    as (o & s1 & E1 & -> & Hin1 & _).
  destruct (wp_ok_inv _ _ _ (recv_router_frames sock _ _ _ _ _ _ s1 Hin1 (msg_type_bytes t' Ht')))
    as (o & s2 & E2 & -> & Hin2 & _).
  by exists s1, s2.
Qed.

(** ** A concrete ZeroMQ

    Sockets with frames to receive and frames sent; [ZMQ_RCVMORE] is the flag
    of the last frame received. *)
Record zsim : Type := mkZsim {
  zs_in : gmap Z (list frame);
  zs_out : gmap Z (list frame);
  zs_more : gmap Z bool;
  zs_next : Z;                        (* the next pointer *)
  zs_options : list (Z * socket_option);
  zs_clock : Z;                       (* milliseconds *)
}.

Definition zs_recv (sock : Z) (k : zsim) : option (list byte) * zsim :=
  match default [] (zs_in k !! sock) with
  | [] => (None, k)
  | (f, m) :: r =>
      (Some f, mkZsim (<[sock := r]> (zs_in k)) (zs_out k) (<[sock := m]> (zs_more k)) (zs_next k)
                 (zs_options k) (zs_clock k))
  end.

Definition zs_option (sock : Z) (o : socket_option) (k : zsim) : zsim :=
  mkZsim (zs_in k) (zs_out k) (zs_more k) (zs_next k) (zs_options k ++ [(sock, o)])
    (zs_clock k).
Definition zs_fresh (k : zsim) : Z * zsim :=
  (zs_next k, mkZsim (zs_in k) (zs_out k) (zs_more k) (zs_next k + 1) (zs_options k)
    (zs_clock k)).

#[export] Instance zsim_zmq : Zmq zsim := {
  zmq_ctx_new := zs_fresh;
  zmq_socket ctx t := zs_fresh;
  zmq_set_int sock o v k := (0, zs_option sock o k);
  zmq_set_bytes sock o v k := (0, zs_option sock o k);
  zmq_close sock k := k;
  zmq_bind sock addr k := (0, k);
  zmq_connect sock addr k := (0, k);
  zmq_msg_init k := (0, k);
  zmq_msg_init_size n k := (0, k);
  zmq_msg_recv := zs_recv;
  zmq_rcvmore sock k := (Z.b2z (default false (zs_more k !! sock)), k);
  zmq_msg_send sock f m k :=
    (0, mkZsim (zs_in k) (<[sock := default [] (zs_out k !! sock) ++ [(f, m)]]> (zs_out k))
          (zs_more k) (zs_next k) (zs_options k) (zs_clock k));
  zmq_poll sock t k :=
    if decide (default [] (zs_in k !! sock) = []) then (0, 0, k) else (1, ZMQ_POLLIN, k);
}.

#[export] Instance zsim_laws : ZmqLaws zsim.
Proof.
  refine {| inbox k sock := default [] (zs_in k !! sock);
            outbox k sock := default [] (zs_out k !! sock) |}.
  - done.
  - done.
  - done.
  - intros sock k f m r Hin. cbv beta in *.
    change (zmq_msg_recv sock k) with (zs_recv sock k). unfold zs_recv. destruct (default [] _); [done|].
    injection Hin as -> ->. eexists. split; [reflexivity|]. cbn. by rewrite !lookup_insert_eq.
  - intros sock t k Hin. cbv beta in *. cbn [zmq_poll zsim_zmq]. rewrite decide_False by done. by exists k.
  - intros sock f m k k' rc [= <- <-]. cbn. by rewrite lookup_insert_eq.
  - done.
Defined.

Definition zs_sleep (n : Z) (k : zsim) : zsim :=
  mkZsim (zs_in k) (zs_out k) (zs_more k) (zs_next k) (zs_options k) (zs_clock k + n).

#[export] Instance zsim_clock : Clock zsim := {
  steady_now k := (zs_clock k * 10 ^ 6, k);
  system_now_ms k := (zs_clock k mod 2 ^ 63, k);
  sleep_for_ms := zs_sleep;
}.
#[export] Instance zsim_clock_laws : ClockLaws zsim.
Proof. split; try done. intros k. cbn. pose proof (Z.mod_pos_bound (zs_clock k) (2 ^ 63)). lia. Qed.

#[export] Instance zsim_time_laws : TimeLaws zsim.
Proof. split; intros; cbn; lia. Qed.

Lemma zsim_sends sock : sends (K := zsim) sock.
Proof. intros k f m. cbn. lia. Qed.

Definition zsim_with (sock : Z) (l : list frame) : zstate zsim :=
  mkZ (Some 1) (mkZsim {[ sock := l ]} ∅ ∅ 10 [] 0).

Lemma message_roundtrip_witness :
  ∃ s1, send_message 5 (RouterMessage (Z_to_byte <$> [9; 8]) 300 (Z_to_byte <$> [1])) (zsim_with 7 [])
      = Ok (true, s1) ∧
    outbox (z_kern s1) 5 =
      message_frames (RouterMessage (Z_to_byte <$> [9; 8]) 300 (Z_to_byte <$> [1])).
Proof.
  destruct (message_roundtrip (RouterMessage (Z_to_byte <$> [9; 8]) 300 (Z_to_byte <$> [1])) [] 5 7
    (zsim_with 7 [])
    (zsim_with 7 (message_frames (RouterMessage (Z_to_byte <$> [9; 8]) 300 (Z_to_byte <$> [1])))))
    as [(s1 & E & Ho) _]; [done|apply zsim_sends|by vm_compute|].
  exists s1. split; [exact E|exact Ho].
Defined.

Lemma router_extra_frames_forge_witness :
  ∃ s1 s2, RecvRouterMessage 5 (zsim_with 5
      (frames [[Byte.x01]; type_bytes 5; []; [Byte.x02]; type_bytes 9; []])) =
      Ok (Some ([Byte.x01], 5, []), s1) ∧
    RecvRouterMessage 5 s1 = Ok (Some ([Byte.x02], 9, []), s2).
Proof.
  destruct (router_extra_frames_forge 5 [Byte.x01] 5 [] [Byte.x02] 9 [] [] (zsim_with 5
      (frames [[Byte.x01]; type_bytes 5; []; [Byte.x02]; type_bytes 9; []])))
    as (s1 & s2 & E1 & E2 & _); [done|done|by vm_compute|].
  exists s1, s2. split; [exact E1|exact E2].
Defined.
