(* ===== verification/Console.v ===== *)
(** * Standard input

    What the programs with a menu use of [std::cin]. The input is a string. *)
From stdpp Require Import strings.
From Stdlib Require Import Ascii.
From S2P Require Import Prelude.

(** [std::getline]: the line, without its end, and the rest; [None] at the end
    of the input *)
Fixpoint getline_loop (s : string) : string * string :=
  match s with
  | EmptyString => (EmptyString, EmptyString)
  | String c s =>
      if decide (c = "010"%char) then (EmptyString, s)
      else let (l, r) := getline_loop s in (String c l, r)
  end.
Definition getline (s : string) : option (string * string) :=
  match s with EmptyString => None | _ => Some (getline_loop s) end.

(** the end of a line; a line that is printed *)
Definition nl : string := String "010" EmptyString.
Definition line (s : string) : string := s +:+ nl.

(** [std::cin.get()] *)
Definition get_char (s : string) : string := match s with String _ s => s | s => s end.

Lemma length_getline_loop s : (String.length (getline_loop s).2 ≤ String.length s - 1)%nat.
Proof.
  induction s as [|c s IH]; [done|]. cbn [getline_loop]. destruct (decide _); [cbn; lia|].
  destruct (getline_loop s) as [l r]. cbn in *. lia.
Qed.

Lemma length_getline s l r : getline s = Some (l, r) → (String.length r < String.length s)%nat.
Proof.
  unfold getline. destruct s as [|c s]; [done|]. intros E.
  assert (getline_loop (String c s) = (l, r)) as E' by congruence.
  pose proof (length_getline_loop (String c s)) as Hle. rewrite E' in Hle. cbn in *. lia.
Qed.
