(* ===== verification/Protobuf.v ===== *)
(** * Protocol buffers

    The code that protoc generates from [gateway/include/gateway/proto] is a
    parameter: for a type of messages, what [SerializeAsString] and
    [ParseFromArray] do. A message is a record with the fields of the .proto
    file; a double is the 64 bits of its representation. *)
From Stdlib Require Import Ascii.
From S2P Require Import Prelude.

(** [SerializeAsString], and [ParseFromArray], which can fail *)
Class Proto (A : Type) : Type := {
  SerializeAsString : A → list byte;
  ParseFromArray : list byte → option A;
}.

(** ** What can be serialized *)

Definition is_uint64 (n : Z) : Prop := 0 ≤ n < 2 ^ 64.
Definition is_int64 (n : Z) : Prop := - 2 ^ 63 ≤ n < 2 ^ 63.
Definition is_int32 (n : Z) : Prop := - 2 ^ 31 ≤ n < 2 ^ 31.
Definition is_double (n : Z) : Prop := 0 ≤ n < 2 ^ 64.

(** the strings of proto3 are UTF-8 *)
Definition byte_in (lo hi : N) (c : ascii) : bool :=
  (lo <=? N_of_ascii c)%N && (N_of_ascii c <=? hi)%N.
Fixpoint utf8 (s : string) : bool :=
  match s with
  | EmptyString => true
  | String a s =>
      if byte_in 0x00 0x7f a then utf8 s
      else match s with
      | EmptyString => false
      | String b s =>
          if byte_in 0xc2 0xdf a then byte_in 0x80 0xbf b && utf8 s
          else match s with
          | EmptyString => false
          | String c s =>
              if byte_in 0xe0 0xef a then
                (if byte_in 0xe0 0xe0 a then byte_in 0xa0 0xbf b
                 else if byte_in 0xed 0xed a then byte_in 0x80 0x9f b else byte_in 0x80 0xbf b) &&
                byte_in 0x80 0xbf c && utf8 s
              else match s with
              | EmptyString => false
              | String d s =>
                  byte_in 0xf0 0xf4 a &&
                  (if byte_in 0xf0 0xf0 a then byte_in 0x90 0xbf b
                   else if byte_in 0xf4 0xf4 a then byte_in 0x80 0x8f b else byte_in 0x80 0xbf b) &&
                  byte_in 0x80 0xbf c && byte_in 0x80 0xbf d && utf8 s
              end
          end
      end
  end.
Definition is_string (s : string) : Prop := utf8 s = true.

Example utf8_euro : utf8 "€ 5" = true.
Proof. reflexivity. Qed.
Example utf8_latin1 : utf8 (String (ascii_of_N 0xe9) "t") = false.
Proof. reflexivity. Qed.

(** the messages whose integers have the widths of their fields and whose
    strings are UTF-8 *)
Class WellFormed (A : Type) : Type := well_formed : A → Prop.
#[global] Hint Mode WellFormed ! : typeclass_instances.

(** the documented behaviour: such a message is parsed as it was *)
Class ProtoLaws (A : Type) `{Proto A, WellFormed A} : Prop :=
  parse_serialize a : well_formed a → ParseFromArray (SerializeAsString a) = Some a.

(** ** A concrete serializer, of any countable type: the binary digits of the
    number of a message, one to a byte *)

Fixpoint digits (p : positive) : list byte :=
  match p with
  | xH => []
  | xO p => Byte.x00 :: digits p
  | xI p => Byte.x01 :: digits p
  end.
Fixpoint undigits (l : list byte) : option positive :=
  match l with
  | [] => Some xH
  | Byte.x00 :: l => xO <$> undigits l
  | Byte.x01 :: l => xI <$> undigits l
  | _ => None
  end.
Lemma undigits_digits p : undigits (digits p) = Some p.
Proof. induction p as [p IH|p IH|]; cbn; [by rewrite IH..|done]. Qed.

Definition countable_proto {A} `{Countable A} : Proto A := {|
  SerializeAsString a := digits (encode a);
  ParseFromArray l := undigits l ≫= decode;
|}.
Lemma countable_proto_laws {A} `{Countable A, WellFormed A} : @ProtoLaws A countable_proto _.
Proof. intros a _. cbn. by rewrite undigits_digits; cbn; rewrite decode_encode. Qed.
