(* ===== verification/Router.v ===== *)
(** * The router server

    [gateway/src/RouterServer]: the dispatch loop over a ROUTER socket, with
    its heartbeat replies, its limit on connections and its idle sweep. The
    steady clock counts nanoseconds. *)
From S2P Require Import Prelude Messages.

#[export] Instance byte_eq_dec : EqDecision byte.
Proof. intros a b. destruct (Byte.byte_eq_dec a b); [by left|by right]. Defined.
#[export] Instance byte_countable : Countable byte.
Proof. refine (inj_countable Byte.to_N Byte.of_N Byte.of_to_N). Defined.

(** a message handed to [OnMessage] *)
Definition task : Type := (list byte * Z * list byte)%type.

(** [class RouterServer]; [rt_known] is [knownIdentities] of the running
    dispatch loop, and [rt_thread] tells whether its thread is joinable.
    [rt_pool] is the pool the server was given: whether it is running, and the
    tasks submitted to it. *)
Record RouterServer : Type := mkRouter {
  rt_pool : option (bool * list task);
  rt_sock : Z;
  rt_maxConnections : Z;
  rt_idleTimeoutSec : Z;
  rt_active : Z;
  rt_running : bool;
  rt_thread : bool;
  rt_lastActive : gmap (list byte) Z;
  rt_known : gset (list byte);
}.

Definition new_RouterServer : RouterServer := mkRouter None 0 0 0 0 false false ∅ ∅.

Definition set_rt_pool v r := mkRouter v (rt_sock r) (rt_maxConnections r) (rt_idleTimeoutSec r)
  (rt_active r) (rt_running r) (rt_thread r) (rt_lastActive r) (rt_known r).
Definition set_rt_sock v r := mkRouter (rt_pool r) v (rt_maxConnections r) (rt_idleTimeoutSec r)
  (rt_active r) (rt_running r) (rt_thread r) (rt_lastActive r) (rt_known r).
Definition set_rt_max v r := mkRouter (rt_pool r) (rt_sock r) v (rt_idleTimeoutSec r)
  (rt_active r) (rt_running r) (rt_thread r) (rt_lastActive r) (rt_known r).
Definition set_rt_idle v r := mkRouter (rt_pool r) (rt_sock r) (rt_maxConnections r) v
  (rt_active r) (rt_running r) (rt_thread r) (rt_lastActive r) (rt_known r).
Definition set_rt_active v r := mkRouter (rt_pool r) (rt_sock r) (rt_maxConnections r)
  (rt_idleTimeoutSec r) v (rt_running r) (rt_thread r) (rt_lastActive r) (rt_known r).
Definition set_rt_running v r := mkRouter (rt_pool r) (rt_sock r) (rt_maxConnections r)
  (rt_idleTimeoutSec r) (rt_active r) v (rt_thread r) (rt_lastActive r) (rt_known r).
Definition set_rt_thread v r := mkRouter (rt_pool r) (rt_sock r) (rt_maxConnections r)
  (rt_idleTimeoutSec r) (rt_active r) (rt_running r) v (rt_lastActive r) (rt_known r).
Definition set_rt_lastActive v r := mkRouter (rt_pool r) (rt_sock r) (rt_maxConnections r)
  (rt_idleTimeoutSec r) (rt_active r) (rt_running r) (rt_thread r) v (rt_known r).
Definition set_rt_known v r := mkRouter (rt_pool r) (rt_sock r) (rt_maxConnections r)
  (rt_idleTimeoutSec r) (rt_active r) (rt_running r) (rt_thread r) (rt_lastActive r) v.

(** the server and ZeroMQ *)
Record rworld (K : Type) : Type := mkR { r_server : RouterServer; r_zmq : zstate K }.
Arguments mkR {K}. Arguments r_server {K}. Arguments r_zmq {K}.

Section router.
Context {K : Type} `{Zmq K, Clock K}.
Abbreviation R := (rworld K).
Implicit Types (identity body : list byte) (rawType : Z).

Definition in_zmq {A} (m : M (zstate K) A) : M R A := λ s,
  match m (r_zmq s) with
  | Ok (a, z) => Ok (a, mkR (r_server s) z)
  | Fail e => Fail e
  end.
Definition get_server : M R RouterServer := gets r_server.
Definition mod_server (f : RouterServer → RouterServer) : M R unit :=
  modify (λ s, mkR (f (r_server s)) (r_zmq s)).

(** the address of a socket *)
Definition tcp_address (bindAddr : string) (port : Z) : string :=
  ("tcp://" ++ bindAddr ++ ":" ++ pretty port)%string.

(** [Start]: the new dispatch thread knows no identities. Assigning a thread
    to one that is joinable terminates the program. *)
Definition Start (bindAddr : string) (port : Z) : M R bool :=
  r ← get_server;
  if negb (rt_sock r =? 0) then mret false
  else
    router ← in_zmq CreateRouterSocket;
    if router =? 0 then mret false
    else
      in_zmq (SetZmqHeartbeat router 3000 9000 20000);;
      ifM (in_zmq (BindSocket router (tcp_address bindAddr port)))
        (mod_server (set_rt_sock router);;
         mod_server (set_rt_running true);;
         (if rt_thread r then failM Exception else mret tt);;
         mod_server (set_rt_thread true);;
         mod_server (set_rt_known ∅);;
         mret true)
        (in_zmq (CloseSocket router);; mret false).

(** [Stop]: the dispatch thread is joined before the socket is closed *)
Definition Stop : M R unit :=
  mod_server (set_rt_running false);;
  mod_server (set_rt_thread false);;
  r ← get_server;
  when (negb (rt_sock r =? 0))
    (in_zmq (CloseSocket (rt_sock r));; mod_server (set_rt_sock 0)).

Definition SendReply identity (msgType : Z) body : M R bool :=
  r ← get_server;
  if rt_sock r =? 0 then mret false else in_zmq (SendRouterMessage (rt_sock r) identity msgType body).

Definition kPingType : Z := 3.
Definition kPongType : Z := 4.

Definition HandlePing identity : M R unit :=
  r ← get_server;
  in_zmq (SendRouterMessage (rt_sock r) identity kPongType []);; mret tt.

(** the seconds between two times: [duration_cast] truncates *)
Definition elapsed_seconds (now t : Z) : Z := Z.quot (now - t) (10 ^ 9).

(** one turn of [CleanupIdleConnections] *)
Definition sweep (now : Z) identity (r : RouterServer) : RouterServer :=
  match rt_lastActive r !! identity with
  | None => r
  | Some t =>
      if rt_idleTimeoutSec r <=? elapsed_seconds now t then
        let r := set_rt_lastActive (delete identity (rt_lastActive r)) r in
        let remaining := i32 (rt_active r - 1) in
        set_rt_active (if remaining <? 0 then 0 else remaining) r
      else r
  end.

(** The order of the map does not matter: every turn does the same. *)
Definition CleanupIdleConnections : M R unit :=
  now ← in_zmq (zmq steady_now);
  r ← get_server;
  mod_server (λ r0, foldr (sweep now) r0 (map_to_list (rt_lastActive r)).*1).

(** the virtual [OnMessage] *)
Context (OnMessage : list byte → Z → list byte → M R unit).

(** the task goes to the pool, which drops it once it is shut down, or is run
    at once *)
Definition submit identity rawType body : M R unit :=
  r ← get_server;
  match rt_pool r with
  | Some (running, tasks) =>
      when running (mod_server (set_rt_pool (Some (running, tasks ++ [(identity, rawType, body)]))))
  | None => OnMessage identity rawType body
  end.

(** the connections are limited: whether the message is to be handled *)
Definition admit_client identity : M R bool :=
  r ← get_server;
  if 0 <? rt_maxConnections r then
    if bool_decide (identity ∈ rt_known r) then mret true
    else if rt_maxConnections r <=? rt_active r then mret false
    else
      mod_server (set_rt_known ({[ identity ]} ∪ rt_known r));;
      mod_server (set_rt_active (i32 (rt_active r + 1)));;
      mret true
  else mret true.

(** a message that was received *)
Definition dispatch identity rawType body : M R unit :=
  now ← in_zmq (zmq steady_now);
  mod_server (λ r, set_rt_lastActive (<[identity := now]> (rt_lastActive r)) r);;
  if rawType =? kPingType then HandlePing identity
  else ifM (admit_client identity) (submit identity rawType body) (mret tt).

(** one turn of [DispatchLoop]: whether the loop goes on *)
Definition dispatch_turn : M R bool :=
  r ← get_server;
  p ← in_zmq (zmq (zmq_poll (rt_sock r) 100));
  let '(rc, revents) := p in
  if rc <? 0 then mret false
  else if rc =? 0 then
    when (0 <? rt_idleTimeoutSec r) CleanupIdleConnections;; mret true
  else if Z.land revents ZMQ_POLLIN =? 0 then mret true
  else
    in_zmq (RecvRouterMessage (rt_sock r)) ≫= λ msg : option (list byte * Z * list byte),
    match msg with
    | None => r ← get_server; mret (rt_running r)
    | Some (identity, rawType, body) => dispatch identity rawType body;; mret true
    end.

(** [DispatchLoop]; a unit of fuel is a turn *)
Fixpoint DispatchLoop (fuel : nat) : M R unit :=
  match fuel with
  | O => failM OutOfFuel
  | S fuel =>
      ifM (gets (λ s, rt_running (r_server s)))
        (ifM dispatch_turn (DispatchLoop fuel) (mret tt))
        (mret tt)
  end.
End router.

(** ** Facts *)

(** The counter of connections is between zero and the limit. While idle
    clients are not swept, it is the number of identities that were admitted,
    and whoever has a message in the pool is one of them. *)
Definition admission_ok (r : RouterServer) : Prop :=
  (rt_maxConnections r < 2 ^ 31 ∧ 0 ≤ rt_active r ≤ Z.max 0 (rt_maxConnections r)) ∧
  (rt_idleTimeoutSec r ≤ 0 → rt_active r = Z.of_nat (size (rt_known r))) ∧
  (0 < rt_maxConnections r → ∀ running tasks, rt_pool r = Some (running, tasks) →
     Forall (λ t : task, t.1.1 ∈ rt_known r) tasks).

Lemma sweep_admission now l r :
  0 < rt_idleTimeoutSec r → admission_ok r → admission_ok (foldr (sweep now) r l).
Proof.
  intros Hi Hr. enough (admission_ok (foldr (sweep now) r l) ∧ 0 < rt_idleTimeoutSec (foldr (sweep now) r l))
    by tauto.
  induction l as [|i l [((Hm & H0 & H1) & H2 & H3) IH]]; [done|]. cbn. unfold sweep at 1 3.
  destruct (_ !! i) as [t|]; [|by repeat split].
  destruct (_ <=? _); [|by repeat split]. split; [split_and!; [exact Hm|..|cbn; lia|exact H3]|exact IH];
    cbn; rewrite i32_small by lia; destruct (Z.ltb_spec (rt_active (foldr (sweep now) r l) - 1) 0); lia.
Qed.

Section router_facts.
Context {K : Type} `{Zmq K, Clock K}.
Context (OnMessage : list byte → Z → list byte → M (rworld K) unit).
Implicit Types (s : rworld K).

(** a turn of the loop, as a step *)
Definition turn : relation (rworld K) := λ s s', ∃ b, dispatch_turn OnMessage s = Ok (b, s').

(** a handler does not touch the members of the server *)
Definition handler_frame : Prop :=
  ∀ i t b s u s', OnMessage i t b s = Ok (u, s') → r_server s' = r_server s.

Lemma wp_any_in_zmq {A} (m : M (zstate K) A) (Q : A → rworld K → Prop) s :
  (∀ a z, Q a (mkR (r_server s) z)) → wp any (in_zmq m) Q s.
Proof. intros HQ. unfold wp, in_zmq. by destruct (m (r_zmq s)) as [[a z]|]. Qed.

Lemma wp_any_submit i t b s :
  handler_frame → admission_ok (r_server s) →
  (0 < rt_maxConnections (r_server s) → i ∈ rt_known (r_server s)) →
  wp any (submit OnMessage i t b) (λ _ s', admission_ok (r_server s')) s.
Proof.
  intros Hf Hok Hi. pose proof Hok as (Hc & Hk & Hp). unfold submit, get_server, mod_server.
  apply wp_bind, wp_gets. cbv beta.
  destruct (rt_pool (r_server s)) as [[running tasks]|] eqn:Epool.
  - apply wp_when. destruct running; [|exact Hok]. apply wp_modify. split; [exact Hc|]. split; [exact Hk|].
    intros Hm ? ? [= <- <-]. apply Forall_app_2; [by eapply Hp|]. apply Forall_singleton. by apply Hi.
  - unfold wp. destruct (OnMessage i t b s) as [[u s']|] eqn:E; [|done].
    by rewrite (Hf _ _ _ _ _ _ E).
Qed.

Lemma wp_any_admit i s :
  admission_ok (r_server s) →
  wp any (admit_client i) (λ b s', admission_ok (r_server s') ∧
    (b = true → 0 < rt_maxConnections (r_server s') → i ∈ rt_known (r_server s'))) s.
Proof.
  intros Hok. pose proof Hok as ((Hm & Hlo & Hhi) & Hk & Hp). unfold admit_client, get_server, mod_server.
  apply wp_bind, wp_gets.
  destruct (Z.ltb_spec 0 (rt_maxConnections (r_server s))); [|apply wp_ret; split; [done|lia]].
  case_bool_decide as Hin; [by apply wp_ret|].
  destruct (Z.leb_spec (rt_maxConnections (r_server s)) (rt_active (r_server s)));
    [by apply wp_ret|].
  apply wp_bind, wp_modify, wp_bind, wp_modify, wp_ret. cbn. split; [|set_solver].
  unfold admission_ok. cbn. rewrite i32_small by lia. split_and!; [done|lia|lia|..].
  - intros Hi. rewrite size_union, size_singleton by set_solver. specialize (Hk Hi). lia.
  - intros _ running tasks Hpool. eapply Forall_impl; [by eapply Hp|]. set_solver.
Qed.

Lemma wp_any_turn s :
  handler_frame → admission_ok (r_server s) →
  wp any (dispatch_turn OnMessage) (λ _ s', admission_ok (r_server s')) s.
Proof.
  intros Hf Hok. unfold dispatch_turn, get_server. apply wp_bind, wp_gets, wp_bind.
  apply wp_any_in_zmq. intros [rc revents] z. cbn.
  destruct (rc <? 0); [by apply wp_ret|].
  destruct (rc =? 0).
  - apply wp_bind, wp_when. destruct (Z.ltb_spec 0 (rt_idleTimeoutSec (r_server s))) as [Hi|];
      [|by apply wp_ret].
    unfold CleanupIdleConnections, get_server, mod_server. apply wp_bind, wp_any_in_zmq. intros now z'.
    apply wp_bind, wp_gets, wp_modify, wp_ret. by apply sweep_admission.
  - destruct (_ =? 0); [by apply wp_ret|]. apply wp_bind, wp_any_in_zmq.
    intros [[[i t] b]|] z'; [|by apply wp_bind, wp_gets, wp_ret].
    apply wp_bind. unfold dispatch, mod_server. apply wp_bind, wp_any_in_zmq. intros now z''.
    apply wp_bind, wp_modify. cbn. destruct (t =? kPingType).
    + unfold HandlePing, get_server. apply wp_bind, wp_gets, wp_bind, wp_any_in_zmq. intros ? ?.
      by apply wp_ret.
    + apply wp_ifM. eapply wp_post; [by apply wp_any_admit|]. intros [] s' [Hs' Hi]; [|by apply wp_ret].
      eapply wp_post; [by apply wp_any_submit; auto|]. intros u s'' Hs''. exact Hs''.
Qed.
End router_facts.

(** C11: The limit on connections is kept. Start a fresh server, and let its
    dispatch loop make any number of turns, whatever the clients send and
    whenever the pool runs: the counter never leaves the interval from zero to
    the limit; without an idle timeout it counts the identities admitted, so
    that no more clients than the limit are served; and every message handed
    to the pool is from a client that was admitted. *)
Theorem router_admission {K} `{Zmq K, Clock K} OnMessage addr port (s0 s1 s : rworld K) :
  handler_frame OnMessage →
  rt_maxConnections (r_server s0) < 2 ^ 31 → rt_active (r_server s0) = 0 →
  (∀ b tasks, rt_pool (r_server s0) = Some (b, tasks) → tasks = []) →
  Start addr port s0 = Ok (true, s1) → rtc (turn OnMessage) s1 s →
  admission_ok (r_server s).
Proof.
  intros Hf Hm Ha Hp Hs. intros Hr.
  enough (admission_ok (r_server s1)) as Hok.
  { clear Hs. induction Hr as [|s1 s2 s3 [b E] _ IH]; [done|]. apply IH.
    exact (wp_elim _ _ _ _ _ _ (wp_any_turn OnMessage s1 Hf Hok) E). }
  refine (wp_elim any (Start addr port) (λ b s', b = true → admission_ok (r_server s')) _ _ _ _ Hs eq_refl).
  unfold Start, get_server, mod_server. apply wp_bind, wp_gets. cbv beta.
  destruct (negb _); [by apply wp_ret|]. apply wp_bind, wp_any_in_zmq. intros sock z. cbv beta.
  destruct (sock =? 0); [by apply wp_ret|].
  apply wp_bind, wp_any_in_zmq. intros [] z1. apply wp_ifM, wp_any_in_zmq. intros [] z2.
  - apply wp_bind, wp_modify, wp_bind, wp_modify, wp_bind. cbn.
    destruct (rt_thread _); [done|]. apply wp_ret, wp_bind, wp_modify, wp_bind, wp_modify, wp_ret.
    intros _. unfold admission_ok. cbn. rewrite Ha, size_empty. split_and!; [done|lia|lia|done|].
    intros _ b tasks E. by rewrite (Hp _ _ E).
  - by apply wp_bind, wp_any_in_zmq; intros; apply wp_ret.
Qed.

(** ** One message *)

(** whether a client may be served: it is known, or there is room for it *)
Definition serves (r : RouterServer) (i : list byte) : bool :=
  (rt_maxConnections r <=? 0) || bool_decide (i ∈ rt_known r) || (rt_active r <? rt_maxConnections r).

(** whether it is then counted *)
Definition counts (r : RouterServer) (i : list byte) : bool :=
  (0 <? rt_maxConnections r) && bool_decide (i ∉ rt_known r) && (rt_active r <? rt_maxConnections r).

Section router_turn.
Context {K : Type} `{CL : ClockLaws K}.
Context (OnMessage : list byte → Z → list byte → M (rworld K) unit).
Implicit Types (s : rworld K).

Lemma wp_in_zmq {A} (m : M (zstate K) A) (Q : A → rworld K → Prop) s :
  wp never m (λ a z, Q a (mkR (r_server s) z)) (r_zmq s) → wp never (in_zmq m) Q s.
Proof. unfold wp, in_zmq. by destruct (m (r_zmq s)) as [[a z]|]. Qed.

Lemma admit_known i s :
  i ∈ rt_known (r_server s) → admit_client i s = Ok (true, s).
Proof.
  intros Hi. enough (wp never (admit_client i) (λ b s', b = true ∧ s' = s) s) as Hwp.
  { by destruct (wp_ok_inv _ _ _ Hwp) as (? & ? & ? & -> & ->). }
  unfold admit_client, get_server. apply wp_bind, wp_gets. cbv beta.
  rewrite bool_decide_true by done. destruct (0 <? _); by apply wp_ret.
Qed.

Lemma wp_admit i s (Q : bool → rworld K → Prop) :
  rt_maxConnections (r_server s) < 2 ^ 31 → 0 ≤ rt_active (r_server s) →
  (∀ r, rt_pool r = rt_pool (r_server s) → rt_sock r = rt_sock (r_server s) →
     rt_lastActive r = rt_lastActive (r_server s) →
     rt_known r = (if counts (r_server s) i then {[ i ]} ∪ rt_known (r_server s)
                   else rt_known (r_server s)) →
     rt_active r = rt_active (r_server s) + Z.b2z (counts (r_server s) i) →
     Q (serves (r_server s) i) (mkR r (r_zmq s))) →
  wp never (admit_client i) Q s.
Proof.
  intros Hm Ha HQ. unfold admit_client, get_server, mod_server. apply wp_bind, wp_gets. cbv beta.
  unfold serves, counts in HQ.
  destruct (Z.ltb_spec 0 (rt_maxConnections (r_server s))) as [Hlt|Hge].
  - rewrite (proj2 (Z.leb_gt _ _)) in HQ by done. rewrite bool_decide_not in HQ.
    case_bool_decide as Hin; cbn in HQ.
    { apply wp_ret. destruct s as [r z]. apply HQ; cbn; try done. lia. }
    destruct (Z.leb_spec (rt_maxConnections (r_server s)) (rt_active (r_server s))).
    + rewrite (proj2 (Z.ltb_ge _ _)) in HQ by done. apply wp_ret. destruct s as [r z].
      apply HQ; cbn; try done. lia.
    + rewrite (proj2 (Z.ltb_lt _ _)) in HQ by done.
      apply wp_bind, wp_modify, wp_bind, wp_modify, wp_ret. apply HQ; try done.
      cbn. apply i32_small. lia.
  - rewrite (proj2 (Z.leb_le _ _)) in HQ by done. cbn in HQ. apply wp_ret. destruct s as [r z].
    apply HQ; cbn; try done. lia.
Qed.
End router_turn.

(** C16: What a turn of the dispatch loop does with a message. When the frames
    of a message have come to the server, the turn takes exactly these and the
    loop goes on; the time of the client is noted; a ping is answered with a
    pong to the client that sent it, and goes no further; any other message is
    handed to the pool, once and behind the others, if its client is known or
    there is room for one more, who is then counted; and otherwise it is
    dropped, and nothing at all is sent. *)
Theorem router_turn {K} `{ClockLaws K} OnMessage i t b rest tasks (s : rworld K) :
  0 ≤ t < 2 ^ 16 → sends (K := K) (rt_sock (r_server s)) →
  rt_maxConnections (r_server s) < 2 ^ 31 → 0 ≤ rt_active (r_server s) →
  rt_pool (r_server s) = Some (true, tasks) →
  inbox (z_kern (r_zmq s)) (rt_sock (r_server s)) = message_frames (RouterMessage i t b) ++ rest →
  let r := r_server s in
  let handled := negb (t =? kPingType) && serves r i in
  let counted := negb (t =? kPingType) && counts r i in
  ∃ s' now, dispatch_turn OnMessage s = Ok (true, s') ∧
    inbox (z_kern (r_zmq s')) (rt_sock r) = rest ∧
    outbox (z_kern (r_zmq s')) (rt_sock r) = outbox (z_kern (r_zmq s)) (rt_sock r) ++
      (if t =? kPingType then message_frames (RouterMessage i kPongType []) else []) ∧
    rt_lastActive (r_server s') = <[i := now]> (rt_lastActive r) ∧
    rt_pool (r_server s') = Some (true, tasks ++ if handled then [(i, t, b)] else []) ∧
    rt_known (r_server s') = (if counted then {[ i ]} ∪ rt_known r else rt_known r) ∧
    rt_active (r_server s') = rt_active r + Z.b2z counted.
Proof.
  intros Ht Hs Hm Ha Hp Hin. cbv zeta.
  destruct (poll_ready (rt_sock (r_server s)) 100 (z_kern (r_zmq s))) as (k & Hpoll & Hki & Hko);
    [by rewrite Hin|].
  match goal with |- ∃ s' now, _ ∧ @?P s' now =>
    enough (wp never (dispatch_turn OnMessage) (λ b s', b = true ∧ ∃ now, P s' now) s) as Hwp
      by (destruct (wp_ok_inv _ _ _ Hwp) as (? & s' & E & -> & now & HP); exists s', now; by split)
  end.
  unfold dispatch_turn, get_server. apply wp_bind, wp_gets, wp_bind, wp_in_zmq, wp_zmq.
  rewrite Hpoll. cbn. apply wp_bind, wp_in_zmq. eapply wp_post.
  { cbn [message_frames frames app] in Hin. eapply recv_router_frames, msg_type_bytes, Ht. cbn.
    by rewrite Hki, Hin. }
  intros ? z1 (-> & Hi1 & Ho1). cbn in Ho1. rewrite Hko in Ho1.
  destruct (steady_quiet (z_kern z1)) as [Hi2 Ho2].
  rewrite <- Hi2 in Hi1. rewrite <- Ho2 in Ho1.
  apply wp_bind. unfold dispatch, mod_server. apply wp_bind, wp_in_zmq, wp_zmq, wp_bind, wp_modify.
  cbn [r_server r_zmq]. destruct (t =? kPingType).
  - apply wp_bind, wp_gets. cbn. apply wp_bind, wp_in_zmq. eapply wp_post.
    { apply (send_message_ok (rt_sock (r_server s)) (RouterMessage i kPongType [])). exact Hs. }
    intros b' z2 (-> & Ho3 & Hi3). apply wp_ret. split; [done|]. eexists. cbn in *.
    rewrite Ho3, Hi3, Ho1, Hp, app_nil_r. split_and!; [done..|lia].
  - apply wp_ifM, wp_admit; [done..|]. intros r Er1 Er2 Er3 Er4 Er5. cbn in *.
    change (serves _ i) with (serves (r_server s) i). change (counts _ i) with (counts (r_server s) i) in *.
    destruct (serves (r_server s) i); cbn.
    + apply wp_bind, wp_gets. cbn. rewrite Er1, Hp. cbn. split; [done|]. eexists. cbn.
      rewrite Ho1, app_nil_r. by split_and!.
    + split; [done|]. eexists. cbn. rewrite Ho1, Er1, Hp, !app_nil_r. by split_and!.
Qed.

(** C39: The idle sweep lets more clients in than the limit. A client that was
    admitted and has been silent for the idle timeout is taken off the counter
    by the sweep, but stays known: its next message is handed on, and it is
    not counted again. *)
Theorem router_sweep_uncounts {K} `{Zmq K, Clock K} now i t (r : RouterServer) (z : zstate K) :
  0 < rt_maxConnections r < 2 ^ 31 → 0 < rt_active r ≤ rt_maxConnections r → i ∈ rt_known r →
  rt_lastActive r !! i = Some t → rt_idleTimeoutSec r ≤ elapsed_seconds now t →
  rt_active (sweep now i r) = rt_active r - 1 ∧
  admit_client i (mkR (sweep now i r) z) = Ok (true, mkR (sweep now i r) z).
Proof.
  intros Hm Ha Hi Ht Hidle. unfold sweep. rewrite Ht, (proj2 (Z.leb_le _ _)) by done. split.
  - cbn. rewrite i32_small by lia. destruct (Z.ltb_spec (rt_active r - 1) 0); lia.
  - by apply admit_known.
Qed.

(** ** Witnesses: a server with a limit of one client, its pool and its idle
    timeout of a second, on the concrete ZeroMQ *)
Definition demo_router : RouterServer :=
  set_rt_pool (Some (true, [])) (set_rt_max 1 (set_rt_idle 1 new_RouterServer)).

Definition demo_handler (i : list byte) (t : Z) (b : list byte) : M (rworld zsim) unit :=
  SendReply i t b;; mret tt.

Lemma demo_handler_frame : handler_frame demo_handler.
Proof.
  intros i t b s u s' E.
  apply (wp_elim any (demo_handler i t b) (λ _ s', r_server s' = r_server s) s u s'); [|exact E].
  unfold demo_handler, SendReply, get_server. apply wp_bind, wp_bind, wp_gets. cbv beta.
  destruct (_ =? 0); [done|]. apply wp_any_in_zmq. intros ok z. by apply wp_ret.
Qed.

(** the messages of two clients are waiting when the server starts; its
    socket is the pointer 10 *)
Definition demo_before : rworld zsim := mkR demo_router (zsim_with 10
  (frames [[Byte.x01]; type_bytes 1; []] ++ frames [[Byte.x02]; type_bytes 1; []])).

Definition demo_started : rworld zsim :=
  match Start "0.0.0.0" 5555 demo_before with Ok (_, s) => s | Fail _ => demo_before end.

(** two turns: the first client is admitted, and the other is not *)
Definition demo_served : rworld zsim :=
  match (dispatch_turn demo_handler;; dispatch_turn demo_handler) demo_started with
  | Ok (_, s) => s
  | Fail _ => demo_before
  end.

Lemma router_admission_witness :
  rt_pool (r_server demo_served) = Some (true, [([Byte.x01], 1, [])]) ∧
  admission_ok (r_server demo_served).
Proof.
  split; [vm_compute; reflexivity|].
  apply (router_admission demo_handler "0.0.0.0" 5555 demo_before demo_started demo_served).
  - apply demo_handler_frame.
  - done.
  - done.
  - by intros b tasks [= <- <-].
  - vm_compute. reflexivity.
  - eapply rtc_l; [exists true; vm_compute; reflexivity|].
    eapply rtc_l; [exists true; vm_compute; reflexivity|]. apply rtc_refl.
Defined.

Lemma router_turn_witness :
  ∃ s', dispatch_turn demo_handler demo_started = Ok (true, s') ∧
    rt_pool (r_server s') = Some (true, [([Byte.x01], 1, [])]) ∧ rt_active (r_server s') = 1.
Proof.
  destruct (router_turn demo_handler [Byte.x01] 1 [] (frames [[Byte.x02]; type_bytes 1; []]) []
    demo_started) as (s' & now & E & _ & _ & _ & Hp & _ & Ha);
    [done|apply zsim_sends|done|done|vm_compute; reflexivity|vm_compute; reflexivity|].
  exists s'. split; [exact E|]. split; [exact Hp|exact Ha].
Defined.

Lemma router_sweep_uncounts_witness :
  rt_active (sweep (2 * 10 ^ 9) [Byte.x01] (r_server demo_served)) = 0 ∧
  admit_client [Byte.x01] (mkR (sweep (2 * 10 ^ 9) [Byte.x01] (r_server demo_served)) (r_zmq demo_served)) =
  Ok (true, mkR (sweep (2 * 10 ^ 9) [Byte.x01] (r_server demo_served)) (r_zmq demo_served)).
Proof.
  destruct (router_sweep_uncounts (2 * 10 ^ 9) [Byte.x01] 0 (r_server demo_served) (r_zmq demo_served))
    as [H1 H2]; [by vm_compute|by vm_compute| | |by vm_compute|].
  - apply (bool_decide_unpack _). vm_compute. reflexivity.
  - vm_compute. reflexivity.
  - split; [exact H1|exact H2].
Defined.
