(* ===== verification/Trade.v ===== *)
(** * The trade gateway

    The messages of [gateway/include/gateway/api/trade_types.h] and
    [proto/trade.proto] with the conversions between them, the gateway of
    [src/trade_gateway], and the handler of [src/server.cpp]. *)
From S2P Require Import Prelude Protobuf Messages Router.

(** [enum class TradeMsgType : uint16_t] *)
Definition kLoginRequest : Z := 1.
Definition kLoginResponse : Z := 2.
Definition kPing : Z := 3.
Definition kPong : Z := 4.
Definition kPlaceOrderRequest : Z := 5.
Definition kPlaceOrderResponse : Z := 6.
Definition kQueryOrderRequest : Z := 7.
Definition kQueryOrderResponse : Z := 8.
Definition kCancelOrderRequest : Z := 9.
Definition kCancelOrderResponse : Z := 10.

Definition ERR_OK : Z := 0.
Definition ERR_NETWORK : Z := -1.
Definition ERR_SEND_FAILED : Z := -2.
Definition ERR_INVALID_CREDENTIALS : Z := 1.
Definition ERR_USER_LOCKED : Z := 2.

(** ** trade.proto *)
Module trade_proto.

Record AccountInfo : Type := mkAccountInfo {
  account_user_id : Z;
  account_username : string;
  account_email : string;
  account_role : string;
}.
Record LoginRequest : Type := mkLoginRequest {
  login_request_id : Z;
  login_username : string;
  login_password : string;
}.
Record LoginResponse : Type := mkLoginResponse {
  logged_request_id : Z;
  logged_error_code : Z;
  logged_error_msg : string;
  logged_account : option AccountInfo;
}.
Record PlaceOrderRequest : Type := mkPlaceOrderRequest {
  place_request_id : Z;
  place_symbol : string;
  place_side : Z;
  place_order_type : Z;
  place_price : Z;
  place_quantity : Z;
}.
Record PlaceOrderResponse : Type := mkPlaceOrderResponse {
  placed_request_id : Z;
  placed_error_code : Z;
  placed_error_msg : string;
  placed_order_id : Z;
}.
Record QueryOrderRequest : Type := mkQueryOrderRequest {
  query_request_id : Z;
  query_order_id : Z;
}.
Record QueryOrderResponse : Type := mkQueryOrderResponse {
  queried_request_id : Z;
  queried_error_code : Z;
  queried_error_msg : string;
  queried_order_id : Z;
  queried_symbol : string;
  queried_status : Z;
  queried_filled_qty : Z;
  queried_avg_price : Z;
}.
Record CancelOrderRequest : Type := mkCancelOrderRequest {
  cancel_request_id : Z;
  cancel_order_id : Z;
}.
Record CancelOrderResponse : Type := mkCancelOrderResponse {
  cancelled_request_id : Z;
  cancelled_error_code : Z;
  cancelled_error_msg : string;
}.

#[export] Instance AccountInfo_wf : WellFormed AccountInfo := λ a,
  is_uint64 (account_user_id a) ∧ is_string (account_username a) ∧
  is_string (account_email a) ∧ is_string (account_role a).
#[export] Instance LoginRequest_wf : WellFormed LoginRequest := λ r,
  is_uint64 (login_request_id r) ∧ is_string (login_username r) ∧ is_string (login_password r).
#[export] Instance LoginResponse_wf : WellFormed LoginResponse := λ r,
  is_uint64 (logged_request_id r) ∧ is_int32 (logged_error_code r) ∧
  is_string (logged_error_msg r) ∧
  match logged_account r with Some a => well_formed a | None => True end.
#[export] Instance PlaceOrderRequest_wf : WellFormed PlaceOrderRequest := λ r,
  is_uint64 (place_request_id r) ∧ is_string (place_symbol r) ∧ is_int32 (place_side r) ∧
  is_int32 (place_order_type r) ∧ is_double (place_price r) ∧ is_double (place_quantity r).
#[export] Instance PlaceOrderResponse_wf : WellFormed PlaceOrderResponse := λ r,
  is_uint64 (placed_request_id r) ∧ is_int32 (placed_error_code r) ∧
  is_string (placed_error_msg r) ∧ is_uint64 (placed_order_id r).
#[export] Instance QueryOrderRequest_wf : WellFormed QueryOrderRequest := λ r,
  is_uint64 (query_request_id r) ∧ is_uint64 (query_order_id r).
#[export] Instance QueryOrderResponse_wf : WellFormed QueryOrderResponse := λ r,
  is_uint64 (queried_request_id r) ∧ is_int32 (queried_error_code r) ∧
  is_string (queried_error_msg r) ∧ is_uint64 (queried_order_id r) ∧
  is_string (queried_symbol r) ∧ is_int32 (queried_status r) ∧
  is_double (queried_filled_qty r) ∧ is_double (queried_avg_price r).
#[export] Instance CancelOrderRequest_wf : WellFormed CancelOrderRequest := λ r,
  is_uint64 (cancel_request_id r) ∧ is_uint64 (cancel_order_id r).
#[export] Instance CancelOrderResponse_wf : WellFormed CancelOrderResponse := λ r,
  is_uint64 (cancelled_request_id r) ∧ is_int32 (cancelled_error_code r) ∧
  is_string (cancelled_error_msg r).
End trade_proto.
Export (hints) trade_proto.

(** ** trade_types.h *)

Record AccountInfo : Type := mkAccountInfo {
  user_id : Z;
  username : string;
  email : string;
  role : string;
}.
Record LoginRequest : Type := mkLoginRequest {
  lreq_request_id : Z;
  lreq_username : string;
  lreq_password : string;
}.
Record LoginResponse : Type := mkLoginResponse {
  lrsp_request_id : Z;
  lrsp_error_code : Z;
  lrsp_error_msg : string;
  lrsp_account : AccountInfo;
}.
Record PlaceOrderRequest : Type := mkPlaceOrderRequest {
  preq_request_id : Z;
  preq_symbol : string;
  preq_side : Z;
  preq_order_type : Z;
  preq_price : Z;
  preq_quantity : Z;
}.
Record PlaceOrderResponse : Type := mkPlaceOrderResponse {
  prsp_request_id : Z;
  prsp_error_code : Z;
  prsp_error_msg : string;
  prsp_order_id : Z;
}.
Record QueryOrderRequest : Type := mkQueryOrderRequest {
  qreq_request_id : Z;
  qreq_order_id : Z;
}.
Record QueryOrderResponse : Type := mkQueryOrderResponse {
  qrsp_request_id : Z;
  qrsp_error_code : Z;
  qrsp_error_msg : string;
  qrsp_order_id : Z;
  qrsp_symbol : string;
  qrsp_status : Z;
  qrsp_filled_qty : Z;
  qrsp_avg_price : Z;
}.
Record CancelOrderRequest : Type := mkCancelOrderRequest {
  creq_request_id : Z;
  creq_order_id : Z;
}.
Record CancelOrderResponse : Type := mkCancelOrderResponse {
  crsp_request_id : Z;
  crsp_error_code : Z;
  crsp_error_msg : string;
}.

(** the account of a response that has none *)
Definition default_AccountInfo : AccountInfo := mkAccountInfo 0 "" "" "".

(** ** [ToProto] and [FromProto] *)

Definition LoginRequest_ToProto (req : LoginRequest) : trade_proto.LoginRequest :=
  trade_proto.mkLoginRequest (lreq_request_id req) (lreq_username req) (lreq_password req).

Definition LoginResponse_FromProto (p : trade_proto.LoginResponse) : LoginResponse :=
  mkLoginResponse (trade_proto.logged_request_id p) (trade_proto.logged_error_code p)
    (trade_proto.logged_error_msg p)
    match trade_proto.logged_account p with
    | Some a =>
        mkAccountInfo (trade_proto.account_user_id a) (trade_proto.account_username a)
          (trade_proto.account_email a) (trade_proto.account_role a)
    | None => default_AccountInfo
    end.

Definition PlaceOrderRequest_ToProto (req : PlaceOrderRequest) : trade_proto.PlaceOrderRequest :=
  trade_proto.mkPlaceOrderRequest (preq_request_id req) (preq_symbol req) (preq_side req)
    (preq_order_type req) (preq_price req) (preq_quantity req).

Definition PlaceOrderResponse_FromProto (p : trade_proto.PlaceOrderResponse) : PlaceOrderResponse :=
  mkPlaceOrderResponse (trade_proto.placed_request_id p) (trade_proto.placed_error_code p)
    (trade_proto.placed_error_msg p) (trade_proto.placed_order_id p).

Definition QueryOrderRequest_ToProto (req : QueryOrderRequest) : trade_proto.QueryOrderRequest :=
  trade_proto.mkQueryOrderRequest (qreq_request_id req) (qreq_order_id req).

Definition QueryOrderResponse_FromProto (p : trade_proto.QueryOrderResponse) : QueryOrderResponse :=
  mkQueryOrderResponse (trade_proto.queried_request_id p) (trade_proto.queried_error_code p)
    (trade_proto.queried_error_msg p) (trade_proto.queried_order_id p)
    (trade_proto.queried_symbol p) (trade_proto.queried_status p)
    (trade_proto.queried_filled_qty p) (trade_proto.queried_avg_price p).

Definition CancelOrderRequest_ToProto (req : CancelOrderRequest) : trade_proto.CancelOrderRequest :=
  trade_proto.mkCancelOrderRequest (creq_request_id req) (creq_order_id req).

Definition CancelOrderResponse_FromProto (p : trade_proto.CancelOrderResponse) : CancelOrderResponse :=
  mkCancelOrderResponse (trade_proto.cancelled_request_id p) (trade_proto.cancelled_error_code p)
    (trade_proto.cancelled_error_msg p).

(** the generated code for the messages *)
Class TradeProto : Type := {
  #[global] LoginRequest_proto :: Proto trade_proto.LoginRequest;
  #[global] LoginResponse_proto :: Proto trade_proto.LoginResponse;
  #[global] PlaceOrderRequest_proto :: Proto trade_proto.PlaceOrderRequest;
  #[global] PlaceOrderResponse_proto :: Proto trade_proto.PlaceOrderResponse;
  #[global] QueryOrderRequest_proto :: Proto trade_proto.QueryOrderRequest;
  #[global] QueryOrderResponse_proto :: Proto trade_proto.QueryOrderResponse;
  #[global] CancelOrderRequest_proto :: Proto trade_proto.CancelOrderRequest;
  #[global] CancelOrderResponse_proto :: Proto trade_proto.CancelOrderResponse;
}.
Class TradeProtoLaws `{TradeProto} : Prop := {
  #[global] LoginRequest_laws :: ProtoLaws trade_proto.LoginRequest;
  #[global] LoginResponse_laws :: ProtoLaws trade_proto.LoginResponse;
  #[global] PlaceOrderRequest_laws :: ProtoLaws trade_proto.PlaceOrderRequest;
  #[global] PlaceOrderResponse_laws :: ProtoLaws trade_proto.PlaceOrderResponse;
  #[global] QueryOrderRequest_laws :: ProtoLaws trade_proto.QueryOrderRequest;
  #[global] QueryOrderResponse_laws :: ProtoLaws trade_proto.QueryOrderResponse;
  #[global] CancelOrderRequest_laws :: ProtoLaws trade_proto.CancelOrderRequest;
  #[global] CancelOrderResponse_laws :: ProtoLaws trade_proto.CancelOrderResponse;
}.

(** ** Handlers *)

(** [class TradeHandler]: the methods of an object that is an [H]. [None] is
    [return false], and then the response is not looked at. *)
Class TradeHandler (H : Type) : Type := {
  OnLogin : trade_proto.LoginRequest → H → option trade_proto.LoginResponse * H;
  OnPlaceOrder : trade_proto.PlaceOrderRequest → H → option trade_proto.PlaceOrderResponse * H;
  OnQueryOrder : trade_proto.QueryOrderRequest → H → option trade_proto.QueryOrderResponse * H;
  OnCancelOrder : trade_proto.CancelOrderRequest → H → option trade_proto.CancelOrderResponse * H;
}.

(** a method that is not overridden *)
Definition unhandled {H Q P} (req : Q) (h : H) : option P * H := (None, h).

(** [class MyTradeHandler] *)
Record MyTradeHandler : Type := mkHandler { nextOrderId_ : Z }.
Definition new_MyTradeHandler : MyTradeHandler := mkHandler 1000.

Definition MyTradeHandler_OnLogin (req : trade_proto.LoginRequest) (h : MyTradeHandler) :
    option trade_proto.LoginResponse * MyTradeHandler :=
  (Some (
    if String.eqb (trade_proto.login_username req) "admin" &&
       String.eqb (trade_proto.login_password req) "123456"
    then trade_proto.mkLoginResponse (trade_proto.login_request_id req) 0 "Login successful"
           (Some (trade_proto.mkAccountInfo 1001 "admin" "admin@example.com" "admin"))
    else trade_proto.mkLoginResponse (trade_proto.login_request_id req) 1
           "Invalid username or password" None), h).

(** [++nextOrderId_] *)
Definition next_order_id (h : MyTradeHandler) : Z * MyTradeHandler :=
  let id := u64 (nextOrderId_ h + 1) in (id, mkHandler id).

Definition MyTradeHandler_OnPlaceOrder (req : trade_proto.PlaceOrderRequest) (h : MyTradeHandler) :
    option trade_proto.PlaceOrderResponse * MyTradeHandler :=
  let (id, h) := next_order_id h in
  (Some (trade_proto.mkPlaceOrderResponse (trade_proto.place_request_id req) 0 "Order placed" id), h).

Definition MyTradeHandler_OnQueryOrder (req : trade_proto.QueryOrderRequest) (h : MyTradeHandler) :
    option trade_proto.QueryOrderResponse * MyTradeHandler :=
  (Some (trade_proto.mkQueryOrderResponse (trade_proto.query_request_id req) 0 "OK"
           (trade_proto.query_order_id req) "BTC-USDT" 0 0 0), h).

Definition MyTradeHandler_OnCancelOrder (req : trade_proto.CancelOrderRequest) (h : MyTradeHandler) :
    option trade_proto.CancelOrderResponse * MyTradeHandler :=
  (Some (trade_proto.mkCancelOrderResponse (trade_proto.cancel_request_id req) 0 "Order cancelled"), h).

#[export] Instance MyTradeHandler_handler : TradeHandler MyTradeHandler := {
  OnLogin := MyTradeHandler_OnLogin;
  OnPlaceOrder := MyTradeHandler_OnPlaceOrder;
  OnQueryOrder := MyTradeHandler_OnQueryOrder;
  OnCancelOrder := MyTradeHandler_OnCancelOrder;
}.

(** ** The gateway *)

(** [class TradeGateway], which is a router server, and its handler, if one
    was registered *)
Record TradeGateway (K H : Type) : Type := mkGateway {
  tg_router : rworld K;
  tg_handler : option H;
}.
Arguments mkGateway {K H}. Arguments tg_router {K H}. Arguments tg_handler {K H}.

Section gateway.
Context {K H : Type} `{Zmq K, TradeHandler H, TradeProto}.
Abbreviation G := (TradeGateway K H).

Definition in_router {A} (m : M (rworld K) A) : M G A := λ g,
  match m (tg_router g) with
  | Ok (a, r) => Ok (a, mkGateway r (tg_handler g))
  | Fail e => Fail e
  end.

Definition RegisterHandler (h : option H) : M G unit :=
  modify (λ g, mkGateway (tg_router g) h).

Definition sendProtoReply (identity : list byte) (replyType : Z) (data : list byte) : M G unit :=
  in_router (SendReply identity replyType data);; mret tt.

(** a case of [OnMessage]: the request is parsed, and handled, and answered if
    the handler says so *)
Definition serve {Q P} `{Proto Q, Proto P} (method : Q → H → option P * H)
    (identity : list byte) (replyType : Z) (body : list byte) : M G unit :=
  match ParseFromArray body with
  | None => mret tt
  | Some req => λ g,
      match tg_handler g with
      | None => Ok (tt, g)
      | Some h =>
          let (rsp, h) := method req h in
          let g := mkGateway (tg_router g) (Some h) in
          match rsp with
          | Some rsp => sendProtoReply identity replyType (SerializeAsString rsp) g
          | None => Ok (tt, g)
          end
      end
  end.

Definition OnMessage (identity : list byte) (msgType : Z) (body : list byte) : M G unit :=
  ifM (gets (λ g, negb (rt_running (r_server (tg_router g))))) (mret tt)
    (if msgType =? kLoginRequest then serve OnLogin identity kLoginResponse body
     else if msgType =? kPlaceOrderRequest then serve OnPlaceOrder identity kPlaceOrderResponse body
     else if msgType =? kQueryOrderRequest then serve OnQueryOrder identity kQueryOrderResponse body
     else if msgType =? kCancelOrderRequest then serve OnCancelOrder identity kCancelOrderResponse body
     else mret tt).

(** a task of the pool *)
Definition run_task (t : task) : M G unit := OnMessage t.1.1 t.1.2 t.2.
End gateway.

Lemma wp_in_router {K H A} (m : M (rworld K) A) (Q : A → TradeGateway K H → Prop) g :
  wp never m (λ a r, Q a (mkGateway r (tg_handler g))) (tg_router g) → wp never (in_router m) Q g.
Proof. unfold wp, in_router. by destruct (m (tg_router g)) as [[a r]|]. Qed.
