(* ===== verification/TradeClient.v ===== *)
(** * The trade client

    [gateway/src/trade_api] and [gateway/src/zmq_impl/trade_api_zmq_impl]: the
    connection of a client with its receiving and its heartbeat thread, the
    requests, and the dispatch of responses to the callbacks. The threads are
    sequences of turns; a callback is recorded. *)
From S2P Require Import Prelude Protobuf Messages Trade.

(** the calls of [class TradeSpi] *)
Inductive TradeSpi : Type :=
| SpiOnFrontConnected
| SpiOnFrontDisconnected (reason : Z)
| SpiOnLogin (rsp : LoginResponse)
| SpiOnPlaceOrder (rsp : PlaceOrderResponse)
| SpiOnQueryOrder (rsp : QueryOrderResponse)
| SpiOnCancelOrder (rsp : CancelOrderResponse).

(** [class TradeApiZmqImpl]; [ti_recvThread] and [ti_heartbeatThread] tell
    whether the threads are joinable *)
Record TradeApiZmqImpl : Type := mkImpl {
  ti_address : string;
  ti_routerPort : Z;
  ti_heartbeatSec : Z;
  ti_dealerSock : Z;
  ti_connected : bool;
  ti_running : bool;
  ti_recvThread : bool;
  ti_heartbeatThread : bool;
  ti_lastPongTime : Z;
  ti_missedPongs : Z;
}.

Definition new_TradeApiZmqImpl : TradeApiZmqImpl := mkImpl "" 0 5 0 false false false false 0 0.

Definition set_ti_connect a p h i := mkImpl a p h (ti_dealerSock i) (ti_connected i) (ti_running i)
  (ti_recvThread i) (ti_heartbeatThread i) (ti_lastPongTime i) (ti_missedPongs i).
Definition set_ti_dealerSock v i := mkImpl (ti_address i) (ti_routerPort i) (ti_heartbeatSec i) v
  (ti_connected i) (ti_running i) (ti_recvThread i) (ti_heartbeatThread i) (ti_lastPongTime i)
  (ti_missedPongs i).
Definition set_ti_connected v i := mkImpl (ti_address i) (ti_routerPort i) (ti_heartbeatSec i)
  (ti_dealerSock i) v (ti_running i) (ti_recvThread i) (ti_heartbeatThread i) (ti_lastPongTime i)
  (ti_missedPongs i).
Definition set_ti_running v i := mkImpl (ti_address i) (ti_routerPort i) (ti_heartbeatSec i)
  (ti_dealerSock i) (ti_connected i) v (ti_recvThread i) (ti_heartbeatThread i) (ti_lastPongTime i)
  (ti_missedPongs i).
Definition set_ti_threads v v' i := mkImpl (ti_address i) (ti_routerPort i) (ti_heartbeatSec i)
  (ti_dealerSock i) (ti_connected i) (ti_running i) v v' (ti_lastPongTime i) (ti_missedPongs i).
Definition set_ti_lastPongTime v i := mkImpl (ti_address i) (ti_routerPort i) (ti_heartbeatSec i)
  (ti_dealerSock i) (ti_connected i) (ti_running i) (ti_recvThread i) (ti_heartbeatThread i) v
  (ti_missedPongs i).
Definition set_ti_missedPongs v i := mkImpl (ti_address i) (ti_routerPort i) (ti_heartbeatSec i)
  (ti_dealerSock i) (ti_connected i) (ti_running i) (ti_recvThread i) (ti_heartbeatThread i)
  (ti_lastPongTime i) v.

(** [class TradeApi]: the callbacks made to the object that is registered *)
Record TradeApi (K : Type) : Type := mkApi {
  ta_impl : TradeApiZmqImpl;
  ta_spi : option (list TradeSpi);
  ta_zmq : zstate K;
}.
Arguments mkApi {K}. Arguments ta_impl {K}. Arguments ta_spi {K}. Arguments ta_zmq {K}.

Definition kMaxMissedPongs : Z := 3.

Section client.
Context {K : Type} `{Zmq K, Clock K, TradeProto}.
Abbreviation A := (TradeApi K).
Implicit Types (msgType : Z) (body : list byte).

Definition api_zmq {B} (m : M (zstate K) B) : M A B := λ a,
  match m (ta_zmq a) with
  | Ok (b, z) => Ok (b, mkApi (ta_impl a) (ta_spi a) z)
  | Fail e => Fail e
  end.
Definition impl {B} (f : TradeApiZmqImpl → B) : M A B := gets (λ a, f (ta_impl a)).
Definition mod_impl (f : TradeApiZmqImpl → TradeApiZmqImpl) : M A unit :=
  modify (λ a, mkApi (f (ta_impl a)) (ta_spi a) (ta_zmq a)).

Definition RegisterSpi (spi : option (list TradeSpi)) : M A unit :=
  modify (λ a, mkApi (ta_impl a) spi (ta_zmq a)).
Definition spi_call (c : TradeSpi) : M A unit :=
  modify (λ a, mkApi (ta_impl a) ((λ l, l ++ [c]) <$> ta_spi a) (ta_zmq a)).

(** ** The callbacks that the constructor of [TradeApi] installs *)

Definition on_connected : M A unit := spi_call SpiOnFrontConnected.
Definition on_disconnected (reason : Z) : M A unit := spi_call (SpiOnFrontDisconnected reason).

(** a case of [on_message] *)
Definition respond {P R} `{Proto P} (FromProto : P → R) (callback : R → TradeSpi) body : M A unit :=
  match ParseFromArray body with
  | Some proto => spi_call (callback (FromProto proto))
  | None => mret tt
  end.

Definition on_message msgType body : M A unit :=
  ifM (gets (λ a, match ta_spi a with None => true | _ => false end)) (mret tt)
    (if msgType =? kLoginResponse then respond LoginResponse_FromProto SpiOnLogin body
     else if msgType =? kPlaceOrderResponse then
       respond PlaceOrderResponse_FromProto SpiOnPlaceOrder body
     else if msgType =? kQueryOrderResponse then
       respond QueryOrderResponse_FromProto SpiOnQueryOrder body
     else if msgType =? kCancelOrderResponse then
       respond CancelOrderResponse_FromProto SpiOnCancelOrder body
     else mret tt).

(** ** [TradeApiZmqImpl] *)

(** the null [address] is [None]; assigning a thread to one that is joinable
    terminates the program *)
Definition Connect (address : option string) (routerPort heartbeatSec : Z) : M A Z :=
  dealerSock ← impl ti_dealerSock;
  if negb (dealerSock =? 0) then mret 0
  else if routerPort <=? 0 then mret (-1)
  else
    mod_impl (set_ti_connect (default ""%string address) routerPort heartbeatSec);;
    dealer ← api_zmq CreateDealerSocket;
    if dealer =? 0 then mret (-1)
    else
      api_zmq (SetZmqHeartbeat dealer 3000 9000 20000);;
      api_zmq (SetTcpKeepalive dealer 1 heartbeatSec heartbeatSec 3);;
      ifM (api_zmq (ConnectSocket dealer
             ("tcp://" ++ default "" address ++ ":" ++ pretty routerPort)%string))
        (mod_impl (set_ti_dealerSock dealer);;
         mod_impl (set_ti_connected true);;
         mod_impl (set_ti_running true);;
         now ← api_zmq (zmq steady_now);
         mod_impl (set_ti_lastPongTime now);;
         mod_impl (set_ti_missedPongs 0);;
         joinable ← impl (λ i, ti_recvThread i || ti_heartbeatThread i);
         (if joinable : bool then failM Exception else mret tt);;
         mod_impl (set_ti_threads true true);;
         on_connected;;
         mret 0)
        (api_zmq (CloseSocket dealer);; mret (-1)).

(** the threads are joined before the socket is closed *)
Definition Disconnect : M A unit :=
  mod_impl (set_ti_running false);;
  mod_impl (set_ti_threads false false);;
  dealerSock ← impl ti_dealerSock;
  when (negb (dealerSock =? 0))
    (api_zmq (CloseSocket dealerSock);; mod_impl (set_ti_dealerSock 0));;
  mod_impl (set_ti_connected false).

Definition IsConnected : M A bool := impl ti_connected.

Definition Send msgType body : M A bool :=
  dealerSock ← impl ti_dealerSock;
  if dealerSock =? 0 then mret false else api_zmq (SendMessage dealerSock msgType body).

(** one turn of [RecvLoop]: whether the loop goes on *)
Definition recv_turn : M A bool :=
  dealerSock ← impl ti_dealerSock;
  p ← api_zmq (zmq (zmq_poll dealerSock 100));
  let '(rc, revents) := p in
  if rc <? 0 then mret false
  else if rc =? 0 then mret true
  else if Z.land revents ZMQ_POLLIN =? 0 then mret true
  else
    api_zmq (RecvMessage dealerSock) ≫= λ msg : option (Z * list byte),
    match msg with
    | None => mod_impl (set_ti_running false);; on_disconnected 0;; mret false
    | Some (rawType, body) =>
        (if rawType =? kPong then
          now ← api_zmq (zmq steady_now);
          mod_impl (set_ti_lastPongTime now);;
          mod_impl (set_ti_missedPongs 0)
        else on_message rawType body);;
        mret true
    end.

Fixpoint RecvLoop (fuel : nat) : M A unit :=
  match fuel with
  | O => failM OutOfFuel
  | S fuel => ifM (impl ti_running) (ifM recv_turn (RecvLoop fuel) (mret tt)) (mret tt)
  end.

(** the heartbeat thread sleeps in steps of 100 ms *)
Fixpoint heartbeat_sleep (fuel : nat) (slept targetMs : Z) : M A unit :=
  match fuel with
  | O => failM OutOfFuel
  | S fuel =>
      running ← impl ti_running;
      if (slept <? targetMs) && running then
        api_zmq (zmq (λ k, (tt, sleep_for_ms 100 k)));;
        heartbeat_sleep fuel (slept + 100) targetMs
      else mret tt
  end.

(** the seconds between two times: [duration_cast] truncates *)
Definition pong_elapsed (now lastPong : Z) : Z := Z.quot (now - lastPong) (10 ^ 9).

(** one turn of [HeartbeatLoop] after the sleep *)
Definition heartbeat_ping : M A bool :=
  dealerSock ← impl ti_dealerSock;
  ifM (api_zmq (SendMessage dealerSock kPing []))
    (now ← api_zmq (zmq steady_now);
     lastPong ← impl ti_lastPongTime;
     threshold ← impl (λ i, i32 (ti_heartbeatSec i * kMaxMissedPongs));
     if threshold <=? pong_elapsed now lastPong then
       mod_impl (set_ti_running false);; on_disconnected 1;; mret false
     else mret true)
    (missed ← impl (λ i, i32 (ti_missedPongs i + 1));
     mod_impl (set_ti_missedPongs missed);;
     if kMaxMissedPongs <=? missed then
       mod_impl (set_ti_running false);; on_disconnected 1;; mret false
     else mret true).

Definition heartbeat_turn (fuel : nat) : M A bool :=
  targetMs ← impl (λ i, i32 (ti_heartbeatSec i * 1000));
  heartbeat_sleep fuel 0 targetMs;;
  ifM (impl ti_running) heartbeat_ping (mret false).

(** [HeartbeatLoop]: [fuel] bounds its turns, and the steps of a sleep *)
Fixpoint HeartbeatLoop (turns fuel : nat) : M A unit :=
  match turns with
  | O => failM OutOfFuel
  | S turns =>
      ifM (impl ti_running) (ifM (heartbeat_turn fuel) (HeartbeatLoop turns fuel) (mret tt)) (mret tt)
  end.

(** ** The requests of [TradeApi] *)

Definition request {Q P} `{Proto P} (ToProto : Q → P) msgType (req : Q) : M A Z :=
  ifM (Send msgType (SerializeAsString (ToProto req))) (mret ERR_OK) (mret ERR_SEND_FAILED).

Definition Login : LoginRequest → M A Z := request LoginRequest_ToProto kLoginRequest.
Definition PlaceOrder : PlaceOrderRequest → M A Z :=
  request PlaceOrderRequest_ToProto kPlaceOrderRequest.
Definition QueryOrder : QueryOrderRequest → M A Z :=
  request QueryOrderRequest_ToProto kQueryOrderRequest.
Definition CancelOrder : CancelOrderRequest → M A Z :=
  request CancelOrderRequest_ToProto kCancelOrderRequest.
End client.

Lemma wp_api_zmq {K B} (m : M (zstate K) B) (Q : B → TradeApi K → Prop) (a : TradeApi K) :
  wp never m (λ b z, Q b (mkApi (ta_impl a) (ta_spi a) z)) (ta_zmq a) → wp never (api_zmq m) Q a.
Proof. unfold wp, api_zmq. by destruct (m (ta_zmq a)) as [[b z]|]. Qed.

(** ** The heartbeat *)

Section heartbeat.
Context {K : Type} `{TimeLaws K}.
Implicit Types (a : TradeApi K).

Definition api_time a : Z := steady (ta_zmq a).

(** the state of a client that is connected and has heard nothing for [n]
    intervals of the heartbeat *)
Definition silent (hb pong n m : Z) (calls : list TradeSpi) a : Prop :=
  ti_running (ta_impl a) = true ∧ ti_heartbeatSec (ta_impl a) = hb ∧
  ti_lastPongTime (ta_impl a) = pong ∧ ti_missedPongs (ta_impl a) = m ∧
  ta_spi a = Some calls ∧ pong + n * hb * 10 ^ 9 ≤ api_time a.

(** and of one that has given up *)
Definition gave_up (calls : list TradeSpi) a : Prop :=
  ti_running (ta_impl a) = false ∧ ta_spi a = Some (calls ++ [SpiOnFrontDisconnected 1]).

Lemma wp_sleep fuel slept targetMs a :
  ti_running (ta_impl a) = true → (0 < fuel)%nat → targetMs - slept ≤ 100 * (Z.of_nat fuel - 1) →
  wp never (heartbeat_sleep fuel slept targetMs) (λ _ a', ta_impl a' = ta_impl a ∧ ta_spi a' = ta_spi a ∧
    api_time a + (targetMs - slept) * 10 ^ 6 ≤ api_time a') a.
Proof.
  revert slept a. induction fuel as [|fuel IH]; intros slept a Hr Hfuel Hf; [lia|]. cbn [heartbeat_sleep].
  unfold impl. apply wp_bind, wp_gets. cbv beta. rewrite Hr, andb_true_r.
  destruct (Z.ltb_spec slept targetMs).
  - apply wp_bind. eapply wp_post with (R := λ _ a', ta_impl a' = ta_impl a ∧ ta_spi a' = ta_spi a ∧
      api_time a + 100 * 10 ^ 6 ≤ api_time a').
    { unfold wp, api_zmq, zmq. cbn. split_and!; [done|done|]. apply (sleep_time 100). done. }
    intros u a' (Hi & Hs & Ht). eapply wp_post; [apply IH; [by rewrite Hi|lia|lia]|].
    intros u' a'' (Hi' & Hs' & Ht'). split_and!; [congruence|congruence|lia].
  - apply wp_ret. split_and!; [done|done|lia].
Qed.

Lemma wp_ping hb pong n m calls a :
  0 < hb ≤ 2147483 → 0 ≤ n → 0 ≤ m < 3 → silent hb pong n m calls a →
  wp never heartbeat_ping (λ b a', if (b : bool)
    then silent hb pong n m calls a' ∧ n < 3 ∨ silent hb pong n (m + 1) calls a' ∧ m + 1 < 3
    else gave_up calls a') a.
Proof.
  intros Hhb Hn Hm (Hr & Hh & Hp & Hmi & Hs & Ht). unfold heartbeat_ping, impl, mod_impl, on_disconnected, spi_call.
  apply wp_bind, wp_gets, wp_ifM, wp_api_zmq. eapply wp_post; [apply send_message_time|].
  intros [] z Hz; cbv beta iota in *.
  - apply wp_bind, wp_api_zmq, wp_zmq, wp_bind, wp_gets, wp_bind, wp_gets. cbv beta. cbn [ta_impl].
    rewrite Hh, Hp. unfold kMaxMissedPongs. rewrite i32_small by lia.
    change (steady_now (z_kern (ta_zmq (mkApi (ta_impl a) (ta_spi a) z)))).1 with (steady z).
    destruct (Z.leb_spec (hb * 3) (pong_elapsed (steady z) pong)) as [Hle|Hlt].
    + apply wp_bind, wp_modify, wp_bind, wp_modify, wp_ret. split; [done|]. cbn. by rewrite Hs.
    + apply wp_ret. left. split; [split_and!; try done|].
      * unfold api_time in *. pose proof (steady_time (z_kern z)). unfold steady in *. cbn in *. lia.
      * enough (n * hb ≤ pong_elapsed (steady z) pong) by nia.
        unfold pong_elapsed. rewrite Z.quot_div_nonneg by (unfold api_time in *; nia).
        apply Z.div_le_lower_bound; [lia|]. unfold api_time in *. lia.
  - apply wp_bind, wp_gets. cbv beta. cbn [ta_impl]. rewrite Hmi. unfold kMaxMissedPongs.
    rewrite i32_small by lia. apply wp_bind, wp_modify. cbn.
    destruct (Z.leb_spec 3 (m + 1)) as [Hle|Hlt].
    + apply wp_bind, wp_modify, wp_bind, wp_modify, wp_ret. split; [done|]. cbn. by rewrite Hs.
    + apply wp_ret. right. split; [split_and!; try done|done]. unfold api_time in *. cbn. lia.
Qed.

(** a turn of the loop: another interval is over *)
Lemma wp_heartbeat_turn hb pong n m calls fuel a :
  0 < hb ≤ 2147483 → 0 ≤ n → 0 ≤ m < 3 → hb * 10 + 1 ≤ Z.of_nat fuel →
  silent hb pong n m calls a →
  wp never (heartbeat_turn fuel) (λ b a', if (b : bool)
    then silent hb pong (n + 1) m calls a' ∧ n + 1 < 3 ∨ silent hb pong (n + 1) (m + 1) calls a' ∧ m + 1 < 3
    else gave_up calls a') a.
Proof.
  intros Hhb Hn Hm Hfuel (Hr & Hh & Hp & Hmi & Hs & Ht). unfold heartbeat_turn, impl.
  apply wp_bind, wp_gets. cbv beta. rewrite Hh, i32_small by lia. apply wp_bind.
  eapply wp_post; [apply wp_sleep; [done|lia|lia]|]. intros u a' (Hi & Hs' & Ht').
  apply wp_ifM, wp_gets. cbv beta. rewrite Hi, Hr. apply wp_ping; [done|lia|done|].
  unfold silent. rewrite Hi, Hs'. split_and!; try done. lia.
Qed.

(** The turns that are left: one for an interval without a pong, or for a
    ping that could not be sent. *)
Lemma wp_HeartbeatLoop hb pong calls fuel turns n m a :
  0 < hb ≤ 2147483 → 0 ≤ n → 0 ≤ m < 3 → hb * 10 + 1 ≤ Z.of_nat fuel →
  silent hb pong n m calls a → Z.max 0 (2 - n) + (2 - m) + 1 ≤ Z.of_nat turns →
  wp never (HeartbeatLoop turns fuel) (λ _ a', gave_up calls a') a.
Proof.
  revert n m a. induction turns as [|turns IH]; intros n m a Hhb Hn Hm Hfuel Hsil Hturns; [lia|].
  cbn [HeartbeatLoop]. unfold impl. apply wp_ifM, wp_gets. rewrite (proj1 Hsil).
  apply wp_ifM. eapply wp_post; [by apply (wp_heartbeat_turn hb pong n m calls)|].
  intros [] a' Ha'; [|by apply wp_ret].
  destruct Ha' as [[Ha' Hlt]|[Ha' Hlt]]; eapply IH; try exact Ha'; try done; lia.
Qed.
End heartbeat.

(** C14: A silent server is given up. Let a client be connected, with a
    heartbeat of [hb] seconds, and let no pong come any more: whether its pings
    can be sent or not, the heartbeat thread ends after five intervals at most,
    the client is not running any more, and it was called back once, with the
    reason 1. *)
Theorem heartbeat_gives_up {K} `{TimeLaws K} hb calls turns fuel (a : TradeApi K) :
  0 < hb ≤ 2147483 → (5 ≤ turns)%nat → hb * 10 < Z.of_nat fuel →
  ti_running (ta_impl a) = true → ti_heartbeatSec (ta_impl a) = hb →
  ti_missedPongs (ta_impl a) = 0 → ti_lastPongTime (ta_impl a) ≤ api_time a → ta_spi a = Some calls →
  ∃ a', HeartbeatLoop turns fuel a = Ok (tt, a') ∧ ti_running (ta_impl a') = false ∧
    ta_spi a' = Some (calls ++ [SpiOnFrontDisconnected 1]).
Proof.
  intros Hhb Hturns Hfuel Hr Hh Hm Hp Hs.
  destruct (wp_ok_inv _ _ _ (wp_HeartbeatLoop hb (ti_lastPongTime (ta_impl a)) calls fuel turns 0 0 a
    Hhb ltac:(done) ltac:(done) ltac:(lia) ltac:(split_and!; try done; lia) ltac:(lia)))
    as ([] & a' & E & Hrun & Hspi).
  by exists a'.
Qed.
