(* ===== verification/TradeService.v ===== *)
(** * The trade service

    What a client of the trade gateway gets: an abstract service that answers
    a request at once, and the chain of the client's request, the gateway's
    handler and the client's callback that implements it. *)
From S2P Require Import Prelude Protobuf Messages Router Trade TradeClient.

(** ** The abstract service *)

Inductive Request : Type :=
| ReqLogin (q : LoginRequest)
| ReqPlaceOrder (q : PlaceOrderRequest)
| ReqQueryOrder (q : QueryOrderRequest)
| ReqCancelOrder (q : CancelOrderRequest).

Inductive Response : Type :=
| RspLogin (p : trade_proto.LoginResponse)
| RspPlaceOrder (p : trade_proto.PlaceOrderResponse)
| RspQueryOrder (p : trade_proto.QueryOrderResponse)
| RspCancelOrder (p : trade_proto.CancelOrderResponse).

(** the state of the service is the number of the last order *)
Definition answer (r : Request) (last : Z) : Response * Z :=
  match r with
  | ReqLogin q =>
      (RspLogin (
        if decide (lreq_username q = "admin" ∧ lreq_password q = "123456")%string
        then trade_proto.mkLoginResponse (lreq_request_id q) 0 "Login successful"
               (Some (trade_proto.mkAccountInfo 1001 "admin" "admin@example.com" "admin"))
        else trade_proto.mkLoginResponse (lreq_request_id q) 1 "Invalid username or password" None),
       last)
  | ReqPlaceOrder q =>
      (RspPlaceOrder (trade_proto.mkPlaceOrderResponse (preq_request_id q) 0 "Order placed"
         (u64 (last + 1))), u64 (last + 1))
  | ReqQueryOrder q =>
      (RspQueryOrder (trade_proto.mkQueryOrderResponse (qreq_request_id q) 0 "OK" (qreq_order_id q)
         "BTC-USDT" 0 0 0), last)
  | ReqCancelOrder q =>
      (RspCancelOrder (trade_proto.mkCancelOrderResponse (creq_request_id q) 0 "Order cancelled"), last)
  end.

(** the responses to the requests of a session, in order *)
Fixpoint answers (l : list Request) (last : Z) : list Response :=
  match l with
  | [] => []
  | r :: l => (answer r last).1 :: answers l (answer r last).2
  end.

(** the numbers of the orders that were placed *)
Definition order_ids (l : list Response) : list Z :=
  omap (λ p, match p with
             | RspPlaceOrder p => Some (trade_proto.placed_order_id p)
             | _ => None
             end) l.
Definition is_order (r : Request) : bool := match r with ReqPlaceOrder _ => true | _ => false end.

(** requests that protocol buffers can carry *)
Definition request_ok (r : Request) : Prop :=
  match r with
  | ReqLogin q => well_formed (LoginRequest_ToProto q)
  | ReqPlaceOrder q => well_formed (PlaceOrderRequest_ToProto q)
  | ReqQueryOrder q => well_formed (QueryOrderRequest_ToProto q)
  | ReqCancelOrder q => well_formed (CancelOrderRequest_ToProto q)
  end.

Definition response_ok (p : Response) : Prop :=
  match p with
  | RspLogin p => well_formed p
  | RspPlaceOrder p => well_formed p
  | RspQueryOrder p => well_formed p
  | RspCancelOrder p => well_formed p
  end.

(** what the client is called back with *)
Definition response_call (p : Response) : TradeSpi :=
  match p with
  | RspLogin p => SpiOnLogin (LoginResponse_FromProto p)
  | RspPlaceOrder p => SpiOnPlaceOrder (PlaceOrderResponse_FromProto p)
  | RspQueryOrder p => SpiOnQueryOrder (QueryOrderResponse_FromProto p)
  | RspCancelOrder p => SpiOnCancelOrder (CancelOrderResponse_FromProto p)
  end.

Lemma answer_ok r last : request_ok r → response_ok (answer r last).1.
Proof.
  destruct r as [q|q|q|q]; cbn.
  - intros (Hid & _). destruct (decide _); repeat split; cbn; try apply Hid; by compute.
  - intros (Hid & _). repeat split; cbn; try apply Hid; try apply u64_range; by compute.
  - intros (Hid & Hid'). repeat split; cbn; try apply Hid; try apply Hid'; by compute.
  - intros (Hid & _). repeat split; cbn; try apply Hid; by compute.
Qed.

Lemma order_ids_answers l last :
  0 ≤ last → last + Z.of_nat (length (filter is_order l)) < 2 ^ 64 →
  order_ids (answers l last) =
    (λ k, last + 1 + Z.of_nat k) <$> seq 0 (length (filter is_order l)).
Proof.
  revert last. induction l as [|r l IH]; intros last H0 Hl; [done|].
  destruct r as [q|q|q|q]; cbn [answers answer fst snd] in *; try (by apply IH).
  change (filter is_order (ReqPlaceOrder q :: l)) with (ReqPlaceOrder q :: filter is_order l) in *.
  cbn [length] in *. rewrite u64_small in * by lia. cbn [order_ids omap list_omap].
  change (omap _ ?x) with (order_ids x). rewrite IH by lia. cbn [seq fmap list_fmap]. f_equal; [cbn; lia|].
  rewrite <- seq_shift, <- list_fmap_compose. apply list_fmap_ext. intros _ k _. cbn. lia.
Qed.

(** ** On the wire *)

Section wire.
Context `{TradeProto}.

Definition request_type (r : Request) : Z :=
  match r with
  | ReqLogin _ => kLoginRequest
  | ReqPlaceOrder _ => kPlaceOrderRequest
  | ReqQueryOrder _ => kQueryOrderRequest
  | ReqCancelOrder _ => kCancelOrderRequest
  end.
Definition request_body (r : Request) : list byte :=
  match r with
  | ReqLogin q => SerializeAsString (LoginRequest_ToProto q)
  | ReqPlaceOrder q => SerializeAsString (PlaceOrderRequest_ToProto q)
  | ReqQueryOrder q => SerializeAsString (QueryOrderRequest_ToProto q)
  | ReqCancelOrder q => SerializeAsString (CancelOrderRequest_ToProto q)
  end.
Definition request_message (r : Request) : message := DealerMessage (request_type r) (request_body r).

Definition response_type (p : Response) : Z :=
  match p with
  | RspLogin _ => kLoginResponse
  | RspPlaceOrder _ => kPlaceOrderResponse
  | RspQueryOrder _ => kQueryOrderResponse
  | RspCancelOrder _ => kCancelOrderResponse
  end.
Definition response_body (p : Response) : list byte :=
  match p with
  | RspLogin p => SerializeAsString p
  | RspPlaceOrder p => SerializeAsString p
  | RspQueryOrder p => SerializeAsString p
  | RspCancelOrder p => SerializeAsString p
  end.
Definition response_message (p : Response) : message :=
  DealerMessage (response_type p) (response_body p).
End wire.

(** the call of the client's API that makes the request *)
Definition make_request {K} `{Zmq K, TradeProto} (r : Request) : M (TradeApi K) Z :=
  match r with
  | ReqLogin q => Login q
  | ReqPlaceOrder q => PlaceOrder q
  | ReqQueryOrder q => QueryOrder q
  | ReqCancelOrder q => CancelOrder q
  end.

Section client_side.
Context {K : Type} `{ZmqLaws K, Clock K, TradeProtoLaws}.
Implicit Types (a : TradeApi K).

(** a request is sent, and nothing else happens *)
Lemma make_request_sends r a :
  ti_dealerSock (ta_impl a) ≠ 0 → sends (K := K) (ti_dealerSock (ta_impl a)) →
  wp never (make_request r) (λ rc a', rc = ERR_OK ∧ ta_impl a' = ta_impl a ∧ ta_spi a' = ta_spi a ∧
    outbox (z_kern (ta_zmq a')) (ti_dealerSock (ta_impl a)) =
    outbox (z_kern (ta_zmq a)) (ti_dealerSock (ta_impl a)) ++ message_frames (request_message r)) a.
Proof.
  intros Hsock Hs.
  assert (∀ t b, wp never (Send t b) (λ ok a', ok = true ∧ ta_impl a' = ta_impl a ∧ ta_spi a' = ta_spi a ∧
    outbox (z_kern (ta_zmq a')) (ti_dealerSock (ta_impl a)) =
    outbox (z_kern (ta_zmq a)) (ti_dealerSock (ta_impl a)) ++ message_frames (DealerMessage t b)) a) as Hsend.
  { intros t b. unfold Send, impl. apply wp_bind, wp_gets. rewrite (proj2 (Z.eqb_neq _ _)) by done.
    apply wp_api_zmq. eapply wp_post; [exact (send_message_ok _ (DealerMessage t b) _ Hs)|].
    intros ok z (-> & Ho & _). by split_and!. }
  destruct r as [q|q|q|q]; cbn [make_request]; unfold Login, PlaceOrder, QueryOrder, CancelOrder, request;
    apply wp_ifM; (eapply wp_post; [apply Hsend|]); intros ok a' (-> & Hi & Hspi & Ho); apply wp_ret; by split_and!.
Qed.

(** a response that has come is handed to the callback *)
Lemma recv_response p rest a calls :
  response_ok p → ta_spi a = Some calls →
  inbox (z_kern (ta_zmq a)) (ti_dealerSock (ta_impl a)) = message_frames (response_message p) ++ rest →
  wp never recv_turn (λ b a', b = true ∧ ta_impl a' = ta_impl a ∧
    ta_spi a' = Some (calls ++ [response_call p]) ∧
    inbox (z_kern (ta_zmq a')) (ti_dealerSock (ta_impl a)) = rest) a.
Proof.
  intros Hok Hspi Hin. unfold recv_turn, impl. apply wp_bind, wp_gets, wp_bind, wp_api_zmq.
  destruct (poll_ready (ti_dealerSock (ta_impl a)) 100 (z_kern (ta_zmq a))) as (k & Hpoll & Hki & Hko);
    [by rewrite Hin|].
  apply wp_zmq. rewrite Hpoll. cbn [fst snd]. apply wp_bind, wp_api_zmq.
  assert (0 ≤ response_type p < 2 ^ 16 ∧ (response_type p =? kPong) = false) as [Ht Hpong]
    by (by destruct p).
  eapply wp_post.
  { eapply recv_dealer_frames, msg_type_bytes, Ht. cbn [z_kern ta_zmq]. by rewrite Hki, Hin. }
  intros ? z (-> & Hi & _). rewrite Hpong. apply wp_bind. unfold on_message.
  apply wp_ifM, wp_gets. cbn [ta_spi]. rewrite Hspi.
  destruct p as [p|p|p|p]; cbn [response_type response_body Z.eqb Pos.eqb] in *;
    unfold respond; rewrite (parse_serialize p Hok); apply wp_modify, wp_ret; by split_and!.
Qed.
End client_side.

(** ** The gateway's side *)

(** the gateway runs, with the handler of [server.cpp] *)
Definition serving {K} `{Zmq K} (last : Z) (g : TradeGateway K MyTradeHandler) : Prop :=
  rt_running (r_server (tg_router g)) = true ∧ rt_sock (r_server (tg_router g)) ≠ 0 ∧
  sends (K := K) (rt_sock (r_server (tg_router g))) ∧ tg_handler g = Some (mkHandler last).

(** the frames that are on their way to the clients *)
Definition gateway_out {K} `{ZmqLaws K} {H} (g : TradeGateway K H) : list frame :=
  outbox (z_kern (r_zmq (tg_router g))) (rt_sock (r_server (tg_router g))).

(** the task of a request that came from [identity], and the answer to it *)
Definition request_task `{TradeProto} (identity : list byte) (r : Request) : task :=
  (identity, request_type r, request_body r).
Definition reply_frames `{TradeProto} (identity : list byte) (p : Response) : list frame :=
  message_frames (RouterMessage identity (response_type p) (response_body p)).

Section gateway_side.
Context {K : Type} `{ZmqLaws K, TradeProtoLaws}.
Abbreviation G := (TradeGateway K MyTradeHandler).
Implicit Types (g : G).

Lemma wp_sendProtoReply identity t b last g :
  serving last g →
  wp never (sendProtoReply identity t b) (λ _ g', serving last g' ∧
    r_server (tg_router g') = r_server (tg_router g) ∧
    gateway_out g' = gateway_out g ++ message_frames (RouterMessage identity t b)) g.
Proof.
  intros (Hrun & Hsock & Hs & Hh). unfold sendProtoReply, SendReply, get_server.
  apply wp_bind, wp_in_router, wp_bind, wp_gets. cbv beta. rewrite (proj2 (Z.eqb_neq _ _)) by done.
  apply wp_in_zmq. eapply wp_post; [exact (send_message_ok _ (RouterMessage identity t b) _ Hs)|].
  intros ok z (-> & Ho & _). apply wp_ret. split_and!; [by split_and!|done|exact Ho].
Qed.

(** one case of [OnMessage] *)
Lemma wp_serve {Q P} `{Proto Q, Proto P} (method : Q → MyTradeHandler → option P * MyTradeHandler)
    identity t body req rsp last last' g :
  serving last g → ParseFromArray body = Some req →
  method req (mkHandler last) = (Some rsp, mkHandler last') →
  wp never (serve method identity t body) (λ _ g', serving last' g' ∧
    r_server (tg_router g') = r_server (tg_router g) ∧
    gateway_out g' = gateway_out g ++ message_frames (RouterMessage identity t (SerializeAsString rsp))) g.
Proof.
  intros (Hrun & Hsock & Hs & Hh) Hp Hm. unfold serve. rewrite Hp. unfold wp. rewrite Hh, Hm.
  apply (wp_sendProtoReply identity t (SerializeAsString rsp) last'
           (mkGateway (tg_router g) (Some (mkHandler last')))).
  by split_and!.
Qed.

Lemma login_eqb q : 
  String.eqb (lreq_username q) "admin" && String.eqb (lreq_password q) "123456" =
  bool_decide (lreq_username q = "admin" ∧ lreq_password q = "123456")%string.
Proof.
  destruct (String.eqb_spec (lreq_username q) "admin"), (String.eqb_spec (lreq_password q) "123456");
    symmetry; (apply bool_decide_eq_true_2 || apply bool_decide_eq_false_2); naive_solver.
Qed.

(** a task is answered as the service says *)
Lemma wp_run_task identity r last g :
  request_ok r → serving last g →
  wp never (run_task (request_task identity r)) (λ _ g', serving (answer r last).2 g' ∧
    r_server (tg_router g') = r_server (tg_router g) ∧
    gateway_out g' = gateway_out g ++ reply_frames identity (answer r last).1) g.
Proof.
  intros Hok Hg. unfold run_task, OnMessage, reply_frames. apply wp_ifM, wp_gets.
  rewrite (proj1 Hg). cbn [negb].
  destruct r as [q|q|q|q]; cbn [request_task request_type request_body fst snd Z.eqb Pos.eqb answer
    response_type response_body kLoginRequest kPlaceOrderRequest kQueryOrderRequest kCancelOrderRequest];
    (eapply wp_serve; [exact Hg|apply parse_serialize; exact Hok|]).
  - cbn. unfold MyTradeHandler_OnLogin. cbn. rewrite login_eqb.
    destruct (decide (lreq_username q = "admin" ∧ lreq_password q = "123456")%string);
      [by rewrite bool_decide_eq_true_2|by rewrite bool_decide_eq_false_2].
  - reflexivity.
  - reflexivity.
  - reflexivity.
Qed.

(** and the tasks of a session one after the other *)
Lemma wp_session (l : list (list byte * Request)) last g :
  Forall (λ p, request_ok p.2) l → serving last g →
  wp never (forM l (λ p, run_task (request_task p.1 p.2))) (λ _ g',
    gateway_out g' = gateway_out g ++
      concat (zip_with (λ p, reply_frames p.1) l (answers l.*2 last))) g.
Proof.
  revert last g. induction l as [|[i r] l IH]; intros last g Hok Hg.
  - apply wp_ret. by rewrite app_nil_r.
  - apply Forall_cons in Hok as [Hr Hok]. cbn [forM]. apply wp_bind.
    eapply wp_post; [by apply (wp_run_task i r last)|]. intros [] g1 (Hg1 & _ & Ho1).
    eapply wp_post; [by apply (IH (answer r last).2)|]. intros u g2 Ho2.
    rewrite Ho2, Ho1, <- (assoc_L (++)). done.
Qed.
End gateway_side.

(** C8: The trade gateway implements the trade service. A request of a client
    whose fields protocol buffers can carry, made through its API, becomes one
    message to the gateway; when the gateway's pool runs the task of this
    message, the gateway's state changes as that of the service does, and one
    message goes back to the client that asked, and to nobody else; and when
    that message has come to the client, its receiving thread calls it back
    once, with the answer of the service, which has the number of the
    request. *)
Theorem trade_service {K} `{ZmqLaws K, Clock K, TradeProtoLaws} r identity last calls rest
    (a a' : TradeApi K) (g : TradeGateway K MyTradeHandler) :
  request_ok r →
  ti_dealerSock (ta_impl a) ≠ 0 → sends (K := K) (ti_dealerSock (ta_impl a)) →
  serving last g →
  ta_spi a' = Some calls →
  inbox (z_kern (ta_zmq a')) (ti_dealerSock (ta_impl a')) =
    message_frames (response_message (answer r last).1) ++ rest →
  (∃ a1, make_request r a = Ok (ERR_OK, a1) ∧
     outbox (z_kern (ta_zmq a1)) (ti_dealerSock (ta_impl a)) =
     outbox (z_kern (ta_zmq a)) (ti_dealerSock (ta_impl a)) ++ message_frames (request_message r)) ∧
  (∃ g1, run_task (request_task identity r) g = Ok (tt, g1) ∧ serving (answer r last).2 g1 ∧
     gateway_out g1 = gateway_out g ++ reply_frames identity (answer r last).1) ∧
  (∃ a2, recv_turn a' = Ok (true, a2) ∧
     ta_spi a2 = Some (calls ++ [response_call (answer r last).1]) ∧
     inbox (z_kern (ta_zmq a2)) (ti_dealerSock (ta_impl a')) = rest).
Proof.
  intros Hok Hsock Hs Hg Hspi Hin. split_and!.
  - destruct (wp_ok_inv _ _ _ (make_request_sends r a Hsock Hs)) as (rc & a1 & E & -> & _ & _ & Ho). eauto.
  - destruct (wp_ok_inv _ _ _ (wp_run_task identity r last g Hok Hg)) as ([] & g1 & E & Hg1 & _ & Ho). eauto.
  - destruct (wp_ok_inv _ _ _ (recv_response (answer r last).1 rest a' calls (answer_ok r last Hok) Hspi Hin))
      as (b & a2 & E & -> & _ & Hc & Hi). eauto.
Qed.

(** C17: Orders get consecutive numbers. Whatever tasks of whatever clients the
    gateway runs, one after the other: each is answered once, in order, to the
    client that sent it, and the orders placed get the numbers 1001, 1002 and
    so on, no two the same. *)
Theorem order_numbers {K} `{ZmqLaws K, TradeProtoLaws} (l : list (list byte * Request))
    (g : TradeGateway K MyTradeHandler) :
  Forall (λ p, request_ok p.2) l → serving (nextOrderId_ new_MyTradeHandler) g →
  1000 + Z.of_nat (length (filter is_order l.*2)) < 2 ^ 64 →
  let rsps := answers l.*2 1000 in
  (∃ g', forM l (λ p, run_task (request_task p.1 p.2)) g = Ok (tt, g') ∧
     gateway_out g' = gateway_out g ++ concat (zip_with (λ p, reply_frames p.1) l rsps)) ∧
  order_ids rsps = (λ k, 1001 + Z.of_nat k) <$> seq 0 (length (filter is_order l.*2)) ∧
  NoDup (order_ids rsps).
Proof.
  intros Hok Hg Hl. cbv zeta. rewrite order_ids_answers by lia. split_and!; [|done|].
  - destruct (wp_ok_inv _ _ _ (wp_session l _ g Hok Hg)) as ([] & g' & E & Ho). eauto.
  - apply NoDup_fmap_2; [intros x y; lia|apply NoDup_seq].
Qed.

(** ** A concrete serializer, and witnesses *)

#[export] Instance AccountInfo_eq_dec : EqDecision trade_proto.AccountInfo.
Proof. solve_decision. Defined.
#[export] Instance AccountInfo_countable : Countable trade_proto.AccountInfo :=
  inj_countable' (λ m, (trade_proto.account_user_id m, trade_proto.account_username m, trade_proto.account_email m, trade_proto.account_role m))
    (λ '(x0, x1, x2, x3), trade_proto.mkAccountInfo x0 x1 x2 x3) (λ '(trade_proto.mkAccountInfo _ _ _ _), eq_refl).
#[export] Instance LoginRequest_eq_dec : EqDecision trade_proto.LoginRequest.
Proof. solve_decision. Defined.
#[export] Instance LoginRequest_countable : Countable trade_proto.LoginRequest :=
  inj_countable' (λ m, (trade_proto.login_request_id m, trade_proto.login_username m, trade_proto.login_password m))
    (λ '(x0, x1, x2), trade_proto.mkLoginRequest x0 x1 x2) (λ '(trade_proto.mkLoginRequest _ _ _), eq_refl).
#[export] Instance LoginResponse_eq_dec : EqDecision trade_proto.LoginResponse.
Proof. solve_decision. Defined.
#[export] Instance LoginResponse_countable : Countable trade_proto.LoginResponse :=
  inj_countable' (λ m, (trade_proto.logged_request_id m, trade_proto.logged_error_code m, trade_proto.logged_error_msg m, trade_proto.logged_account m))
    (λ '(x0, x1, x2, x3), trade_proto.mkLoginResponse x0 x1 x2 x3) (λ '(trade_proto.mkLoginResponse _ _ _ _), eq_refl).
#[export] Instance PlaceOrderRequest_eq_dec : EqDecision trade_proto.PlaceOrderRequest.
Proof. solve_decision. Defined.
#[export] Instance PlaceOrderRequest_countable : Countable trade_proto.PlaceOrderRequest :=
  inj_countable' (λ m, (trade_proto.place_request_id m, trade_proto.place_symbol m, trade_proto.place_side m, trade_proto.place_order_type m, trade_proto.place_price m, trade_proto.place_quantity m))
    (λ '(x0, x1, x2, x3, x4, x5), trade_proto.mkPlaceOrderRequest x0 x1 x2 x3 x4 x5) (λ '(trade_proto.mkPlaceOrderRequest _ _ _ _ _ _), eq_refl).
#[export] Instance PlaceOrderResponse_eq_dec : EqDecision trade_proto.PlaceOrderResponse.
Proof. solve_decision. Defined.
#[export] Instance PlaceOrderResponse_countable : Countable trade_proto.PlaceOrderResponse :=
  inj_countable' (λ m, (trade_proto.placed_request_id m, trade_proto.placed_error_code m, trade_proto.placed_error_msg m, trade_proto.placed_order_id m))
    (λ '(x0, x1, x2, x3), trade_proto.mkPlaceOrderResponse x0 x1 x2 x3) (λ '(trade_proto.mkPlaceOrderResponse _ _ _ _), eq_refl).
#[export] Instance QueryOrderRequest_eq_dec : EqDecision trade_proto.QueryOrderRequest.
Proof. solve_decision. Defined.
#[export] Instance QueryOrderRequest_countable : Countable trade_proto.QueryOrderRequest :=
  inj_countable' (λ m, (trade_proto.query_request_id m, trade_proto.query_order_id m))
    (λ '(x0, x1), trade_proto.mkQueryOrderRequest x0 x1) (λ '(trade_proto.mkQueryOrderRequest _ _), eq_refl).
#[export] Instance QueryOrderResponse_eq_dec : EqDecision trade_proto.QueryOrderResponse.
Proof. solve_decision. Defined.
#[export] Instance QueryOrderResponse_countable : Countable trade_proto.QueryOrderResponse :=
  inj_countable' (λ m, (trade_proto.queried_request_id m, trade_proto.queried_error_code m, trade_proto.queried_error_msg m, trade_proto.queried_order_id m, trade_proto.queried_symbol m, trade_proto.queried_status m, trade_proto.queried_filled_qty m, trade_proto.queried_avg_price m))
    (λ '(x0, x1, x2, x3, x4, x5, x6, x7), trade_proto.mkQueryOrderResponse x0 x1 x2 x3 x4 x5 x6 x7) (λ '(trade_proto.mkQueryOrderResponse _ _ _ _ _ _ _ _), eq_refl).
#[export] Instance CancelOrderRequest_eq_dec : EqDecision trade_proto.CancelOrderRequest.
Proof. solve_decision. Defined.
#[export] Instance CancelOrderRequest_countable : Countable trade_proto.CancelOrderRequest :=
  inj_countable' (λ m, (trade_proto.cancel_request_id m, trade_proto.cancel_order_id m))
    (λ '(x0, x1), trade_proto.mkCancelOrderRequest x0 x1) (λ '(trade_proto.mkCancelOrderRequest _ _), eq_refl).
#[export] Instance CancelOrderResponse_eq_dec : EqDecision trade_proto.CancelOrderResponse.
Proof. solve_decision. Defined.
#[export] Instance CancelOrderResponse_countable : Countable trade_proto.CancelOrderResponse :=
  inj_countable' (λ m, (trade_proto.cancelled_request_id m, trade_proto.cancelled_error_code m, trade_proto.cancelled_error_msg m))
    (λ '(x0, x1, x2), trade_proto.mkCancelOrderResponse x0 x1 x2) (λ '(trade_proto.mkCancelOrderResponse _ _ _), eq_refl).

#[export] Instance demo_proto : TradeProto := {|
  LoginRequest_proto := countable_proto;
  LoginResponse_proto := countable_proto;
  PlaceOrderRequest_proto := countable_proto;
  PlaceOrderResponse_proto := countable_proto;
  QueryOrderRequest_proto := countable_proto;
  QueryOrderResponse_proto := countable_proto;
  CancelOrderRequest_proto := countable_proto;
  CancelOrderResponse_proto := countable_proto;
|}.
#[export] Instance demo_proto_laws : TradeProtoLaws.
Proof. split; apply countable_proto_laws. Qed.

(** a gateway that runs, with the socket 5 *)
Definition demo_gateway : TradeGateway zsim MyTradeHandler :=
  mkGateway (mkR (set_rt_running true (set_rt_sock 5 new_RouterServer)) (zsim_with 5 []))
    (Some new_MyTradeHandler).

Lemma demo_serving : serving 1000 demo_gateway.
Proof. split_and!; [done|done|apply zsim_sends|done]. Qed.

(** a client with the socket 7, and what has come to it *)
Definition demo_client (l : list frame) : TradeApi zsim :=
  mkApi (set_ti_running true (set_ti_dealerSock 7 new_TradeApiZmqImpl)) (Some []) (zsim_with 7 l).

Definition demo_login : Request := ReqLogin (mkLoginRequest 42 "admin" "123456").

Lemma trade_service_witness :
  ∃ a, recv_turn (demo_client (message_frames (response_message (answer demo_login 1000).1))) = Ok (true, a) ∧
    ta_spi a = Some [SpiOnLogin (mkLoginResponse 42 0 "Login successful"
                       (mkAccountInfo 1001 "admin" "admin@example.com" "admin"))].
Proof.
  destruct (trade_service demo_login [Byte.x01] 1000 [] []
    (demo_client []) (demo_client (message_frames (response_message (answer demo_login 1000).1)))
    demo_gateway) as (_ & _ & a & E & Hc & _);
    [by compute|done|apply zsim_sends|apply demo_serving|done|vm_compute; reflexivity|].
  exists a. split; [exact E|]. rewrite Hc. vm_compute. reflexivity.
Defined.

Definition demo_order : Request := ReqPlaceOrder (mkPlaceOrderRequest 7 "BTC-USDT" 1 1 0 0).

Lemma order_numbers_witness :
  order_ids (answers [demo_order; demo_login; demo_order] 1000) = [1001; 1002].
Proof.
  destruct (order_numbers [([Byte.x01], demo_order); ([Byte.x02], demo_login); ([Byte.x02], demo_order)]
    demo_gateway) as (_ & H & _); [|apply demo_serving|by compute|exact H].
  repeat constructor; by compute.
Defined.

Lemma heartbeat_gives_up_witness :
  ∃ a, HeartbeatLoop 5 51 (demo_client []) = Ok (tt, a) ∧ ta_spi a = Some [SpiOnFrontDisconnected 1].
Proof.
  destruct (heartbeat_gives_up 5 [] 5 51 (demo_client [])) as (a & E & _ & Hs);
    [lia|lia|lia|done|done|done|by compute|done|].
  exists a. split; [exact E|exact Hs].
Defined.
