(* ===== verification/Quote.v ===== *)
(** * Quotes and notices

    [gateway/src/PubServer] and [gateway/src/quote_gateway], which publish, and
    [gateway/src/quote_api] with [gateway/src/zmq_impl/quote_api_zmq_impl],
    which receive. *)
From Stdlib Require Import Ascii.
From S2P Require Import Prelude Protobuf Messages.

(** [enum class QuoteMsgType : uint16_t] *)
Definition kMarketData : Z := 1.
Definition kNotice : Z := 2.

(** ** quote.proto *)
Module quote_proto.
Record MarketData : Type := mkMarketData {
  md_symbol : string;
  md_price : Z;
  md_volume : Z;
  md_timestamp : Z;
}.
Record Notice : Type := mkNotice {
  notice_content : string;
  notice_timestamp : Z;
  notice_message_id : Z;
}.

#[export] Instance MarketData_wf : WellFormed MarketData := λ m,
  is_string (md_symbol m) ∧ is_double (md_price m) ∧ is_double (md_volume m) ∧ is_int64 (md_timestamp m).
#[export] Instance Notice_wf : WellFormed Notice := λ n,
  is_string (notice_content n) ∧ is_int64 (notice_timestamp n) ∧ is_uint64 (notice_message_id n).
End quote_proto.
Export (hints) quote_proto.

(** ** quote_types.h *)
Record MarketData : Type := mkMarketData {
  symbol : string;
  price : Z;
  volume : Z;
  md_time : Z;
}.
Record Notice : Type := mkNotice {
  content : string;
  notice_time : Z;
  message_id : Z;
}.

(** the generated code for the messages *)
Class QuoteProto : Type := {
  #[global] MarketData_proto :: Proto quote_proto.MarketData;
  #[global] Notice_proto :: Proto quote_proto.Notice;
}.
Class QuoteProtoLaws `{QuoteProto} : Prop := {
  #[global] MarketData_laws :: ProtoLaws quote_proto.MarketData;
  #[global] Notice_laws :: ProtoLaws quote_proto.Notice;
}.

(** the bytes of a [std::string] *)
Definition string_bytes (s : string) : list byte := String.list_byte_of_string s.

(** ** Publishing *)

(** [class PubServer], the member of [class QuoteGateway], and ZeroMQ *)
Record PubServer (K : Type) : Type := mkPub {
  ps_pubSock : Z;
  ps_msgSeq : Z;
  ps_nextMsgId : Z;
  ps_zmq : zstate K;
}.
Arguments mkPub {K}. Arguments ps_pubSock {K}. Arguments ps_msgSeq {K}.
Arguments ps_nextMsgId {K}. Arguments ps_zmq {K}.

Section publisher.
Context {K : Type} `{Zmq K, Clock K}.
Abbreviation P := (PubServer K).

Definition pub_zmq {A} (m : M (zstate K) A) : M P A := λ p,
  match m (ps_zmq p) with
  | Ok (a, z) => Ok (a, mkPub (ps_pubSock p) (ps_msgSeq p) (ps_nextMsgId p) z)
  | Fail e => Fail e
  end.
Definition set_pubSock (v : Z) : M P unit :=
  modify (λ p, mkPub v (ps_msgSeq p) (ps_nextMsgId p) (ps_zmq p)).

Definition PubServer_Start (bindAddr : string) (port : Z) : M P bool :=
  pubSock ← gets ps_pubSock;
  if negb (pubSock =? 0) then mret false
  else
    pub ← pub_zmq CreatePubSocket;
    if pub =? 0 then mret false
    else
      ifM (pub_zmq (BindSocket pub ("tcp://" ++ bindAddr ++ ":" ++ pretty port)%string))
        (set_pubSock pub;; mret true)
        (pub_zmq (CloseSocket pub);; mret false).

Definition PubServer_Stop : M P unit :=
  pubSock ← gets ps_pubSock;
  when (negb (pubSock =? 0)) (pub_zmq (CloseSocket pubSock);; set_pubSock 0).

Definition SetMessageId (id : Z) : M P unit :=
  modify (λ p, mkPub (ps_pubSock p) (ps_msgSeq p) id (ps_zmq p)).

(** [msgSeq_.fetch_add(1) + 1] *)
Definition NextMessageId : M P Z := λ p,
  let id := u64 (ps_msgSeq p + 1) in Ok (id, mkPub (ps_pubSock p) id (ps_nextMsgId p) (ps_zmq p)).

Definition kRetryCount : nat := 3.
Definition kRetryIntervalMs : Z := 100.

(** the turns of the loop of [Publish] that are left *)
Fixpoint publish_loop (turns : nat) (topic : list byte) (msgType : Z) (body : list byte) (ok : bool) :
    M P bool :=
  match turns with
  | O => mret ok
  | S turns =>
      pubSock ← gets ps_pubSock;
      sent ← pub_zmq (SendPubMessage pubSock topic msgType body);
      let ok : bool := if sent : bool then true else ok in
      when (0 <? turns)%nat (pub_zmq (zmq (λ k, (tt, sleep_for_ms kRetryIntervalMs k))));;
      publish_loop turns topic msgType body ok
  end.

Definition Publish (topic : string) (msgType : Z) (body : list byte) : M P bool :=
  pubSock ← gets ps_pubSock;
  if pubSock =? 0 then mret false
  else publish_loop kRetryCount (string_bytes topic) msgType body false.

(** [class QuoteGateway] *)
Definition Start : string → Z → M P bool := PubServer_Start.
Definition Stop : M P unit := PubServer_Stop.

Definition QuoteTopic_kNotice : string := "notice".
Definition QuoteTopic_kMarketPrefix : string := "market.".

Definition PublishMarketData `{QuoteProto} (symbol : string) (price volume : Z) : M P bool :=
  now ← pub_zmq (zmq system_now_ms);
  let md := quote_proto.mkMarketData symbol price volume now in
  Publish (QuoteTopic_kMarketPrefix ++ symbol) kMarketData (SerializeAsString md).

Definition PublishNotice `{QuoteProto} (content : string) : M P bool :=
  msgId ← NextMessageId;
  now ← pub_zmq (zmq system_now_ms);
  let notice := quote_proto.mkNotice content now msgId in
  Publish QuoteTopic_kNotice kNotice (SerializeAsString notice).
End publisher.

(** ** Subscribing *)

(** the calls of [class QuoteSpi] *)
Inductive QuoteSpi : Type :=
| OnFrontConnected
| OnFrontDisconnected (reason : Z)
| OnMarketData (md : MarketData)
| OnNotice (notice : Notice).

(** [class QuoteApi] with its [QuoteApiZmqImpl]: the callbacks made to the
    object that is registered, and whether the receiving thread is joinable *)
Record QuoteApi (K : Type) : Type := mkQuoteApi {
  qa_spi : option (list QuoteSpi);
  qa_lastNoticeId : Z;
  qa_address : string;
  qa_pubPort : Z;
  qa_subSock : Z;
  qa_connected : bool;
  qa_running : bool;
  qa_recvThread : bool;
  qa_zmq : zstate K;
}.
Arguments mkQuoteApi {K}. Arguments qa_spi {K}. Arguments qa_lastNoticeId {K}.
Arguments qa_address {K}. Arguments qa_pubPort {K}. Arguments qa_subSock {K}.
Arguments qa_connected {K}. Arguments qa_running {K}. Arguments qa_recvThread {K}.
Arguments qa_zmq {K}.

(** [c_str()], as far as a C function reads it *)
Fixpoint c_str (l : list byte) : list byte :=
  match l with
  | [] => []
  | b :: l => match b with Byte.x00 => [] | b => b :: c_str l end
  end.

Section subscriber.
Context {K : Type} `{Zmq K, Clock K, QuoteProto}.
Abbreviation A := (QuoteApi K).

Definition new_QuoteApi (z : zstate K) : A := mkQuoteApi None 0 "" 0 0 false false false z.

Definition set_qa_spi v (a : A) : A := mkQuoteApi v (qa_lastNoticeId a) (qa_address a) (qa_pubPort a)
  (qa_subSock a) (qa_connected a) (qa_running a) (qa_recvThread a) (qa_zmq a).
Definition set_qa_lastNoticeId v (a : A) : A := mkQuoteApi (qa_spi a) v (qa_address a) (qa_pubPort a)
  (qa_subSock a) (qa_connected a) (qa_running a) (qa_recvThread a) (qa_zmq a).
Definition set_qa_target ad p (a : A) : A := mkQuoteApi (qa_spi a) (qa_lastNoticeId a) ad p
  (qa_subSock a) (qa_connected a) (qa_running a) (qa_recvThread a) (qa_zmq a).
Definition set_qa_subSock v (a : A) : A := mkQuoteApi (qa_spi a) (qa_lastNoticeId a) (qa_address a)
  (qa_pubPort a) v (qa_connected a) (qa_running a) (qa_recvThread a) (qa_zmq a).
Definition set_qa_connected v (a : A) : A := mkQuoteApi (qa_spi a) (qa_lastNoticeId a) (qa_address a)
  (qa_pubPort a) (qa_subSock a) v (qa_running a) (qa_recvThread a) (qa_zmq a).
Definition set_qa_running v (a : A) : A := mkQuoteApi (qa_spi a) (qa_lastNoticeId a) (qa_address a)
  (qa_pubPort a) (qa_subSock a) (qa_connected a) v (qa_recvThread a) (qa_zmq a).
Definition set_qa_recvThread v (a : A) : A := mkQuoteApi (qa_spi a) (qa_lastNoticeId a) (qa_address a)
  (qa_pubPort a) (qa_subSock a) (qa_connected a) (qa_running a) v (qa_zmq a).
Definition set_qa_zmq v (a : A) : A := mkQuoteApi (qa_spi a) (qa_lastNoticeId a) (qa_address a)
  (qa_pubPort a) (qa_subSock a) (qa_connected a) (qa_running a) (qa_recvThread a) v.

Definition sub_zmq {B} (m : M (zstate K) B) : M A B := λ a,
  match m (qa_zmq a) with
  | Ok (b, z) => Ok (b, set_qa_zmq z a)
  | Fail e => Fail e
  end.

Definition RegisterSpi (spi : option (list QuoteSpi)) : M A unit := modify (set_qa_spi spi).
Definition spi_call (c : QuoteSpi) : M A unit :=
  modify (λ a, set_qa_spi ((λ l, l ++ [c]) <$> qa_spi a) a).

Definition on_connected : M A unit := spi_call OnFrontConnected.
Definition on_disconnected (reason : Z) : M A unit := spi_call (OnFrontDisconnected reason).

(** [on_pub_message], that the constructor installs; [break] and [return] end
    it alike *)
Definition on_pub_message (topic : list byte) (msgType : Z) (body : list byte) : M A unit :=
  ifM (gets (λ a, match qa_spi a with None => true | _ => false end)) (mret tt)
    (if msgType =? kMarketData then
      match ParseFromArray body with
      | Some proto =>
          spi_call (OnMarketData (mkMarketData (quote_proto.md_symbol proto)
            (quote_proto.md_price proto) (quote_proto.md_volume proto) (quote_proto.md_timestamp proto)))
      | None => mret tt
      end
    else if msgType =? kNotice then
      match ParseFromArray body with
      | Some proto =>
          let msgId := quote_proto.notice_message_id proto in
          lastNoticeId ← gets qa_lastNoticeId;
          if negb (msgId =? 0) && (msgId =? lastNoticeId) then mret tt
          else
            modify (set_qa_lastNoticeId msgId);;
            spi_call (OnNotice (mkNotice (quote_proto.notice_content proto)
              (quote_proto.notice_timestamp proto) msgId))
      | None => mret tt
      end
    else mret tt).

(** [QuoteApiZmqImpl::Connect]; the null [address] is [None] *)
Definition Connect (address : option string) (pubPort : Z) : M A Z :=
  subSock ← gets qa_subSock;
  if negb (subSock =? 0) then mret 0
  else if pubPort <=? 0 then mret (-1)
  else
    modify (set_qa_target (default ""%string address) pubPort);;
    sub ← sub_zmq CreateSubSocket;
    if sub =? 0 then mret (-1)
    else
      sub_zmq (SetSubSubscribe sub []);;
      ifM (sub_zmq (ConnectSocket sub
             ("tcp://" ++ default "" address ++ ":" ++ pretty pubPort)%string))
        (modify (set_qa_subSock sub);;
         modify (set_qa_connected true);;
         modify (set_qa_running true);;
         ifM (gets qa_recvThread) (failM Exception) (mret tt);;
         modify (set_qa_recvThread true);;
         on_connected;;
         mret 0)
        (sub_zmq (CloseSocket sub);; mret (-1)).

(** the receiving thread is joined before the socket is closed *)
Definition Disconnect : M A unit :=
  modify (set_qa_running false);;
  modify (set_qa_recvThread false);;
  subSock ← gets qa_subSock;
  when (negb (subSock =? 0)) (sub_zmq (CloseSocket subSock);; modify (set_qa_subSock 0));;
  modify (set_qa_connected false).

Definition Subscribe (topic : string) : M A bool :=
  subSock ← gets qa_subSock;
  if subSock =? 0 then mret false
  else sub_zmq (SetSubSubscribe subSock (c_str (string_bytes topic)));; mret true.

Definition Unsubscribe (topic : string) : M A bool :=
  subSock ← gets qa_subSock;
  if subSock =? 0 then mret false
  else
    sub_zmq (zmq (zmq_set_bytes subSock ZMQ_UNSUBSCRIBE (string_bytes topic)));; mret true.

(** one turn of [RecvLoop]: whether the loop goes on *)
Definition recv_turn : M A bool :=
  subSock ← gets qa_subSock;
  p ← sub_zmq (zmq (zmq_poll subSock 100));
  let '(rc, revents) := p in
  if rc <? 0 then mret false
  else if rc =? 0 then mret true
  else if Z.land revents ZMQ_POLLIN =? 0 then mret true
  else
    sub_zmq (RecvPubMessage subSock) ≫= λ msg : option (list byte * Z * list byte),
    match msg with
    | None => sub_zmq (zmq (λ k, (tt, sleep_for_ms 10 k)));; mret true
    | Some (topic, rawType, body) => on_pub_message topic rawType body;; mret true
    end.

Fixpoint RecvLoop (fuel : nat) : M A unit :=
  match fuel with
  | O => failM OutOfFuel
  | S fuel => ifM (gets qa_running) (ifM recv_turn (RecvLoop fuel) (mret tt)) (mret tt)
  end.
End subscriber.

(** ** What is published *)

(** the message of a notice *)
Definition notice_frames `{QuoteProto} (n : quote_proto.Notice) : list frame :=
  message_frames (PubMessage (string_bytes QuoteTopic_kNotice) kNotice (SerializeAsString n)).

Definition market_frames `{QuoteProto} (md : quote_proto.MarketData) : list frame :=
  message_frames (PubMessage (string_bytes (QuoteTopic_kMarketPrefix ++ quote_proto.md_symbol md))
    kMarketData (SerializeAsString md)).

Definition copies {A} (n : nat) (l : list A) : list A := concat (replicate n l).

(** the notices with these contents and times, numbered from [last + 1] *)
Fixpoint numbered (last : Z) (l : list (string * Z)) : list quote_proto.Notice :=
  match l with
  | [] => []
  | (c, t) :: l => quote_proto.mkNotice c t (last + 1) :: numbered (last + 1) l
  end.

Definition pub_out {K} `{ZmqLaws K} (p : PubServer K) : list frame :=
  outbox (z_kern (ps_zmq p)) (ps_pubSock p).

Section publishing.
Context {K : Type} `{ClockLaws K, QuoteProto}.
Implicit Types (p : PubServer K).

Definition started p : Prop := ps_pubSock p ≠ 0 ∧ sends (K := K) (ps_pubSock p).

Lemma wp_pub_zmq {A} (m : M (zstate K) A) (Q : A → PubServer K → Prop) p :
  wp never m (λ a z, Q a (mkPub (ps_pubSock p) (ps_msgSeq p) (ps_nextMsgId p) z)) (ps_zmq p) →
  wp never (pub_zmq m) Q p.
Proof. unfold wp, pub_zmq. by destruct (m (ps_zmq p)) as [[a z]|]. Qed.

Lemma wp_publish_loop n topic t b ok p :
  started p →
  wp never (publish_loop n topic t b ok) (λ ok' p', ok' = ok || (0 <? n)%nat ∧
    ps_pubSock p' = ps_pubSock p ∧ ps_msgSeq p' = ps_msgSeq p ∧
    pub_out p' = pub_out p ++ copies n (message_frames (PubMessage topic t b))) p.
Proof.
  revert ok p. induction n as [|n IH]; intros ok p Hp; cbn [publish_loop].
  - apply wp_ret. by rewrite orb_false_r, app_nil_r.
  - apply wp_bind, wp_gets, wp_bind, wp_pub_zmq.
    eapply wp_post; [exact (send_message_ok _ (PubMessage topic t b) _ (proj2 Hp))|].
    intros sent z (-> & Ho & _). cbv zeta. apply wp_bind, wp_when.
    assert (∀ z', outbox (z_kern z') = outbox (z_kern z) →
      wp never (publish_loop n topic t b true) (λ ok' p', ok' = ok || (0 <? S n)%nat ∧
        ps_pubSock p' = ps_pubSock p ∧ ps_msgSeq p' = ps_msgSeq p ∧
        pub_out p' = pub_out p ++ copies (S n) (message_frames (PubMessage topic t b)))
        (mkPub (ps_pubSock p) (ps_msgSeq p) (ps_nextMsgId p) z')) as Hrest.
    { intros z' Hz'. eapply wp_post; [by apply IH|]. intros ok' p' (-> & Hs & Hq & Ho').
      split_and!; [by rewrite orb_true_r|done|done|].
      rewrite Ho'. unfold pub_out at 1. cbn [ps_zmq ps_pubSock]. rewrite Hz', Ho.
      unfold copies. cbn [replicate concat]. by rewrite <- (assoc_L (++)). }
    destruct (0 <? n)%nat; [|by apply Hrest].
    apply wp_pub_zmq, wp_zmq, Hrest. cbn. apply sleep_outbox.
Qed.

Lemma wp_Publish topic t b p :
  started p →
  wp never (Publish topic t b) (λ ok p', ok = true ∧ ps_pubSock p' = ps_pubSock p ∧
    ps_msgSeq p' = ps_msgSeq p ∧
    pub_out p' = pub_out p ++ copies 3 (message_frames (PubMessage (string_bytes topic) t b))) p.
Proof.
  intros Hp. unfold Publish. apply wp_bind, wp_gets. rewrite (proj2 (Z.eqb_neq _ _)) by apply Hp.
  by apply (wp_publish_loop kRetryCount).
Qed.

(** the time that is published is a number of milliseconds *)
Lemma wp_PublishNotice c p :
  started p → 0 ≤ ps_msgSeq p < 2 ^ 64 - 1 →
  wp never (PublishNotice c) (λ ok p', ok = true ∧ ps_pubSock p' = ps_pubSock p ∧
    ps_msgSeq p' = ps_msgSeq p + 1 ∧
    ∃ t, is_int64 t ∧
      pub_out p' = pub_out p ++ copies 3 (notice_frames (quote_proto.mkNotice c t (ps_msgSeq p + 1)))) p.
Proof.
  intros Hp Hseq. unfold PublishNotice. apply wp_bind. unfold wp at 1, NextMessageId.
  rewrite u64_small by lia. apply wp_bind, wp_pub_zmq, wp_zmq. cbv zeta.
  eapply wp_post; [by apply wp_Publish|]. intros ok p' (-> & Hs & Hq & Ho).
  split_and!; [done|done|done|]. eexists. split; [apply (system_range (z_kern (ps_zmq p)))|].
  rewrite Ho. unfold pub_out at 1. cbn. by rewrite (proj2 (system_quiet _)).
Qed.

Lemma wp_PublishMarketData s x v p :
  started p →
  wp never (PublishMarketData s x v) (λ ok p', ok = true ∧
    ∃ t, is_int64 t ∧
      pub_out p' = pub_out p ++ copies 3 (market_frames (quote_proto.mkMarketData s x v t))) p.
Proof.
  intros Hp. unfold PublishMarketData. apply wp_bind, wp_pub_zmq, wp_zmq. cbv zeta.
  eapply wp_post; [by apply wp_Publish|]. intros ok p' (-> & Hs & Hq & Ho).
  split; [done|]. eexists. split; [apply (system_range (z_kern (ps_zmq p)))|].
  rewrite Ho. unfold pub_out at 1. cbn. by rewrite (proj2 (system_quiet _)).
Qed.

Lemma wp_publish_notices contents p :
  started p → 0 ≤ ps_msgSeq p → ps_msgSeq p + Z.of_nat (length contents) < 2 ^ 64 →
  wp never (forM contents (λ c, PublishNotice c;; mret tt)) (λ _ p', ∃ l, l.*1 = contents ∧
    Forall is_int64 l.*2 ∧
    pub_out p' = pub_out p ++ concat ((λ n, copies 3 (notice_frames n)) <$> numbered (ps_msgSeq p) l)) p.
Proof.
  revert p. induction contents as [|c contents IH]; intros p Hp Hseq Hlen.
  - apply wp_ret. exists []. split_and!; [done|constructor|]. by rewrite app_nil_r.
  - cbn [length] in Hlen. cbn [forM]. apply wp_bind, wp_bind.
    eapply wp_post; [apply wp_PublishNotice; [done|lia]|].
    intros ok p1 (_ & Hs & Hq & t & Ht & Ho). apply wp_ret. eapply wp_post.
    { apply IH; [unfold started; by rewrite Hs|lia|lia]. }
    intros u p2 (l & Hl & Hts & Ho2). exists ((c, t) :: l). split_and!.
    + cbn. by rewrite Hl.
    + by constructor.
    + rewrite Ho2, Ho, Hq. cbn [numbered fmap list_fmap concat]. by rewrite <- (assoc_L (++)).
Qed.
End publishing.

(** ** What is received *)

Definition notice_call (n : quote_proto.Notice) : QuoteSpi :=
  OnNotice (mkNotice (quote_proto.notice_content n) (quote_proto.notice_timestamp n)
    (quote_proto.notice_message_id n)).
Definition market_call (m : quote_proto.MarketData) : QuoteSpi :=
  OnMarketData (mkMarketData (quote_proto.md_symbol m) (quote_proto.md_price m)
    (quote_proto.md_volume m) (quote_proto.md_timestamp m)).

(** the calls for notices of which so many copies have come *)
Definition received (ks : list nat) (l : list quote_proto.Notice) : list QuoteSpi :=
  concat (zip_with (λ k n, match k with O => [] | S _ => [notice_call n] end) ks l).

Definition sub_in {K} `{ZmqLaws K} (a : QuoteApi K) : list frame :=
  inbox (z_kern (qa_zmq a)) (qa_subSock a).

(** a number of turns of [RecvLoop], after each of which it goes on *)
Fixpoint recv_turns {K} `{Zmq K, Clock K, QuoteProto} (n : nat) (a a' : QuoteApi K) : Prop :=
  match n with
  | O => a' = a
  | S n => ∃ a1, recv_turn a = Ok (true, a1) ∧ recv_turns n a1 a'
  end.

Section receiving.
Context {K : Type} `{ClockLaws K, QuoteProtoLaws}.
Implicit Types (a : QuoteApi K).

Lemma wp_sub_zmq {B} (m : M (zstate K) B) (Q : B → QuoteApi K → Prop) a :
  wp never m (λ b z, Q b (set_qa_zmq z a)) (qa_zmq a) → wp never (sub_zmq m) Q a.
Proof. unfold wp, sub_zmq. by destruct (m (qa_zmq a)) as [[b z]|]. Qed.

(** a turn takes the message that has come *)
Lemma wp_recv_turn topic t b rest (Q : bool → QuoteApi K → Prop) a :
  0 ≤ t < 2 ^ 16 → sub_in a = message_frames (PubMessage topic t b) ++ rest →
  (∀ z, inbox (z_kern z) (qa_subSock a) = rest →
     wp never (on_pub_message topic t b) (λ _ a', Q true a') (set_qa_zmq z a)) →
  wp never recv_turn Q a.
Proof.
  intros Ht Hin HQ. unfold sub_in in Hin. unfold recv_turn. apply wp_bind, wp_gets, wp_bind, wp_sub_zmq, wp_zmq.
  destruct (poll_ready (qa_subSock a) 100 (z_kern (qa_zmq a))) as (k & Hpoll & Hki & Hko);
    [by rewrite Hin|].
  rewrite Hpoll. cbn [fst snd]. apply wp_bind, wp_sub_zmq. eapply wp_post.
  { eapply recv_pub_frames, msg_type_bytes, Ht. cbn [z_kern qa_zmq set_qa_zmq]. by rewrite Hki, Hin. }
  intros ? z (-> & Hi & _). apply wp_bind. eapply wp_post; [exact (HQ z Hi)|]. intros u a' Ha'.
  by apply wp_ret.
Qed.

(** a notice that is not the last one is called back with; the last one is
    not *)
Lemma wp_on_notice n topic calls a :
  well_formed n → quote_proto.notice_message_id n ≠ 0 → qa_spi a = Some calls →
  wp never (on_pub_message topic kNotice (SerializeAsString n)) (λ _ a',
    qa_subSock a' = qa_subSock a ∧ qa_zmq a' = qa_zmq a ∧
    qa_lastNoticeId a' = quote_proto.notice_message_id n ∧
    qa_spi a' = Some (calls ++ if decide (quote_proto.notice_message_id n = qa_lastNoticeId a)
                               then [] else [notice_call n])) a.
Proof.
  intros Hn Hid Hspi. unfold on_pub_message. apply wp_ifM, wp_gets. rewrite Hspi. cbv beta iota.
  change (kNotice =? kMarketData) with false. change (kNotice =? kNotice) with true. cbv iota.
  rewrite (parse_serialize n Hn). apply wp_bind, wp_gets. cbv beta zeta.
  rewrite (proj2 (Z.eqb_neq _ _) Hid). cbn [negb andb].
  destruct (Z.eqb_spec (quote_proto.notice_message_id n) (qa_lastNoticeId a)) as [E|E].
  - apply wp_ret. rewrite decide_True by done. rewrite app_nil_r. by split_and!.
  - apply wp_bind, wp_modify, wp_modify. rewrite decide_False by done. cbn. rewrite Hspi. by split_and!.
Qed.

Lemma wp_on_market m topic calls a :
  well_formed m → qa_spi a = Some calls →
  wp never (on_pub_message topic kMarketData (SerializeAsString m)) (λ _ a',
    qa_subSock a' = qa_subSock a ∧ qa_zmq a' = qa_zmq a ∧ qa_spi a' = Some (calls ++ [market_call m])) a.
Proof.
  intros Hm Hspi. unfold on_pub_message. apply wp_ifM, wp_gets. rewrite Hspi. cbv beta iota.
  change (kMarketData =? kMarketData) with true. cbv iota. rewrite (parse_serialize m Hm).
  apply wp_modify. cbn. rewrite Hspi. by split_and!.
Qed.

Lemma recv_turns_app n m a a1 a2 :
  recv_turns n a a1 → recv_turns m a1 a2 → recv_turns (n + m) a a2.
Proof.
  revert a. induction n as [|n IH]; intros a; cbn [recv_turns Nat.add]; [by intros ->|].
  intros (a' & E & Ht) Hm. exists a'. split; [done|by apply IH].
Qed.

(** the turn for a copy of a notice *)
Lemma recv_notice n calls rest a :
  well_formed n → quote_proto.notice_message_id n ≠ 0 → qa_spi a = Some calls →
  sub_in a = notice_frames n ++ rest →
  ∃ a', recv_turn a = Ok (true, a') ∧ sub_in a' = rest ∧
    qa_lastNoticeId a' = quote_proto.notice_message_id n ∧
    qa_spi a' = Some (calls ++ if decide (quote_proto.notice_message_id n = qa_lastNoticeId a)
                               then [] else [notice_call n]).
Proof.
  intros Hn Hid Hspi Hin. enough (wp never recv_turn (λ b a', b = true ∧ sub_in a' = rest ∧
    qa_lastNoticeId a' = quote_proto.notice_message_id n ∧
    qa_spi a' = Some (calls ++ if decide (quote_proto.notice_message_id n = qa_lastNoticeId a)
                               then [] else [notice_call n])) a) as Hwp.
  { destruct (wp_ok_inv _ _ _ Hwp) as (b & a' & E & -> & Ha'). eauto. }
  eapply wp_recv_turn; [|exact Hin|]; [done|]. intros z Hz.
  eapply wp_post; [by apply (wp_on_notice n _ calls)|]. intros u a' (Hsock & Hzmq & Hl & Hs).
  split_and!; [done| |done|done]. unfold sub_in. by rewrite Hsock, Hzmq.
Qed.

(** however many copies of a notice have come, there is one call *)
Lemma recv_copies k n calls rest a :
  well_formed n → quote_proto.notice_message_id n ≠ 0 →
  quote_proto.notice_message_id n ≠ qa_lastNoticeId a → qa_spi a = Some calls →
  sub_in a = copies (S k) (notice_frames n) ++ rest →
  ∃ a', recv_turns (S k) a a' ∧ sub_in a' = rest ∧
    qa_lastNoticeId a' = quote_proto.notice_message_id n ∧ qa_spi a' = Some (calls ++ [notice_call n]).
Proof.
  intros Hn Hid Hlast Hspi. revert rest. induction k as [|k IH]; intros rest Hin.
  - unfold copies in Hin. cbn [replicate concat] in Hin. rewrite app_nil_r in Hin.
    destruct (recv_notice n calls rest a Hn Hid Hspi Hin) as (a' & E & Hi & Hl & Hs).
    rewrite decide_False in Hs by done. exists a'. split_and!; [|done..]. by exists a'.
  - assert (copies (S (S k)) (notice_frames n) = copies (S k) (notice_frames n) ++ notice_frames n) as Hc.
    { unfold copies. rewrite replicate_S_end, concat_app. cbn [concat]. by rewrite app_nil_r. }
    rewrite Hc, <- (assoc_L (++)) in Hin.
    destruct (IH _ Hin) as (a1 & Ht & Hi & Hl & Hs).
    destruct (recv_notice n _ rest a1 Hn Hid Hs Hi) as (a2 & E & Hi2 & Hl2 & Hs2).
    rewrite decide_True, app_nil_r in Hs2 by done. exists a2. split_and!; [|done..].
    replace (S (S k)) with (S k + 1)%nat by lia. eapply recv_turns_app; [exact Ht|]. by exists a2.
Qed.

(** the copies that have come of notices with growing numbers *)
Lemma recv_notices ks l last calls rest a :
  length ks = length l → 0 ≤ last → last + Z.of_nat (length l) < 2 ^ 64 →
  Forall (λ p, is_string p.1 ∧ is_int64 p.2) l → 0 ≤ qa_lastNoticeId a ≤ last → qa_spi a = Some calls →
  sub_in a = concat (zip_with (λ k n, copies k (notice_frames n)) ks (numbered last l)) ++ rest →
  ∃ a', recv_turns (sum_list ks) a a' ∧ sub_in a' = rest ∧
    qa_spi a' = Some (calls ++ received ks (numbered last l)).
Proof.
  revert ks last calls a. induction l as [|[c t] l IH]; intros [|k ks] last calls a Hlen Hpos Hmax Hl Hlast Hspi Hin;
    try done; cbn [numbered zip_with concat length] in *.
  { exists a. split_and!; [done|done|]. by rewrite app_nil_r. }
  apply Forall_cons in Hl as [[Hc Ht] Hl]. rewrite <- (assoc_L (++)) in Hin. unfold received. cbn [zip_with concat].
  destruct k as [|k].
  - destruct (IH ks (last + 1) calls a) as (a' & Hts & Hi & Hs); [lia|lia|lia|done|lia|done|exact Hin|].
    by exists a'.
  - set (n := quote_proto.mkNotice c t (last + 1)) in *.
    destruct (recv_copies k n calls (concat (zip_with (λ k n, copies k (notice_frames n)) ks
      (numbered (last + 1) l)) ++ rest) a) as (a1 & Hts & Hi & Hid & Hs); [| | |exact Hspi|exact Hin|].
    + split_and!; [exact Hc|exact Ht|unfold is_uint64; cbn; lia].
    + cbn. lia.
    + cbn. lia.
    + destruct (IH ks (last + 1) (calls ++ [notice_call n]) a1) as (a2 & Hts2 & Hi2 & Hs2);
        [lia|lia|lia|done|rewrite Hid; cbn; lia|done|done|].
      exists a2. split_and!; [|done|].
      * by apply (recv_turns_app (S k) (sum_list ks) a a1 a2).
      * rewrite Hs2. f_equal. by rewrite <- (assoc_L (++)).
Qed.

Lemma recv_market k m calls rest a :
  well_formed m → qa_spi a = Some calls → sub_in a = copies k (market_frames m) ++ rest →
  ∃ a', recv_turns k a a' ∧ sub_in a' = rest ∧ qa_spi a' = Some (calls ++ replicate k (market_call m)).
Proof.
  revert calls a. induction k as [|k IH]; intros calls a Hm Hspi Hin.
  { exists a. split_and!; [done|done|]. by rewrite app_nil_r. }
  unfold copies in Hin. cbn [replicate concat] in Hin. rewrite <- (assoc_L (++)) in Hin.
  assert (wp never recv_turn (λ b a', b = true ∧ sub_in a' = copies k (market_frames m) ++ rest ∧
    qa_spi a' = Some (calls ++ [market_call m])) a) as Hwp.
  { eapply wp_recv_turn; [|exact Hin|]; [done|]. intros z Hz.
    eapply wp_post; [by apply (wp_on_market m _ calls)|]. intros u a' (Hsock & Hzmq & Hs).
    split_and!; [done| |done]. unfold sub_in. by rewrite Hsock, Hzmq. }
  destruct (wp_ok_inv _ _ _ Hwp) as (b & a1 & E & -> & Hi & Hs).
  destruct (IH _ a1 Hm Hs Hi) as (a2 & Hts & Hi2 & Hs2). exists a2. split_and!; [|done|].
  - by exists a1.
  - rewrite Hs2. f_equal. by rewrite <- (assoc_L (++)).
Qed.
End receiving.

(** C13: Notices are delivered once. The gateway sends every notice it is asked
    to publish three times, under a number of its own; and whichever of these
    copies reach a subscriber, in the order they were sent: it is called back
    with every notice of which a copy has come, once and in order, with its
    content, and with no other. *)
Theorem notices_once {K} `{ClockLaws K, QuoteProtoLaws} contents (p : PubServer K) :
  started p → 0 ≤ ps_msgSeq p → ps_msgSeq p + Z.of_nat (length contents) < 2 ^ 64 →
  Forall is_string contents →
  ∃ l p', l.*1 = contents ∧ forM contents (λ c, PublishNotice c;; mret tt) p = Ok (tt, p') ∧
    pub_out p' = pub_out p ++ concat ((λ n, copies 3 (notice_frames n)) <$> numbered (ps_msgSeq p) l) ∧
    ∀ ks calls rest (a : QuoteApi K), length ks = length contents →
      qa_spi a = Some calls → 0 ≤ qa_lastNoticeId a ≤ ps_msgSeq p →
      sub_in a =
        concat (zip_with (λ k n, copies k (notice_frames n)) ks (numbered (ps_msgSeq p) l)) ++ rest →
      ∃ a', recv_turns (sum_list ks) a a' ∧ sub_in a' = rest ∧
        qa_spi a' = Some (calls ++ received ks (numbered (ps_msgSeq p) l)).
Proof.
  intros Hp Hseq Hmax Hc.
  destruct (wp_ok_inv _ _ _ (wp_publish_notices contents p Hp Hseq Hmax)) as ([] & p' & E & l & Hl & Hts & Ho).
  exists l, p'. split_and!; [done..|]. intros ks calls rest a Hks Hspi Hlast Hin. subst contents.
  rewrite length_fmap in *. eapply recv_notices; try done. apply Forall_forall. intros x Hx.
  split; [apply (proj1 (Forall_fmap _ _ _)) in Hc|apply (proj1 (Forall_fmap _ _ _)) in Hts];
    by eapply Forall_forall in Hx; [|eassumption].
Qed.

(** Market data is delivered three times. Market data has no number: the
    gateway sends it three times like a notice, and a subscriber is called
    back for every copy that has come. *)
Theorem market_data_repeated {K} `{ClockLaws K, QuoteProtoLaws} s x v (p : PubServer K) :
  started p → is_string s → is_double x → is_double v →
  ∃ t p', PublishMarketData s x v p = Ok (true, p') ∧
    pub_out p' = pub_out p ++ copies 3 (market_frames (quote_proto.mkMarketData s x v t)) ∧
    ∀ k calls rest (a : QuoteApi K), qa_spi a = Some calls →
      sub_in a = copies k (market_frames (quote_proto.mkMarketData s x v t)) ++ rest →
      ∃ a', recv_turns k a a' ∧ sub_in a' = rest ∧
        qa_spi a' = Some (calls ++ replicate k (OnMarketData (mkMarketData s x v t))).
Proof.
  intros Hp Hs Hx Hv.
  destruct (wp_ok_inv _ _ _ (wp_PublishMarketData s x v p Hp)) as (b & p' & E & -> & t & Ht & Ho).
  exists t, p'. split_and!; [done..|]. intros k calls rest a Hspi Hin.
  by apply (recv_market k (quote_proto.mkMarketData s x v t)).
Qed.

(** ** A concrete serializer, and witnesses *)

#[export] Instance MarketData_eq_dec : EqDecision quote_proto.MarketData.
Proof. solve_decision. Defined.
#[export] Instance MarketData_countable : Countable quote_proto.MarketData :=
  inj_countable' (λ m, (quote_proto.md_symbol m, quote_proto.md_price m, quote_proto.md_volume m, quote_proto.md_timestamp m))
    (λ '(x0, x1, x2, x3), quote_proto.mkMarketData x0 x1 x2 x3) (λ '(quote_proto.mkMarketData _ _ _ _), eq_refl).
#[export] Instance Notice_eq_dec : EqDecision quote_proto.Notice.
Proof. solve_decision. Defined.
#[export] Instance Notice_countable : Countable quote_proto.Notice :=
  inj_countable' (λ m, (quote_proto.notice_content m, quote_proto.notice_timestamp m, quote_proto.notice_message_id m))
    (λ '(x0, x1, x2), quote_proto.mkNotice x0 x1 x2) (λ '(quote_proto.mkNotice _ _ _), eq_refl).
#[export] Instance demo_quote_proto : QuoteProto := {|
  MarketData_proto := countable_proto;
  Notice_proto := countable_proto;
|}.
#[export] Instance demo_quote_proto_laws : QuoteProtoLaws.
Proof. split; apply countable_proto_laws. Qed.

Definition demo_publisher : PubServer zsim := mkPub 6 0 0 (zsim_with 6 []).
Lemma demo_publisher_started : started demo_publisher.
Proof. split; [done|apply zsim_sends]. Qed.

(** a subscriber with the socket 8 *)
Definition demo_subscriber (l : list frame) : QuoteApi zsim :=
  mkQuoteApi (Some []) 0 "127.0.0.1" 12346 8 true true true (zsim_with 8 l).

(** of two notices, three copies of the first and two of the second come *)
Lemma notices_once_witness :
  ∃ l a a', recv_turns 5 a a' ∧
    qa_spi a' = Some (received [3; 2]%nat (numbered 0 l)) ∧ l.*1 = ["closing"; "closed"]%string.
Proof.
  destruct (notices_once ["closing"; "closed"]%string demo_publisher) as (l & p' & Hl & _ & _ & H);
    [apply demo_publisher_started|done|done|by repeat constructor|].
  destruct (H [3; 2]%nat [] [] (demo_subscriber (concat (zip_with (λ k n, copies k (notice_frames n))
    [3; 2]%nat (numbered 0 l)) ++ []))) as (a' & Ht & _ & Hs); [done|done|done|reflexivity|].
  exists l. eexists. exists a'. split; [exact Ht|split; [exact Hs|exact Hl]].
Defined.

Lemma market_data_repeated_witness :
  ∃ t a a', recv_turns 3 a a' ∧
    qa_spi a' = Some (replicate 3 (OnMarketData (mkMarketData "BTC-USDT" 5 6 t))).
Proof.
  destruct (market_data_repeated "BTC-USDT" 5 6 demo_publisher) as (t & p' & _ & _ & H);
    [apply demo_publisher_started|done|done|done|].
  destruct (H 3%nat [] [] (demo_subscriber (copies 3 (market_frames
    (quote_proto.mkMarketData "BTC-USDT" 5 6 t)) ++ []))) as (a' & Ht & _ & Hs); [done|reflexivity|].
  exists t. eexists. exists a'. split; [exact Ht|exact Hs].
Defined.
