(* ===== verification/ClientMain.v ===== *)
(** * The client program

    [gateway/src/client.cpp]: its menu over a trade and a quote connection,
    with the callbacks that keep the flags the menu looks at. The threads of
    the connections make their turns between those of the menu. *)
From Stdlib Require Import Ascii.
From S2P Require Import Prelude Console Protobuf Messages Trade TradeClient TradeService Quote.

(** what the program writes: the menu, lines of its own, and what the
    callbacks write of their argument *)
Inductive output : Type :=
| Menu (tradeConnected quoteConnected : bool)
| Out (line : string)
| TradeCallback (c : TradeSpi)
| QuoteCallback (c : QuoteSpi).

(** the locals of [main], standard input and output, and ZeroMQ *)
Record app (K : Type) : Type := mkApp {
  ap_trade : TradeApiZmqImpl;
  ap_quote : QuoteApi K;          (* its ZeroMQ is [ap_zmq] while it runs *)
  ap_tradeSpi : bool;             (* tradeSpi.connected_ *)
  ap_quoteSpi : bool;             (* quoteSpi.connected_ *)
  ap_nextOrderId : Z;
  ap_in : string;
  ap_out : list output;
  ap_zmq : zstate K;
}.
Arguments mkApp {K}. Arguments ap_trade {K}. Arguments ap_quote {K}. Arguments ap_tradeSpi {K}.
Arguments ap_quoteSpi {K}. Arguments ap_nextOrderId {K}. Arguments ap_in {K}.
Arguments ap_out {K}. Arguments ap_zmq {K}.

(** [MyTradeSpi] and [MyQuoteSpi]: the flag after a callback *)
Definition MyTradeSpi_connected (flag : bool) (c : TradeSpi) : bool :=
  match c with
  | SpiOnFrontConnected => true
  | SpiOnFrontDisconnected _ => false
  | _ => flag
  end.
Definition MyQuoteSpi_connected (flag : bool) (c : QuoteSpi) : bool :=
  match c with
  | OnFrontConnected => true
  | OnFrontDisconnected _ => false
  | _ => flag
  end.

Section client_main.
Context {K : Type} `{Zmq K, Clock K, TradeProto, QuoteProto}.
Abbreviation P := (app K).

(** an operation of the trade API, with the callbacks it makes *)
Definition in_trade {A} (m : M (TradeApi K) A) : M P A := λ p,
  match m (mkApi (ap_trade p) (Some []) (ap_zmq p)) with
  | Ok (a, t) =>
      let calls := default [] (ta_spi t) in
      Ok (a, mkApp (ta_impl t) (ap_quote p) (foldl MyTradeSpi_connected (ap_tradeSpi p) calls)
               (ap_quoteSpi p) (ap_nextOrderId p) (ap_in p)
               (ap_out p ++ (TradeCallback <$> calls)) (ta_zmq t))
  | Fail e => Fail e
  end.

(** and one of the quote API *)
Definition in_quote {A} (m : M (QuoteApi K) A) : M P A := λ p,
  match m (set_qa_spi (Some []) (set_qa_zmq (ap_zmq p) (ap_quote p))) with
  | Ok (a, q) =>
      let calls := default [] (qa_spi q) in
      Ok (a, mkApp (ap_trade p) q (ap_tradeSpi p)
               (foldl MyQuoteSpi_connected (ap_quoteSpi p) calls) (ap_nextOrderId p) (ap_in p)
               (ap_out p ++ (QuoteCallback <$> calls)) (qa_zmq q))
  | Fail e => Fail e
  end.

Definition say (o : output) : M P unit := modify (λ p, mkApp (ap_trade p) (ap_quote p) (ap_tradeSpi p)
  (ap_quoteSpi p) (ap_nextOrderId p) (ap_in p) (ap_out p ++ [o]) (ap_zmq p)).
Definition set_in (s : string) : M P unit := modify (λ p, mkApp (ap_trade p) (ap_quote p)
  (ap_tradeSpi p) (ap_quoteSpi p) (ap_nextOrderId p) s (ap_out p) (ap_zmq p)).
Definition set_flags (t q : bool) : M P unit := modify (λ p, mkApp (ap_trade p) (ap_quote p) t q
  (ap_nextOrderId p) (ap_in p) (ap_out p) (ap_zmq p)).

(** [nextOrderId++] *)
Definition next_request_id : M P Z := λ p,
  Ok (ap_nextOrderId p, mkApp (ap_trade p) (ap_quote p) (ap_tradeSpi p) (ap_quoteSpi p)
    (u64 (ap_nextOrderId p + 1)) (ap_in p) (ap_out p) (ap_zmq p)).

(** 50000.0 and 0.1 *)
Definition price_50000 : Z := 0x40e86a0000000000.
Definition quantity_0_1 : Z := 0x3fb999999999999a.

Definition connect_trade : M P unit :=
  ifM (in_trade IsConnected) (say (Out "Trade already connected."))
    (ret ← in_trade (TradeClient.Connect (Some "127.0.0.1"%string) 12345 5);
     if negb (ret =? 0) then say (Out "Failed to connect TradeGateway.")
     else
       in_trade (Login (mkLoginRequest 1 "admin" "123456"));;
       say (Out "Trade connected & login sent.")).

Definition place_order : M P unit :=
  ifM (gets ap_tradeSpi)
    (id ← next_request_id;
     in_trade (PlaceOrder (mkPlaceOrderRequest id "BTC-USDT" 1 1 price_50000 quantity_0_1));;
     say (Out "PlaceOrder sent."))
    (say (Out "Trade not connected.")).

Definition query_order : M P unit :=
  ifM (gets ap_tradeSpi)
    (id ← next_request_id;
     in_trade (QueryOrder (mkQueryOrderRequest id 1000));;
     say (Out "QueryOrder sent."))
    (say (Out "Trade not connected.")).

Definition connect_quote : M P unit :=
  ifM (in_quote (gets qa_connected)) (say (Out "Quote already connected."))
    (ret ← in_quote (Quote.Connect (Some "127.0.0.1"%string) 12346);
     if negb (ret =? 0) then say (Out "Failed to connect QuoteGateway.")
     else
       in_quote (Subscribe "notice");;
       in_quote (Subscribe "market.BTC-USDT");;
       say (Out "Quote connected & subscribed to 'notice' + 'market.BTC-USDT'.")).

Definition listen : M P unit :=
  ifM (gets ap_quoteSpi)
    (say (Out (nl +:+ "Listening for quote data..."));;
     say (Out "(Data will appear above. Press Enter to stop.)");;
     p ← gets ap_in;
     set_in (get_char p))
    (say (Out "Quote not connected.")).

Definition disconnect_all : M P unit :=
  in_trade TradeClient.Disconnect;;
  in_quote Quote.Disconnect;;
  set_flags false false;;
  say (Out "All disconnected.").

(** a choice of the menu: whether the program goes on *)
Definition menu_choice (choice : string) : M P bool :=
  if String.eqb choice "1" then connect_trade;; mret true
  else if String.eqb choice "2" then place_order;; mret true
  else if String.eqb choice "3" then query_order;; mret true
  else if String.eqb choice "4" then connect_quote;; mret true
  else if String.eqb choice "5" then listen;; mret true
  else if String.eqb choice "6" then disconnect_all;; mret true
  else if String.eqb choice "0" then say (Out "Exiting...");; mret false
  else say (Out "Invalid choice.");; mret true.

(** a turn of the loop of [main] *)
Definition main_turn : M P bool :=
  p ← gets (λ p, (ap_tradeSpi p, ap_quoteSpi p));
  say (Menu p.1 p.2);;
  l ← gets (λ p, getline (ap_in p));
  match l with
  | None => mret false
  | Some (choice, rest) => set_in rest;; menu_choice choice
  end.

(** the end of [main] *)
Definition main_exit : M P unit := in_trade TradeClient.Disconnect;; in_quote Quote.Disconnect.

(** the locals when the loop starts; the callbacks are registered *)
Definition main_start (input : string) (z : zstate K) : P :=
  mkApp new_TradeApiZmqImpl (set_qa_spi (Some []) (new_QuoteApi z)) false false 1 input [] z.

(** [main], when nothing happens in between: a unit of fuel is a turn *)
Fixpoint main_loop (fuel : nat) : M P unit :=
  match fuel with
  | O => failM OutOfFuel
  | S fuel => ifM main_turn (main_loop fuel) main_exit
  end.

(** The turns of the menu, and those of the threads of a connection. A thread
    may be anywhere in its loop. *)
Inductive main_step : relation P :=
| step_menu p p' : main_turn p = Ok (true, p') → main_step p p'
| step_recv p p' b :
    ti_recvThread (ap_trade p) = true → ti_running (ap_trade p) = true →
    in_trade TradeClient.recv_turn p = Ok (b, p') → main_step p p'
| step_heartbeat p p' b :
    ti_heartbeatThread (ap_trade p) = true → ti_running (ap_trade p) = true →
    in_trade heartbeat_ping p = Ok (b, p') → main_step p p'
| step_quote p p' b :
    qa_recvThread (ap_quote p) = true → qa_running (ap_quote p) = true →
    in_quote Quote.recv_turn p = Ok (b, p') → main_step p p'.
End client_main.

(** ** The invariant *)

(** threads are joinable only while there is a socket *)
Definition trade_ok (i : TradeApiZmqImpl) : Prop :=
  ti_dealerSock i = 0 → ti_recvThread i = false ∧ ti_heartbeatThread i = false.
Definition quote_ok {K} (q : QuoteApi K) : Prop := qa_subSock q = 0 → qa_recvThread q = false.

(** [n] bounds the input that is left *)
Definition app_ok {K} (n : nat) (p : app K) : Prop :=
  trade_ok (ap_trade p) ∧ quote_ok (ap_quote p) ∧ (String.length (ap_in p) ≤ n)%nat.

Section keeps.
Context {K : Type} `{Zmq K, Clock K, TradeProto, QuoteProto}.
Abbreviation P := (app K).
Abbreviation returns := (keeping (λ _ : zstate K, True)).
Abbreviation trade_keeps := (keeping (λ a : TradeApi K, trade_ok (ta_impl a))).
Abbreviation quote_keeps := (keeping (λ q : QuoteApi K, quote_ok q)).
Abbreviation app_keeps n := (keeping (app_ok (K := K) n)).

Lemma api_zmq_keeps {A} (m : M (zstate K) A) : returns m → trade_keeps (api_zmq m).
Proof.
  intros Hm a Ha. apply wp_api_zmq. eapply wp_post; [by apply Hm|]. done.
Qed.
Lemma sub_zmq_keeps {A} (m : M (zstate K) A) : returns m → quote_keeps (sub_zmq m).
Proof.
  intros Hm a Ha. apply wp_sub_zmq. eapply wp_post; [by apply Hm|]. done.
Qed.
Lemma in_trade_keeps {A} n (m : M (TradeApi K) A) : trade_keeps m → app_keeps n (in_trade m).
Proof.
  intros Hm p (Ht & Hq & Hn). unfold wp, in_trade.
  pose proof (Hm (mkApi (ap_trade p) (Some []) (ap_zmq p)) Ht) as Hwp. unfold wp in Hwp.
  destruct (m _) as [[a t]|]; [|done]. by split_and!.
Qed.
Lemma in_quote_keeps {A} n (m : M (QuoteApi K) A) : quote_keeps m → app_keeps n (in_quote m).
Proof.
  intros Hm p (Ht & Hq & Hn). unfold wp, in_quote.
  pose proof (Hm (set_qa_spi (Some []) (set_qa_zmq (ap_zmq p) (ap_quote p))) Hq) as Hwp. unfold wp in Hwp.
  destruct (m _) as [[a t]|]; [|done]. by split_and!.
Qed.
End keeps.

#[export] Hint Extern 1 (keeping _ (api_zmq _)) => apply api_zmq_keeps; keeping_tac : keeping.
#[export] Hint Extern 1 (keeping _ (sub_zmq _)) => apply sub_zmq_keeps; keeping_tac : keeping.
#[export] Hint Extern 1 (keeping (λ a, trade_ok _) (modify _)) =>
  apply keeping_modify; intros [[] ? ?]; exact (λ x, x) : keeping.
#[export] Hint Extern 1 (keeping (λ q, quote_ok q) (modify _)) =>
  apply keeping_modify; intros []; exact (λ x, x) : keeping.
#[export] Hint Extern 1 (keeping (app_ok _) (modify _)) =>
  apply keeping_modify; intros []; exact (λ x, x) : keeping.

Section operations.
Context {K : Type} `{Zmq K, Clock K, TradeProto, QuoteProto}.
Abbreviation trade_keeps := (keeping (λ a : TradeApi K, trade_ok (ta_impl a))).
Abbreviation quote_keeps := (keeping (λ q : QuoteApi K, quote_ok q)).

Lemma recv_turn_keeps : trade_keeps TradeClient.recv_turn.
Proof. keeping_tac. Qed.
Lemma heartbeat_ping_keeps : trade_keeps heartbeat_ping.
Proof. keeping_tac. Qed.
Lemma Send_keeps t b : trade_keeps (Send t b).
Proof. keeping_tac. Qed.
Lemma quote_recv_keeps : quote_keeps Quote.recv_turn.
Proof. keeping_tac. Qed.
Lemma Subscribe_keeps topic : quote_keeps (Subscribe topic).
Proof. keeping_tac. Qed.

Lemma wp_api_returns {A} (m : M (zstate K) A) (Q : A → TradeApi K → Prop) a :
  keeping (λ _, True) m → (∀ b z, Q b (mkApi (ta_impl a) (ta_spi a) z)) → wp never (api_zmq m) Q a.
Proof. intros Hm HQ. apply wp_api_zmq. eapply wp_post; [by apply Hm|]. intros b z _. apply HQ. Qed.
Lemma wp_sub_returns {A} (m : M (zstate K) A) (Q : A → QuoteApi K → Prop) q :
  keeping (λ _, True) m → (∀ b z, Q b (set_qa_zmq z q)) → wp never (sub_zmq m) Q q.
Proof. intros Hm HQ. apply wp_sub_zmq. eapply wp_post; [by apply Hm|]. intros b z _. apply HQ. Qed.

Lemma Connect_keeps address port hb : trade_keeps (TradeClient.Connect address port hb).
Proof.
  intros a Ha. unfold TradeClient.Connect, impl, mod_impl, on_connected, spi_call. apply wp_bind, wp_gets.
  destruct (Z.eqb_spec (ti_dealerSock (ta_impl a)) 0) as [E|]; [|by apply wp_ret].
  destruct (Ha E) as [Hr Hh]. cbn [negb]. destruct (port <=? 0); [by apply wp_ret|].
  apply wp_bind, wp_modify, wp_bind, wp_api_returns; [keeping_tac|]. intros dealer z1.
  destruct (Z.eqb_spec dealer 0) as [|Hd]; [by apply wp_ret|].
  apply wp_bind, wp_api_returns; [keeping_tac|]. intros u z2.
  apply wp_bind, wp_api_returns; [keeping_tac|]. intros u' z3.
  apply wp_ifM, wp_api_returns; [keeping_tac|]. intros [] z4.
  - do 3 apply wp_bind, wp_modify. apply wp_bind, wp_api_returns; [keeping_tac|]. intros now z5.
    do 2 apply wp_bind, wp_modify. apply wp_bind, wp_gets. cbn. rewrite Hr, Hh. cbn. by intros ?.
  - apply wp_bind, wp_api_returns; [keeping_tac|]. intros u'' z5. by apply wp_ret.
Qed.

(** after [Disconnect] there is no socket and no thread *)
Definition trade_gone (i : TradeApiZmqImpl) : Prop :=
  ti_dealerSock i = 0 ∧ ti_recvThread i = false ∧ ti_heartbeatThread i = false ∧
  ti_connected i = false ∧ ti_running i = false.
Definition quote_gone (q : QuoteApi K) : Prop :=
  qa_subSock q = 0 ∧ qa_recvThread q = false ∧ qa_connected q = false ∧ qa_running q = false.

Lemma Disconnect_gone a : wp never TradeClient.Disconnect (λ _ a', trade_gone (ta_impl a')) a.
Proof.
  unfold TradeClient.Disconnect, impl, mod_impl. do 2 apply wp_bind, wp_modify. apply wp_bind, wp_gets. cbn.
  destruct (Z.eqb_spec (ti_dealerSock (ta_impl a)) 0) as [E|E].
  - apply wp_bind, wp_ret, wp_modify. by split_and!.
  - apply wp_bind, wp_when, wp_bind, wp_api_returns; [keeping_tac|]. intros u z.
    apply wp_modify, wp_modify. by split_and!.
Qed.

Lemma quote_Connect_keeps address port : quote_keeps (Quote.Connect address port).
Proof.
  intros q Hq. unfold Quote.Connect, Quote.on_connected, Quote.spi_call. apply wp_bind, wp_gets.
  destruct (Z.eqb_spec (qa_subSock q) 0) as [E|]; [|by apply wp_ret].
  pose proof (Hq E) as Hr. cbn [negb]. destruct (port <=? 0); [by apply wp_ret|].
  apply wp_bind, wp_modify, wp_bind, wp_sub_returns; [keeping_tac|]. intros sub z1.
  destruct (Z.eqb_spec sub 0) as [|Hd]; [by apply wp_ret|].
  apply wp_bind, wp_sub_returns; [keeping_tac|]. intros u z2.
  apply wp_ifM, wp_sub_returns; [keeping_tac|]. intros [] z4.
  - do 3 apply wp_bind, wp_modify. apply wp_bind, wp_ifM, wp_gets. cbn. rewrite Hr. cbn. by intros ?.
  - apply wp_bind, wp_sub_returns; [keeping_tac|]. intros u'' z5. by apply wp_ret.
Qed.

Lemma quote_Disconnect_gone q : wp never Quote.Disconnect (λ _ q', quote_gone q') q.
Proof.
  unfold Quote.Disconnect. do 2 apply wp_bind, wp_modify. apply wp_bind, wp_gets. cbn.
  destruct (Z.eqb_spec (qa_subSock q) 0) as [E|E].
  - apply wp_bind, wp_ret, wp_modify. by split_and!.
  - apply wp_bind, wp_when, wp_bind, wp_sub_returns; [keeping_tac|]. intros u z.
    apply wp_modify, wp_modify. by split_and!.
Qed.

Lemma Disconnect_keeps : trade_keeps TradeClient.Disconnect.
Proof. intros a _. eapply wp_post; [apply Disconnect_gone|]. intros u a' (_ & Hr & Hh & _) _. by split. Qed.
Lemma quote_Disconnect_keeps : quote_keeps Quote.Disconnect.
Proof. intros q _. eapply wp_post; [apply quote_Disconnect_gone|]. by intros u q' (_ & Hr & _) _. Qed.
End operations.
#[export] Hint Resolve recv_turn_keeps heartbeat_ping_keeps Send_keeps quote_recv_keeps Subscribe_keeps
  Connect_keeps Disconnect_keeps quote_Connect_keeps quote_Disconnect_keeps : keeping.
#[export] Hint Extern 1 (keeping _ (in_trade _)) => apply in_trade_keeps; keeping_tac : keeping.
#[export] Hint Extern 1 (keeping _ (in_quote _)) => apply in_quote_keeps; keeping_tac : keeping.

Section turns.
Context {K : Type} `{Zmq K, Clock K, TradeProto, QuoteProto}.
Implicit Types (p : app K) (n : nat).

Lemma listen_keeps n : keeping (app_ok (K := K) n) listen.
Proof.
  unfold listen. apply keeping_ifM; [keeping_tac| |keeping_tac].
  apply keeping_bind; [keeping_tac|intros _]. apply keeping_bind; [keeping_tac|intros _].
  intros p (Ht & Hq & Hn). unfold set_in. apply wp_bind, wp_gets, wp_modify. split_and!; [done|done|].
  cbn. destruct (ap_in p); cbn in *; lia.
Qed.
Lemma next_request_id_keeps n : keeping (app_ok (K := K) n) next_request_id.
Proof. intros p Hp. exact Hp. Qed.
#[local] Hint Resolve listen_keeps next_request_id_keeps : keeping.

Lemma menu_choice_keeps n choice : keeping (app_ok (K := K) n) (menu_choice choice).
Proof. keeping_tac. Qed.

(** a turn of the menu takes input, or it is the last one *)
Lemma main_turn_takes n p :
  app_ok n p →
  wp never main_turn (λ b p', app_ok n p' ∧ (b = true → 0 < n ∧ app_ok (n - 1) p')%nat) p.
Proof.
  intros Hp. unfold main_turn, say, set_in. apply wp_bind, wp_gets, wp_bind, wp_modify, wp_bind, wp_gets.
  cbn. destruct (getline (ap_in p)) as [[choice rest]|] eqn:E; [|by apply wp_ret].
  apply length_getline in E. assert (0 < n ∧ String.length rest ≤ n - 1)%nat as [Hn Hr]
    by (destruct Hp as (_ & _ & Hlen); lia).
  apply wp_bind, wp_modify. cbn. eapply wp_post.
  { apply (menu_choice_keeps (n - 1)). split_and!; [apply Hp|apply Hp|exact Hr]. }
  intros b p' Hp'. split; [|done]. destruct Hp' as (? & ? & ?). split_and!; [done|done|lia].
Qed.

Lemma main_step_ok n p p' : main_step p p' → app_ok n p → app_ok n p'.
Proof.
  intros [q q' E|q q' b _ _ E|q q' b _ _ E|q q' b _ _ E] Hp.
  - by destruct (wp_elim _ _ _ _ _ _ (main_turn_takes n q Hp) E).
  - refine (wp_elim _ _ (λ _ q', app_ok n q') _ _ _ _ E). by apply in_trade_keeps; [keeping_tac|].
  - refine (wp_elim _ _ (λ _ q', app_ok n q') _ _ _ _ E). by apply in_trade_keeps; [keeping_tac|].
  - refine (wp_elim _ _ (λ _ q', app_ok n q') _ _ _ _ E). by apply in_quote_keeps; [keeping_tac|].
Qed.

Lemma main_exit_gone p :
  wp never main_exit (λ _ p', trade_gone (ap_trade p') ∧ quote_gone (ap_quote p')) p.
Proof.
  unfold main_exit. apply wp_bind. unfold wp at 1, in_trade.
  pose proof (Disconnect_gone (mkApi (ap_trade p) (Some []) (ap_zmq p))) as Hwp. unfold wp in Hwp.
  destruct (TradeClient.Disconnect _) as [[u t]|]; [|done].
  unfold wp, in_quote. cbn.
  pose proof (quote_Disconnect_gone (set_qa_spi (Some []) (set_qa_zmq (ta_zmq t) (ap_quote p)))) as Hwq.
  unfold wp in Hwq. destruct (Quote.Disconnect _) as [[u' q]|]; [|done]. by split.
Qed.

Lemma main_loop_ends n p :
  app_ok n p →
  wp never (main_loop (S n)) (λ _ p', trade_gone (ap_trade p') ∧ quote_gone (ap_quote p')) p.
Proof.
  revert p. induction n as [|n IH]; intros p Hp; cbn [main_loop]; apply wp_ifM;
    (eapply wp_post; [by apply main_turn_takes|]); intros [] p' [Hp' Hb]; try apply main_exit_gone.
  - destruct (Hb eq_refl). lia.
  - destruct (Hb eq_refl) as [_ Hp'']. apply IH. by rewrite Nat.sub_1_r in Hp''.
Qed.
End turns.


(** lines of one character *)
Fixpoint typed (choices : list ascii) (rest : string) : string :=
  match choices with
  | [] => rest
  | c :: choices => String c (String "010" (typed choices rest))
  end.

(** a number of turns of the menu, after each of which the program goes on *)
Fixpoint main_turns {K} `{Zmq K, Clock K, TradeProto, QuoteProto} (n : nat) (p p' : app K) : Prop :=
  match n with
  | O => p' = p
  | S n => ∃ p1, main_turn p = Ok (true, p1) ∧ main_turns n p1 p'
  end.

Lemma lost_turn {K} `{Zmq K, Clock K, TradeProto, QuoteProto} c rest (p : app K) :
  ti_connected (ap_trade p) = true → ap_tradeSpi p = false → c ∈ ["1"; "2"; "3"]%char →
  ap_in p = String c (String "010" rest) →
  ∃ p', main_turn p = Ok (true, p') ∧ ap_trade p' = ap_trade p ∧ ap_tradeSpi p' = false ∧
    ap_zmq p' = ap_zmq p ∧ ap_in p' = rest.
Proof.
  intros Hc Hf Hin E.
  enough (wp never main_turn (λ b p', b = true ∧ ap_trade p' = ap_trade p ∧ ap_tradeSpi p' = false ∧
    ap_zmq p' = ap_zmq p ∧ ap_in p' = rest) p) as Hwp.
  { destruct (wp_ok_inv _ _ _ Hwp) as (b & p' & E' & -> & Hp'). by exists p'. }
  assert (c ≠ "010"%char) as Hlf 
    by (intros ->; rewrite !elem_of_cons in Hin; destruct Hin as [[=]|[[=]|[[=]|[]%not_elem_of_nil]]]).
  unfold main_turn, say, set_in. apply wp_bind, wp_gets, wp_bind, wp_modify, wp_bind, wp_gets.
  cbn [ap_in]. rewrite E. unfold getline. cbn [getline_loop]. rewrite decide_False by done.
  cbn. apply wp_bind, wp_modify. unfold menu_choice.
  rewrite !elem_of_cons in Hin. destruct Hin as [->|[->|[->|[]%not_elem_of_nil]]].
  - apply wp_bind. unfold connect_trade. apply wp_ifM. unfold wp, in_trade. cbn. rewrite Hc. by split_and!.
  - apply wp_bind. unfold place_order. apply wp_ifM, wp_gets. cbn. rewrite Hf. by split_and!.
  - apply wp_bind. unfold query_order. apply wp_ifM, wp_gets. cbn. rewrite Hf. by split_and!.
Qed.

(** A connection that was lost cannot be made again from the menu. When the
    heartbeat has given up, the program takes the connection for connected and
    for not connected at once: the choices to connect, to place an order and
    to query one only write a line, whatever their order, and nothing is sent. *)
Theorem lost_connection_sticks {K} `{Zmq K, Clock K, TradeProto, QuoteProto} choices rest (p : app K) :
  ti_connected (ap_trade p) = true → ap_tradeSpi p = false →
  Forall (λ c, c ∈ ["1"; "2"; "3"]%char) choices → ap_in p = typed choices rest →
  ∃ p', main_turns (length choices) p p' ∧
    ap_trade p' = ap_trade p ∧ ap_tradeSpi p' = false ∧ ap_zmq p' = ap_zmq p ∧ ap_in p' = rest.
Proof.
  revert p. induction choices as [|c choices IH]; intros p Hc Hf Hin E.
  - by exists p.
  - apply Forall_cons in Hin as [Hcc Hin].
    destruct (lost_turn c _ p Hc Hf Hcc E) as (p1 & E1 & Ht & Hf1 & Hz & Hi).
    destruct (IH p1) as (p2 & Hts & Ht2 & Hf2 & Hz2 & Hi2); [by rewrite Ht|done|done|done|].
    exists p2. split_and!; [by exists p1|congruence..].
Qed.

(** ** Witnesses *)

(** the choices 1 and 0 are typed *)
Definition demo_input : string := typed ["1"; "0"]%char "".


(** the client connects, the server stays silent, and the choices 1 and 2 are
    typed *)
Definition demo_lost : app zsim :=
  match (main_turn ≫= λ _, in_trade (HeartbeatLoop 5 51))
          (main_start (typed ["1"; "1"; "2"]%char "6") (zsim_with 10 [])) with
  | Ok (_, p) => p
  | Fail _ => main_start "" (zsim_with 10 [])
  end.

Lemma lost_connection_sticks_witness :
  ∃ p, main_turns 2 demo_lost p ∧ ap_tradeSpi p = false ∧ ap_in p = "6"%string.
Proof.
  destruct (lost_connection_sticks ["1"; "2"]%char "6" demo_lost) as (p & Ht & _ & Hf & _ & Hi).
  - vm_compute. reflexivity.
  - vm_compute. reflexivity.
  - repeat constructor.
  - vm_compute. reflexivity.
  - exists p. split; [exact Ht|split; [exact Hf|exact Hi]].
Defined.
