(* ===== verification/ServerMain.v ===== *)
(** * The server program

    [gateway/src/server.cpp]: the trade gateway with its pool, the quote
    gateway, and the menu. The dispatch thread and the workers of the pool make
    their turns between those of the menu. *)
From Stdlib Require Import SpecFloat.
From S2P Require Import Prelude Console Protobuf Messages Router Trade Quote.

(** ** Doubles *)

Definition double_of_int (n : Z) : spec_float := binary_normalize 53 1024 n 0 false.
Definition double_bits (f : spec_float) : Z :=
  match f with
  | S754_zero s => if s then 2 ^ 63 else 0
  | S754_infinity s => (if s then 2 ^ 63 else 0) + Z.shiftl 0x7ff 52
  | S754_nan => Z.shiftl 0xfff 51
  | S754_finite s m e =>
      (if s then 2 ^ 63 else 0) +
      (if Z.pos m <? 2 ^ 52 then Z.pos m else Z.shiftl (e + 1075) 52 + (Z.pos m - 2 ^ 52))
  end.

(** 50000.0 + (rand() % 10000) / 100.0, and 1.0 + (rand() % 100) / 10.0 *)
Definition simulated_price (r : Z) : Z :=
  double_bits (SFadd 53 1024 (double_of_int 50000)
    (SFdiv 53 1024 (double_of_int (Z.rem r 10000)) (double_of_int 100))).
Definition simulated_volume (r : Z) : Z :=
  double_bits (SFadd 53 1024 (double_of_int 1)
    (SFdiv 53 1024 (double_of_int (Z.rem r 100)) (double_of_int 10))).

Example simulated_price_2550 : simulated_price 2550 = 0x40e86d3000000000. (* 50025.5 *)
Proof. vm_compute. reflexivity. Qed.

(** ** The program *)

(** what the program writes *)
Inductive output : Type :=
| Menu (activeConnections : Z)
| Out (text : string).

(** the locals of [main] and the globals, standard input and output, and
    ZeroMQ; the pool is the one that the gateway was given, and [sv_rand]
    counts the calls of [rand] *)
Record server (K : Type) : Type := mkServer {
  sv_trade : RouterServer;
  sv_handler : option MyTradeHandler;
  sv_pubSock : Z;
  sv_msgSeq : Z;
  sv_nextMsgId : Z;
  sv_shutdownRequested : bool;
  sv_rand : nat;
  sv_in : string;
  sv_out : list output;
  sv_zmq : zstate K;
}.
Arguments mkServer {K}. Arguments sv_trade {K}. Arguments sv_handler {K}.
Arguments sv_pubSock {K}. Arguments sv_msgSeq {K}. Arguments sv_nextMsgId {K}.
Arguments sv_shutdownRequested {K}. Arguments sv_rand {K}. Arguments sv_in {K}.
Arguments sv_out {K}. Arguments sv_zmq {K}.

Section server_main.
Context {K : Type} `{Zmq K, Clock K, TradeProto, QuoteProto} (rands : nat → Z).
Abbreviation P := (server K).

(** an operation of the trade gateway *)
Definition in_gateway {A} (m : M (TradeGateway K MyTradeHandler) A) : M P A := λ p,
  match m (mkGateway (mkR (sv_trade p) (sv_zmq p)) (sv_handler p)) with
  | Ok (a, g) => Ok (a, mkServer (r_server (tg_router g)) (tg_handler g) (sv_pubSock p) (sv_msgSeq p)
      (sv_nextMsgId p) (sv_shutdownRequested p) (sv_rand p) (sv_in p) (sv_out p) (r_zmq (tg_router g)))
  | Fail e => Fail e
  end.

(** and one of the quote gateway *)
Definition in_publisher {A} (m : M (PubServer K) A) : M P A := λ p,
  match m (mkPub (sv_pubSock p) (sv_msgSeq p) (sv_nextMsgId p) (sv_zmq p)) with
  | Ok (a, q) => Ok (a, mkServer (sv_trade p) (sv_handler p) (ps_pubSock q) (ps_msgSeq q)
      (ps_nextMsgId q) (sv_shutdownRequested p) (sv_rand p) (sv_in p) (sv_out p) (ps_zmq q))
  | Fail e => Fail e
  end.

Definition say (o : output) : M P unit := modify (λ p, mkServer (sv_trade p) (sv_handler p)
  (sv_pubSock p) (sv_msgSeq p) (sv_nextMsgId p) (sv_shutdownRequested p) (sv_rand p) (sv_in p)
  (sv_out p ++ [o]) (sv_zmq p)).
Definition set_in (s : string) : M P unit := modify (λ p, mkServer (sv_trade p) (sv_handler p)
  (sv_pubSock p) (sv_msgSeq p) (sv_nextMsgId p) (sv_shutdownRequested p) (sv_rand p) s (sv_out p)
  (sv_zmq p)).

(** [signalHandler], and the choice to shut down *)
Definition request_shutdown : M P unit := modify (λ p, mkServer (sv_trade p) (sv_handler p)
  (sv_pubSock p) (sv_msgSeq p) (sv_nextMsgId p) true (sv_rand p) (sv_in p) (sv_out p) (sv_zmq p)).

Definition rand : M P Z := λ p,
  Ok (rands (sv_rand p), mkServer (sv_trade p) (sv_handler p) (sv_pubSock p) (sv_msgSeq p)
    (sv_nextMsgId p) (sv_shutdownRequested p) (S (sv_rand p)) (sv_in p) (sv_out p) (sv_zmq p)).

(** [std::getline(std::cin, ...)]; at the end of the input the string is
    empty *)
Definition read_line : M P (option string) :=
  l ← gets (λ p, getline (sv_in p));
  match l with
  | None => mret None
  | Some (l, rest) => set_in rest;; mret (Some l)
  end.

(** ** The pool *)

(** a worker takes the task at the front of the queue, and runs it *)
Definition pool_turn : M P unit :=
  in_gateway (
    pool ← gets (λ g : TradeGateway K MyTradeHandler, rt_pool (r_server (tg_router g)));
    match pool with
    | Some (running, t :: tasks) =>
        in_router (mod_server (set_rt_pool (Some (running, tasks))));;
        run_task t
    | _ => mret tt
    end).

(** [pool.Shutdown()]: the tasks in the queue are run first *)
Definition shutdown_pool : M P unit :=
  in_gateway (
    pool ← gets (λ g : TradeGateway K MyTradeHandler, rt_pool (r_server (tg_router g)));
    match pool with
    | Some (true, tasks) =>
        in_router (mod_server (set_rt_pool (Some (false, []))));;
        forM tasks run_task
    | _ => mret tt
    end).

(** ** [main] *)

(** the server when it starts: the pool runs, the handler is registered, and
    the gateway is configured *)
Definition main_start (input : string) (z : zstate K) : P :=
  mkServer (set_rt_pool (Some (true, [])) (set_rt_max 10000 (set_rt_idle 60 new_RouterServer)))
    (Some new_MyTradeHandler) 0 0 0 false 0 input [] z.

(** the end of [main], and what the destructors do when it returns early *)
Definition stop_gateways : M P unit :=
  in_publisher Quote.Stop;;
  in_gateway (in_router Router.Stop).
Definition main_exit : M P unit := stop_gateways;; shutdown_pool.

(** starting both gateways *)
Definition start_gateways : M P bool :=
  ifM (in_gateway (in_router (Router.Start "0.0.0.0" 12345)))
    (ifM (in_publisher (Quote.Start "0.0.0.0" 12346)) (mret true)
      (say (Out (line "Failed to start QuoteGateway"));; mret false))
    (say (Out (line "Failed to start TradeGateway"));; mret false).

Definition publish_notice : M P bool :=
  say (Out "Enter notice content: ");;
  msg ← read_line;
  match msg with
  | None => mret false
  | Some msg => in_publisher (PublishNotice msg);; mret true
  end.

Definition publish_market : M P bool :=
  say (Out "Symbol (e.g. BTC-USDT): ");;
  l ← read_line;
  let symbol := match l with
                | None | Some EmptyString => "BTC-USDT"%string
                | Some s => s
                end in
  r ← rand;
  r' ← rand;
  in_publisher (PublishMarketData symbol (simulated_price r) (simulated_volume r'));;
  mret true.

(** a choice of the menu: [false] is [break] *)
Definition menu_choice (choice : string) : M P bool :=
  if String.eqb choice "1" then publish_notice
  else if String.eqb choice "2" then publish_market
  else if String.eqb choice "3" then say (Out (line "Shutting down..."));; request_shutdown;; mret true
  else say (Out (line "Invalid choice."));; mret true.

(** a turn of the loop: whether it goes on *)
Definition main_turn : M P bool :=
  ifM (gets sv_shutdownRequested) (mret false)
    (active ← gets (λ p, rt_active (sv_trade p));
     say (Menu active);;
     choice ← read_line;
     match choice with
     | None => mret false
     | Some choice => menu_choice choice
     end).

Fixpoint main_loop (fuel : nat) : M P unit :=
  match fuel with
  | O => failM OutOfFuel
  | S fuel => ifM main_turn (main_loop fuel) (say (Out (nl +:+ line "Shutting down..."));; main_exit)
  end.

(** [main] and its result; the loop makes no more turns than there are
    characters of input *)
Definition main : M P Z :=
  ifM start_gateways
    (say (Out (nl +:+ line "Gateway server running (4 workers)."));;
     n ← gets (λ p, String.length (sv_in p));
     main_loop (S n);;
     say (Out (line "Gateway server stopped."));;
     mret 0)
    (main_exit;; mret 1).
End server_main.

(** ** Facts *)

(** everything is stopped: no socket and no thread is left, and the pool
    takes no more tasks and has none *)
Definition stopped {K} (p : server K) : Prop :=
  rt_sock (sv_trade p) = 0 ∧ rt_thread (sv_trade p) = false ∧ rt_running (sv_trade p) = false ∧
  sv_pubSock p = 0 ∧
  ∀ running tasks, rt_pool (sv_trade p) = Some (running, tasks) → running = false.

Section facts.
Context {K : Type} `{Zmq K, Clock K, TradeProto, QuoteProto} (rands : nat → Z).
Implicit Types (p : server K).

(** the input that is left *)
Definition input_le (n : nat) p : Prop := (String.length (sv_in p) ≤ n)%nat.
Abbreviation keeps n := (keeping (input_le n)).

Lemma in_publisher_keeps {A} n (m : M (PubServer K) A) : keeping (λ _, True) m → keeps n (in_publisher m).
Proof.
  intros Hm p Hp. unfold wp, in_publisher.
  pose proof (Hm (mkPub (sv_pubSock p) (sv_msgSeq p) (sv_nextMsgId p) (sv_zmq p)) I) as Hwp.
  unfold wp in Hwp. by destruct (m _) as [[a q]|].
Qed.
Lemma pub_zmq_returns {A} (m : M (zstate K) A) : keeping (λ _, True) m → keeping (λ _, True) (pub_zmq m).
Proof. intros Hm p _. apply wp_pub_zmq. eapply wp_post; [by apply Hm|]. done. Qed.
Lemma publish_loop_returns n topic t b ok : keeping (λ _ : PubServer K, True) (publish_loop n topic t b ok).
Proof.
  revert ok. induction n as [|n IH]; intros ok; cbn [publish_loop]; [apply keeping_ret|].
  apply keeping_bind; [apply keeping_gets|intros s]. apply keeping_bind.
  - apply pub_zmq_returns. keeping_tac.
  - intros sent. apply keeping_bind; [|intros _; apply IH]. apply keeping_when, pub_zmq_returns. keeping_tac.
Qed.
End facts.

#[export] Hint Resolve publish_loop_returns : keeping.
#[export] Hint Extern 1 (keeping _ (pub_zmq _)) => apply pub_zmq_returns; keeping_tac : keeping.
#[export] Hint Extern 1 (keeping _ (in_publisher _)) => apply in_publisher_keeps; keeping_tac : keeping.
#[export] Hint Extern 1 (keeping (λ _, True) (modify _)) => by apply keeping_modify : keeping.
#[export] Hint Extern 1 (keeping (input_le _) (modify _)) =>
  apply keeping_modify; intros []; exact (λ x, x) : keeping.

Section turns.
Context {K : Type} `{Zmq K, Clock K, TradeProto, QuoteProto} (rands : nat → Z).
Implicit Types (p : server K).

Lemma wp_read_line n p (Q : option string → server K → Prop) :
  input_le n p →
  (∀ l p', (0 < n)%nat → input_le (n - 1) p' → Q (Some l) p') → Q None p →
  wp never read_line Q p.
Proof.
  intros Hp HS HN. unfold read_line, set_in. apply wp_bind, wp_gets.
  destruct (getline (sv_in p)) as [[l rest]|] eqn:E; [|by apply wp_ret].
  apply length_getline in E. unfold input_le in *. apply wp_bind, wp_modify, wp_ret. apply HS; cbn; lia.
Qed.
Lemma read_line_keeps n : keeping (input_le (K := K) n) read_line.
Proof.
  intros p Hp. apply (wp_read_line n); [done| |done]. unfold input_le. intros l p' ? ?. cbn in *. lia.
Qed.
Lemma NextMessageId_returns : keeping (λ _ : PubServer K, True) NextMessageId.
Proof. done. Qed.
Lemma rand_keeps n : keeping (input_le (K := K) n) (rand rands).
Proof. intros p Hp. exact Hp. Qed.
#[local] Hint Resolve read_line_keeps rand_keeps NextMessageId_returns : keeping.

Lemma server_menu_choice_keeps n choice : keeping (input_le (K := K) n) (menu_choice rands choice).
Proof. keeping_tac. Qed.

Lemma server_main_turn_takes n p :
  input_le n p →
  wp never (main_turn rands) (λ b p', b = true → (0 < n)%nat ∧ input_le (n - 1) p') p.
Proof.
  intros Hp. unfold main_turn, say. apply wp_ifM, wp_gets. destruct (sv_shutdownRequested p); [by apply wp_ret|].
  apply wp_bind, wp_gets, wp_bind, wp_modify, wp_bind. apply (wp_read_line n); [done| |by apply wp_ret].
  intros l p' Hn Hp'. eapply wp_post; [by apply (server_menu_choice_keeps (n - 1))|]. by intros b p'' Hp'' _.
Qed.
End turns.

Section stopping.
Context {K : Type} `{Zmq K, Clock K, TradeProto, QuoteProto}.
Implicit Types (p : server K).

(** A gateway that is stopped does nothing with a task. *)
Lemma run_tasks_stopped (l : list task) (g : TradeGateway K MyTradeHandler) :
  rt_running (r_server (tg_router g)) = false → wp never (forM l run_task) (λ _ g', g' = g) g.
Proof.
  intros Hr. induction l as [|t l IH]; [by apply wp_ret|]. cbn [forM]. apply wp_bind.
  unfold run_task at 1, OnMessage. apply wp_ifM, wp_gets. rewrite Hr. by apply wp_ret.
Qed.

(** the gateways are stopped, and the tasks are where they were *)
Definition gateways_stopped p p' : Prop :=
  rt_sock (sv_trade p') = 0 ∧ rt_thread (sv_trade p') = false ∧ rt_running (sv_trade p') = false ∧
  sv_pubSock p' = 0 ∧ sv_handler p' = sv_handler p ∧ rt_pool (sv_trade p') = rt_pool (sv_trade p).

Lemma Router_Stop_spec (r : rworld K) :
  wp never Router.Stop (λ _ r', rt_sock (r_server r') = 0 ∧ rt_thread (r_server r') = false ∧
    rt_running (r_server r') = false ∧ rt_pool (r_server r') = rt_pool (r_server r)) r.
Proof.
  unfold Router.Stop, get_server, mod_server. do 2 apply wp_bind, wp_modify. apply wp_bind, wp_gets. cbn.
  destruct (Z.eqb_spec (rt_sock (r_server r)) 0) as [E|E]; [by apply wp_ret|].
  apply wp_when, wp_bind, wp_in_zmq. eapply wp_post; [by apply (CloseSocket_returns (rt_sock (r_server r)))|].
  intros u z _. apply wp_modify. by split_and!.
Qed.

Lemma Quote_Stop_spec (q : PubServer K) : wp never Quote.Stop (λ _ q', ps_pubSock q' = 0) q.
Proof.
  unfold Quote.Stop, PubServer_Stop, set_pubSock. apply wp_bind, wp_gets.
  destruct (Z.eqb_spec (ps_pubSock q) 0) as [E|E]; [by apply wp_ret|].
  apply wp_when, wp_bind, wp_pub_zmq. eapply wp_post; [by apply (CloseSocket_returns (ps_pubSock q))|].
  intros u z _. by apply wp_modify.
Qed.

Lemma wp_in_publisher {A} (m : M (PubServer K) A) (Q : A → server K → Prop) p :
  wp never m (λ a q, Q a (mkServer (sv_trade p) (sv_handler p) (ps_pubSock q) (ps_msgSeq q)
    (ps_nextMsgId q) (sv_shutdownRequested p) (sv_rand p) (sv_in p) (sv_out p) (ps_zmq q)))
    (mkPub (sv_pubSock p) (sv_msgSeq p) (sv_nextMsgId p) (sv_zmq p)) →
  wp never (in_publisher m) Q p.
Proof. unfold wp, in_publisher. by destruct (m _) as [[a q]|]. Qed.
Lemma wp_in_gateway {A} (m : M (TradeGateway K MyTradeHandler) A) (Q : A → server K → Prop) p :
  wp never m (λ a g, Q a (mkServer (r_server (tg_router g)) (tg_handler g) (sv_pubSock p) (sv_msgSeq p)
    (sv_nextMsgId p) (sv_shutdownRequested p) (sv_rand p) (sv_in p) (sv_out p) (r_zmq (tg_router g))))
    (mkGateway (mkR (sv_trade p) (sv_zmq p)) (sv_handler p)) →
  wp never (in_gateway m) Q p.
Proof. unfold wp, in_gateway. by destruct (m _) as [[a g]|]. Qed.
Lemma stop_gateways_spec p : wp never stop_gateways (λ _ p', gateways_stopped p p') p.
Proof.
  unfold stop_gateways. apply wp_bind, wp_in_publisher. eapply wp_post; [apply Quote_Stop_spec|].
  intros u q Hq. apply wp_in_gateway, wp_in_router. eapply wp_post; [apply Router_Stop_spec|].
  intros u' r (H1' & H2' & H3' & H4'). by split_and!.
Qed.

(** the tasks that are left are taken and come to nothing *)
Lemma shutdown_pool_spec p :
  rt_running (sv_trade p) = false →
  wp never shutdown_pool (λ _ p', sv_zmq p' = sv_zmq p ∧ sv_handler p' = sv_handler p ∧
    sv_pubSock p' = sv_pubSock p ∧ rt_sock (sv_trade p') = rt_sock (sv_trade p) ∧
    rt_thread (sv_trade p') = rt_thread (sv_trade p) ∧ rt_running (sv_trade p') = false ∧
    rt_pool (sv_trade p') = match rt_pool (sv_trade p) with
                            | Some (true, _) => Some (false, [])
                            | o => o
                            end) p.
Proof.
  intros Hr. unfold shutdown_pool. apply wp_in_gateway, wp_bind, wp_gets. cbn.
  destruct (rt_pool (sv_trade p)) as [[[] tasks]|] eqn:E; [|by apply wp_ret; split_and!..].
  apply wp_bind, wp_in_router, wp_modify. eapply wp_post; [by apply run_tasks_stopped|].
  intros u g ->. by split_and!.
Qed.

Lemma main_exit_spec p : wp never main_exit (λ _ p', stopped p') p.
Proof.
  unfold main_exit. apply wp_bind. eapply wp_post; [apply stop_gateways_spec|].
  intros u p1 (Hs & Ht & Hr & Hq & _ & _). eapply wp_post; [by apply shutdown_pool_spec|].
  intros u' p2 (_ & _ & Hq2 & Hs2 & Ht2 & Hr2 & Hpool). split_and!; [congruence..|].
  intros running tasks E. rewrite Hpool in E. destruct (rt_pool (sv_trade p1)) as [[[] ts]|]; naive_solver.
Qed.

Lemma server_main_loop_ends rands n p :
  input_le n p → wp never (main_loop rands (S n)) (λ _ p', stopped p') p.
Proof.
  revert p. induction n as [|n IH]; intros p Hp; cbn [main_loop]; apply wp_ifM;
    (eapply wp_post; [by apply server_main_turn_takes|]); intros [] p' Hb.
  - destruct (Hb eq_refl). lia.
  - apply wp_bind, wp_modify, main_exit_spec.
  - destruct (Hb eq_refl) as [_ Hp']. apply IH. by rewrite Nat.sub_1_r in Hp'.
  - apply wp_bind, wp_modify, main_exit_spec.
Qed.

(** Starting returns: the new gateway has no dispatch thread to lose. *)
Lemma wp_in_zmq_returns {A} (m : M (zstate K) A) (Q : A → rworld K → Prop) r :
  keeping (λ _, True) m → (∀ a z, Q a (mkR (r_server r) z)) → wp never (in_zmq m) Q r.
Proof. intros Hm HQ. apply wp_in_zmq. eapply wp_post; [by apply Hm|]. intros a z _. apply HQ. Qed.

Lemma Router_Start_returns addr port (r : rworld K) :
  rt_thread (r_server r) = false → wp never (Router.Start addr port) (λ _ _, True) r.
Proof.
  intros Ht. unfold Router.Start, get_server, mod_server. apply wp_bind, wp_gets.
  destruct (negb _); [by apply wp_ret|].
  apply wp_bind, wp_in_zmq_returns; [keeping_tac|]. intros sock z1. destruct (sock =? 0); [by apply wp_ret|].
  apply wp_bind, wp_in_zmq_returns; [keeping_tac|]. intros u z2.
  apply wp_ifM, wp_in_zmq_returns; [keeping_tac|]. intros [] z3.
  - apply wp_bind, wp_modify, wp_bind, wp_modify, wp_bind. rewrite Ht.
    apply wp_ret, wp_bind, wp_modify, wp_bind, wp_modify. by apply wp_ret.
  - apply wp_bind, wp_in_zmq_returns; [keeping_tac|]. intros u' z4. by apply wp_ret.
Qed.

Lemma Quote_Start_returns addr port : keeping (λ _ : PubServer K, True) (Quote.Start addr port).
Proof. keeping_tac. Qed.

Lemma start_gateways_returns input z :
  wp never (start_gateways (K := K)) (λ _ p', sv_in p' = input) (main_start input z).
Proof.
  unfold start_gateways, say. apply wp_ifM, wp_in_gateway, wp_in_router.
  eapply wp_post; [by apply Router_Start_returns|]. intros [] r _.
  - apply wp_ifM, wp_in_publisher. eapply wp_post; [by apply Quote_Start_returns|]. intros [] q _.
    + by apply wp_ret.
    + apply wp_bind, wp_modify. by apply wp_ret.
  - apply wp_bind, wp_modify. by apply wp_ret.
Qed.

Lemma main_returns rands input z :
  wp never (main rands) (λ rc p', (rc = 0 ∨ rc = 1) ∧ stopped p') (main_start input z).
Proof.
  unfold main. apply wp_ifM. eapply wp_post; [apply start_gateways_returns|]. intros [] p1 Hin.
  - unfold say. apply wp_bind, wp_modify, wp_bind, wp_gets, wp_bind.
    eapply wp_post; [apply server_main_loop_ends; unfold input_le; cbn; lia|]. intros u p2 Hst.
    apply wp_bind, wp_modify, wp_ret. split; [by left|exact Hst].
  - apply wp_bind. eapply wp_post; [apply main_exit_spec|]. intros u p2 Hst. apply wp_ret.
    split; [by right|exact Hst].
Qed.
End stopping.


(** Requests that are waiting when the server stops are dropped. [main]
    stops the gateways before it shuts the pool down; the pool then still runs
    the tasks that it accepted, but the gateway does nothing with them: no
    call of ZeroMQ is made, no client is answered and the handler is not
    called, as many as they are. *)
Theorem shutdown_drops_requests {K} `{Zmq K, Clock K, TradeProto, QuoteProto} (p : server K) :
  ∃ p1 p2, stop_gateways p = Ok (tt, p1) ∧ shutdown_pool p1 = Ok (tt, p2) ∧
    rt_pool (sv_trade p1) = rt_pool (sv_trade p) ∧
    sv_zmq p2 = sv_zmq p1 ∧ sv_handler p2 = sv_handler p ∧
    ∀ running tasks, rt_pool (sv_trade p2) = Some (running, tasks) → running = false.
Proof.
  destruct (wp_ok_inv _ _ _ (stop_gateways_spec p)) as ([] & p1 & E1 & Hs & Ht & Hr & Hq & Hh & Hp1).
  destruct (wp_ok_inv _ _ _ (shutdown_pool_spec p1 Hr)) as ([] & p2 & E2 & Hz & Hh2 & _ & _ & _ & _ & Hp2).
  exists p1, p2. split_and!; [done|done|done|done|congruence|].
  intros running tasks E. rewrite Hp2 in E. destruct (rt_pool (sv_trade p1)) as [[[] ts]|]; naive_solver.
Qed.
