(* ===== verification/Printed.v ===== *)
(** * What the programs print

    The formats of printf and of [std::ostream] that the programs use, on
    numbers and on doubles, and the texts of the menus, of the responses the
    command-line client shows, and of the callbacks of [gateway/src/client.cpp]. *)
From stdpp Require Import strings pretty.
From Stdlib Require Import Ascii.
From S2P Require Import Prelude Protocol Structs ApiClient Console Messages Trade TradeClient Quote.
From S2P Require ClientMain ServerMain.

(** ** Formats *)

(** [%d], [%u], [%zu] and [<<] of an integer *)
Definition dec (z : Z) : string := pretty z.

Definition hex_digit (z : Z) : string :=
  String (ascii_of_N (Z.to_N (if z <? 10 then 48 + z else 55 + z))) EmptyString.
(** [%0nX] of a number of at most [n] digits *)
Fixpoint hex (n : nat) (z : Z) : string :=
  match n with
  | O => EmptyString
  | S n => hex n (z / 16) +:+ hex_digit (z mod 16)
  end.

(** the last [n] decimal digits *)
Fixpoint last_digits (n : nat) (z : Z) : string :=
  match n with
  | O => EmptyString
  | S n => last_digits n (z / 10) +:+ dec (z mod 10)
  end.

(** [%.*s] of an array of characters *)
Definition chars (l : list byte) : string := String.string_of_list_byte (c_string l).

(** *** Doubles *)

(** the sign and the magnitude of a double: a mantissa and a power of two *)
Inductive magnitude : Type := Infinite | NotANumber | Finite (m e : Z).
Definition double_sign (b : Z) : bool := Z.testbit b 63.
Definition double_magnitude (b : Z) : magnitude :=
  let e := Z.land (Z.shiftr b 52) 0x7ff in
  let m := Z.land b (2 ^ 52 - 1) in
  if e =? 0x7ff then (if m =? 0 then Infinite else NotANumber)
  else if e =? 0 then Finite m (-1074)
  else Finite (m + 2 ^ 52) (e - 1075).

(** the magnitude as a fraction *)
Definition numerator (m e : Z) : Z := m * 2 ^ Z.max e 0.
Definition denominator (e : Z) : Z := 2 ^ Z.max (- e) 0.

(** division to the nearest integer, and to the even one of two *)
Definition round_div (n d : Z) : Z :=
  let q := n / d in
  match 2 * (n mod d) ?= d with
  | Lt => q
  | Gt => q + 1
  | Eq => if Z.even q then q else q + 1
  end.

Definition signed (b : Z) (s : string) : string := if double_sign b then "-" +:+ s else s.

(** [%.2f] *)
Definition hundredths (m e : Z) : Z := round_div (numerator m e * 100) (denominator e).
Definition fixed2 (b : Z) : string :=
  signed b match double_magnitude b with
  | Infinite => "inf"
  | NotANumber => "nan"
  | Finite m e =>
      let h := hundredths m e in dec (h / 100) +:+ "." +:+ last_digits 2 (h mod 100)
  end.

(** [<<], which is [%g]: six significant digits. [scale n d x] is the fraction
    [n / d] in units of [10 ^ x]. *)
Definition scale (n d x : Z) : Z * Z := (n * 10 ^ Z.max (- x) 0, d * 10 ^ Z.max x 0).

(** the power of ten of the first digit *)
Fixpoint exponent_up (fuel : nat) (n d x : Z) : Z :=
  match fuel with
  | O => x
  | S fuel => if (scale n d (x + 1)).2 <=? (scale n d (x + 1)).1
              then exponent_up fuel n d (x + 1) else x
  end.
Fixpoint exponent_down (fuel : nat) (n d x : Z) : Z :=
  match fuel with
  | O => x
  | S fuel => if (scale n d x).1 <? (scale n d x).2 then exponent_down fuel n d (x - 1) else x
  end.
Definition exponent10 (n d : Z) : Z := exponent_down 400 n d (exponent_up 400 n d 0).

(** the six digits and the exponent, which a carry raises *)
Definition six_digits (n d : Z) : Z * Z :=
  let x := exponent10 n d in
  let s := scale n d (x - 5) in
  let m := round_div s.1 s.2 in
  if m =? 10 ^ 6 then (10 ^ 5, x + 1) else (m, x).

(** [digits] without the zeros at its end, after at least [keep] digits *)
Fixpoint strip (fuel : nat) (n : nat) (z : Z) : nat * Z :=
  match fuel, n with
  | S fuel, S n' => if z mod 10 =? 0 then strip fuel n' (z / 10) else (n, z)
  | _, _ => (n, z)
  end.

(** [z / 10 ^ n], with no zeros at the end *)
Definition decimals (n : nat) (z : Z) : string :=
  let '(n, z) := strip n n z in
  match n with
  | O => dec z
  | _ => dec (z / 10 ^ Z.of_nat n) +:+ "." +:+ last_digits n (z mod 10 ^ Z.of_nat n)
  end.

Definition general (b : Z) : string :=
  signed b match double_magnitude b with
  | Infinite => "inf"
  | NotANumber => "nan"
  | Finite m e =>
      if m =? 0 then "0"
      else
        let '(digits, x) := six_digits (numerator m e) (denominator e) in
        if (-4 <=? x) && (x <? 6) then decimals (Z.to_nat (5 - x)) digits
        else decimals 5 digits +:+ "e" +:+ (if x <? 0 then "-" else "+") +:+
             (if Z.abs x <? 100 then last_digits 2 (Z.abs x) else dec (Z.abs x))
  end.

Example general_50000 : general 0x40e86a0000000000 = "50000". Proof. vm_compute. reflexivity. Qed.
Example general_0_1 : general 0x3fb999999999999a = "0.1". Proof. vm_compute. reflexivity. Qed.
Example general_50025_5 : general 0x40e86d3000000000 = "50025.5". Proof. vm_compute. reflexivity. Qed.
Example general_1e22 : general 0x4480f0cf064dd592 = "1e+22". Proof. vm_compute. reflexivity. Qed.
Example general_999999_5 : general 0x412e847f00000000 = "1e+06". Proof. vm_compute. reflexivity. Qed.
Example general_small : general 0x3f1a36e2eb1c432d = "0.0001". Proof. vm_compute. reflexivity. Qed.
Example fixed2_3250 : fixed2 0x40a9640000000000 = "3250.00". Proof. vm_compute. reflexivity. Qed.
Example fixed2_neg : fixed2 0xbfe0000000000000 = "-0.50". Proof. vm_compute. reflexivity. Qed.

(** ** The responses of the command-line client *)

(** what is printed of a body of [len] bytes *)
Definition shown_text (len : Z) (s : shown) : string :=
  match s with
  | ShownLogin r =>
      line ("  tradingDay: " +:+ dec (lr_tradingDay r)) +:+
      line ("  account:    " +:+ chars (lr_account r)) +:+
      line ("  balance:    " +:+ fixed2 (lr_balance r)) +:+
      line ("  available:  " +:+ fixed2 (lr_available r)) +:+
      line ("  frontId:    " +:+ dec (lr_frontId r)) +:+
      line ("  sessionId:  " +:+ dec (lr_sessionId r))
  | ShownOrder i =>
      line ("  orderId:       " +:+ chars (oi_orderId i)) +:+
      line ("  clientOrderId: " +:+ chars (oi_clientOrderId i)) +:+
      line ("  symbol:        " +:+ chars (oi_symbol i)) +:+
      line ("  exchange:      " +:+ chars (oi_exchange i)) +:+
      line ("  direction:     " +:+ dec (oi_direction i)) +:+
      line ("  offset:        " +:+ dec (oi_offset i)) +:+
      line ("  price:         " +:+ fixed2 (oi_price i)) +:+
      line ("  volume:        " +:+ dec (oi_volume i)) +:+
      line ("  tradedVolume:  " +:+ dec (oi_tradedVolume i)) +:+
      line ("  status:        " +:+ dec (oi_status i))
  | ShownCancel i =>
      line ("  orderId:  " +:+ chars (oi_orderId i)) +:+
      line ("  symbol:   " +:+ chars (oi_symbol i)) +:+
      line ("  status:   " +:+ dec (oi_status i))
  | ShownSymbols l =>
      line ("  symbols subscribed: " +:+ dec (len / struct_size SubscribeQuoteRequest)) +:+
      foldr (λ q s, line ("    " +:+ chars (sq_symbol q) +:+ "." +:+ chars (sq_exchange q)) +:+ s)
        EmptyString l
  | ShownTick t =>
      line ("  symbol:     " +:+ chars (tk_symbol t)) +:+
      line ("  exchange:   " +:+ chars (tk_exchange t)) +:+
      line ("  lastPrice:  " +:+ fixed2 (tk_lastPrice t)) +:+
      line ("  bidPrice1:  " +:+ fixed2 (tk_bidPrice1 t) +:+ "  bidVol: " +:+ dec (tk_bidVolume1 t)) +:+
      line ("  askPrice1:  " +:+ fixed2 (tk_askPrice1 t) +:+ "  askVol: " +:+ dec (tk_askVolume1 t)) +:+
      line ("  high: " +:+ fixed2 (tk_highPrice t) +:+ "  low: " +:+ fixed2 (tk_lowPrice t) +:+
            "  open: " +:+ fixed2 (tk_openPrice t))
  | ShownStatus i =>
      line ("  orderId:  " +:+ chars (oi_orderId i) +:+ "  status: " +:+ dec (oi_status i) +:+
            "  volume: " +:+ dec (oi_tradedVolume i) +:+ "/" +:+ dec (oi_volume i))
  | ShownTrade t =>
      line ("  tradeId: " +:+ chars (Structs.ti_tradeId t) +:+ "  orderId: " +:+
            chars (Structs.ti_orderId t) +:+ "  symbol: " +:+ chars (Structs.ti_symbol t)) +:+
      line ("  price: " +:+ fixed2 (Structs.ti_price t) +:+ "  volume: " +:+
            dec (Structs.ti_volume t) +:+ "  direction: " +:+ dec (Structs.ti_direction t))
  | ShownRaw dump =>
      line ("  raw[" +:+ dec len +:+ "]: " +:+
            foldr (λ b s, hex 2 (byte_to_Z b) +:+ " " +:+ s) EmptyString dump)
  end.

(** what [RecvPacket] prints before it answers and calls back *)
Definition response_text (r : response) : string :=
  let len := Z.of_nat (length (rs_body r)) in
  nl +:+ line ("=== Response: " +:+ rs_name r +:+ " (0x" +:+ hex 4 (rs_cmd r) +:+ ") seq=" +:+
               dec (rs_seq r) +:+ " len=" +:+ dec (kHeaderLength + len) +:+ " ===") +:+
  match rs_shown r with Some s => shown_text len s | None => EmptyString end +:+
  (if rs_cmd r =? cmd_code kCmdHeartbeatReq then line "  -> auto-replying HeartbeatRsp"
   else EmptyString).

(** ** The menus and the callbacks *)

(** the command-line client's [PrintMenu] *)
Definition PrintMenu : string :=
  nl +:+
  line "╔══════════════════════════════════════════╗" +:+
  line "║       Gateway API Client Tester          ║" +:+
  line "╠══════════════════════════════════════════╣" +:+
  line "║  TRADE API:                              ║" +:+
  line "║   1. Login                               ║" +:+
  line "║   2. Logout                              ║" +:+
  line "║   3. OrderInsert (Buy)                   ║" +:+
  line "║   4. OrderInsert (Sell)                  ║" +:+
  line "║   5. OrderCancel                         ║" +:+
  line "╠══════════════════════════════════════════╣" +:+
  line "║  QUOTE API:                              ║" +:+
  line "║   6. SubscribeQuote (rb2512)             ║" +:+
  line "║   7. UnSubscribeQuote (rb2512)           ║" +:+
  line "╠══════════════════════════════════════════╣" +:+
  line "║  GENERAL:                                ║" +:+
  line "║   d. Run Trade API Demo                  ║" +:+
  line "║   q. Run Quote API Demo                  ║" +:+
  line "║   a. Run All Demos                       ║" +:+
  line "║   h. Print this help                     ║" +:+
  line "║   0. Exit                                ║" +:+
  line "╚══════════════════════════════════════════╝" +:+
  "Choice> ".

(** [gateway/src/client.cpp]: [printMenu] *)
Definition client_menu (tradeConnected quoteConnected : bool) : string :=
  let connected (b : bool) := if b then "Connected" else "Disconnected" in
  nl +:+ line "========== Gateway Client Demo ==========" +:+
  line ("Trade: " +:+ connected tradeConnected +:+ " | Quote: " +:+ connected quoteConnected) +:+
  line "------------------------------------------" +:+
  line "1. Connect TradeGateway + Login" +:+
  line "2. Place order (demo)" +:+
  line "3. Query order (demo)" +:+
  line "4. Connect QuoteGateway + Subscribe" +:+
  line "5. Listen for quote data (Enter to stop)" +:+
  line "6. Disconnect all" +:+
  line "0. Exit" +:+
  line "==========================================" +:+
  "Please select: ".

(** [MyTradeSpi]; [TradeSpi::OnCancelOrder] does nothing *)
Definition MyTradeSpi_text (c : TradeSpi) : string :=
  match c with
  | SpiOnFrontConnected => nl +:+ line "[Trade] Connected"
  | SpiOnFrontDisconnected reason =>
      nl +:+ line ("[Trade] Disconnected (reason=" +:+ dec reason +:+ ")")
  | SpiOnLogin rsp =>
      nl +:+ line "[Trade] Login response:" +:+
      (if lrsp_error_code rsp =? 0 then
         line ("  OK - user_id=" +:+ dec (user_id (lrsp_account rsp)) +:+
               " username=" +:+ username (lrsp_account rsp))
       else line ("  FAILED - " +:+ lrsp_error_msg rsp))
  | SpiOnPlaceOrder rsp =>
      nl +:+ line "[Trade] PlaceOrder response:" +:+
      (if prsp_error_code rsp =? 0 then line ("  OK - order_id=" +:+ dec (prsp_order_id rsp))
       else line ("  FAILED - " +:+ prsp_error_msg rsp))
  | SpiOnQueryOrder rsp =>
      nl +:+ line "[Trade] QueryOrder response:" +:+
      line ("  order_id=" +:+ dec (qrsp_order_id rsp) +:+ " symbol=" +:+ qrsp_symbol rsp +:+
            " status=" +:+ dec (qrsp_status rsp) +:+ " filled=" +:+ general (qrsp_filled_qty rsp))
  | SpiOnCancelOrder _ => EmptyString
  end.

(** [MyQuoteSpi] *)
Definition MyQuoteSpi_text (c : QuoteSpi) : string :=
  match c with
  | OnFrontConnected => nl +:+ line "[Quote] Connected"
  | OnFrontDisconnected reason =>
      nl +:+ line ("[Quote] Disconnected (reason=" +:+ dec reason +:+ ")")
  | OnMarketData md =>
      nl +:+ line "[Quote] >>> MARKET DATA <<<" +:+
      line ("  symbol : " +:+ symbol md) +:+
      line ("  price  : " +:+ general (price md)) +:+
      line ("  volume : " +:+ general (volume md))
  | OnNotice n =>
      nl +:+ line "[Quote] >>> NOTICE <<<" +:+
      line ("  content : " +:+ content n) +:+
      line ("  msg_id  : " +:+ dec (message_id n))
  end.

(** what the client program writes *)
Definition client_text (o : ClientMain.output) : string :=
  match o with
  | ClientMain.Menu t q => client_menu t q
  | ClientMain.Out s => line s
  | ClientMain.TradeCallback c => MyTradeSpi_text c
  | ClientMain.QuoteCallback c => MyQuoteSpi_text c
  end.

(** [gateway/src/server.cpp]: [printMenu] *)
Definition server_menu (activeConnections : Z) : string :=
  nl +:+ line "========== Gateway Server Menu ==========" +:+
  line ("  Trade :" +:+ dec activeConnections +:+ " clients on :12345") +:+
  line "  Quote : PUB on :12346" +:+
  line "------------------------------------------" +:+
  line "1. Publish notice to all subscribers" +:+
  line "2. Publish simulated market data" +:+
  line "3. Shutdown server" +:+
  line "=========================================" +:+
  "Please select: ".

(** what [MyTradeHandler::OnPlaceOrder] logs of an order and its number *)
Definition OnPlaceOrder_text (req : trade_proto.PlaceOrderRequest) (order_id : Z) : string :=
  line ("[TradeHandler] Order: " +:+ trade_proto.place_symbol req +:+ " " +:+
        (if trade_proto.place_side req =? 1 then "BUY" else "SELL") +:+ " " +:+
        general (trade_proto.place_quantity req) +:+ "@" +:+ general (trade_proto.place_price req) +:+
        " → order_id=" +:+ dec order_id).

Example order_text :
  OnPlaceOrder_text (trade_proto.mkPlaceOrderRequest 2 "BTC-USDT" 1 1 ClientMain.price_50000
    ClientMain.quantity_0_1) 1001 = line "[TradeHandler] Order: BTC-USDT BUY 0.1@50000 → order_id=1001".
Proof. vm_compute. reflexivity. Qed.

(** what the server program writes *)
Definition server_text (o : ServerMain.output) : string :=
  match o with
  | ServerMain.Menu n => server_menu n
  | ServerMain.Out s => s
  end.

(** ** The formats round *)

Lemma round_div_close n d : 0 < d → 2 * Z.abs (d * round_div n d - n) ≤ d.
Proof.
  intros Hd. unfold round_div. pose proof (Z.div_mod n d ltac:(lia)) as E.
  pose proof (Z.mod_pos_bound n d Hd).
  destruct (Z.compare_spec (2 * (n mod d)) d); [destruct (Z.even (n / d))|..]; lia.
Qed.

Lemma denominator_pos e : 0 < denominator e.
Proof. unfold denominator. apply Z.pow_pos_nonneg; lia. Qed.

(** [%.2f] prints the nearest hundredth *)
Lemma hundredths_close m e :
  2 * Z.abs (denominator e * hundredths m e - 100 * numerator m e) ≤ denominator e.
Proof. unfold hundredths. rewrite Z.mul_comm with (n := 100). apply round_div_close, denominator_pos. Qed.

Section general_facts.
Context (n d : Z) (Hn : 0 < n) (Hd : 0 < d).

(** [n / d] has reached [10 ^ x] *)
Definition reaches (x : Z) : Prop := (scale n d x).2 ≤ (scale n d x).1.

Lemma scale_pos x : 0 < (scale n d x).1 ∧ 0 < (scale n d x).2.
Proof using Hn Hd.
  unfold scale. cbn. split; apply Z.mul_pos_pos; try done; apply Z.pow_pos_nonneg; lia.
Qed.

(** ten times the units make a tenth of the number *)
Lemma scale_step x k : 0 ≤ k →
  (scale n d (x + k)).1 * (scale n d x).2 * 10 ^ k = (scale n d x).1 * (scale n d (x + k)).2.
Proof using.
  intros Hk. unfold scale. cbn.
  assert (Hp : 10 ^ Z.max (- (x + k)) 0 * 10 ^ Z.max x 0 * 10 ^ k =
               10 ^ Z.max (- x) 0 * 10 ^ Z.max (x + k) 0).
  { rewrite <- !Z.pow_add_r by lia. f_equal. lia. }
  transitivity (n * d * (10 ^ Z.max (- (x + k)) 0 * 10 ^ Z.max x 0 * 10 ^ k)); [ring|].
  rewrite Hp. ring.
Qed.

Lemma exponent_up_spec fuel x :
  reaches x → (∃ y, x < y ≤ x + Z.of_nat fuel ∧ ¬ reaches y) →
  let r := exponent_up fuel n d x in x ≤ r ∧ reaches r ∧ ¬ reaches (r + 1).
Proof using.
  revert x. induction fuel as [|fuel IH]; intros x Hx (y & Hy & Hr); [lia|].
  cbn [exponent_up]. destruct (Z.leb_spec (scale n d (x + 1)).2 (scale n d (x + 1)).1) as [Hl|Hl].
  - destruct (IH (x + 1) Hl) as (? & ? & ?); [|split; [lia|done]].
    exists y. destruct (decide (y = x + 1)) as [->|]; [done|]. lia || (split; [lia|done]).
  - split; [lia|]. split; [done|]. unfold reaches. lia.
Qed.

Lemma exponent_down_spec fuel x :
  ¬ reaches (x + 1) → (∃ y, x - Z.of_nat fuel ≤ y ≤ x ∧ reaches y) →
  let r := exponent_down fuel n d x in r ≤ x ∧ reaches r ∧ ¬ reaches (r + 1).
Proof using.
  revert x. induction fuel as [|fuel IH]; intros x Hx (y & Hy & Hr).
  { assert (y = x) as -> by lia. done. }
  cbn [exponent_down]. destruct (Z.ltb_spec (scale n d x).1 (scale n d x).2) as [Hl|Hl].
  - assert (Hx1 : ¬ reaches (x - 1 + 1)).
    { replace (x - 1 + 1) with x by lia. unfold reaches. lia. }
    destruct (IH (x - 1) Hx1) as (? & ? & ?); [|split; [lia|done]].
    exists y. split; [|done]. destruct (decide (y = x)) as [->|]; [unfold reaches in Hr; lia|lia].
  - by split.
Qed.

Lemma reaches_le x : reaches (x + 1) → reaches x.
Proof using Hn Hd.
  unfold reaches. pose proof (scale_step x 1 ltac:(lia)) as E. pose proof (scale_pos x).
  pose proof (scale_pos (x + 1)). nia.
Qed.

Lemma exponent10_spec :
  reaches (-400) → ¬ reaches 400 →
  reaches (exponent10 n d) ∧ ¬ reaches (exponent10 n d + 1).
Proof using Hn Hd.
  intros Hlow Hhigh. unfold exponent10. destruct (decide (reaches 0)) as [H0|H0].
  - destruct (exponent_up_spec 400 0 H0) as (_ & Hr & Hr1); [by exists 400|].
    set (r := exponent_up 400 n d 0) in *.
    destruct (exponent_down_spec 400 r Hr1) as (_ & ?); [exists r; split; [lia|done]|done].
  - assert (exponent_up 400 n d 0 = 0) as ->.
    { change 400%nat with (S 399). cbn [exponent_up]. rewrite (proj2 (Z.leb_gt _ _)); [done|].
      apply Z.nle_gt. intros Hr. by apply H0, reaches_le. }
    destruct (exponent_down_spec 400 0) as (_ & ?); [|by exists (-400)|done].
    intros Hr. by apply H0, reaches_le.
Qed.

(** [%g] prints the nearest number of six significant digits *)
Lemma six_digits_close :
  reaches (-400) → ¬ reaches 400 →
  let '(digits, x) := six_digits n d in
  10 ^ 5 ≤ digits < 10 ^ 6 ∧
  ∃ carry, 0 ≤ carry ∧
    let s := scale n d (x - carry - 5) in 2 * Z.abs (s.2 * (digits * 10 ^ carry) - s.1) ≤ s.2.
Proof using Hn Hd.
  intros Hlow Hhigh. destruct (exponent10_spec Hlow Hhigh) as [Hr Hr1]. unfold six_digits.
  set (x := exponent10 n d) in *. set (s := scale n d (x - 5)).
  assert (Hs : s.2 * 10 ^ 5 ≤ s.1 < s.2 * 10 ^ 6).
  { pose proof (scale_step (x - 5) 5 ltac:(lia)) as E5. pose proof (scale_step (x - 5) 6 ltac:(lia)) as E6.
    replace (x - 5 + 5) with x in E5 by lia. replace (x - 5 + 6) with (x + 1) in E6 by lia.
    fold s in E5, E6. pose proof (scale_pos x). pose proof (scale_pos (x + 1)).
    pose proof (scale_pos (x - 5)) as Hs. fold s in Hs.
    unfold reaches in *. nia. }
  assert (0 < s.2) by apply scale_pos.
  pose proof (round_div_close s.1 s.2 ltac:(done)) as Hc. set (m := round_div s.1 s.2) in *.
  assert (10 ^ 5 ≤ m ≤ 10 ^ 6) by nia.
  destruct (Z.eqb_spec m (10 ^ 6)) as [Hm|Hm].
  - split; [lia|]. exists 1. split; [lia|]. replace (x + 1 - 1 - 5) with (x - 5) by lia. fold s.
    by rewrite Hm in Hc.
  - split; [lia|]. exists 0. split; [lia|]. replace (x - 0 - 5) with (x - 5) by lia. fold s.
    by rewrite Z.mul_1_r.
Qed.
End general_facts.

(** the magnitudes of doubles *)
Lemma double_magnitude_bounds b m e :
  double_magnitude b = Finite m e → 0 ≤ m < 2 ^ 53 ∧ -1074 ≤ e ≤ 971.
Proof.
  unfold double_magnitude. set (x := Z.land (Z.shiftr b 52) 0x7ff). set (y := Z.land b (2 ^ 52 - 1)).
  assert (0 ≤ x < 2 ^ 11).
  { unfold x. change 0x7ff with (Z.ones 11). rewrite Z.land_ones by lia. apply Z.mod_pos_bound. lia. }
  assert (0 ≤ y < 2 ^ 52).
  { unfold y. change (2 ^ 52 - 1) with (Z.ones 52). rewrite Z.land_ones by lia.
    apply Z.mod_pos_bound. lia. }
  destruct (Z.eqb_spec x 0x7ff); [by destruct (y =? 0)|].
  destruct (Z.eqb_spec x 0); intros [= <- <-]; lia.
Qed.

(** What [<<] prints of a finite double that is not zero has six significant
    digits, and is the nearest such number. *)
Theorem general_rounds b m e :
  double_magnitude b = Finite m e → m ≠ 0 →
  let '(digits, x) := six_digits (numerator m e) (denominator e) in
  10 ^ 5 ≤ digits < 10 ^ 6 ∧
  ∃ carry, 0 ≤ carry ∧
    let s := scale (numerator m e) (denominator e) (x - carry - 5) in
    2 * Z.abs (s.2 * (digits * 10 ^ carry) - s.1) ≤ s.2.
Proof.
  intros E Hm. apply double_magnitude_bounds in E as [Hb He].
  assert (Hn : numerator m e ≤ 2 ^ 53 * 2 ^ 971).
  { unfold numerator. pose proof (Z.pow_le_mono_r 2 (Z.max e 0) 971 ltac:(lia) ltac:(lia)).
    pose proof (Z.pow_nonneg 2 (Z.max e 0) ltac:(lia)). apply Z.mul_le_mono_nonneg; lia || done. }
  assert (Hd : denominator e ≤ 2 ^ 1074) by (apply Z.pow_le_mono_r; lia).
  assert (Hn0 : 0 < numerator m e).
  { unfold numerator. apply Z.mul_pos_pos; [lia|]. apply Z.pow_pos_nonneg; lia. }
  pose proof (denominator_pos e) as Hd0.
  assert (Hlow : 2 ^ 1074 ≤ 10 ^ 400) by (apply Z.leb_le; vm_compute; reflexivity).
  assert (Hhigh : 2 ^ 53 * 2 ^ 971 < 10 ^ 400) by (apply Z.ltb_lt; vm_compute; reflexivity).
  apply six_digits_close; [done|done|..]; unfold reaches, scale; cbn [fst snd].
  - change (Z.max (- -400) 0) with 400. change (Z.max (-400) 0) with 0.
    rewrite Z.pow_0_r, Z.mul_1_r. revert Hlow Hd. generalize (2 ^ 1074) (10 ^ 400). nia.
  - change (Z.max (- 400) 0) with 0. change (Z.max 400 0) with 400.
    rewrite Z.pow_0_r, Z.mul_1_r. revert Hhigh Hn. generalize (2 ^ 53 * 2 ^ 971) (10 ^ 400). nia.
Qed.

(** The client shows no cents of a price of the simulated market: 50025.25 is
    shown as 50025.2 is. *)
Lemma market_price_loses_cents :
  general (ServerMain.simulated_price 2525) = "50025.2" ∧
  general (ServerMain.simulated_price 2520) = "50025.2".
Proof. split; vm_compute; reflexivity. Qed.
