(* ===== verification/ThreadPools.v ===== *)
(** * Thread pools

    [gateway/common/ThreadPool]: the pool that runs the handlers of the router
    server, as a transition system: its workers, the threads that submit and
    the one that shuts down take turns, and a step is what a thread does while
    it holds the mutex, or between two such sections. A task is a value of a
    type; what it does is not part of the pool.

    [HPGateway/base/Thread], [HPGateway/base/ThreadPool] and
    [HPGateway/business/WorkerPool], which differ in what stopping means, are
    the module [HP]. *)
From S2P Require Import Prelude.

(** what a thread that runs [WorkerLoop] is about to do *)
Inductive worker (T : Type) : Type :=
| Ready          (* take the mutex and look at the queue *)
| Blocked        (* in [cv_.wait], until it is notified *)
| Running (t : T)
| Exited.
Arguments Ready {T}. Arguments Blocked {T}. Arguments Running {T}. Arguments Exited {T}.

(** what is left of [Shutdown] *)
Inductive shutdown : Type := NotCalled | NotifyAll | JoinAll | Returned.

#[export] Instance shutdown_eq_dec : EqDecision shutdown.
Proof. solve_decision. Defined.

(** [class ThreadPool]; [tp_notify] counts the calls of [Submit] that have
    left the mutex and not notified yet. [tp_accepted] are the tasks for which
    [Submit] returns true, [tp_started] those that workers took, and [tp_done]
    those that returned, each in order. *)
Record ThreadPool (T : Type) : Type := mkPool {
  tp_workers : list (worker T);
  tp_tasks : list T;
  tp_running : bool;
  tp_notify : nat;
  tp_shutdown : shutdown;
  tp_accepted : list T;
  tp_started : list T;
  tp_done : list T;
}.
Arguments mkPool {T}. Arguments tp_workers {T}. Arguments tp_tasks {T}. Arguments tp_running {T}.
Arguments tp_notify {T}. Arguments tp_shutdown {T}. Arguments tp_accepted {T}.
Arguments tp_started {T}. Arguments tp_done {T}.

Definition wake {T} (w : worker T) : worker T := match w with Blocked => Ready | w => w end.

Section pool.
Context {T : Type}.
Implicit Types (p : ThreadPool T) (t : T) (i : nat).

(** the constructor starts the workers *)
Definition new_ThreadPool (numThreads : nat) : ThreadPool T :=
  mkPool (replicate numThreads Ready) [] true 0 NotCalled [] [] [].

Definition set_worker i w p : ThreadPool T :=
  mkPool (<[i := w]> (tp_workers p)) (tp_tasks p) (tp_running p) (tp_notify p) (tp_shutdown p)
    (tp_accepted p) (tp_started p) (tp_done p).

(** [Submit], up to the end of its block; [notify_one] is still to come *)
Definition Submit t p : bool * ThreadPool T :=
  if tp_running p then
    (true, mkPool (tp_workers p) (tp_tasks p ++ [t]) (tp_running p) (S (tp_notify p))
             (tp_shutdown p) (tp_accepted p ++ [t]) (tp_started p) (tp_done p))
  else (false, p).

(** [notify_one]: [i] is the thread that wakes, if one waits *)
Definition notified i p : ThreadPool T :=
  let p := mkPool (tp_workers p) (tp_tasks p) (tp_running p) (pred (tp_notify p)) (tp_shutdown p)
             (tp_accepted p) (tp_started p) (tp_done p) in
  set_worker i Ready p.
Definition nobody_notified p : ThreadPool T :=
  mkPool (tp_workers p) (tp_tasks p) (tp_running p) (pred (tp_notify p)) (tp_shutdown p)
    (tp_accepted p) (tp_started p) (tp_done p).

(** [WorkerLoop] inside its block: the predicate of the wait, the test after
    it, and the front of the queue *)
Definition worker_turn i p : ThreadPool T :=
  match tp_tasks p with
  | [] => set_worker i (if tp_running p then Blocked else Exited) p
  | t :: tasks =>
      mkPool (<[i := Running t]> (tp_workers p)) tasks (tp_running p) (tp_notify p) (tp_shutdown p)
        (tp_accepted p) (tp_started p ++ [t]) (tp_done p)
  end.

(** [task()] returns *)
Definition task_returns i t p : ThreadPool T :=
  mkPool (<[i := Ready]> (tp_workers p)) (tp_tasks p) (tp_running p) (tp_notify p) (tp_shutdown p)
    (tp_accepted p) (tp_started p) (tp_done p ++ [t]).

(** [Shutdown]: its block, [notify_all], and the end of its loop, once every
    thread can be joined. A second call does nothing. *)
Definition Shutdown p : ThreadPool T :=
  if tp_running p then
    mkPool (tp_workers p) (tp_tasks p) false (tp_notify p) NotifyAll (tp_accepted p)
      (tp_started p) (tp_done p)
  else p.
Definition notify_all p : ThreadPool T :=
  mkPool (wake <$> tp_workers p) (tp_tasks p) (tp_running p) (tp_notify p) JoinAll
    (tp_accepted p) (tp_started p) (tp_done p).
Definition joined p : ThreadPool T :=
  mkPool (tp_workers p) (tp_tasks p) (tp_running p) (tp_notify p) Returned (tp_accepted p)
    (tp_started p) (tp_done p).

Definition PendingTasks p : nat := length (tp_tasks p).
Definition WorkerCount p : nat := length (tp_workers p).

(** the steps that the pool itself makes *)
Inductive progress : relation (ThreadPool T) :=
| progress_notify_one p i :
    (0 < tp_notify p)%nat → tp_workers p !! i = Some Blocked → progress p (notified i p)
| progress_notify_none p :
    (0 < tp_notify p)%nat → Blocked ∉ tp_workers p → progress p (nobody_notified p)
| progress_turn p i : tp_workers p !! i = Some Ready → progress p (worker_turn i p)
| progress_returns p i t : tp_workers p !! i = Some (Running t) → progress p (task_returns i t p)
| progress_notify_all p : tp_shutdown p = NotifyAll → progress p (notify_all p)
| progress_joined p :
    tp_shutdown p = JoinAll → Forall (λ w, w = Exited) (tp_workers p) → progress p (joined p).

(** and those of its clients, and a worker that wakes for no reason *)
Inductive step : relation (ThreadPool T) :=
| step_progress p p' : progress p p' → step p p'
| step_Submit p t : step p (Submit t p).2
| step_Shutdown p : step p (Shutdown p)
| step_spurious p i : tp_workers p !! i = Some Blocked → step p (set_worker i Ready p).

Definition reachable (n : nat) p : Prop := rtc step (new_ThreadPool n) p.

(** ** The invariant *)

(** the tasks that workers are running *)
Definition running_tasks (l : list (worker T)) : list T :=
  omap (λ w, match w with Running t => Some t | _ => None end) l.

Definition awake (w : worker T) : Prop :=
  match w with Ready | Running _ => True | _ => False end.

Record pool_ok (n : nat) p : Prop := {
  ok_workers : length (tp_workers p) = n;
  (* tasks are started in the order in which they came, and none is lost *)
  ok_order : tp_started p ++ tp_tasks p = tp_accepted p;
  ok_started : tp_started p ≡ₚ tp_done p ++ running_tasks (tp_workers p);
  ok_shutdown : tp_running p = false ↔ tp_shutdown p ≠ NotCalled;
  (* a worker leaves only when nothing is left to do *)
  ok_exited : Exited ∈ tp_workers p → tp_running p = false ∧ tp_tasks p = [];
  (* if there is a task, someone will take it *)
  ok_wakeup : (0 < n)%nat → tp_tasks p ≠ [] → (0 < tp_notify p)%nat ∨ Exists awake (tp_workers p);
  (* after [notify_all], no worker waits *)
  ok_awake : tp_shutdown p = JoinAll ∨ tp_shutdown p = Returned → Blocked ∉ tp_workers p;
  ok_joined : tp_shutdown p = Returned → Forall (λ w, w = Exited) (tp_workers p);
}.

(** ** The invariant holds *)

Lemma running_insert l i (w w' : worker T) :
  l !! i = Some w →
  running_tasks (<[i := w']> l) ++ running_tasks [w] ≡ₚ running_tasks l ++ running_tasks [w'].
Proof.
  intros Hl. rewrite <- (take_drop_middle l i w Hl) at 2. rewrite insert_take_drop by (by eapply lookup_lt_Some).
  unfold running_tasks. rewrite !omap_app. cbn.
  destruct w, w'; cbn; rewrite ?app_nil_r; solve_Permutation.
Qed.

Lemma running_wake l : running_tasks (wake <$> l) = running_tasks l.
Proof.
  unfold running_tasks. induction l as [|w l IH]; [done|]. rewrite fmap_cons.
  destruct w; cbn; by rewrite IH.
Qed.

Lemma elem_of_insert_inv {A} (l : list A) i x y : x ∈ <[i := y]> l → x = y ∨ x ∈ l.
Proof.
  intros (j & Hj)%list_elem_of_lookup. destruct (decide (i = j)) as [<-|Hij].
  - left. apply list_lookup_insert_Some in Hj. naive_solver.
  - right. rewrite list_lookup_insert_ne in Hj by done. by eapply list_elem_of_lookup_2.
Qed.

Lemma exists_insert {A} (P : A → Prop) l i x : (i < length l)%nat → P x → Exists P (<[i := x]> l).
Proof. intros Hi Hx. apply Exists_exists. exists x. split; [|done]. by apply list_elem_of_insert. Qed.

Lemma exited_forall (l : list (worker T)) i w :
  l !! i = Some w → w ≠ Exited → ¬ Forall (λ w, w = Exited) l.
Proof. intros Hi Hw Hall. by apply (Forall_lookup_1 _ _ _ _ Hall) in Hi. Qed.

Lemma new_pool_ok n : pool_ok n (new_ThreadPool n).
Proof.
  split; cbn; try done.
  - by rewrite length_replicate.
  - induction n as [|n IH]; [done|]. exact IH.
  - intros He%elem_of_replicate. naive_solver.
  - intros [|]; done.
Qed.

Lemma turn_ok n i p : tp_workers p !! i = Some Ready → pool_ok n p → pool_ok n (worker_turn i p).
Proof.
  intros Hi [H1 H2 H3 H4 H5 H6 H7 H8]. pose proof (lookup_lt_Some _ _ _ Hi) as Hlt. unfold worker_turn.
  pose proof (λ w, running_insert _ _ _ w Hi) as Hr. cbn in Hr.
  assert (¬ Forall (λ w, w = Exited) (tp_workers p)) as Hno by (by eapply exited_forall).
  destruct (tp_tasks p) as [|t tasks] eqn:Et.
  - split; cbn; rewrite ?length_insert, ?Et; try done.
    + specialize (Hr (if tp_running p then Blocked else Exited)).
      destruct (tp_running p); cbn in Hr; rewrite !app_nil_r in Hr; by rewrite Hr.
    + intros [He|He]%elem_of_insert_inv; [by destruct (tp_running p)|]. split; [by apply H5|done].
    + intros Hs. assert (tp_running p = false) as -> by (by apply H4; destruct Hs as [-> | ->]).
      intros [|?]%elem_of_insert_inv; [done|]. by apply H7.
    + intros Hs. by destruct (Hno (H8 Hs)).
  - split; cbn; rewrite ?length_insert; try done.
    + by rewrite <- (assoc_L (++)).
    + specialize (Hr (Running t)). rewrite app_nil_r in Hr. rewrite Hr, H3. solve_Permutation.
    + intros [|He]%elem_of_insert_inv; [done|]. by destruct (H5 He) as [_ [=]].
    + intros _ _. right. by apply exists_insert.
    + intros Hs [|?]%elem_of_insert_inv; [done|]. by apply H7.
    + intros Hs. by destruct (Hno (H8 Hs)).
Qed.

(** a worker that is woken, or whose task returned *)
Lemma ready_ok n i w p :
  tp_workers p !! i = Some w → w ≠ Exited → running_tasks [w] = [] → pool_ok n p →
  pool_ok n (set_worker i Ready p).
Proof.
  intros Hi Hw Hw' [H1 H2 H3 H4 H5 H6 H7 H8]. pose proof (lookup_lt_Some _ _ _ Hi) as Hlt.
  pose proof (running_insert _ _ _ Ready Hi) as Hr. rewrite Hw', !app_nil_r in Hr.
  split; cbn; rewrite ?length_insert, ?Hr; try done.
  - intros [|?]%elem_of_insert_inv; [done|auto].
  - intros _ _. right. by apply exists_insert.
  - intros Hs [|?]%elem_of_insert_inv; [done|]. by apply H7.
  - intros Hs. by edestruct exited_forall; [| |apply H8].
Qed.

Lemma returns_ok n i t p :
  tp_workers p !! i = Some (Running t) → pool_ok n p → pool_ok n (task_returns i t p).
Proof.
  intros Hi [H1 H2 H3 H4 H5 H6 H7 H8]. pose proof (lookup_lt_Some _ _ _ Hi) as Hlt.
  pose proof (running_insert _ _ _ Ready Hi) as Hr. cbn in Hr. rewrite app_nil_r in Hr.
  split; cbn; rewrite ?length_insert; try done.
  - rewrite H3, <- Hr. solve_Permutation.
  - intros [|?]%elem_of_insert_inv; [done|auto].
  - intros _ _. right. by apply exists_insert.
  - intros Hs [|?]%elem_of_insert_inv; [done|]. by apply H7.
  - intros Hs. by edestruct exited_forall; [| |apply H8].
Qed.

(** the pending call of [notify_one] may be forgotten once it has done its
    work *)
Lemma forget_notify_ok n p :
  ((0 < n)%nat → tp_tasks p ≠ [] → Exists awake (tp_workers p)) → pool_ok n p →
  pool_ok n (nobody_notified p).
Proof. intros Hw [H1 H2 H3 H4 H5 H6 H7 H8]. split; cbn; try done. intros Hn Ht. right. by apply Hw. Qed.

Lemma awake_or_idle (l : list (worker T)) :
  l ≠ [] → Blocked ∉ l → Exited ∉ l → Exists awake l.
Proof.
  destruct l as [|w l]; [done|]. intros _ Hb He. left.
  destruct w; cbn; set_solver.
Qed.

Lemma elem_of_wake (w : worker T) (l : list (worker T)) : w ∈ wake <$> l → w ≠ Ready → w ∈ l.
Proof. intros (w' & -> & Hw')%list_elem_of_fmap. by destruct w'. Qed.
Lemma wake_not_blocked (l : list (worker T)) : @Blocked T ∉ wake <$> l.
Proof. intros (w' & Hw & _)%list_elem_of_fmap. by destruct w'. Qed.
Lemma awake_wake (l : list (worker T)) : Exists awake l → Exists awake (wake (T := T) <$> l).
Proof. intros Hl. apply Exists_fmap. eapply Exists_impl; [exact Hl|]. by intros []. Qed.

Lemma progress_ok n p p' : progress p p' → pool_ok n p → pool_ok n p'.
Proof.
  intros [q i Hq Hi|q Hq Hb|q i Hi|q i t Hi|q Hs|q Hs Hall] Hok; clear p p'; pose proof Hok as [H1 H2 H3 H4 H5 H6 H7 H8].
  - apply (forget_notify_ok n (set_worker i Ready q)); [|by eapply ready_ok].
    intros _ _. apply exists_insert; [by eapply lookup_lt_Some|done].
  - apply forget_notify_ok; [|done]. intros Hn Ht. apply awake_or_idle; [|done|].
    + intros E. rewrite E in H1. cbn in H1. lia.
    + intros He. by destruct (H5 He).
  - by apply turn_ok.
  - by apply returns_ok.
  - split; cbn; try done.
    + by rewrite length_fmap.
    + by rewrite running_wake.
    + rewrite H4, Hs. naive_solver.
    + intros He. apply H5. by apply elem_of_wake.
    + intros Hn Ht. destruct (H6 Hn Ht); [by left|right]. by apply awake_wake.
    + intros _. apply wake_not_blocked.
  - split; cbn; try done.
    + rewrite H4, Hs. naive_solver.
    + intros _. apply H7. by left.
Qed.

Lemma submit_ok n t p : pool_ok n p → pool_ok n (Submit t p).2.
Proof.
  intros Hok. pose proof Hok as [H1 H2 H3 H4 H5 H6 H7 H8]. unfold Submit.
  destruct (tp_running p) eqn:Er; [|done]. cbn. split; cbn; try done.
  - by rewrite (assoc_L (++)), H2.
  - intros He. by destruct (H5 He).
  - left. lia.
Qed.

Lemma shutdown_ok n p : pool_ok n p → pool_ok n (Shutdown p).
Proof.
  intros Hok. pose proof Hok as [H1 H2 H3 H4 H5 H6 H7 H8]. unfold Shutdown.
  destruct (tp_running p) eqn:Er; [|done]. split; cbn; try done.
  - intros He. split; [done|]. by apply H5.
  - by intros [|].
Qed.

Lemma reachable_ok n p : reachable n p → pool_ok n p.
Proof.
  unfold reachable. generalize (new_pool_ok n). generalize (new_ThreadPool n).
  intros q Hq Hr. induction Hr as [|q1 q2 q3 Hs _ IH]; [done|]. apply IH. destruct Hs.
  - by eapply progress_ok.
  - by apply submit_ok.
  - by apply shutdown_ok.
  - by eapply ready_ok.
Qed.

(** ** Shutting down ends *)

Definition weight (w : worker T) : nat :=
  match w with Ready => 1 | Blocked => 2 | Running _ => 2 | Exited => 0 end.
Definition phase (s : shutdown) : nat :=
  match s with NotCalled => 3 | NotifyAll => 2 | JoinAll => 1 | Returned => 0 end.
Definition effort p : nat :=
  (2 * length (tp_tasks p) + sum_list_with weight (tp_workers p) + tp_notify p + phase (tp_shutdown p))%nat.

Lemma weight_insert (l : list (worker T)) i w w' :
  l !! i = Some w →
  (sum_list_with weight (<[i := w']> l) + weight w = sum_list_with weight l + weight w')%nat.
Proof.
  intros Hl. rewrite <- (take_drop_middle l i w Hl) at 2.
  rewrite insert_take_drop by (by eapply lookup_lt_Some). rewrite !sum_list_with_app. cbn. lia.
Qed.

Lemma weight_wake (l : list (worker T)) : (sum_list_with weight (wake <$> l) ≤ sum_list_with weight l)%nat.
Proof. induction l as [|[] l IH]; cbn in *; lia. Qed.

Lemma progress_effort p p' :
  progress p p' → tp_running p = false → tp_running p' = false ∧ (effort p' < effort p)%nat.
Proof.
  intros [q i Hq Hi|q Hq Hb|q i Hi|q i t Hi|q Hs|q Hs Hall] Hr; clear p p'; unfold effort.
  - pose proof (weight_insert _ _ _ Ready Hi). cbn in *. split; [done|]. lia.
  - cbn. split; [done|]. lia.
  - unfold worker_turn. rewrite Hr. destruct (tp_tasks q) as [|t tasks] eqn:Et.
    + pose proof (weight_insert _ _ _ Exited Hi). cbn in *. rewrite Et. split; [done|]. cbn. lia.
    + pose proof (weight_insert _ _ _ (Running t) Hi). cbn in *. split; [done|]. lia.
  - pose proof (weight_insert _ _ _ Ready Hi). cbn in *. split; [done|]. lia.
  - pose proof (weight_wake (tp_workers q)). cbn in *. rewrite Hs. split; [done|]. cbn. lia.
  - cbn. rewrite Hs. split; [done|]. cbn. lia.
Qed.

Lemma exited_or_not (l : list (worker T)) :
  Forall (λ w, w = Exited) l ∨ ∃ i w, l !! i = Some w ∧ w ≠ Exited.
Proof.
  induction l as [|w l [IH|(i & w' & Hi & Hw)]]; [by left|..].
  - destruct w; [right; by exists 0%nat, Ready|right; by exists 0%nat, Blocked
      |right; by exists 0%nat, (Running t)|left; by constructor].
  - right. by exists (S i), w'.
Qed.

Lemma progress_accepted p p' : progress p p' → tp_accepted p' = tp_accepted p.
Proof. intros [q i ? ?|q ? ?|q i ?|q i t ?|q ?|q ? ?]; try done. unfold worker_turn. by destruct (tp_tasks q). Qed.

Lemma progress_ends p : tp_running p = false → Acc (flip progress) p.
Proof.
  induction p as [p IH] using (induction_ltof1 _ effort). intros Hr. constructor. intros p' Hp.
  destruct (progress_effort _ _ Hp Hr). by apply IH.
Qed.

(** the only way for the pool to stop is that [Shutdown] has returned *)
Lemma not_stuck n p :
  pool_ok n p → tp_running p = false → tp_shutdown p ≠ Returned → ∃ p', progress p p'.
Proof.
  intros Hok Hr Hs. apply (ok_shutdown _ _ Hok) in Hr. destruct (tp_shutdown p) eqn:Es; [done| | |done].
  - eexists. by apply progress_notify_all.
  - destruct (exited_or_not (tp_workers p)) as [|(i & w & Hi & Hw)].
    + eexists. by apply progress_joined.
    + destruct w as [| |t|]; [| | |done].
      * eexists. by eapply progress_turn.
      * destruct (ok_awake _ _ Hok); [by left|]. by eapply list_elem_of_lookup_2.
      * eexists. by eapply progress_returns.
Qed.

Lemma all_exited_idle (l : list (worker T)) :
  Forall (λ w, w = Exited) l → running_tasks l = [].
Proof. induction 1 as [|w l -> _ IH]; [done|]. exact IH. Qed.

(** and then the workers have done everything *)
Lemma returned_done n p :
  (0 < n)%nat → pool_ok n p → tp_shutdown p = Returned → tp_tasks p = [] ∧ tp_done p ≡ₚ tp_accepted p.
Proof.
  intros Hn [H1 H2 H3 H4 H5 H6 H7 H8] Hs. specialize (H8 Hs).
  assert (tp_tasks p = []) as Et.
  { apply H5. destruct (tp_workers p) as [|w l] eqn:Ew; [cbn in *; lia|].
    apply Forall_cons in H8 as [-> _]. left. }
  split; [done|]. rewrite <- H2, Et, app_nil_r, H3, (all_exited_idle _ H8). by rewrite app_nil_r.
Qed.
End pool.

(** C22: Tasks are run once and in order. Whatever the threads of a pool do and
    however they take turns: the tasks the workers have taken are the first of
    those that [Submit] accepted, in the order of submission, and the rest is
    in the queue; every task taken was run once or is being run; and when
    tasks are queued in a pool with workers, one of the workers is awake or is
    going to be notified. *)
Theorem pool_fifo {T} n (p : ThreadPool T) :
  reachable n p →
  tp_accepted p = tp_started p ++ tp_tasks p ∧
  tp_started p ≡ₚ tp_done p ++ running_tasks (tp_workers p) ∧
  ((0 < n)%nat → tp_tasks p ≠ [] → (0 < tp_notify p)%nat ∨ Exists awake (tp_workers p)).
Proof. intros [H1 H2 H3 H4 H5 H6 H7 H8]%reachable_ok. by split_and!. Qed.

(** C10: [Shutdown] waits for every accepted task and returns. Once it has been
    called, the threads of the pool cannot go on for ever; they stop only when
    [Shutdown] has returned; and then the queue is empty, every task that was
    accepted has been run exactly once, and [Submit] refuses another. *)
Theorem shutdown_completes {T} n (p : ThreadPool T) :
  reachable n p → (0 < n)%nat → tp_running p = false →
  Acc (flip progress) p ∧
  (∀ p', rtc progress p p' → (∀ p'', ¬ progress p' p'') →
     tp_shutdown p' = Returned ∧ tp_tasks p' = [] ∧ tp_done p' ≡ₚ tp_accepted p ∧
     ∀ t, (Submit t p').1 = false).
Proof.
  intros Hok%reachable_ok Hn Hr. split.
  - by apply progress_ends.
  - intros p' Hp Hend.
    assert (pool_ok n p' ∧ tp_running p' = false ∧ tp_accepted p' = tp_accepted p) as (Hok' & Hr' & Ha).
    { clear Hend. induction Hp as [|p1 p2 p3 Hp1 _ IH]; [done|].
      destruct IH as (? & ? & ->); [by eapply progress_ok|by eapply progress_effort|].
      split_and!; [done..|by apply progress_accepted]. }
    assert (tp_shutdown p' = Returned) as Hs.
    { destruct (decide (tp_shutdown p' = Returned)) as [|Hs]; [done|].
      by destruct (not_stuck _ _ Hok' Hr' Hs) as [p'' ?%Hend]. }
    destruct (returned_done _ _ Hn Hok' Hs) as [Ht Hd]. rewrite Ha in Hd.
    split_and!; [done..|]. intros t. unfold Submit. by rewrite Hr'.
Qed.

(** ** The pool of HPGateway *)
Module HP.

(** [class Thread]: what [started_] and [joined_] say, and the thread *)
Record Thread : Type := mkThread {
  th_started : bool;
  th_joined : bool;
  th_name : string;
}.

(** the constructor: a thread without a name gets one from the counter *)
Definition new_Thread (numCreated : Z) (name : string) : Thread * Z :=
  match name with
  | EmptyString =>
      let num := i32 (numCreated + 1) in
      (mkThread false false ("Thread" ++ pretty num)%string, num)
  | _ => (mkThread false false name, numCreated)
  end.

Definition Thread_Start (t : Thread) : outcome Thread :=
  if th_started t then Fail AssertFailed else Ok (mkThread true (th_joined t) (th_name t)).

Definition Thread_Join (t : Thread) : outcome Thread :=
  if negb (th_started t) then Fail AssertFailed
  else if th_joined t then Fail AssertFailed
  else Ok (mkThread (th_started t) true (th_name t)).

(** the destructor: whether the thread is detached *)
Definition Thread_detaches (t : Thread) : bool := th_started t && negb (th_joined t).

(** what a thread in [RunInThread] is about to do *)
Inductive runner (T : Type) : Type :=
| Top                (* read [running_] *)
| Take               (* take the mutex *)
| Wait               (* in [cond_.wait], until it is notified *)
| Run_ (t : T)
| Gone.
Arguments Top {T}. Arguments Take {T}. Arguments Wait {T}. Arguments Run_ {T}. Arguments Gone {T}.

(** [class ThreadPool]: [hp_threads] with what they do, and how many of them
    were joined. [hp_accepted] are the tasks given to [Run], [hp_begun] those that
    were taken from the queue, or run at once. *)
Record ThreadPool (T : Type) : Type := mkHP {
  hp_threads : list (runner T);
  hp_joined : nat;
  hp_queue : list T;
  hp_running : bool;
  hp_numThreads : nat;
  hp_accepted : list T;
  hp_begun : list T;
}.
Arguments mkHP {T}. Arguments hp_threads {T}. Arguments hp_joined {T}. Arguments hp_queue {T}.
Arguments hp_running {T}. Arguments hp_numThreads {T}. Arguments hp_accepted {T}.
Arguments hp_begun {T}.

Section pool.
Context {T : Type}.
Implicit Types (p : ThreadPool T) (t : T) (i : nat).

Definition new_ThreadPool : ThreadPool T := mkHP [] 0 [] false 0 [] [].

Definition SetThreadNum (n : nat) p : ThreadPool T :=
  mkHP (hp_threads p) (hp_joined p) (hp_queue p) (hp_running p) n (hp_accepted p) (hp_begun p).

Definition Start p : outcome (ThreadPool T) :=
  if hp_running p then Fail AssertFailed
  else Ok (mkHP (hp_threads p ++ replicate (hp_numThreads p) Top) (hp_joined p) (hp_queue p) true
             (hp_numThreads p) (hp_accepted p) (hp_begun p)).

Definition set_thread i w p : ThreadPool T :=
  mkHP (<[i := w]> (hp_threads p)) (hp_joined p) (hp_queue p) (hp_running p) (hp_numThreads p)
    (hp_accepted p) (hp_begun p).

Definition wake_up (w : runner T) : runner T := match w with Wait => Take | w => w end.

(** [Stop]: its block, and the joining of the threads, of which none may have
    been joined before *)
Definition Stop p : ThreadPool T :=
  mkHP (wake_up <$> hp_threads p) (hp_joined p) (hp_queue p) false (hp_numThreads p) (hp_accepted p)
    (hp_begun p).
Definition join_threads p : outcome (ThreadPool T) :=
  if (0 <? hp_joined p)%nat then Fail Exception
  else Ok (mkHP (hp_threads p) (length (hp_threads p)) (hp_queue p) (hp_running p) (hp_numThreads p) (hp_accepted p)
             (hp_begun p)).

(** [Run]: without threads the task is run at once. [notify] is the thread
    that [notify_one] wakes, if one waits. *)
Definition Run (notify : option nat) t p : ThreadPool T :=
  match hp_threads p with
  | [] => mkHP [] (hp_joined p) (hp_queue p) (hp_running p) (hp_numThreads p) (hp_accepted p ++ [t])
            (hp_begun p ++ [t])
  | threads =>
      let p := mkHP threads (hp_joined p) (hp_queue p ++ [t]) (hp_running p) (hp_numThreads p)
                 (hp_accepted p ++ [t]) (hp_begun p) in
      match notify with Some i => set_thread i Take p | None => p end
  end.

(** [RunInThread] at the top of its loop *)
Definition thread_top i p : ThreadPool T := set_thread i (if hp_running p then Take else Gone) p.

(** [Take], holding the mutex; without a task the thread goes on with its
    loop *)
Definition thread_take i p : ThreadPool T :=
  match hp_queue p with
  | [] => set_thread i (if hp_running p then Wait else Top) p
  | t :: queue =>
      mkHP (<[i := Run_ t]> (hp_threads p)) (hp_joined p) queue (hp_running p) (hp_numThreads p)
        (hp_accepted p) (hp_begun p ++ [t])
  end.

Definition QueueSize p : nat := length (hp_queue p).

(** [business/WorkerPool] forwards to the pool it owns *)
Definition WorkerPool_SetThreadNum (numThreads : nat) p : ThreadPool T := SetThreadNum numThreads p.
Definition WorkerPool_Start p : outcome (ThreadPool T) := Start p.
Definition WorkerPool_Stop p : ThreadPool T := Stop p.
Definition WorkerPool_Submit (notify : option nat) task p : ThreadPool T := Run notify task p.
Definition WorkerPool_QueueSize p : nat := QueueSize p.

(** the steps of the threads and of those that use the pool, but for starting
    it *)
Inductive step : relation (ThreadPool T) :=
| step_top p i : hp_threads p !! i = Some Top → step p (thread_top i p)
| step_take p i : hp_threads p !! i = Some Take → step p (thread_take i p)
| step_done p i t : hp_threads p !! i = Some (Run_ t) → step p (set_thread i Top p)
| step_spurious p i : hp_threads p !! i = Some Wait → step p (set_thread i Take p)
| step_Run p t : Wait ∉ hp_threads p → step p (Run None t p)
| step_Run_notify p i t : hp_threads p !! i = Some Wait → step p (Run (Some i) t p)
| step_Stop p : step p (Stop p)
| step_join p p' :
    hp_running p = false → Forall (λ w, w = Gone) (hp_threads p) → join_threads p = Ok p' → step p p'.

(** a pool that was started with [n] threads *)
Inductive reachable (n : nat) p : Prop :=
| reachable_started p0 : Start (SetThreadNum n new_ThreadPool) = Ok p0 → rtc step p0 p → reachable n p.

(** the queue is what was accepted and not taken *)
Definition pool_ok p : Prop :=
  hp_accepted p = hp_begun p ++ hp_queue p ∧ (hp_threads p = [] → hp_queue p = []).

Lemma insert_not_nil {A} (l : list A) i x : <[i := x]> l = [] → l = [].
Proof. intros E. apply length_zero_iff_nil. rewrite <- (length_insert l i x), E. done. Qed.

Lemma step_ok p p' : step p p' → pool_ok p → pool_ok p'.
Proof.
  unfold pool_ok. intros [q i Hi|q i Hi|q i t Hi|q i Hi|q t Hw|q i t Hi|q|q q' Hr Hall Hj] [Ha Hq]; cbn in *.
  - split; [done|]. intros ?%insert_not_nil. auto.
  - unfold thread_take. destruct (hp_queue q) as [|t queue] eqn:Eq; cbn.
    + by rewrite Eq.
    + split; [by rewrite <- (assoc_L (++))|]. by intros ?%insert_not_nil%Hq.
  - split; [done|]. intros ?%insert_not_nil. auto.
  - split; [done|]. intros ?%insert_not_nil. auto.
  - unfold Run. destruct (hp_threads q) eqn:Eth; cbn.
    + by rewrite Ha, Hq, !app_nil_r.
    + by rewrite Ha, <- (assoc_L (++)).
  - unfold Run. destruct (hp_threads q) as [|w l] eqn:Eth; [done|]. cbn. rewrite Ha, <- (assoc_L (++)).
    split; [done|]. by intros [=]%insert_not_nil.
  - split; [done|]. by intros ?%fmap_nil_inv%Hq.
  - unfold join_threads in Hj. destruct (0 <? _)%nat; [done|]. injection Hj as <-. by split.
Qed.

Lemma steps_ok p p' : rtc step p p' → pool_ok p → pool_ok p'.
Proof. induction 1; eauto using step_ok. Qed.

Lemma hp_reachable_ok n p : reachable n p → pool_ok p.
Proof. intros [p0 Hs Hr]. injection Hs as <-. by apply (steps_ok _ _ Hr). Qed.

Lemma step_threads p p' :
  step p p' → length (hp_threads p') = length (hp_threads p).
Proof.
  intros [q i Hi|q i Hi|q i t Hi|q i Hi|q t Hw|q i t Hi|q|q q' Hr Hall Hj]; cbn;
    rewrite ?length_insert, ?length_fmap; try done.
  - unfold thread_take. by destruct (hp_queue q); cbn; rewrite length_insert.
  - unfold Run. by destruct (hp_threads q).
  - unfold Run. by destruct (hp_threads q); cbn; rewrite ?length_insert.
  - unfold join_threads in Hj. destruct (0 <? _)%nat; [done|]. by injection Hj as <-.
Qed.

Lemma steps_threads p p' : rtc step p p' → length (hp_threads p') = length (hp_threads p).
Proof. induction 1 as [|p1 p2 p3 Hp _ IH]; [done|]. by rewrite IH, (step_threads p1 p2). Qed.

Lemma reachable_threads n p : reachable n p → (0 < n)%nat → hp_threads p ≠ [].
Proof.
  intros [p0 Hs Hr] Hn. injection Hs as <-. apply steps_threads in Hr. cbn in Hr.
  rewrite length_replicate in Hr. intros E. rewrite E in Hr. cbn in Hr. lia.
Qed.

(** ** What stopping leaves *)

(** threads that may still take a task once the pool is stopped *)
Definition may_take (w : runner T) : nat := match w with Take | Wait => 1 | _ => 0 end.
Definition takers p : nat := sum_list_with may_take (hp_threads p).

Lemma takers_insert (l : list (runner T)) i w w' :
  l !! i = Some w →
  (sum_list_with may_take (<[i := w']> l) + may_take w = sum_list_with may_take l + may_take w')%nat.
Proof.
  intros Hl. rewrite <- (take_drop_middle l i w Hl) at 2.
  rewrite insert_take_drop by (by eapply lookup_lt_Some). rewrite !sum_list_with_app. cbn. lia.
Qed.
Lemma takers_wake (l : list (runner T)) :
  sum_list_with may_take (wake_up <$> l) = sum_list_with may_take l.
Proof. induction l as [|[] l IH]; cbn in *; congruence. Qed.
Lemma takers_le (l : list (runner T)) : (sum_list_with may_take l ≤ length l)%nat.
Proof. induction l as [|[] l IH]; cbn in *; lia. Qed.

#[local] Ltac stopped_tac :=
  split_and!; [done|done|cbn; lia|first [reflexivity|by apply prefix_app_r]].

Lemma stopped_step p p' :
  step p p' → hp_threads p ≠ [] → hp_running p = false →
  hp_running p' = false ∧ length (hp_threads p') = length (hp_threads p) ∧
  (length (hp_begun p') + takers p' ≤ length (hp_begun p) + takers p)%nat ∧
  hp_accepted p `prefix_of` hp_accepted p'.
Proof.
  unfold takers. intros [q i Hi|q i Hi|q i t Hi|q i Hi|q t Hw|q i t Hi|q|q q' Hrun Hall Hj] Hth Hr; cbn in *.
  - unfold thread_top. pose proof (takers_insert _ _ _ Gone Hi). rewrite Hr. cbn in *.
    rewrite length_insert. stopped_tac.
  - unfold thread_take. rewrite Hr. destruct (hp_queue q) as [|t queue]; cbn.
    + pose proof (takers_insert _ _ _ Top Hi). cbn in *. rewrite length_insert.
      stopped_tac.
    + pose proof (takers_insert _ _ _ (Run_ t) Hi). cbn in *. rewrite length_insert, length_app. cbn.
      stopped_tac.
  - pose proof (takers_insert _ _ _ Top Hi). cbn in *. rewrite length_insert.
    stopped_tac.
  - pose proof (takers_insert _ _ _ Take Hi). cbn in *. rewrite length_insert.
    stopped_tac.
  - unfold Run. destruct (hp_threads q) eqn:Eth; [done|]. cbn. stopped_tac.
  - unfold Run. destruct (hp_threads q) eqn:Eth; [done|]. rewrite <- Eth in *.
    pose proof (takers_insert _ _ _ Take Hi). cbn in *. rewrite length_insert.
    stopped_tac.
  - rewrite length_fmap, takers_wake. stopped_tac.
  - unfold join_threads in Hj. destruct (0 <? _)%nat; [done|]. injection Hj as <-. stopped_tac.
Qed.

Lemma stopped_steps p p' :
  rtc step p p' → hp_threads p ≠ [] → hp_running p = false →
  (length (hp_begun p') + takers p' ≤ length (hp_begun p) + takers p)%nat ∧
  hp_accepted p `prefix_of` hp_accepted p'.
Proof.
  intros Hp. induction Hp as [|p1 p2 p3 Hp _ IH]; [by split|]. intros Hth Hr.
  destruct (stopped_step _ _ Hp Hth Hr) as (Hr' & Hl & Hle & Ha). destruct IH as [Hle' Ha']; [|done|].
  { intros E. rewrite E in Hl. by destruct (hp_threads p1). }
  split; [lia|by etrans].
Qed.
End pool.
End HP.

(** C40: Stopping the pool of HPGateway drops the tasks in its queue. Once
    [Stop] has been called, every thread takes one more task at most; so, of a
    queue longer than the number of threads, the rest is never run, whatever
    happens until and after [Stop] returns, and neither is a task that is
    submitted later. *)
Theorem stop_abandons {T} n (p p' : HP.ThreadPool T) :
  HP.reachable n p → (0 < n)%nat → HP.hp_running p = false → rtc HP.step p p' →
  ∃ more, HP.hp_accepted p' = HP.hp_accepted p ++ more ∧
  (length (HP.hp_queue p) + length more ≤ length (HP.hp_queue p') + length (HP.hp_threads p))%nat.
Proof.
  intros Hreach Hn Hr Hp.
  destruct (HP.hp_reachable_ok _ _ Hreach) as [Ha _].
  destruct (HP.hp_reachable_ok n p') as [Ha' _]; [destruct Hreach as [p0 ? ?]; by exists p0; [|etrans]|].
  assert (HP.hp_threads p ≠ []) as Hth by (by eapply HP.reachable_threads).
  destruct (HP.stopped_steps _ _ Hp Hth Hr) as [Hle [more Hm]]. exists more. split; [done|].
  apply (f_equal length) in Ha, Ha', Hm. rewrite !length_app in *.
  pose proof (HP.takers_le (HP.hp_threads p)). unfold HP.takers in *. lia.
Qed.

(** ** Witnesses *)

(** a pool of one worker, with two tasks, of which it runs the first *)
Definition demo_pool : ThreadPool Z :=
  worker_turn 0 (Submit 8 (Submit 7 (new_ThreadPool 1)).2).2.
Lemma demo_pool_reachable : reachable 1 demo_pool.
Proof.
  eapply rtc_l; [apply (step_Submit _ 7)|]. eapply rtc_l; [apply (step_Submit _ 8)|].
  eapply rtc_l; [by eapply step_progress, (progress_turn _ 0)|]. apply rtc_refl.
Qed.

(** it is shut down, and goes on until that is done *)
Definition demo_returned : ThreadPool Z :=
  joined (worker_turn 0 (task_returns 0 8 (worker_turn 0 (task_returns 0 7 (notify_all
    (nobody_notified (nobody_notified (Shutdown demo_pool)))))))).

Lemma demo_progress : rtc progress (Shutdown demo_pool) demo_returned.
Proof.
  eapply rtc_l; [apply progress_notify_none; [cbn; lia|set_solver]|].
  eapply rtc_l; [apply progress_notify_none; [cbn; lia|set_solver]|].
  eapply rtc_l; [by apply progress_notify_all|].
  eapply rtc_l; [by apply (progress_returns _ 0 7)|]. eapply rtc_l; [by apply (progress_turn _ 0)|].
  eapply rtc_l; [by apply (progress_returns _ 0 8)|]. eapply rtc_l; [by apply (progress_turn _ 0)|].
  eapply rtc_l; [|apply rtc_refl]. apply progress_joined; [done|]. by repeat constructor.
Qed.

Lemma demo_stuck p : ¬ progress demo_returned p.
Proof.
  intros Hp. inversion Hp as [q i Hq|q Hq|q i Hi|q i t Hi|q Hs|q Hs]; subst; cbn in *;
    try lia; try done; by destruct i.
Qed.

Lemma pool_fifo_witness : tp_accepted demo_pool = [7] ++ [8] ∧ tp_tasks demo_pool = [8].
Proof.
  destruct (pool_fifo 1 demo_pool demo_pool_reachable) as (H & _). split; [exact H|reflexivity].
Defined.

Lemma shutdown_completes_witness :
  tp_shutdown demo_returned = Returned ∧ tp_done demo_returned ≡ₚ [7; 8].
Proof.
  destruct (shutdown_completes 1 (Shutdown demo_pool)) as [_ H];
    [eapply rtc_r; [apply demo_pool_reachable|apply step_Shutdown]|lia|reflexivity|].
  destruct (H demo_returned demo_progress demo_stuck) as (H1 & _ & H2 & _).
  split; [exact H1|exact H2].
Defined.

(** a pool of one thread of HPGateway, about to take the first of three tasks
    when it is stopped, and after [Stop] has returned *)
Definition demo_stopped : HP.ThreadPool Z :=
  HP.Stop (HP.thread_top 0 (HP.Run None 3 (HP.Run None 2 (HP.Run None 1
    (HP.mkHP [HP.Top] 0 [] true 1 [] []))))).
Definition demo_left : HP.ThreadPool Z :=
  HP.thread_top 0 (HP.set_thread 0 HP.Top (HP.thread_take 0 demo_stopped)).
Definition demo_joined : HP.ThreadPool Z :=
  match HP.join_threads demo_left with Ok p => p | Fail _ => demo_left end.

Lemma demo_stopped_reachable : HP.reachable 1 demo_stopped.
Proof.
  apply (HP.reachable_started _ _ (HP.mkHP [HP.Top] 0 [] true 1 [] [])); [done|].
  do 3 (eapply rtc_l; [apply HP.step_Run; cbn; set_solver|]).
  eapply rtc_l; [by apply (HP.step_top _ 0)|]. eapply rtc_l; [apply HP.step_Stop|]. apply rtc_refl.
Qed.

Lemma demo_joined_steps : rtc HP.step demo_stopped demo_joined.
Proof.
  eapply rtc_l; [by apply (HP.step_take _ 0)|]. eapply rtc_l; [by apply (HP.step_done _ 0 1)|].
  eapply rtc_l; [by apply (HP.step_top _ 0)|].
  eapply rtc_l; [|apply rtc_refl]. apply (HP.step_join demo_left); [done|by repeat constructor|done].
Qed.

Lemma stop_abandons_witness :
  HP.hp_queue demo_joined = [2; 3] ∧
  ∃ more, HP.hp_accepted demo_joined = HP.hp_accepted demo_stopped ++ more ∧
    (length (HP.hp_queue demo_stopped) + length more ≤ length (HP.hp_queue demo_joined) + 1)%nat.
Proof.
  split; [reflexivity|].
  destruct (stop_abandons 1 demo_stopped demo_joined demo_stopped_reachable) as (more & H1 & H2);
    [lia|reflexivity|apply demo_joined_steps|].
  exists more. split; [exact H1|exact H2].
Defined.
