(* ===== verification/Scenarios.v ===== *)
(** * The gateway on the concrete kernel

    The theorems about the gateway, applied to the process of [SimKernel]: one
    established connection, served by workers. *)
From S2P Require Import Prelude RingBuffer Protocol World Reactor Sockets Connection SimKernel.
From S2P Require Import Server Gateway Registry GatewayFacts.
From S2P Require Import Structs GatewayApi.

(** ** The registries *)

Lemma world0_registries window : registries (world0 window).
Proof.
  split; unfold view.
  - done.
  - intros c Hc. change (is_Some (conn_view <$> ({[ 2%nat := conn0 ]} : gmap loc _) !! c)) in Hc.
    destruct (decide (c = 2%nat)) as [->|]; [simpl; lia|].
    rewrite lookup_singleton_ne in Hc by done. by destruct Hc.
  - intros c id b Hc.
    change (conn_view <$> ({[ 2%nat := conn0 ]} : gmap loc _) !! c = Some (id, b)) in Hc.
    apply fmap_Some in Hc as (conn & [_ <-]%lookup_singleton_Some & [= -> _]). simpl. lia.
  - intros id c Hc. change (({[ 1 := 2%nat ]} : gmap Z loc) !! id = Some c) in Hc.
    by apply lookup_singleton_Some in Hc as [<- <-].
  - intros id c Hc.
    change (conn_view <$> ({[ 2%nat := conn0 ]} : gmap loc _) !! c = Some (id, true)) in Hc.
    apply fmap_Some in Hc as (conn & [<- <-]%lookup_singleton_Some & [= ->]). done.
  - intros id [x Hx]. change (({[ 1 := mkSession 1 "" false 0 999000 ]} : gmap Z _) !! id = Some x) in Hx.
    apply lookup_singleton_Some in Hx as [<- _]. by exists 2%nat.
  - intros id [x Hx]. change (({[ 1 := 999000 ]} : gmap Z Z) !! id = Some x) in Hx.
    by apply lookup_singleton_Some in Hx as [<- _].
Qed.

Lemma world0_live window : loops_live (world0 window).
Proof.
  intros c conn Hc. change (({[ 2%nat := conn0 ]} : gmap loc _) !! c = Some conn) in Hc.
  apply lookup_singleton_Some in Hc as [_ <-]. by exists loop0.
Qed.

Definition no_handlers : PacketDispatcher (World sim) := ∅.
Definition no_spi : Packet → Z → M (World sim) unit := λ _ _, mret tt.

(** the peer closes: the connection is unregistered, then destroyed *)
Definition close_events : list event :=
  [EvCallback (CbConnClose 2%nat) 0; EvFunctor (FConnectDestroyed 2%nat);
   EvDestroy (FConnectDestroyed 2%nat)].


(** ** The heartbeat timer *)

(** the client has been silent for a hundred seconds *)
Definition silent_world : World sim :=
  set_w_gs (set_gs_lastHeartbeats {[ 1 := 900000 ]} gs0) (world0 8).

Lemma silent_world_registries : registries silent_world.
Proof.
  destruct (world0_registries 8). split; try done.
  intros id [x Hx]. change (({[ 1 := 900000 ]} : gmap Z Z) !! id = Some x) in Hx.
  by apply lookup_singleton_Some in Hx as [<- _].
Qed.

Lemma heartbeat_closes_silent_witness :
  ∃ w', GatewayServer_OnHeartbeat 0 silent_world = Ok (tt, w') ∧
    w_sessions w' !! 1 = None ∧ closing 2%nat conn0 w'.
Proof.
  destruct (heartbeat_closes_silent silent_world 0 loop0 silent_world_registries (world0_live 8)
    eq_refl eq_refl) as (now & w1 & w' & Hnow & E & Hd).
  exists w'. split; [exact E|]. vm_compute in Hnow. injection Hnow as <- _.
  pose proof (dr_sessions _ _ _ Hd 1) as Hs. pose proof (dr_conns _ _ _ Hd 1 2%nat conn0 eq_refl eq_refl) as Hc.
  destruct (decide (silent silent_world 1000000 1)) as [_|n]; [done|].
  exfalso. apply n. vm_compute. reflexivity.
Defined.

(** ** Serving a client *)

Definition kernel_with_input (d : list byte) : sim := sim_set_input {[ 9 := [d] ]} (sim0 100).

Definition input_world (d : list byte) : World sim := set_w_kern (kernel_with_input d) (world0 100).

Lemma input_world_serving d : serving 2%nat 0%nat 1%nat 9 1024 1 [] [] (input_world d).
Proof.
  split; [|by vm_compute].
  apply (streams_quiet _ _ _ _ _ _ (world0 100)); [apply world0_streams|done].
Qed.


(** ** A connection handed to an IO thread *)

(** the loop of an IO thread, and the process seen from this thread *)
Definition io_loop : EventLoop :=
  mkEventLoop true false false false 1 78 0 (mkPoller 30 16 ∅) 31 6%nat [] None [] [].

Definition io_chan : Channel :=
  mkChannel 8%nat 9 0 0 (-1) false false (Some (CbConnRead 2%nat)) (Some (CbConnWrite 2%nat))
    (Some (CbConnClose 2%nat)) (Some (CbConnError 2%nat)).

Definition io_conn : TcpConnection :=
  mkTcpConnection 8%nat "GatewayServer-127.0.0.1:8001#1" kConnecting true 9 1%nat addr0 addr0 true
    false (64 * 1024 * 1024) (-1) (new_RingBuffer 1024) (new_RingBuffer 1024).

Definition io_world : World sim :=
  mkWorld (sim0 1) 78 10%nat {[ 77 := 0%nat; 78 := 8%nat ]} {[ 0%nat := loop0; 8%nat := io_loop ]}
    {[ 1%nat := io_chan ]} {[ 2%nat := io_conn ]} server0 (mkConnectionManager ∅ 1) ∅ gs0.

Lemma io_world_poller : poller_ok 8%nat io_world.
Proof.
  assert (Hl : ∀ lp, w_loops io_world !! 8%nat = Some lp → lp = io_loop).
  { intros lp E. change (({[ 0%nat := loop0; 8%nat := io_loop ]} : gmap loc _) !! 8%nat = Some lp) in E.
    by injection E as <-. }
  split.
  - by exists io_loop.
  - by intros fd c lp ->%Hl E.
  - intros c ch lp ->%Hl E.
    change (({[ 1%nat := io_chan ]} : gmap loc _) !! c = Some ch) in E.
    by apply lookup_singleton_Some in E as [<- <-].
  - by intros fd lp ->%Hl.
Qed.

Lemma io_thread_connection_aborts_witness :
  exec (FConnectEstablished 2%nat) io_world = Fail LogFatal.
Proof.
  apply (io_thread_connection_aborts 2%nat io_conn io_chan io_loop loop0 io_world);
    [reflexivity..|exact io_world_poller|reflexivity|reflexivity|discriminate].
Defined.

(** ** The API *)

(** the padding and the vector of a [Packet] in memory: 28 bytes *)
Definition vector_bytes (p : Packet) : list byte := zeros 28.

Definition some_login : LoginRequest :=
  mkLoginRequest (strncpy ACCOUNT_LEN 31 (bytes_of [116; 48; 49])) (zeros PASSWORD_LEN).
Definition some_order : OrderRequest :=
  mkOrderRequest (zeros SYMBOL_LEN) (zeros EXCHANGE_LEN) (zeros ORDER_ID_LEN) 0 0 0 10.

Lemma requests_ledger_witness :
  ∃ a' w', forM [(Login some_login, 1); (OrderInsert some_order, 2); (QueryOrder, 3);
                 (OrderInsert some_order, 1)] (run_request vector_bytes) (new_GatewayApiImpl, world0 1)
      = Ok (tt, (a', w')) ∧
    ledger_of a' = (4, {[ 1 := (3, 0x101); 2 := (2, 0x101) ]}).
Proof.
  destruct (requests_ledger vector_bytes
    [(Login some_login, 1); (OrderInsert some_order, 2); (QueryOrder, 3);
     (OrderInsert some_order, 1)] new_GatewayApiImpl (world0 1) ltac:(reflexivity || done))
    as (a' & w' & E & El & _).
  exists a', w'. split; [exact E|]. rewrite El. by vm_compute.
Defined.

Lemma login_reads_out_of_bounds_witness :
  ReqLogin vector_bytes some_login 7 (mkApi false true 1 1 ∅, world0 8) = Fail UndefinedBehaviour.
Proof.
  apply (login_reads_out_of_bounds vector_bytes some_login 7 (mkApi false true 1 1 ∅) (world0 8)
    2%nat conn0); try reflexivity. repeat constructor.
Defined.
