(* ===== verification/SafeLoop.v ===== *)
(** * The gateway with one thread is type safe

    What the loop runs, the end of connections with the last reference to
    them, the loop itself, and the start of the program, under the typing of
    [Typing]: from the first line of [main] on, no undefined behaviour is
    reached. *)
From S2P Require Import Prelude RingBuffer Protocol World Reactor Sockets Connection SimKernel.
From S2P Require Import Server Gateway Registry GatewayFacts Scenarios Typing Safety.

(** ** The loop *)

Section loops.
Context {K : Type} `{SafeLaws K} (l : loc).
Abbreviation W := (World K).
Implicit Types (c : loc) (w : W).
Context (dispatcher_ : PacketDispatcher W) (spi_OnMessage : Packet → Z → M W unit).
Context (Hdispatcher : ∀ cmd h p id w, dispatcher_ !! cmd = Some h → safe l (action (h p id)) w).
Context (Hspi : ∀ p id w, safe l (spi_OnMessage p id) w).

Local Abbreviation run_cb := (run_callback dispatcher_ spi_OnMessage).

Lemma typed_callback_live c c' w : tc_channel <$> w_conns w !! c' = Some c → live_conn c' w.
Proof. unfold live_conn. destruct (w_conns w !! c'); [eauto|done]. Qed.
Lemma safe_run_callback c cb t w :
  callback_typed l c w (Some cb) → safe l (run_cb cb t) w.
Proof.
  destruct cb; cbn [callback_typed run_callback].
  - intros ->. apply safe_HandleRead_wakeup.
  - intros _. apply safe_Acceptor_HandleRead.
  - intros _. apply safe_OnHeartbeat.
  - intros ?%typed_callback_live. by apply safe_HandleRead.
  - intros ?%typed_callback_live. by apply safe_HandleWrite.
  - intros ?%typed_callback_live. by apply safe_HandleClose.
  - intros ?%typed_callback_live. by apply safe_HandleError.
Qed.
Lemma safe_exec f w : functor_typed w f → safe l (exec f) w.
Proof.
  destruct f; cbn [functor_typed exec]; try done; intros Hc.
  - by apply safe_ForceCloseInLoop.
  - by apply safe_ConnectDestroyed.
Qed.


Lemma bind_chan {A} c (k : Channel → M W A) Q w :
  live_chan c w → (∀ ch, chan_typed l c ch w → safely l (k ch) Q w) → safely l (get_chan c ≫= k) Q w.
Proof.
  intros [ch E] Hk Ht. apply wp_bind. eapply wp_get_chan; [done|]. apply Hk; [|done]. by apply Ht.
Qed.
Lemma safe_call c cb (b : bool) t w :
  callback_typed l c w cb → safe l (when b (call run_cb cb t)) w.
Proof.
  intros Hcb. destruct b; [|by apply safely_ret]. destruct cb as [cb|]; [|by apply safely_ret].
  by apply (safe_run_callback c).
Qed.
Lemma safe_HandleEvent c t w : live_chan c w → safe l (Channel_HandleEvent run_cb c t) w.
Proof.
  intros Hc. unfold Channel_HandleEvent. safe_step; [safe_tac|].
  assert (Hnext : ∀ (b : Channel → bool) (f : Channel → option callback) (k : M W unit) w,
    (∀ ch w, chan_typed l c ch w → callback_typed l c w (f ch)) → live_chan c w →
    (∀ w, live_chan c w → safe l k w) →
    safe l (ch ← get_chan c; when (b ch) (call run_cb (f ch) t);; k) w).
  { intros b f k w1 Hf Hc1 Hk. apply bind_chan; [done|]. intros ch Hch.
    eapply (safely_bind _ _ _ (λ _ _, True)); [by apply (safe_call c), Hf|]. safe_next. by apply Hk. }
  apply Hnext; [apply ct_close|done|clear Hc; intros w1 Hc].
  apply Hnext; [apply ct_error|done|clear Hc; intros w2 Hc].
  apply Hnext; [apply ct_read|done|clear Hc; intros w3 Hc].
  apply Hnext; [apply ct_write|done|clear Hc; intros w4 Hc]. safe_tac.
Qed.

(** the channels that epoll reports are there *)
Definition all_live (cs : list loc) w : Prop := Forall (λ c, live_chan c w) cs.
Lemma all_live_later cs w w' : later l w w' → all_live cs w → all_live cs w'.
Proof.
  intros Hl Hcs. eapply Forall_impl; [exact Hcs|]. intros c. by apply (later_live_chan l).
Qed.

Lemma safely_FillActiveChannels es w :
  all_live es.*1 w →
  safely l (Poller_FillActiveChannels l es) (λ cs w', all_live cs w') w.
Proof.
  intros Hes. unfold Poller_FillActiveChannels. apply bind_get_loop. intros lp _ _.
  apply bind_assert. intros _. eapply safely_bind.
  { apply (safely_forM _ es _ (λ es' w, all_live es'.*1 w)); [done|].
    intros e es' w' _ [He Hes']%Forall_cons.
    eapply safely_post; [apply (safely_mod_chan _ _ _ (λ _ _, True)); [exact He|by intros []|done]|].
    intros [] w'' _ Hl _. by eapply all_live_later. }
  intros [] w' _ Hl _. apply safely_ret. by eapply all_live_later.
Qed.
Lemma safely_Poll t w : safely l (Poller_Poll l t) (λ r w', all_live r.2 w') w.
Proof.
  unfold Poller_Poll. apply bind_get_loop. intros lp El _. cbv zeta.
  set (r := sys_epoll_wait _ _ _). eapply (safely_bind _ _ _ (λ r w', ∀ es, r = inr es → all_live es.*1 w')).
  { intros Ht. refine (safely_sys _ _ _ _ _ _ Ht); [meek|]. intros es Er. apply Forall_forall.
    intros c ([c' ev] & -> & Hin)%list_elem_of_fmap. simpl.
    destruct (wait_registered _ _ _ _ es c' ev Er Hin) as (fd & ev' & Ei).
    destruct (ty_interest _ _ Ht lp fd ev' c' El Ei) as [_ Hx]. unfold live_chan. rs.
    by destruct (w_chans w !! c'). }
  intros res w1 _ _ Hes. eapply (safely_bind _ _ _ (λ _ _, True)); [apply safe_now|].
  intros now w2 _ Hl2 _. destruct res as [e|es]; [by apply safely_ret, Forall_nil|].
  destruct es as [|e es]; [by apply safely_ret, Forall_nil|].
  eapply safely_bind; [apply safely_FillActiveChannels; eapply all_live_later; [done|by apply Hes]|].
  intros cs w3 _ _ Hcs. eapply (safely_bind _ _ _ (λ _ _, True)); [safe_tac|].
  intros [] w4 _ Hl4 _. apply safely_ret. by eapply all_live_later.
Qed.
End loops.

(** ** The end of connections *)

Section release.
Context {K : Type} `{SafeLaws K} (l : loc).
Abbreviation W := (World K).
Implicit Types (c : loc) (w : W).

(** a connection to which nothing points is destroyed with its channel *)
Lemma typed_delete_conn c conn w :
  typed l w → w_conns w !! c = Some conn → referenced c w = false →
  (∀ lp fd, w_loops w !! l = Some lp → po_channels (el_poller lp) !! fd ≠ Some (tc_channel conn)) →
  typed l (set_w_conns (delete c (w_conns w)) (set_w_chans (delete (tc_channel conn) (w_chans w)) w)).
Proof.
  intros Ht Ec Href Hmap. destruct (ty_conn _ _ Ht c conn Ec) as [_ Hread _ _].
  apply orb_false_iff in Href as [Hsrv%bool_decide_eq_false Hfun].
  assert (Hother : ∀ c' x, w_conns w !! c' = Some x → c' ≠ c → tc_channel x ≠ tc_channel conn).
  { intros c' x E Hne Etc. destruct (ty_conn _ _ Ht c' x E) as [_ Hr _ _]. rewrite Etc, Hread in Hr.
    congruence. }
  assert (Hcb : ∀ c' cb, c' ≠ tc_channel conn → callback_typed l c' w cb →
    callback_typed l c' (set_w_conns (delete c (w_conns w)) w) cb).
  { intros c' [[]|] Hne; simpl; try done; intros E; (rewrite lookup_delete_ne; [done|]);
      intros ->; rewrite Ec in E; simpl in E; congruence. }
  assert (Hpart : ∀ A (f : Channel → A) c' x, c' ≠ tc_channel conn →
    f <$> w_chans w !! c' = Some x → f <$> delete (tc_channel conn) (w_chans w) !! c' = Some x)
    by (intros; by rewrite lookup_delete_ne).
  destruct Ht as [Hl Hc Hh Hr Hi Hfs Hs Hfr Hhome Hn]. split; try done; rs.
  - intros c' x [Hne E]%lookup_delete_Some. destruct (Hc c' x E). split; try done. rs.
    apply Hpart; [|done]. by eapply Hother.
  - intros c' x [Hne E]%lookup_delete_Some. destruct (Hh c' x E).
    split; try done; by apply (Hcb c').
  - intros lp fd c' El E. apply Hpart; [|by eapply Hr]. intros ->. by eapply Hmap.
  - intros lp fd ev c' El E. destruct (Hi lp fd ev c' El E) as [Em Ex]. split; [done|].
    apply Hpart; [|done]. intros ->. by eapply Hmap.
  - intros lp El. specialize (Hfs lp El). rewrite Forall_forall in *. intros f Hf.
    specialize (Hfs f Hf).
    assert (Hne : functor_ref f ≠ Some c).
    { intros Ef. apply not_true_iff_false in Hfun. apply Hfun, existsb_exists. exists (l, lp). split.
      - apply list_elem_of_In. by apply elem_of_map_to_list.
      - apply existsb_exists. exists f. split; [by apply list_elem_of_In|by apply bool_decide_eq_true]. }
    destruct f; simpl in *; try done; destruct Hfs as [x E]; exists x; rs;
      rewrite lookup_delete_ne; [done|congruence|done|congruence|done|congruence|done|congruence].
  - intros name c' E. destruct (Hs name c' E) as [x Ex]. exists x. rs. rewrite lookup_delete_ne; [done|].
    intros <-. apply Hsrv, list_elem_of_fmap. exists (name, c). split; [done|].
    by apply elem_of_map_to_list.
  - intros c' Hge. destruct (Hfr c' Hge) as [E1 E2].
    by rewrite !lookup_delete_None; auto.
Qed.

Lemma wp_delete_Channel c ch (Q : unit → W → Prop) w :
  typed l w → w_chans w !! c = Some ch →
  ((∀ lp fd, w_loops w !! l = Some lp → po_channels (el_poller lp) !! fd ≠ Some c) →
   Q tt (set_w_chans (delete c (w_chans w)) w)) →
  wp harmless (delete_Channel c) Q w.
Proof.
  intros Ht Ec HQ. destruct (ty_loop _ _ Ht) as (lp & El & Eth).
  assert (Ecl : ch_loop ch = l) by (by eapply ct_loop, ty_chan).
  unfold delete_Channel. eapply wp_bind, wp_get_chan; [done|].
  apply wp_bind, wp_assume. intros _. apply wp_bind, wp_assume. intros _. rewrite Ecl.
  eapply wp_bind, in_loop_thread_spec; [done|]. rewrite Eth, Z.eqb_refl. apply wp_bind, wp_bind.
  unfold EventLoop_HasChannel, Poller_HasChannel. eapply wp_bind, wp_get_chan; [done|].
  apply wp_bind, wp_assume. intros _. eapply wp_bind, assert_in_loop_spec; [done|done|].
  eapply wp_bind, assert_in_loop_spec; [done|done|]. eapply wp_bind, wp_get_chan; [done|].
  eapply wp_bind, wp_get_loop; [done|]. apply wp_ret, wp_assume.
  intros Hmap%negb_true_iff%bool_decide_eq_false. apply wp_modify, HQ.
  intros lp' fd El' Em. rewrite El in El'. injection El' as <-.
  pose proof (ty_registered _ _ Ht lp fd c El Em) as Efd. rewrite Ec in Efd. injection Efd as <-. done.
Qed.
Lemma wp_release c (Q : unit → W → Prop) w :
  typed l w → live_conn c w →
  (∀ w', typed l w' → w_loops w' = w_loops w → Q tt w') → wp harmless (release c) Q w.
Proof.
  intros Ht [conn Ec] HQ. unfold release. apply wp_bind, wp_gets.
  destruct (referenced c w) eqn:Href; [by apply HQ|]. simpl. unfold delete_TcpConnection.
  eapply wp_bind, wp_get_conn; [done|]. apply wp_bind, wp_assume. intros _.
  destruct (typed_live_chan _ _ _ _ Ht Ec) as [ch Ech].
  eapply wp_bind, wp_delete_Channel; [done|done|]. intros Hmap. apply wp_modify, HQ; [|done].
  by apply (typed_delete_conn c conn w).
Qed.

Context (dispatcher_ : PacketDispatcher W) (spi_OnMessage : Packet → Z → M W unit).
Context (Hdispatcher : ∀ cmd h p id w, dispatcher_ !! cmd = Some h → safe l (action (h p id)) w).
Context (Hspi : ∀ p id w, safe l (spi_OnMessage p id) w).
Local Abbreviation run_cb := (run_callback dispatcher_ spi_OnMessage).

Definition stays_typed {A} (m : M W A) : Prop :=
  ∀ w, typed l w → wp harmless m (λ _ w', typed l w') w.

Lemma safe_stays_typed {A} (m : M W A) : (∀ w, safe l m w) → stays_typed m.
Proof. intros Hm w Ht. eapply wp_post; [by apply Hm|]. by intros ? w' [? _]. Qed.
Lemma stays_typed_seq {A B} (m : M W A) (k : A → M W B) :
  stays_typed m → (∀ a, stays_typed (k a)) → stays_typed (m ≫= k).
Proof.
  intros Hm Hk w Ht. apply wp_bind. eapply wp_post; [by apply Hm|]. intros a w'. apply Hk.
Qed.

(** the functors are run with their connections alive, and then dropped one
    by one *)
Lemma drop_functors fs w :
  typed l w → el_running <$> w_loops w !! l = Some fs →
  wp harmless (forM fs (λ f, mod_loop l (λ lp, set_el_running (tail (el_running lp)) lp);;
                 destroy_functor f)) (λ _ w', typed l w') w.
Proof.
  revert w. induction fs as [|f fs IH]; intros w Ht Er; [done|]. simpl. apply wp_bind, wp_bind.
  destruct (w_loops w !! l) as [lp|] eqn:El; [|done]. injection Er as Er.
  eapply wp_mod_loop; [done|]. set (w1 := set_w_loops _ w).
  pose proof (ty_functors _ _ Ht lp El) as [Hp Hf]%Forall_app. rewrite Er in Hf.
  apply Forall_cons in Hf as [Hf Hfs].
  assert (Ht1 : typed l w1).
  { apply (typed_queues _ w lp); try done. rs. rewrite Er. apply Forall_app. done. }
  assert (Er1 : el_running <$> w_loops w1 !! l = Some fs)
    by (unfold w1; rs; rewrite lookup_insert_eq; simpl; by rewrite Er).
  unfold destroy_functor. destruct (functor_ref f) as [c|] eqn:Ef; [|by apply IH].
  apply wp_release; [done| |].
  { destruct f; simpl in *; try done; by injection Ef as <-. }
  intros w2 Ht2 El2. apply IH; [done|]. by rewrite El2.
Qed.
Lemma DoPendingFunctors_typed :
  stays_typed (EventLoop_DoPendingFunctors exec destroy_functor l).
Proof.
  intros w Ht. unfold EventLoop_DoPendingFunctors. destruct (ty_loop _ _ Ht) as (lp & El & Eth).
  pose proof (ty_functors _ _ Ht lp El) as [Hp _]%Forall_app.
  eapply wp_bind, wp_mod_loop; [done|]. eapply wp_bind, wp_get_loop; [lookup_now|].
  eapply wp_bind, wp_mod_loop; [lookup_now|]. rs. rewrite insert_insert_eq.
  set (fs := el_pendingFunctors lp) in *.
  change (set_w_loops ?a (set_w_loops ?b w)) with (set_w_loops a w).
  set (w1 := set_w_loops _ w).
  assert (Ht1 : typed l w1) by (by apply (typed_queues l w lp)).
  assert (Er1 : el_running <$> w_loops w1 !! l = Some fs)
    by (unfold w1; rs; by rewrite lookup_insert_eq).
  apply wp_bind. eapply wp_post.
  { refine (safely_forM l fs exec (λ fs w, Forall (functor_typed w) fs) w1 Hp _ Ht1).
    intros f fs' w2 _ [Hf Hfs]%Forall_cons. eapply safely_post; [by apply safe_exec|].
    intros [] w3 _ Hl3 _. eapply Forall_impl; [exact Hfs|]. intros f'.
    by apply (later_functor l). }
  intros [] w2 (Ht2 & Hl2 & _). pose proof (lt_running _ _ _ Hl2) as Er2. rewrite Er1 in Er2.
  destruct (w_loops w2 !! l) as [lp2|] eqn:El2; [|done]. injection Er2 as Er2.
  eapply wp_bind, wp_mod_loop; [done|]. apply drop_functors.
  - apply (typed_queues l w2 lp2); try done. exact (ty_functors _ _ Ht2 lp2 El2).
  - rs. rewrite lookup_insert_eq. simpl. by rewrite Er2.
Qed.

(** ** The loop *)

(** a program whose end destroys: [m] first, as long as nothing is destroyed *)
Definition ends_typed {A} (m : M W A) w : Prop := typed l w → wp harmless m (λ _ w', typed l w') w.
Lemma ends_typed_bind {A B} (m : M W A) (k : A → M W B) Q w :
  safely l m Q w → (∀ a w', typed l w' → later l w w' → Q a w' → ends_typed (k a) w') →
  ends_typed (m ≫= k) w.
Proof.
  intros Hm Hk Ht. apply wp_bind. eapply wp_post; [by apply Hm|]. intros a w' (? & ? & ?). by apply Hk.
Qed.
Lemma ends_typed_mod_loop f cs (k : unit → M W unit) w :
  (∀ lp, loop_shape (f lp) = loop_shape lp) → all_live cs w →
  (∀ w', all_live cs w' → ends_typed (k tt) w') → ends_typed (mod_loop l f ≫= k) w.
Proof.
  intros Hf Hcs Hk. eapply (ends_typed_bind _ _ (λ _ _, True)); [by apply safely_mod_loop|].
  intros [] w' _ Hl _. apply Hk. by eapply all_live_later.
Qed.
Lemma iterate_typed w : ends_typed (EventLoop_iterate run_cb exec destroy_functor l) w.
Proof.
  unfold EventLoop_iterate. apply (ends_typed_mod_loop _ []); [by intros []|by apply Forall_nil|].
  intros w1 _. eapply ends_typed_bind; [apply safely_Poll|]. intros r w2 _ _ Hr.
  do 3 (apply (ends_typed_mod_loop _ r.2); [by intros []|exact Hr|clear Hr; intros ? Hr]).
  eapply (ends_typed_bind _ _ (λ _, all_live [])).
  - apply (safely_forM _ _ _ all_live); [done|]. intros c cs w3 _ [Hc Hcs]%Forall_cons.
    eapply safely_post; [|intros [] w4 _ Hlat _; by eapply all_live_later].
    instantiate (1 := λ _ _, True). safe_step; [safe_tac|]. safe_step. by apply safe_HandleEvent.
  - intros [] w3 _ _ H3.
    do 2 (apply (ends_typed_mod_loop _ []); [by intros []|exact H3|clear H3; intros ? H3]).
    intros Ht. by apply DoPendingFunctors_typed.
Qed.
Lemma while_typed fuel w : ends_typed (EventLoop_while run_cb exec destroy_functor fuel l) w.
Proof.
  revert w. induction fuel as [|fuel IH]; intros w; [done|]. simpl. intros Ht.
  destruct (ty_loop _ _ Ht) as (lp & El & Eth). eapply wp_bind, wp_get_loop; [done|].
  destruct (el_quit lp); [done|]. apply wp_bind. eapply wp_post; [by apply iterate_typed|].
  intros [] w'. apply IH.
Qed.
Lemma Loop_typed fuel w :
  ends_typed (gateway_Loop dispatcher_ spi_OnMessage fuel l) w.
Proof.
  unfold gateway_Loop, EventLoop_Loop. intros Ht.
  destruct (ty_loop _ _ Ht) as (lp & El & Eth). eapply wp_bind, wp_get_loop; [done|].
  apply wp_bind, wp_assume. intros _. revert Ht.
  apply (ends_typed_bind _ _ (λ _ _, True)); [apply safe_AssertInLoopThread|]. intros [] w1 _ _ _.
  apply (ends_typed_bind _ _ (λ _ _, True)); [by apply safely_mod_loop; [intros []|]|].
  intros [] w2 _ _ _ Ht2. apply wp_bind. eapply wp_post; [by apply while_typed|]. intros [] w3 Ht3.
  eapply wp_post; [apply (safely_mod_loop _ _ (λ _ _, True)); [by intros []|done|done]|].
  by intros [] w4 [? _].
Qed.
End release.

(** ** The start of the program *)

Section start.
Context {K : Type} `{SafeLaws K}.
Abbreviation W := (World K).
Implicit Types (l c : loc) (w : W).

(** [run], where the tests may fail *)
Ltac run_harmless :=
  repeat (lazymatch goal with
  | |- wp _ (assertM _) _ _ => apply wp_assume; intros ?
  | |- wp _ (failM _) _ _ => done
  | |- wp _ (match ?x with _ => _ end) _ _ => destruct x eqn:?
  | _ => ws
  end; rs).

(** a channel that is not watched yet *)
Definition idle_chan l (fd : Z) (cb : callback) : Channel := set_ch_readCallback (Some cb) (new_Channel l fd).

Lemma wp_new_Acceptor l addr reuse (Q : Acceptor → W → Prop) w :
  (∀ a k fd, meek accepts_left (w_kern w) k → ac_loop a = l → ac_acceptChannel a = w_next w →
    Q a (set_w_kern k (set_w_chans (<[w_next w := idle_chan l fd CbAccept]> (w_chans w))
      (set_w_next (S (w_next w)) w)))) →
  wp harmless (new_Acceptor l addr reuse) Q w.
Proof.
  intros HQ. unfold new_Acceptor, sockets_CreateNonblockingOrDie, sockets_SetReuseAddr,
    sockets_SetReusePort, set_option, sockets_BindOrDie, or_die.
  run_harmless. rewrite insert_insert_eq.
  match goal with |- Q ?a (set_w_chans _ (set_w_kern ?k _)) =>
    apply (HQ a k (ac_acceptSocket a)); [|done..] end.
  repeat (etrans; [|meek]). done.
Qed.

(** a new loop, in a store without objects: its wake-up channel is watched *)
Lemma wp_new_EventLoop (Q : loc → W → Prop) w :
  w_loops w = ∅ → w_chans w = ∅ →
  (∀ lp wch ev k tls,
    let l := w_next w in let wc := S l in
    el_threadId lp = w_tid w → el_pendingFunctors lp = [] → el_running lp = [] →
    po_channels (el_poller lp) = {[ ch_fd wch := wc ]} →
    ch_loop wch = l → ch_index wch = 1 → ch_readCallback wch = Some (CbWakeup l) →
    ch_writeCallback wch = None → ch_closeCallback wch = None → ch_errorCallback wch = None →
    interest k (po_epollfd (el_poller lp)) = {[ ch_fd wch := (ev, wc) ]} →
    accepts_left k ≤ accepts_left (w_kern w) →
    Q l (set_w_kern k (set_w_loops {[ l := lp ]} (set_w_chans {[ wc := wch ]}
      (set_w_tls tls (set_w_next (S wc) w)))))) →
  wp harmless new_EventLoop Q w.
Proof.
  intros El Ec HQ. unfold new_EventLoop. run_harmless. rewrite El, Ec, !insert_insert_eq.
  set (l := w_next w) in *. set (fd := (sys_eventfd (sys_epoll_create (w_kern w)).2).1).
  set (ep := (sys_epoll_create (w_kern w)).1) in *.
  set (k1 := (sys_eventfd (sys_epoll_create (w_kern w)).2).2).
  set (lp := mkEventLoop _ _ _ _ _ _ _ _ _ _ _ _ _ _). set (ch := set_ch_readCallback _ _).
  set (tls := <[w_tid w := l]> (w_tls w)).
  match goal with |- wp _ _ _ ?X => change X with (set_w_kern k1 (set_w_loops {[ l := lp ]}
    (set_w_chans {[ S l := ch ]} (set_w_tls tls (set_w_next (S (S l)) w))))) end.
  set (w2 := set_w_kern _ _).
  assert (Hep : interest k1 ep = ∅).
  { apply (anti_symm (⊆)); [|apply map_empty_subseteq].
    rewrite <- (create_empty (w_kern w)) by lia. apply eventfd_meek. }
  assert (Hlp : w_loops w2 !! l = Some lp) by apply lookup_singleton_eq.
  assert (Hch : w_chans w2 !! S l = Some ch) by apply lookup_singleton_eq.
  assert (Hlps : ∀ x, w_loops w2 !! l = Some x → x = lp) by congruence.
  assert (Hok : poller_ok l w2).
  { split; [by eexists|..].
    - by intros fd' c x ->%Hlps.
    - intros c x y _ E. change (({[ S l := ch ]} : gmap loc Channel) !! c = Some x) in E.
      by apply lookup_singleton_Some in E as [_ <-].
    - intros fd' x ->%Hlps. change (po_epollfd (el_poller lp)) with ep. unfold w2. rs.
      by rewrite Hep. }
  change (Channel_EnableReading (S l)) with (update_events (λ e, Z.lor e kReadEvent) (S l)).
  eapply wp_post; [by apply (update_spec _ l (S l) w2 lp ch harmless Hok Hlp Hch)|].
  intros [] w3 (k & -> & _ & Hctl & Hk). apply wp_ret.
  set (ch' := updated _ ch). unfold store_update, w2. rs.
  match goal with |- Q l ?X => change X with (set_w_kern k (set_w_loops (<[l := set_channels (λ _, {[ fd := S l ]}) lp]> {[ l := lp ]})
    (set_w_chans (<[S l := ch']> {[ S l := ch ]}) (set_w_tls tls (set_w_next (S (S l)) w))))) end.
  rewrite !insert_singleton_eq.
  apply (HQ (set_channels (λ _, {[ fd := S l ]}) lp) ch' (Z.lor (ch_events ch') EPOLLET) k); try done.
  - change (po_epollfd (el_poller lp)) with ep in Hk. change (w_kern w2) with k1 in Hk.
    rewrite Hep in Hk. exact Hk.
  - assert (accepts_left k1 ≤ accepts_left (w_kern w)).
    { etrans; [apply eventfd_meek|apply create_counts]. }
    destruct Hctl as [->|(? & ? & ? & ? & ? & ->)]; [done|]. etrans; [apply ctl_counts|done].
Qed.

(** a store with a loop, its wake-up channel and the acceptor's channel *)
Lemma typed_start l lp wch ach ev w :
  let wc := S l in
  w_loops w = {[ l := lp ]} → w_chans w = <[S wc := ach]> {[ wc := wch ]} → w_conns w = ∅ →
  w_next w = S (S wc) → el_threadId lp = w_tid w → el_pendingFunctors lp = [] → el_running lp = [] →
  po_channels (el_poller lp) = {[ ch_fd wch := wc ]} →
  ch_loop wch = l → ch_index wch = 1 → ch_readCallback wch = Some (CbWakeup l) →
  ch_writeCallback wch = None → ch_closeCallback wch = None → ch_errorCallback wch = None →
  (∃ fd, ach = idle_chan l fd CbAccept) →
  interest (w_kern w) (po_epollfd (el_poller lp)) ⊆ {[ ch_fd wch := (ev, wc) ]} →
  ts_connections (w_server w) = ∅ →
  ts_loop (w_server w) = l ∧ ac_loop (ts_acceptor (w_server w)) = l ∧
    tp_baseLoop (ts_threadPool (w_server w)) = l ∧ tp_loops (ts_threadPool (w_server w)) = [] ∧
    tp_numThreads (ts_threadPool (w_server w)) = 0 ∧ gs_loop (w_gs w) = l →
  ts_nextConnId (w_server w) + accepts_left (w_kern w) < 2 ^ 31 →
  typed l w.
Proof.
  intros wc El Eh En Ex Eth Ep Er Em Ewl Ewi Ew1 Ew2 Ew3 Ew4 [fd ->] Ei Es Hhome Hn.
  assert (Hlp : ∀ x, w_loops w !! l = Some x → x = lp)
    by (intros x; rewrite El, lookup_singleton_eq; congruence).
  assert (Hwc : w_chans w !! wc = Some wch)
    by (rewrite Eh, lookup_insert_ne, lookup_singleton_eq by lia; done).
  split; try done.
  - exists lp. by rewrite El, lookup_singleton_eq.
  - intros c conn. by rewrite En.
  - intros c ch. rewrite Eh. intros [[<- <-]|[_ [<- <-]%lookup_singleton_Some]]%lookup_insert_Some.
    + by split.
    + split; rewrite ?Ew1, ?Ew2, ?Ew3, ?Ew4; done.
  - intros x fd' c ->%Hlp. rewrite Em. intros [<- <-]%lookup_singleton_Some. by rewrite Hwc.
  - intros x fd' ev' c ->%Hlp E. eapply lookup_weaken in E; [|exact Ei].
    apply lookup_singleton_Some in E as [<- [= _ <-]]. rewrite Em, lookup_singleton_eq, Hwc. simpl.
    by rewrite Ewi.
  - intros x ->%Hlp. by rewrite Ep, Er.
  - intros name c. by rewrite Es.
  - intros c Hge. rewrite En, Eh. split; [done|].
    by rewrite lookup_insert_ne, lookup_singleton_ne by lia.
Qed.

(** the loop and the server, before the server is started *)
Lemma wp_new_server addr ind timeout (Q : loc → W → Prop) w :
  w_loops w = ∅ → w_chans w = ∅ → w_conns w = ∅ → 1 + accepts_left (w_kern w) < 2 ^ 31 →
  (∀ l w', typed l w' → accept_live w' → Q l w') →
  wp harmless new_EventLoop
    (λ l, wp harmless (new_GatewayServer l addr ind timeout) (λ _, Q l)) w.
Proof.
  intros El Ec En Hn HQ. apply wp_new_EventLoop; [done|done|].
  intros lp wch ev k tls l wc Eth Ep Er Em Ewl Ewi Ew1 Ew2 Ew3 Ew4 Ei Hk.
  unfold new_GatewayServer, new_TcpServer. apply wp_bind, wp_bind, wp_new_Acceptor.
  intros a k' fd [Hk1 Hk2] Ea Eac. unfold mod_acceptor. run. apply HQ.
  - apply (typed_start l lp wch (idle_chan l fd CbAccept) ev); rs; try done; [by eexists| |].
    + etrans; [apply Hk1|]. rs. by rewrite Ei.
    + rs in Hk2. lia.
  - unfold accept_live, accept_chan, live_chan. rs. rewrite Eac. rs. by rewrite lookup_insert_eq.
Qed.

(** a channel of the timer, at a fresh address *)
Lemma typed_idle_chan l fd cb w :
  typed l w → callback_typed l (w_next w) w (Some cb) →
  let w' := set_w_chans (<[w_next w := idle_chan l fd cb]> (w_chans w)) (set_w_next (S (w_next w)) w) in
  typed l w' ∧ later l w w' ∧ live_chan (w_next w) w'.
Proof.
  intros Ht Hcb w'. set (n := w_next w) in *.
  destruct (ty_fresh _ _ Ht n ltac:(done)) as [_ Hn].
  assert (Hpart : ∀ A (f : Channel → A) c x, f <$> w_chans w !! c = Some x → f <$> w_chans w' !! c = Some x).
  { intros A f c x E. unfold w'. rs. rewrite lookup_insert_ne; [done|]. intros <-. by rewrite Hn in E. }
  assert (Hlive : ∀ c, live_chan c w → live_chan c w').
  { intros c [x E]. unfold live_chan, w'. rs. rewrite lookup_insert_ne; [eauto|]. congruence. }
  destruct Ht as [Hl Hc Hh Hr Hi Hfs Hs Hfr Hhome Hcount].
  split_and!; [|split; [eauto|exact Hlive|done..]|by eexists; apply lookup_insert_eq].
  split; try done.
  - intros c conn E. destruct (Hc c conn E). split; try done. by apply Hpart.
  - intros c ch. unfold w'. rs. intros [[<- <-]|[_ E]]%lookup_insert_Some; [by split|].
    by destruct (Hh c ch E).
  - intros lp fd' c El E. apply Hpart. by eapply Hr.
  - intros lp fd' ev c El E. destruct (Hi lp fd' ev c El E). split; [done|by apply Hpart].
  - intros c Hge. unfold w' in *. rs in Hge. rs. rewrite lookup_insert_ne by lia. apply Hfr. lia.
Qed.

Lemma safe_SetupHeartbeat l w : safe l GatewayServer_SetupHeartbeat w.
Proof.
  unfold GatewayServer_SetupHeartbeat. safe_step. safe_step; [safe_tac|]. safe_step; [safe_tac|].
  match goal with |- safe l _ ?x => rename x into w2 end.
  intros Ht2. destruct (typed_idle_chan l a CbHeartbeat w2 Ht2 I) as (Ht' & Hl' & Hc').
  set (n := w_next w2) in *. set (w3 := set_w_chans _ _) in *.
  assert (Hs : safe l (mod_gs (set_gs_heartbeatChannel (Some n));; Channel_EnableReading n) w3) by safe_tac.
  specialize (Hs Ht'). do 8 ws. rs. rewrite insert_insert_eq.
  eapply wp_post; [exact Hs|]. intros u w4 (? & ? & _). split_and!; [done|by etrans|done].
Qed.

Lemma bind_gets_pool {A} l (k : TcpServer → M W A) Q w :
  (∀ s, ts_loop s = l → tp_baseLoop (ts_threadPool s) = l → tp_numThreads (ts_threadPool s) = 0 →
    safely l (k s) Q w) →
  safely l (gets w_server ≫= k) Q w.
Proof.
  intros Hk Ht. destruct (ty_home _ _ Ht) as (? & ? & ? & ? & ? & _). apply wp_bind, wp_gets.
  by apply Hk.
Qed.
Lemma safe_Acceptor_Listen l w : accept_live w → safe l Acceptor_Listen w.
Proof.
  unfold accept_live, accept_chan. intros Hc. unfold Acceptor_Listen.
  apply bind_gets_server. intros s Es _ Ea _ _. rewrite Ea. rewrite <- Es in Hc.
  unfold mod_acceptor, sockets_ListenOrDie, or_die. safe_tac.
Qed.
Lemma safe_TcpServer_Start l w : accept_live w → safe l TcpServer_Start w.
Proof.
  intros Hc. unfold TcpServer_Start. safe_step. safe_step; [safe_tac|].
  apply safely_when; [intros _|done]. safe_step.
  - unfold EventLoopThreadPool_Start. apply bind_gets_pool. intros s' _ Eb En. rewrite Eb, En.
    change (seq 0 (Z.to_nat 0)) with (@nil nat). cbn [forM]. unfold mod_pool. safe_tac.
  - safe_step. safe_step. by apply safely_RunInLoop, safe_Acceptor_Listen.
Qed.
Lemma safe_GatewayServer_Start l w : accept_live w → safe l GatewayServer_Start w.
Proof.
  intros Hc. unfold GatewayServer_Start. safe_step. safe_step. safe_step; [safe_tac|].
  safe_step; [safe_tac|]. safe_step; [apply safe_SetupHeartbeat|]. by apply safe_TcpServer_Start.
Qed.
Lemma safe_SetThreadNum l w : safe l (GatewayServer_SetThreadNum 0) w.
Proof.
  unfold GatewayServer_SetThreadNum, TcpServer_SetThreadNum. apply bind_assert. intros _.
  apply safely_shape; [|done]. intros Ht. destruct (shape_refl _ _ Ht). split; try done.
  unfold server_shape. simpl. by destruct (ty_home _ _ Ht) as (_ & _ & _ & _ & -> & _).
Qed.

(** from the start of [main] to the entry of the loop *)
Lemma wp_main_setup ip port workers timeout addr ind (Q : loc → W → Prop) w :
  w_loops w = ∅ → w_chans w = ∅ → w_conns w = ∅ → 1 + accepts_left (w_kern w) < 2 ^ 31 →
  (∀ l w', typed l w' → Q l w') →
  wp harmless (main_setup ip port 0 workers timeout addr ind) Q w.
Proof.
  intros El Ec En Hn HQ. unfold main_setup. apply wp_bind. eapply wp_post.
  { apply (wp_new_server (sockets_FromIpPort ip port addr) ind timeout (λ l w', typed l w' ∧ accept_live w')); try done. }
  intros l w1 Hw1. apply wp_bind. eapply wp_post; [exact Hw1|]. intros [] w2 [Ht2 Hc].
  assert (Hs : safely l (GatewayServer_SetThreadNum 0;; GatewayServer_SetWorkerThreadNum workers;;
    GatewayServer_Start;; mret l) (λ l' _, l' = l) w2).
  { safe_step; [apply safe_SetThreadNum|]. safe_step; [safe_tac|].
    safe_step; [by apply safe_GatewayServer_Start|]. by apply safely_ret. }
  eapply wp_post; [by apply Hs|]. intros l' w3 (? & _ & ->). by apply HQ.
Qed.
End start.

(** ** The concrete kernel *)

#[export] Instance sim_safe : SafeLaws sim.
Proof.
  refine {| accepts_left k := Z.of_nat (length (sim_backlog k)) |}; try (intros; by split).
  - lia.
  - intros ep n t k es c ev. simpl. unfold sim_epoll_wait. destruct (sim_ready k) as [|es' r]; simpl.
    + intros [= <-]. by intros ?%elem_of_nil.
    + intros [= <-] [Hc _]%list_elem_of_filter. unfold sim_watched in Hc.
      apply list_elem_of_fmap in Hc as ([fd [ev' c']] & Ec & Hin%elem_of_map_to_list).
      simpl in Ec. subst c'. by exists fd, ev'.
  - intros fd k. simpl. unfold sim_accept. destruct (sim_backlog k) as [|[c p] r] eqn:E; simpl.
    + by split.
    + pose proof (length_filter (λ b : Z * sockaddr_in, b.1 ≠ c) r).
      split; [split; [done|simpl]|intros _]; simpl; try rewrite E; simpl; lia.
  - intros. simpl. unfold sim_ctl. by repeat case_match.
  - intros ep fd ev p k. simpl. unfold sim_ctl. destruct (sim_list k ep !! fd) as [x|] eqn:E; simpl.
    + unfold sim_list at 1. simpl. by rewrite lookup_insert_eq.
    + by rewrite delete_id.
  - intros. simpl. unfold sim_epoll_wait. destruct (sim_ready k); by split.
  - intros. simpl. unfold sim_readv. destruct (sim_input k !! fd) as [[]|]; by split.
  - intros k _. simpl. unfold sim_list. simpl. by rewrite lookup_insert_eq.
  - done.
Defined.

(** ** Properties *)

(** C7: Types are preserved by the reactor. In a process with one thread whose
    store is well typed (every pointer of a channel, a callback, a functor, the
    server's map or epoll's interest list leads to an object of its class, and
    every buffer is well formed), and with handlers that are themselves safe,
    one turn of the event loop never reaches undefined behaviour, whatever the
    peers send and the kernel answers: short reads and writes, errors,
    hang-ups, refused descriptors, connections that close in the middle of
    their own events. If the turn ends, the store is well typed again. *)
Theorem turn_type_safe {K} `{SafeLaws K} dispatcher_ spi_OnMessage l (w : World K) :
  (∀ cmd h p id w, dispatcher_ !! cmd = Some h → safe l (action (h p id)) w) →
  (∀ p id w, safe l (spi_OnMessage p id) w) →
  typed l w →
  match EventLoop_iterate (run_callback dispatcher_ spi_OnMessage) exec destroy_functor l w with
  | Ok (_, w') => typed l w'
  | Fail e => e ≠ UndefinedBehaviour
  end.
Proof. intros Hd Hs Ht. by apply iterate_typed. Qed.

(** [main] from the construction of the loop on, with no IO threads and any
    address, port, number of workers and heartbeat timeout. *)
Lemma gateway_main_safe {K} `{SafeLaws K} dispatcher_ spi_OnMessage ip port workers timeout addr ind
    fuel (w : World K) :
  (∀ l cmd h p id w, dispatcher_ !! cmd = Some h → safe l (action (h p id)) w) →
  (∀ l p id w, safe l (spi_OnMessage p id) w) →
  w_loops w = ∅ → w_chans w = ∅ → w_conns w = ∅ → 1 + accepts_left (w_kern w) < 2 ^ 31 →
  (l ← main_setup ip port 0 workers timeout addr ind;
   gateway_Loop dispatcher_ spi_OnMessage fuel l) w ≠ Fail UndefinedBehaviour.
Proof.
  intros Hd Hs El Ec En Hn E.
  assert (Hw : wp harmless (l ← main_setup ip port 0 workers timeout addr ind;
    gateway_Loop dispatcher_ spi_OnMessage fuel l) (λ _ _, True) w).
  { apply wp_bind, wp_main_setup; try done. intros l w' Ht.
    eapply wp_post; [by apply (Loop_typed l _ _ (Hd l) (Hs l))|done]. }
  unfold wp in Hw. rewrite E in Hw. by apply Hw.
Qed.

(** ** Witnesses *)

(** the process of [SimKernel] when a request has come *)
Definition ready_world (d : list byte) : World sim :=
  set_w_kern (sim_set_ready [[(1%nat, EPOLLIN)]] (kernel_with_input d)) (world0 100).

Lemma ready_world_typed d : typed 0%nat (ready_world d).
Proof.
  assert (Hlp : ∀ lp, w_loops (ready_world d) !! 0%nat = Some lp → lp = loop0)
    by (intros lp; apply (world0_loop 100)).
  split; try done.
  - by exists loop0.
  - intros c conn E. change (({[ 2%nat := conn0 ]} : gmap loc TcpConnection) !! c = Some conn) in E.
    apply lookup_singleton_Some in E as [<- <-]. split; try done; by apply new_RingBuffer_inv.
  - intros c ch E. apply (world0_chan 100) in E as [-> ->]. by split.
  - intros lp fd c ->%Hlp. simpl. intros [<- <-]%lookup_singleton_Some. done.
  - intros lp fd ev c ->%Hlp E.
    change (({[ 9 := (Z.lor kReadEvent EPOLLET, 1%nat) ]} : gmap Z (Z * loc)) !! fd = Some (ev, c)) in E.
    apply lookup_singleton_Some in E as [<- [= <- <-]]. done.
  - intros lp ->%Hlp. constructor.
  - intros name c. simpl. intros [<- <-]%lookup_singleton_Some. by eexists.
  - intros c Hge. simpl in Hge. split; apply lookup_singleton_ne; lia.
Qed.

Lemma turn_type_safe_witness :
  ∃ w', EventLoop_iterate (run_callback no_handlers no_spi) exec destroy_functor 0%nat
          (ready_world (concat (wire <$> two_packets))) = Ok (tt, w') ∧
    typed 0%nat w' ∧ length (gs_workerTasks (w_gs w')) = 1%nat.
Proof.
  pose proof (turn_type_safe no_handlers no_spi 0%nat (ready_world (concat (wire <$> two_packets)))
    (λ cmd h p id w E, ltac:(discriminate E)) (λ p id w, safely_ret _ tt _ w I)
    (ready_world_typed _)) as Ht.
  destruct (EventLoop_iterate _ _ _ _ _) as [[[] w']|e] eqn:E.
  - exists w'. split; [reflexivity|]. split; [exact Ht|]. vm_compute in E. injection E as <-. reflexivity.
  - vm_compute in E. discriminate E.
Defined.
