(* ===== verification/GatewayMain.v ===== *)
(** * The gateway's main

    [base/Logger] and [HPGateway/src/main.cpp]: the logger, the configuration,
    the server and its loop, put together. The signal handler clears a flag that
    nothing reads, so that the program never ends by itself; with no IO threads
    it has no undefined behaviour, and with the configuration it is shipped with
    it aborts when the first client connects. *)
From S2P Require Import Prelude RingBuffer Protocol World Reactor Sockets Connection SimKernel.
From S2P Require Import Server Gateway Registry GatewayFacts Config Structs GatewayApi Scenarios.
From S2P Require Import Typing Safety SafeLoop.

(** ** Logger *)

(** [spdlog::level] *)
Inductive log_level_t : Type := trace | debug | info | warn | err | critical.

#[export] Instance log_level_eq_dec : EqDecision log_level_t.
Proof. solve_decision. Defined.

(** the level that [Logger::Init] sets *)
Definition level_of (level : string) : log_level_t :=
  if decide (level = "trace") then trace
  else if decide (level = "debug") then debug
  else if decide (level = "info") then info
  else if decide (level = "warn") then warn
  else if decide (level = "error") then err
  else if decide (level = "fatal") then critical
  else info.

(** the singleton [Logger::Instance()]: the name and the level of [logger_] *)
Record Logger : Type := mkLogger { logger_ : option (string * log_level_t) }.
Definition new_Logger : Logger := mkLogger None.

(** [Logger::Init]; [made] tells whether spdlog makes the sinks and the logger,
    or throws *)
Definition Logger_Init (made : bool) (name level : string) (lg : Logger) : bool * Logger :=
  if made then (true, mkLogger (Some (name, level_of level))) else (false, lg).

(** the macros [LOG_TRACE] to [LOG_ERROR] follow the pointer to the logger *)
Definition LOG (lg : Logger) : outcome unit := _ ← deref (logger_ lg); Ok tt.

(** ** main *)

(** the handler of SIGINT and SIGTERM, on the flag [g_running]; no function
    reads the flag, and it is no part of the state of [main] *)
Definition SignalHandler (lg : Logger) (sig g_running : Z) : outcome Z := _ ← LOG lg; Ok 0.

Section main.
Context {K : Type} `{Kernel K}.
Abbreviation W := (World K).
Abbreviation S := (GatewayApiImpl * World K)%type.

(** whether the calls of [Init] succeed; the configuration file; the address
    on the stack and the indeterminate member of the server *)
Context (made1 made2 : bool) (file : option string) (stack_addr : sockaddr_in) (indeterminate : Z).

(** the logger and the configuration *)
Definition main_config : outcome (Logger * GatewayConfig) :=
  let lg := (Logger_Init made1 "gateway" "info" new_Logger).2 in
  r ← LoadConfig file default_config;
  _ ← LOG lg;
  let cfg := r.2 in
  let lg := if decide (logLevel cfg = "info") then lg
            else (Logger_Init made2 "gateway" (logLevel cfg) lg).2 in
  Ok (lg, cfg).

(** the locals of [main] are destroyed from the last to the first *)
Definition main (fuel : nat) : M S Z :=
  r ← lift main_config;
  let '(lg, cfg) := r in
  lift (LOG lg);;
  let listenAddr := sockets_FromIpPort (tradeBindIp cfg) (tradePort cfg) stack_addr in
  loop ← in_world new_EventLoop;
  in_world (new_GatewayServer loop listenAddr indeterminate (heartbeatTimeout cfg));;
  in_world (GatewayServer_SetThreadNum (ioThreadNum cfg));;
  in_world (GatewayServer_SetWorkerThreadNum (workerThreadNum cfg));;
  Init (mret tt);;
  in_world GatewayServer_Start;;
  lift (LOG lg);;
  in_world (gateway_Loop ∅ (λ _ _, mret tt) fuel loop);;
  Release (λ _, mret tt);;
  lift (LOG lg);;
  Release (λ _, mret tt);;
  in_world (delete_GatewayServer;; delete_TcpServer GatewayServer_OnConnection;;
            delete_EventLoop destroy_functor loop);;
  mret 0.
End main.

(** [conf/gateway.yaml], as it is shipped, without its comments *)
Definition shipped_config : string :=
  String.concat (String LF EmptyString) [
    "gateway:";
    "  trade_bind_ip: " ++ String QUOTE EmptyString ++ "0.0.0.0" ++ String QUOTE EmptyString ++ "";
    "  trade_port: 8001";
    "  quote_bind_ip: " ++ String QUOTE EmptyString ++ "0.0.0.0" ++ String QUOTE EmptyString ++ "";
    "  quote_port: 8002";
    "  io_thread_num: 4";
    "  worker_thread_num: 4";
    "  max_connections: 10000";
    "  heartbeat_timeout: 60";
    "  log_level: " ++ String QUOTE EmptyString ++ "info" ++ String QUOTE EmptyString ++ ""
  ]%string.

Lemma shipped_config_is_default : LoadConfig (Some shipped_config) default_config = Ok (true, default_config).
Proof. vm_compute. reflexivity. Qed.

(** ** Nothing stops the loop *)

Section quit.
Context {K : Type} `{Kernel K}.
Abbreviation W := (World K).
Implicit Types (c l : loc) (w : W).

(** no loop is told to stop, or to go on *)
Definition keeps_quit : relation W := λ w w',
  ∀ l, el_quit <$> w_loops w' !! l = el_quit <$> w_loops w !! l.

#[export] Instance keeps_quit_preorder : PreOrder keeps_quit.
Proof. split; [by intros w l|]. intros w1 w2 w3 E1 E2 l. by rewrite E2, E1. Qed.

Lemma keeps_quit_sys {A} (f : K → A * K) : preserves keeps_quit (sys f).
Proof. by intros w a w' [= _ <-] l. Qed.
Lemma keeps_quit_alloc : preserves keeps_quit alloc.
Proof. by intros w a w' [= _ <-] l. Qed.
Lemma keeps_quit_modify (f : W → W) :
  (∀ w, w_loops (f w) = w_loops w) → preserves keeps_quit (modify f).
Proof. intros Hf. apply (preserves_modify keeps_quit). intros w l. by rewrite Hf. Qed.
Lemma keeps_quit_mod_loop l f :
  (∀ lp, el_quit (f lp) = el_quit lp) → preserves keeps_quit (mod_loop l f).
Proof.
  intros Hf w u w' (lp & E & ->)%mod_loop_inv l'. rs. destruct (decide (l' = l)) as [->|].
  - rewrite lookup_insert_eq, E. simpl. by rewrite Hf.
  - by rewrite lookup_insert_ne.
Qed.
End quit.

#[export] Hint Resolve keeps_quit_sys keeps_quit_alloc : frame.
#[export] Hint Extern 1 (preserves keeps_quit (mod_loop _ _)) =>
  apply keeps_quit_mod_loop; by intros [] : frame.
#[export] Hint Extern 1 (preserves keeps_quit (modify _)) => apply keeps_quit_modify; by intros [] : frame.

Section quit_frames.
Context {K : Type} `{Kernel K}.
Abbreviation W := (World K).
Abbreviation R := (keeps_quit (K := K)).
Implicit Types (c l : loc) (w : W).
Context (dispatcher_ : PacketDispatcher W) (spi_OnMessage : Packet → Z → M W unit).
Context (Hdispatch : ∀ cmd h p id, dispatcher_ !! cmd = Some h → preserves R (action (h p id))).
Context (Hspi : ∀ p id, preserves R (spi_OnMessage p id)).

Lemma quit_Update c : preserves R (Channel_Update c).
Proof. frame_tac. Qed.
Lemma quit_Remove c : preserves R (Channel_Remove c).
Proof. frame_tac. Qed.
Lemma quit_Queue l f : preserves R (EventLoop_QueueInLoop l f).
Proof. frame_tac. Qed.
#[local] Hint Resolve quit_Update quit_Remove quit_Queue : frame.
Lemma quit_SendInLoop c d : preserves R (TcpConnection_SendInLoop c d).
Proof. frame_tac. Qed.
Lemma quit_OnConnection c : preserves R (GatewayServer_OnConnection c).
Proof. frame_tac. Qed.
#[local] Hint Resolve quit_SendInLoop quit_OnConnection : frame.
Lemma quit_OnPacket p id : preserves R (GatewayServer_OnPacket dispatcher_ spi_OnMessage p id).
Proof. apply preserves_OnPacket; [exact _|done|done|intros; frame_tac..]. Qed.
Lemma quit_Codec c : preserves R (Codec_OnMessage dispatcher_ spi_OnMessage c).
Proof. apply preserves_Codec_OnMessage; [exact _|apply quit_OnPacket|frame_tac|intros; frame_tac]. Qed.
#[local] Hint Resolve quit_Codec : frame.
Lemma quit_NewConnection fd peer : preserves R (TcpServer_NewConnection GatewayServer_OnConnection fd peer).
Proof. frame_tac. Qed.
#[local] Hint Resolve quit_NewConnection : frame.
Lemma quit_callback cb t : preserves R (run_callback dispatcher_ spi_OnMessage cb t).
Proof. destruct cb; simpl; frame_tac. Qed.
Lemma quit_exec f : preserves R (exec f).
Proof. destruct f; simpl; frame_tac. Qed.
Lemma quit_destroy f : preserves R (destroy_functor f).
Proof. frame_tac. Qed.
#[local] Hint Resolve quit_callback quit_exec quit_destroy : frame.
Lemma quit_HandleEvent c t :
  preserves R (Channel_HandleEvent (run_callback dispatcher_ spi_OnMessage) c t).
Proof. frame_tac. Qed.
#[local] Hint Resolve quit_HandleEvent : frame.
Lemma quit_iterate l :
  preserves R (EventLoop_iterate (run_callback dispatcher_ spi_OnMessage) exec destroy_functor l).
Proof. frame_tac. Qed.

Lemma while_never_returns fuel l w r :
  el_quit <$> w_loops w !! l = Some false →
  EventLoop_while (run_callback dispatcher_ spi_OnMessage) exec destroy_functor fuel l w ≠ Ok r.
Proof.
  revert w. induction fuel as [|fuel IH]; intros w Hq E; [done|]. simpl in E.
  destruct r as [u w']. apply runM_bind_inv in E as (lp & w1 & [El ->]%get_loop_inv & E).
  rewrite El in Hq. injection Hq as Hq. rewrite Hq in E.
  apply runM_bind_inv in E as (u1 & w1 & E1 & E). apply (IH w1) in E; [done|].
  apply quit_iterate in E1. by rewrite E1, El, <- Hq.
Qed.
Lemma Loop_never_returns fuel l w r : gateway_Loop dispatcher_ spi_OnMessage fuel l w ≠ Ok r.
Proof.
  unfold gateway_Loop, EventLoop_Loop. destruct r as [u w']. intros E.
  apply runM_bind_inv in E as (lp & w1 & _ & E). apply runM_bind_inv in E as (u1 & w2 & _ & E).
  apply runM_bind_inv in E as (u2 & w3 & _ & E).
  apply runM_bind_inv in E as (u3 & w4 & (lp' & El & ->)%mod_loop_inv & E).
  apply runM_bind_inv in E as (u5 & w5 & E & _). revert E. apply while_never_returns.
  rs. by rewrite lookup_insert_eq.
Qed.
End quit_frames.

(** ** Properties *)

Section main_facts.
Context {K : Type} `{Kernel K}.
Abbreviation W := (World K).
Implicit Types w : W.

Lemma run_in_world {A B} (m : M W A) (k : A → M (GatewayApiImpl * W) B) a w :
  (x ← in_world m; k x) (a, w) = match m w with Ok (x, w') => k x (a, w') | Fail e => Fail e end.
Proof. rewrite runM_bind. unfold in_world. simpl. by destruct (m w) as [[x w']|e]. Qed.

Lemma run_log {A} lg (k : M (GatewayApiImpl * W) A) s :
  LOG lg = Ok tt → (lift (LOG lg);; k) s = k s.
Proof. intros E. rewrite runM_bind. unfold lift. by rewrite E. Qed.
Lemma run_Init {A} (k : bool → M (GatewayApiImpl * W) A) a w :
  ∃ a', (b ← Init (mret tt); k b) (a, w) = k true (a', w).
Proof.
  exists (mkApi (ga_spi a) true (ga_seq a) (ga_currentConnId a) (ga_pendingRequests a)).
  rewrite runM_bind. unfold Init, set_initialized, get_api, put_api. destruct a as [[] ? ? ? ?]; reflexivity.
Qed.

(** up to the loop, [main] is [main_setup], and it does not get past the loop *)
Lemma main_runs made1 made2 file addr ind fuel a w lg cfg :
  main_config made1 made2 file = Ok (lg, cfg) → is_Some (logger_ lg) →
  match main made1 made2 file addr ind fuel (a, w) with
  | Ok _ => False
  | Fail e => (l ← main_setup (tradeBindIp cfg) (tradePort cfg) (ioThreadNum cfg) (workerThreadNum cfg)
                     (heartbeatTimeout cfg) addr ind;
               gateway_Loop ∅ (λ _ _, mret tt) fuel l) w = Fail e
  end.
Proof.
  intros Ec [x Ex]. unfold main. rewrite runM_bind. unfold lift at 1. rewrite Ec.
  cbn [mbind outcome_bind].
  assert (El : LOG lg = Ok tt) by (unfold LOG; by rewrite Ex). rewrite run_log by done.
  rewrite (runM_bind (main_setup _ _ _ _ _ _ _)). unfold main_setup.
  rewrite run_in_world, runM_bind. destruct (new_EventLoop w) as [[l w1]|e]; [|done].
  rewrite run_in_world, runM_bind. destruct (new_GatewayServer _ _ _ _ w1) as [[[] w2]|e]; [|done].
  rewrite run_in_world, runM_bind. destruct (GatewayServer_SetThreadNum _ w2) as [[[] w3]|e]; [|done].
  rewrite run_in_world, runM_bind. destruct (GatewayServer_SetWorkerThreadNum _ w3) as [[[] w4]|e]; [|done].
  match goal with |- context [(Init _ ≫= ?k) (a, w4)] => destruct (run_Init k a w4) as [a' ->] end.
  rewrite run_in_world, runM_bind. destruct (GatewayServer_Start w4) as [[[] w5]|e]; [|done].
  rewrite run_log by done. rewrite run_in_world. cbn [mret M_ret].
  destruct (gateway_Loop _ _ _ l w5) as [[[] w6]|e] eqn:E; [|done].
  exfalso. revert E. apply Loop_never_returns; [by intros ? ? ? ? ?|]. intros p id. apply preserves_ret, _.
Qed.

(** the first [LOG] comes after the first [Init], whose result is ignored *)
Lemma main_config_logs made2 file :
  ∀ r, main_config true made2 file = Ok r → is_Some (logger_ r.1).
Proof.
  unfold main_config. intros r E. inv_bind E as x Ex. simpl in E. injection E as <-. simpl.
  case_decide; [by eexists|]. destruct made2; by eexists.
Qed.
End main_facts.


(** C6: The gateway with one thread has no undefined behaviour. When the logger
    can be made and the configuration, parsed, asks for no IO threads, [main],
    started in a store without objects and run for any number of turns of its
    loop, never follows a dangling pointer, never accesses a buffer out of
    bounds and never overflows the counter of connections, whatever the peers
    send and the kernel answers, as long as fewer than 2^31 - 1 clients
    connect. *)
Theorem main_safe {K} `{SafeLaws K} made2 file cfg found addr ind fuel a (w : World K) :
  LoadConfig file default_config = Ok (found, cfg) → ioThreadNum cfg = 0 →
  w_loops w = ∅ → w_chans w = ∅ → w_conns w = ∅ → 1 + accepts_left (w_kern w) < 2 ^ 31 →
  main true made2 file addr ind fuel (a, w) ≠ Fail UndefinedBehaviour.
Proof.
  intros Ec Eio El Eh En Hn E.
  assert (∃ lg, main_config true made2 file = Ok (lg, cfg)) as [lg Em]
    by (unfold main_config; rewrite Ec; by eexists).
  pose proof (main_runs true made2 file addr ind fuel a w lg cfg Em
    (main_config_logs made2 file _ Em)) as Hm.
  rewrite E, Eio in Hm. revert Hm. by apply gateway_main_safe.
Qed.

(** A logger that cannot be made is followed. When spdlog throws in the first
    [Init], as when the file of the log cannot be opened, [Init] returns false
    and leaves the pointer to the logger empty; [main] ignores the result, and
    the first message it logs dereferences the pointer. *)
Theorem main_logs_null {K} `{Kernel K} made2 file cfg found addr ind fuel a (w : World K) :
  LoadConfig file default_config = Ok (found, cfg) →
  main false made2 file addr ind fuel (a, w) = Fail UndefinedBehaviour.
Proof.
  intros Ec. unfold main. rewrite runM_bind. unfold lift at 1, main_config. by rewrite Ec.
Qed.

(** ** Witnesses *)

(** the state of the process before [main], and a client that connects and
    sends an order and a heartbeat request *)
Definition blank_world : World sim :=
  mkWorld (mkSim ∅ ∅ ∅ 100 {[ 9 := [concat (wire <$> two_packets)] ]}
             [[(2%nat, EPOLLIN)]; [(5%nat, EPOLLIN)]] [(9, addr0)] 1000 20)
    77 0%nat ∅ ∅ ∅ ∅ server0 (mkConnectionManager ∅ 1) ∅ gs0.

Definition one_thread_config : string := ("io_thread_num: 0" ++ String LF EmptyString)%string.

Lemma main_safe_witness :
  main true true (Some one_thread_config) addr0 0 3 (new_GatewayApiImpl, blank_world) = Fail OutOfFuel ∧
  main true true (Some one_thread_config) addr0 0 3 (new_GatewayApiImpl, blank_world)
    ≠ Fail UndefinedBehaviour.
Proof.
  split; [vm_compute; reflexivity|].
  eapply (main_safe true (Some one_thread_config) _ true addr0 0 3 new_GatewayApiImpl blank_world);
    [vm_compute; reflexivity|reflexivity..].
Defined.

Lemma main_logs_null_witness :
  main false true (Some shipped_config) addr0 0 3 (new_GatewayApiImpl, blank_world) =
    Fail UndefinedBehaviour.
Proof.
  exact (main_logs_null true (Some shipped_config) default_config true addr0 0 3 new_GatewayApiImpl
    blank_world shipped_config_is_default).
Defined.

(** ** The first client of the gateway as it is shipped *)

(** one turn of a loop, of the gateway without handlers *)
Definition turn l : M (World sim) unit :=
  EventLoop_iterate (run_callback no_handlers no_spi) exec destroy_functor l.

(** the main loop turns once and accepts the client; then the first IO thread
    runs *)
Definition first_client (cfg : GatewayConfig) : M (World sim) loc :=
  l ← main_setup (tradeBindIp cfg) (tradePort cfg) (ioThreadNum cfg) (workerThreadNum cfg)
        (heartbeatTimeout cfg) addr0 0;
  turn l;;
  s ← gets w_server;
  io ← lift (deref (head (tp_loops (ts_threadPool s))));
  lp ← get_loop io;
  modify (set_w_tid (el_threadId lp));;
  mret io.

(** The shipped configuration asks for four IO threads: when a client connects,
    its connection is established in one of them, where [OnConnection] finds
    that it is not in the main loop's thread, and the gateway aborts. *)
Lemma shipped_gateway_aborts :
  LoadConfig (Some shipped_config) default_config = Ok (true, default_config) ∧
  match first_client default_config blank_world with
  | Ok (io, w) => turn io w = Fail LogFatal
  | Fail _ => False
  end.
Proof. split; [apply shipped_config_is_default|]. vm_compute. reflexivity. Qed.
