(* ===== verification/Session.v ===== *)
(** * A session of the client with the gateway

    The command-line client and the gateway on the two ends of a connection:
    what the one writes comes to the other in order, cut in any way, at any
    time. No code of the program: theorems about [api_cli/ApiClient] and
    [gateway/GatewayServer] together. *)
From S2P Require Import Prelude RingBuffer Protocol World Reactor Sockets Connection SimKernel.
From S2P Require Import Server Gateway Registry GatewayFacts Scenarios ApiClient.

(** ** The two ends *)

(** what the client has given to its socket: [writev] appends the bytes it
    takes, and receiving and sending do not meet *)
Class ClientNet (K : Type) `{ClientLaws K} : Type := {
  outgoing : K → Z → list byte;
  writev_out fd iov k :
    outgoing (os_writev fd iov k).2 fd =
      outgoing k fd ++ take (Z.to_nat (os_writev fd iov k).1) (concat iov);
  writev_in fd iov k : incoming (os_writev fd iov k).2 fd = incoming k fd;
  recv_out fd n k : outgoing (os_recv fd n k).2 fd = outgoing k fd;
}.

(** [writev] takes whole requests; the client does not look whether it did *)
Definition takes_whole {K} `{ClientOS K} (fd : Z) : Prop :=
  ∀ iov k, (os_writev fd iov k).1 = Z.of_nat (length (concat iov)).

(** a request: a command and a body, that fit the fields and the codec's limit *)
Abbreviation request := (Z * list byte)%type.
Definition request_wf (r : request) : Prop :=
  0 ≤ r.1 < 2 ^ 16 ∧ kHeaderLength + Z.of_nat (length r.2) ≤ max_packet.

(** the packets of requests, numbered from [q] *)
Definition packets (q : Z) (rs : list request) : list Packet :=
  imap (λ i r, Encode r.1 (u32 (q + Z.of_nat i)) r.2) rs.

(** the responses to the heartbeats among [ps] *)
Definition replies (ps : list Packet) : list Packet :=
  (λ p, heartbeat_rsp (h_seq (header p))) <$> filter (λ p, Cmd p = cmd_code kCmdHeartbeatReq) ps.

(** how the client shows a packet *)
Definition printed (p : Packet) : response :=
  mkResponse (cmdName (Cmd p)) (Cmd p) (h_seq (header p)) (body p) (show_body (Cmd p) (body p)).

Section session.
Context {KC KG : Type} `{ClientNet KC} `{SocketLaws KG}.
Context (dispatcher_ : PacketDispatcher (World KG)) (spi_OnMessage : Packet → Z → M (World KG) unit).

(** the client's descriptor; the gateway's connection, its channel and its
    descriptor, the loop and the client's id *)
Context (cfd : Z) (c chan l : loc) (fd id : Z).

(** the client, the gateway, and how many bytes each has had of the other *)
Record session : Type := mkSession {
  ss_client : cstate KC;
  ss_gateway : World KG;
  ss_up : nat;
  ss_down : nat;
}.

(** One step of the session, the requests it sends, and its outcome:
    the client sends a request, bytes arrive at the client, the client receives
    a packet that has come whole; the gateway's loop finds the connection
    readable, with some of the bytes on the way, or writable. *)
Inductive session_step (s : session) : list request → outcome session → Prop :=
| step_request cmd data :
    request_wf (cmd, data) →
    session_step s [(cmd, data)]
      (r ← SendRequest cmd data (ss_client s);
       Ok (mkSession r.2 (ss_gateway s) (ss_up s) (ss_down s)))
| step_arrive d more k :
    drop (ss_down s) (sent (w_kern (ss_gateway s)) fd) = d ++ more →
    incoming k cfd = incoming (c_kern (ss_client s)) cfd ++ d →
    outgoing k cfd = outgoing (c_kern (ss_client s)) cfd →
    session_step s []
      (Ok (mkSession (mkC (c_client (ss_client s)) (c_out (ss_client s)) k) (ss_gateway s)
             (ss_up s) (ss_down s + length d)))
| step_receive timeoutMs p rest :
    next_frame (incoming (c_kern (ss_client s)) cfd) = Frame p rest →
    session_step s []
      (r ← RecvPacket None timeoutMs (ss_client s);
       Ok (mkSession r.2 (ss_gateway s) (ss_up s) (ss_down s)))
| step_readable conn data more t :
    w_conns (ss_gateway s) !! c = Some conn →
    (sys_readv fd (ReadFd_iov (tc_inputBuffer conn)) (w_kern (ss_gateway s))).1 = readv_ok data →
    data ≠ [] →
    drop (ss_up s) (outgoing (c_kern (ss_client s)) cfd) = data ++ more →
    buffer_size (tc_inputBuffer conn) + Z.of_nat (length data) < 2 ^ 63 →
    session_step s []
      (r ← run_callback dispatcher_ spi_OnMessage (CbConnRead c) t (ss_gateway s);
       Ok (mkSession (ss_client s) r.2 (ss_up s + length data) (ss_down s)))
| step_writable t :
    session_step s []
      (r ← run_callback dispatcher_ spi_OnMessage (CbConnWrite c) t (ss_gateway s);
       Ok (mkSession (ss_client s) r.2 (ss_up s) (ss_down s))).

(** [runs s rs o]: some steps from [s], that send the requests [rs], end in [o] *)
Inductive runs (s : session) : list request → outcome session → Prop :=
| runs_start : runs s [] (Ok s)
| runs_step rs s1 rs1 o : runs s rs (Ok s1) → session_step s1 rs1 o → runs s (rs ++ rs1) o.

(** nothing is on the way, and no packet waits at the client *)
Definition drained (s : session) : Prop :=
  length (outgoing (c_kern (ss_client s)) cfd) = ss_up s ∧
  length (sent (w_kern (ss_gateway s)) fd) = ss_down s ∧
  incoming (c_kern (ss_client s)) cfd = [] ∧
  ∃ conn, w_conns (ss_gateway s) !! c = Some conn ∧ contents (tc_outputBuffer conn) = [].

(** A connected client, whose next number is [q], and the gateway that serves
    it; nothing has been sent. *)
Record opened (q cap : Z) (s : session) : Prop := {
  op_client : ss_client s = mkC (mkClient cfd q) [] (c_kern (ss_client s));
  op_incoming : incoming (c_kern (ss_client s)) cfd = [];
  op_outgoing : outgoing (c_kern (ss_client s)) cfd = [];
  op_serving : serving c l chan fd cap id [] [] (ss_gateway s);
  op_loop : gs_loop (w_gs (ss_gateway s)) = l;
  op_input conn : w_conns (ss_gateway s) !! c = Some conn → contents (tc_inputBuffer conn) = [];
  op_counts : ss_up s = 0%nat ∧ ss_down s = 0%nat;
}.

(** The session has sent [rs], from the number [q]. The gateway has handled the
    packets [served], and the client has shown the packets [got]; [later] and
    [pending] are what is still on the way. *)
Record agrees (q cap : Z) (rs : list request) (served later got pending : list Packet)
    (s : session) : Prop := {
  ag_client : c_client (ss_client s) = mkClient cfd (u32 (q + Z.of_nat (length rs)));
  ag_shown : c_out (ss_client s) = printed <$> got;
  ag_requests : packets q rs = served ++ later;
  ag_replies : replies served = got ++ pending;
  ag_serving : serving c l chan fd (cap + 12 * Z.of_nat (length served)) id
    (concat (wire <$> replies served)) (work id served) (ss_gateway s);
  ag_loop : gs_loop (w_gs (ss_gateway s)) = l;
  ag_up : (ss_up s ≤ length (outgoing (c_kern (ss_client s)) cfd))%nat;
  ag_in conn : w_conns (ss_gateway s) !! c = Some conn →
    next_frame (contents (tc_inputBuffer conn)) = NeedMore ∧
    decodes (contents (tc_inputBuffer conn) ++
             drop (ss_up s) (outgoing (c_kern (ss_client s)) cfd)) later [] false;
  ag_down : (ss_down s ≤ length (concat (wire <$> replies served)))%nat;
  ag_out : incoming (c_kern (ss_client s)) cfd ++
    drop (ss_down s) (concat (wire <$> replies served)) = concat (wire <$> pending);
}.

(** ** Lemmas *)

Lemma packets_app q rs cmd data :
  packets q (rs ++ [(cmd, data)]) =
    packets q rs ++ [Encode cmd (u32 (q + Z.of_nat (length rs))) data].
Proof. unfold packets. rewrite imap_app. cbn [imap]. unfold compose. cbn [fst snd]. by rewrite Nat.add_0_r. Qed.

Lemma replies_app ps1 ps2 : replies (ps1 ++ ps2) = replies ps1 ++ replies ps2.
Proof. unfold replies. by rewrite filter_app, fmap_app. Qed.

Lemma replies_bytes ps : heartbeat_replies ps = concat (wire <$> replies ps).
Proof.
  induction ps as [|p ps IH]; [done|]. change (p :: ps) with ([p] ++ ps).
  rewrite replies_app, fmap_app, concat_app, <- IH. unfold heartbeat_replies. cbn [fmap list_fmap concat app].
  f_equal. unfold heartbeat_reply, replies. rewrite filter_cons, filter_nil.
  destruct (Z.eqb_spec (Cmd p) (cmd_code kCmdHeartbeatReq)).
  - by rewrite decide_True by done.
  - by rewrite decide_False by done.
Qed.

Lemma packets_wf q rs : Forall request_wf rs → Forall packet_wf (packets q rs).
Proof.
  intros Hrs. apply Forall_lookup. intros i p. unfold packets. rewrite list_lookup_imap.
  intros ([cmd data] & Hr & ->)%fmap_Some. destruct (Forall_lookup_1 _ _ _ _ Hrs Hr) as [? ?].
  apply Encode_wf; [done|apply u32_range|done].
Qed.

Lemma replies_wf ps : Forall packet_wf ps → Forall packet_wf (replies ps).
Proof.
  intros Hps. unfold replies. apply Forall_fmap, Forall_forall. intros p [_ Hp]%list_elem_of_filter.
  destruct (proj1 (Forall_forall _ _) Hps p Hp) as ((? & ? & ? & Hs) & _).
  unfold packet_wf, header_wf, kHeaderLength, max_packet. cbn. split_and!; try done; lia.
Qed.

(** one whole packet at the front of the packets to come is the first of them *)
Lemma frame_of_wires s t p rest pending :
  Forall packet_wf pending → s ++ t = concat (wire <$> pending) → next_frame s = Frame p rest →
  ∃ pending', pending = p :: pending' ∧ s = wire p ++ rest ∧
    rest ++ t = concat (wire <$> pending').
Proof.
  intros Hwf E Hf. apply (next_frame_app _ t) in Hf as Hft. rewrite E in Hft.
  destruct pending as [|p' pending'].
  { discriminate Hft. }
  cbn [fmap list_fmap concat] in *. inversion_clear Hwf.
  rewrite next_frame_wire in Hft by done. injection Hft as <- Er.
  exists pending'. split; [done|]. split; [|done]. rewrite Er, (assoc_L (++)) in E.
  by apply app_inv_tail in E.
Qed.

Lemma wire_nonempty p : wire p ≠ [].
Proof. by intros E%(f_equal length). Qed.

(** a write event *)
Lemma HandleWrite_serving cap acc tasks w t :
  serving c l chan fd cap id acc tasks w →
  wp never (run_callback dispatcher_ spi_OnMessage (CbConnWrite c) t)
    (λ _ w', serving c l chan fd cap id acc tasks w' ∧ gframe w w') w.
Proof.
  intros (Hs & Hr). cbn [run_callback]. eapply wp_post.
  { apply (wp_frame gframe); [frame_tac|by eapply HandleWrite_ok]. }
  intros [] w' [Hs' Hf]. split; [|done]. split; [done|].
  destruct Hf as (-> & -> & Hi). by rewrite option_fmap_compose, Hi, <- option_fmap_compose.
Qed.

(** what was written and what is to be written is what was accepted *)
Lemma serving_stream cap acc tasks w :
  serving c l chan fd cap id acc tasks w →
  ∃ conn, w_conns w !! c = Some conn ∧ sent (w_kern w) fd ++ contents (tc_outputBuffer conn) = acc.
Proof. intros ((conn & ch & lp & Hok & Hs & _) & _). exists conn. split; [apply Hok|done]. Qed.

(** ** Every step keeps the agreement *)

Context (q cap : Z) (Hdel : delivers (K := KC) cfd) (Htake : takes_whole (K := KC) cfd).
Context (Hreset : never_resets (K := KG) fd) (Hcfd : 0 ≤ cfd) (Hid : 0 < id) (Hcap : 0 ≤ cap).

Lemma agrees_request rs served later got pending s cmd data :
  agrees q cap rs served later got pending s → request_wf (cmd, data) →
  ∃ r, SendRequest cmd data (ss_client s) = Ok r ∧
    ∃ later', agrees q cap (rs ++ [(cmd, data)]) served later' got pending
      (mkSession r.2 (ss_gateway s) (ss_up s) (ss_down s)).
Proof.
  intros Ha [Hcmd Hlen]. cbn [fst snd] in *.
  set (seq := u32 (q + Z.of_nat (length rs))).
  eexists. split.
  { rewrite SendRequest_writes; rewrite (ag_client _ _ _ _ _ _ _ _ Ha); done. }
  cbn [snd sockfd_ seq_]. fold seq.
  set (iov := [request_header cmd seq (Z.of_nat (length data)); data]).
  set (k := (os_writev _ iov _).2). exists (later ++ [Encode cmd seq data]).
  assert (Ek : outgoing k cfd = outgoing (c_kern (ss_client s)) cfd ++ wire (Encode cmd seq data)).
  { unfold k. cbn [sockfd_]. rewrite writev_out, Htake, Nat2Z.id, take_ge by done.
    unfold iov. by rewrite request_wire. }
  destruct Ha as [Hc Ho Hrq Hrp Hs Hl Hup Hi Hd Hdn].
  split; cbn [ss_client ss_gateway ss_up ss_down c_client c_out c_kern]; try done.
  - f_equal. rewrite length_app. cbn [length].
    unfold seq, u32. rewrite Zplus_mod_idemp_l. f_equal. lia.
  - rewrite packets_app, Hrq. by rewrite <- (assoc_L (++)).
  - rewrite Ek, length_app. lia.
  - intros conn Hconn. destruct (Hi conn Hconn) as [Hn Hdec]. split; [done|].
    rewrite Ek, drop_app_le, (assoc_L (++)) by done.
    eapply decodes_app; [done|]. cbn [app].
    pose proof (decodes_wires [Encode cmd seq data] []) as Hw. cbn in Hw.
    rewrite !(right_id_L [] (++)) in Hw. apply Hw; [|lia]. constructor; [|done].
    apply Encode_wf; [done|apply u32_range|done].
  - unfold k. cbn [sockfd_]. by rewrite writev_in.
Qed.

Lemma agrees_arrive rs served later got pending s d more k :
  agrees q cap rs served later got pending s →
  drop (ss_down s) (sent (w_kern (ss_gateway s)) fd) = d ++ more →
  incoming k cfd = incoming (c_kern (ss_client s)) cfd ++ d →
  outgoing k cfd = outgoing (c_kern (ss_client s)) cfd →
  agrees q cap rs served later got pending
    (mkSession (mkC (c_client (ss_client s)) (c_out (ss_client s)) k) (ss_gateway s)
       (ss_up s) (ss_down s + length d)).
Proof.
  intros [Hc Ho Hrq Hrp Hs Hl Hup Hi Hd Hdn] Ed Ei Eo.
  destruct (serving_stream _ _ _ _ Hs) as (conn0 & Hconn0 & Hall).
  split; cbn [ss_client ss_gateway ss_up ss_down c_client c_out c_kern]; try done.
  - by rewrite Eo.
  - intros conn Hconn. rewrite Eo. by apply Hi.
  - rewrite <- Hall, length_app. apply (f_equal length) in Ed.
    rewrite length_drop, length_app in Ed. destruct d; simpl in *; [|lia].
    rewrite <- Hall, length_app in Hd. lia.
  - rewrite <- Hdn, Ei, <- (assoc_L (++)), <- drop_drop. f_equal.
    destruct (decide (d = [])) as [->|Hne]; [by rewrite drop_0|].
    assert (ss_down s ≤ length (sent (w_kern (ss_gateway s)) fd))%nat.
    { apply (f_equal length) in Ed. rewrite length_drop, length_app in Ed.
      destruct d; [done|]. simpl in Ed. lia. }
    rewrite <- Hall. rewrite drop_app_le, Ed, <- (assoc_L (++)), drop_app_length by done. done.
Qed.

Lemma agrees_receive rs served later got pending s timeoutMs p rest :
  agrees q cap rs served later got pending s → Forall request_wf rs →
  next_frame (incoming (c_kern (ss_client s)) cfd) = Frame p rest →
  ∃ r pending', RecvPacket None timeoutMs (ss_client s) = Ok r ∧
    agrees q cap rs served later (got ++ [p]) pending'
      (mkSession r.2 (ss_gateway s) (ss_up s) (ss_down s)).
Proof.
  intros [Hc Ho Hrq Hrp Hs Hl Hup Hi Hd Hdn] Hrs Hf.
  assert (Hwf : Forall packet_wf pending).
  { pose proof (packets_wf q rs Hrs) as Hw. rewrite Hrq in Hw.
    apply Forall_app in Hw as [Hw _]. apply replies_wf in Hw. rewrite Hrp in Hw.
    by apply Forall_app in Hw as [_ ?]. }
  destruct (frame_of_wires _ _ _ _ _ Hwf Hdn Hf) as (pending' & -> & Ein & Er).
  assert (Ep : h_cmd (header p) = cmd_code kCmdHeartbeatRsp).
  { assert (Hin : p ∈ replies served) by (rewrite Hrp; set_solver).
    apply list_elem_of_fmap in Hin as (p0 & -> & _). done. }
  destruct (RecvPacket_ok cfd (λ k, outgoing k cfd = outgoing (c_kern (ss_client s)) cfd)
    (λ n k E, eq_trans (recv_out cfd n k) E) None timeoutMs p rest (ss_client s))
    as (s' & Ei' & Eo' & (Ec & Eout) & E); [by rewrite Hc|done..|by inversion_clear Hwf|done|done|].
  unfold respond in E. rewrite Ep in E. cbn in E.
  eexists _, pending'. split; [exact E|].
  split; cbn [ss_client ss_gateway ss_up ss_down c_client c_out c_kern snd]; try done.
  - by rewrite Ec.
  - rewrite Eout, Ho, fmap_app. cbn. unfold printed, Cmd. by rewrite Ep.
  - by rewrite <- (assoc_L (++)).
  - by rewrite Eo'.
  - intros conn Hconn. rewrite Eo'. by apply Hi.
  - by rewrite Ei'.
Qed.

Lemma agrees_readable rs served later got pending s conn data more t :
  agrees q cap rs served later got pending s → cap + 12 * Z.of_nat (length rs) < 2 ^ 63 →
  w_conns (ss_gateway s) !! c = Some conn →
  (sys_readv fd (ReadFd_iov (tc_inputBuffer conn)) (w_kern (ss_gateway s))).1 = readv_ok data →
  data ≠ [] → drop (ss_up s) (outgoing (c_kern (ss_client s)) cfd) = data ++ more →
  buffer_size (tc_inputBuffer conn) + Z.of_nat (length data) < 2 ^ 63 →
  ∃ r served' later' pending',
    run_callback dispatcher_ spi_OnMessage (CbConnRead c) t (ss_gateway s) = Ok r ∧
    agrees q cap rs served' later' got pending'
      (mkSession (ss_client s) r.2 (ss_up s + length data) (ss_down s)).
Proof.
  intros [Hc Ho Hrq Hrp Hs Hl Hup Hi Hd Hdn] Hbound Hconn Hrd Hne Hmore Hsz.
  destruct (Hi conn Hconn) as [Hn Hdec]. rewrite Hmore, (assoc_L (++)) in Hdec.
  apply decodes_prefix in Hdec as (ps1 & ps2 & r1 & Hdec1 & Hdec2 & ->).
  assert (Hlen : length rs = (length served + (length ps1 + length ps2))%nat).
  { rewrite <- !length_app, <- Hrq. unfold packets. by rewrite length_imap. }
  destruct (wp_ok_inv _ _ _ (HandleRead_serving dispatcher_ spi_OnMessage c l chan fd _ id _ _ _
    conn data ps1 r1 t Hs Hreset Hl Hid Hconn Hrd Hne Hsz Hdec1 ltac:(lia) ltac:(lia)))
    as ([] & w' & E & conn' & now & Hs' & Hconn' & Hin' & _ & Hl').
  exists (tt, w'), (served ++ ps1), ps2, (pending ++ replies ps1). split; [exact E|].
  rewrite replies_bytes, <- concat_app, <- fmap_app, <- replies_app, <- work_app in Hs'.
  split; cbn [ss_client ss_gateway ss_up ss_down c_client c_out c_kern snd]; try done.
  - by rewrite <- (assoc_L (++)).
  - by rewrite replies_app, Hrp, (assoc_L (++)).
  - by rewrite length_app, Nat2Z.inj_add, Z.mul_add_distr_l, Z.add_assoc.
  - apply (f_equal length) in Hmore. rewrite length_drop, length_app in Hmore.
    destruct data; [done|]. simpl in *. lia.
  - intros conn2 Hconn2. assert (conn2 = conn') as -> by congruence. rewrite Hin'.
    rewrite <- drop_drop, Hmore, drop_app_length. split; [by eapply decodes_rest|done].
  - rewrite replies_app, fmap_app, concat_app, length_app. lia.
  - rewrite replies_app, !fmap_app, !concat_app, drop_app_le, (assoc_L (++)) by done. by rewrite Hdn.
Qed.

Lemma agrees_writable rs served later got pending s t :
  agrees q cap rs served later got pending s →
  ∃ r, run_callback dispatcher_ spi_OnMessage (CbConnWrite c) t (ss_gateway s) = Ok r ∧
    agrees q cap rs served later got pending (mkSession (ss_client s) r.2 (ss_up s) (ss_down s)).
Proof.
  intros [Hc Ho Hrq Hrp Hs Hl Hup Hi Hd Hdn].
  destruct (wp_ok_inv _ _ _ (HandleWrite_serving _ _ _ _ t Hs)) as ([] & w' & E & Hs' & Hg & _ & Hci).
  exists (tt, w'). split; [exact E|].
  split; cbn [ss_client ss_gateway ss_up ss_down c_client c_out c_kern snd]; try done.
  - by rewrite Hg.
  - intros conn' Hconn'. specialize (Hci c). rewrite Hconn' in Hci. symmetry in Hci.
    apply fmap_Some in Hci as (conn & Hconn & [= _ ->]). by apply Hi.
Qed.

(** a session that agrees goes on *)
Lemma agrees_step rs served later got pending s rs1 o :
  agrees q cap rs served later got pending s → session_step s rs1 o → Forall request_wf rs →
  cap + 12 * Z.of_nat (length (rs ++ rs1)) < 2 ^ 63 →
  Forall request_wf (rs ++ rs1) ∧ ∃ s' served' later' got' pending',
    o = Ok s' ∧ agrees q cap (rs ++ rs1) served' later' got' pending' s'.
Proof.
  intros Ha Hstep Hrs Hbound. destruct Hstep as [cmd data Hwf|d more k Ed Ei Eo|timeoutMs p rest Hf|
    conn data more t Hconn Hrd Hne Hmore Hsz|t].
  2-5: rewrite (right_id_L [] (++)) in *; split; [done|].
  - split; [by apply Forall_app_2, Forall_singleton|].
    destruct (agrees_request _ _ _ _ _ _ _ _ Ha Hwf) as (r & -> & later' & Ha'). by eexists _, _, _, _, _.
  - eexists _, _, _, _, _. split; [done|]. by eapply agrees_arrive.
  - destruct (agrees_receive _ _ _ _ _ _ timeoutMs _ _ Ha Hrs Hf) as (r & pending' & -> & Ha').
    by eexists _, _, _, _, _.
  - destruct (agrees_readable _ _ _ _ _ _ _ _ _ t Ha Hbound Hconn Hrd Hne Hmore Hsz)
      as (r & served' & later' & pending' & -> & Ha'). by eexists _, _, _, _, _.
  - destruct (agrees_writable _ _ _ _ _ _ t Ha) as (r & -> & Ha'). by eexists _, _, _, _, _.
Qed.

Lemma agrees_runs s0 rs o :
  agrees q cap [] [] [] [] [] s0 → runs s0 rs o → cap + 12 * Z.of_nat (length rs) < 2 ^ 63 →
  Forall request_wf rs ∧ ∃ s served later got pending,
    o = Ok s ∧ agrees q cap rs served later got pending s.
Proof.
  intros Ha0 Hruns. induction Hruns as [|rs s1 rs1 o Hruns IH Hstep]; intros Hbound.
  { split; [done|]. by eexists _, _, _, _, _. }
  destruct IH as (Hrs & s & served & later & got & pending & [= <-] & Ha).
  { rewrite length_app in Hbound. lia. }
  by eapply agrees_step.
Qed.

(** when nothing is on the way, everything was served and shown *)
Lemma agrees_drained rs served later got pending s :
  agrees q cap rs served later got pending s → drained s → later = [] ∧ pending = [].
Proof.
  intros [Hc Ho Hrq Hrp Hs Hl Hup Hi Hd Hdn] (Eup & Edn & Ein & conn & Hconn & Eout).
  destruct (serving_stream _ _ _ _ Hs) as (conn0 & Hconn0 & Hall).
  assert (conn0 = conn) as -> by congruence. split.
  - destruct (Hi conn Hconn) as [Hn Hdec].
    rewrite drop_ge, (right_id_L [] (++)) in Hdec by lia. by eapply decodes_more_inv.
  - rewrite Ein, <- Hall, Eout, (right_id_L [] (++)), drop_ge in Hdn by lia.
    destruct pending as [|p pending]; [done|]. cbn [fmap list_fmap concat app] in Hdn.
    symmetry in Hdn. by apply app_eq_nil in Hdn as [?%wire_nonempty _].
Qed.
End session.

Lemma opened_agrees {KC KG} `{ClientNet KC} `{SocketLaws KG} cfd c chan l fd id q cap (s : session) :
  opened (KC := KC) (KG := KG) cfd c chan l fd id q cap s → 0 ≤ q < 2 ^ 32 →
  agrees cfd c chan l fd id q cap [] [] [] [] [] s.
Proof.
  intros [Hc Hi Ho Hs Hl Hin [Hup Hdn]] Hq.
  split; rewrite ?Hup, ?Hdn, ?Hi, ?Ho; try done; try (simpl; lia).
  - rewrite Hc. simpl. by rewrite Z.add_0_r, u32_small.
  - by rewrite Hc.
  - simpl. by rewrite Z.mul_0_r, Z.add_0_r.
  - intros conn Hconn. rewrite (Hin conn Hconn). split; [done|]. by apply decodes_more.
Qed.


(** ** A concrete session *)

(** a socket that takes and delivers everything *)
Record sock : Type := mkSock { so_in : list byte; so_out : list byte }.

#[export] Instance sock_os : ClientOS sock := {
  os_getaddrinfo host port k := (Some 1, k);
  os_socket addr k := (3, k);
  os_getfl fd k := (2, k);
  os_setfl fd flags k := (0, k);
  os_connect fd addr k := (0, 0, k);
  os_poll fd events t k := (1, POLLOUT, k);
  os_so_error fd k := (0, k);
  os_writev fd iov k :=
    (Z.of_nat (length (concat iov)), mkSock (so_in k) (so_out k ++ concat iov));
  os_write fd d k := (Z.of_nat (length d), mkSock (so_in k) (so_out k ++ d));
  os_recv fd n k :=
    match take n (so_in k) with
    | [] => (RecvError EAGAIN, k)
    | d => (RecvData d, mkSock (drop n (so_in k)) (so_out k))
    end;
  os_close fd k := k;
  os_time k := (0, k);
  os_fgets n k := (None, k);
  os_interrupted k := false;
}.

#[export] Instance sock_laws : ClientLaws sock.
Proof.
  refine {| incoming k fd := so_in k |}.
  - intros fd n [i o] d k'. cbn. destruct (take n i) as [|b d'] eqn:E; [done|]. intros [= <- <-].
    rewrite <- E. split_and!; [by rewrite E|rewrite length_take; lia|]. cbn. by rewrite take_drop.
  - intros fd n [i o] r k'. cbn. destruct (take n i) eqn:E; [by intros [= <- <-]|].
    intros [= <- <-] Hr. by destruct (Hr _ eq_refl).
Defined.

#[export] Instance sock_net : ClientNet sock.
Proof.
  refine {| outgoing k fd := so_out k |}.
  - intros fd iov k. cbn. by rewrite Nat2Z.id, take_ge.
  - done.
  - intros fd n k. cbn. by destruct (take n (so_in k)).
Defined.

Lemma sock_delivers fd : delivers (K := sock) fd.
Proof.
  intros n [[|b i] o] Hn Hi; [done|]. destruct n; [lia|]. cbn. eauto.
Qed.

Lemma sock_takes fd : takes_whole (K := sock) fd.
Proof. done. Qed.

(** an order and a heartbeat request; the gateway reads them in two pieces *)
Definition some_requests : list request :=
  [(cmd_code kCmdOrderInsertReq, bytes_of [65; 66]); (cmd_code kCmdHeartbeatReq, [])].
Definition some_bytes : list byte := concat (wire <$> packets 7 some_requests).
Definition first_piece : list byte := take 20 some_bytes.
Definition second_piece : list byte := drop 20 some_bytes.

Definition piecewise : World sim :=
  set_w_kern (sim_set_input {[ 9 := [first_piece; second_piece] ]} (sim0 100)) (world0 100).

Definition session0 : session (KC := sock) (KG := sim) :=
  mkSession (mkC (mkClient 3 7) [] (mkSock [] [])) piecewise 0 0.

Lemma session0_opened : opened 3 2%nat 1%nat 0%nat 9 1 7 1024 session0.
Proof.
  split; try done.
  - split; [|by vm_compute]. apply (streams_quiet _ _ _ _ _ _ (world0 100)); [apply world0_streams|done].
  - intros conn Hc. change (({[ 2%nat := conn0 ]} : gmap loc _) !! 2%nat = Some conn) in Hc.
    apply lookup_singleton_Some in Hc as [_ <-]. reflexivity.
Qed.

Definition request_of (r : request) (s : session) : outcome (session (KC := sock) (KG := sim)) :=
  x ← SendRequest r.1 r.2 (ss_client s); Ok (mkSession x.2 (ss_gateway s) (ss_up s) (ss_down s)).
Definition readable_of (d : list byte) (s : session) : outcome (session (KC := sock) (KG := sim)) :=
  x ← run_callback no_handlers no_spi (CbConnRead 2%nat) 0 (ss_gateway s);
  Ok (mkSession (ss_client s) x.2 (ss_up s + length d) (ss_down s)).
Definition arrive_of (s : session) : outcome (session (KC := sock) (KG := sim)) :=
  let d := drop (ss_down s) (sent (w_kern (ss_gateway s)) 9) in
  Ok (mkSession (mkC (c_client (ss_client s)) (c_out (ss_client s))
        (mkSock (so_in (c_kern (ss_client s)) ++ d) (so_out (c_kern (ss_client s)))))
        (ss_gateway s) (ss_up s) (ss_down s + length d)).
Definition receive_of (s : session) : outcome (session (KC := sock) (KG := sim)) :=
  x ← RecvPacket None 3000 (ss_client s); Ok (mkSession x.2 (ss_gateway s) (ss_up s) (ss_down s)).

Definition ok_of {A} (o : outcome A) (d : A) : A := match o with Ok a => a | Fail _ => d end.
Definition is_ok {A} (o : outcome A) : bool := match o with Ok _ => true | Fail _ => false end.
Lemma is_ok_of {A} (o : outcome A) d : is_ok o = true → o = Ok (ok_of o d).
Proof. by destruct o. Qed.

Definition order : request := (cmd_code kCmdOrderInsertReq, bytes_of [65; 66]).
Definition heartbeat : request := (cmd_code kCmdHeartbeatReq, []).
Definition session1 := ok_of (request_of order session0) session0.
Definition session2 := ok_of (request_of heartbeat session1) session0.
Definition session3 := ok_of (readable_of first_piece session2) session0.
Definition session4 := ok_of (readable_of second_piece session3) session0.
Definition session5 := ok_of (arrive_of session4) session0.
Definition session6 := ok_of (receive_of session5) session0.

Abbreviation runs0 := (runs no_handlers no_spi 3 2%nat 9 session0).

Lemma run_on rs s1 rs1 o d :
  runs0 rs (Ok s1) → session_step no_handlers no_spi 3 2%nat 9 s1 rs1 o → is_ok o = true →
  runs0 (rs ++ rs1) (Ok (ok_of o d)).
Proof. intros Hr Hs Ho. rewrite <- is_ok_of by done. by eapply runs_step. Qed.

Definition conn_of (s : session (KC := sock) (KG := sim)) : TcpConnection :=
  default conn0 (w_conns (ss_gateway s) !! 2%nat).

Lemma readable_on s d more :
  w_conns (ss_gateway s) !! 2%nat = Some (conn_of s) →
  (sys_readv 9 (ReadFd_iov (tc_inputBuffer (conn_of s))) (w_kern (ss_gateway s))).1 = readv_ok d →
  d ≠ [] → drop (ss_up s) (so_out (c_kern (ss_client s))) = d ++ more →
  buffer_size (tc_inputBuffer (conn_of s)) + Z.of_nat (length d) < 2 ^ 63 →
  session_step no_handlers no_spi 3 2%nat 9 s [] (readable_of d s).
Proof. intros. by eapply step_readable. Qed.

Lemma session6_runs : runs0 some_requests (Ok session6).
Proof.
  refine (run_on some_requests session5 [] (receive_of session5) session0 _ _ _);
    [|eapply step_receive; vm_compute; reflexivity|by vm_compute].
  refine (run_on some_requests session4 [] (arrive_of session4) session0 _ _ _);
    [|eapply (step_arrive _ _ _ _ _ _ _ []); [by rewrite app_nil_r|done|done]|by vm_compute].
  refine (run_on some_requests session3 [] (readable_of second_piece session3) session0 _ _ _);
    [|by apply (readable_on _ _ []); vm_compute|by vm_compute].
  refine (run_on some_requests session2 [] (readable_of first_piece session2) session0 _ _ _);
    [|by apply (readable_on _ _ second_piece); vm_compute|by vm_compute].
  refine (run_on [order] session1 [heartbeat] (request_of heartbeat session1) session0 _ _ _);
    [|by apply step_request|by vm_compute].
  refine (run_on [] session0 [order] (request_of order session0) session0 _ _ _);
    [apply runs_start|by apply step_request|by vm_compute].
Qed.

Lemma session6_drained : drained 3 2%nat 9 session6.
Proof. split_and!; [by vm_compute..|]. eexists. split; [by vm_compute|]. by vm_compute. Qed.

