(* ===== verification/ReadOnce.v ===== *)
(** * One read event, one read

    The poller registers every channel edge-triggered: epoll reports bytes when
    they come, and not that they are still there. The connection reads once for
    an event, into the room of its buffer and 64 KiB more. What a burst leaves
    in the socket waits there until the client sends again. No code of the
    program. *)
From S2P Require Import Prelude RingBuffer Protocol World Reactor Sockets Connection SimKernel.
From S2P Require Import Server Gateway Registry GatewayFacts Scenarios.

(** the bytes that have come on a socket and have not been read: [readv] takes
    them from the front, and the calls that a packet makes take none *)
Class UnreadLaws (K : Type) `{Kernel K} : Type := {
  unread : K → Z → list byte;
  readv_unread fd iov k data :
    (sys_readv fd iov k).1 = readv_ok data →
    unread k fd = data ++ unread (sys_readv fd iov k).2 fd;
  ctl_unread ep op fd' ev p k fd : unread (sys_epoll_ctl ep op fd' ev p k).2 fd = unread k fd;
  write_unread fd' d k fd : unread (sys_write fd' d k).2 fd = unread k fd;
  now_unread k fd : unread (sys_now k).2 fd = unread k fd;
}.

(** ** What a packet leaves in the socket *)

Section unread.
Context {K : Type} `{UnreadLaws K} (fd : Z).
Abbreviation W := (World K).
Implicit Types (c l : loc) (w : W).

Definition keeps_unread : relation W := λ w w', unread (w_kern w') fd = unread (w_kern w) fd.

#[export] Instance keeps_unread_preorder : PreOrder keeps_unread.
Proof. split; [done|]. intros w1 w2 w3 E1 E2. unfold keeps_unread in *. congruence. Qed.

Lemma keeps_unread_sys {A} (f : K → A * K) :
  (∀ k, unread (f k).2 fd = unread k fd) → preserves keeps_unread (sys f).
Proof. intros Hf w a w' [= _ <-]. apply Hf. Qed.
Lemma keeps_unread_modify (f : W → W) :
  (∀ w, w_kern (f w) = w_kern w) → preserves keeps_unread (modify f).
Proof. intros Hf. apply (preserves_modify keeps_unread). intros w. unfold keeps_unread. by rewrite Hf. Qed.
End unread.

#[export] Hint Extern 1 (preserves (keeps_unread _) (sys _)) =>
  apply keeps_unread_sys; intros; first [apply ctl_unread | apply write_unread | apply now_unread] : frame.
#[export] Hint Extern 1 (preserves (keeps_unread _) (modify _)) =>
  apply keeps_unread_modify; by intros [] : frame.

Section unread_frames.
Context {K : Type} `{UnreadLaws K} (fd : Z).
Abbreviation W := (World K).
Abbreviation R := (keeps_unread (K := K) fd).
Implicit Types (c l : loc) (w : W).
Context (dispatcher_ : PacketDispatcher W) (spi_OnMessage : Packet → Z → M W unit).
Context (Hdispatch : ∀ cmd h p id, dispatcher_ !! cmd = Some h → preserves R (action (h p id))).
Context (Hspi : ∀ p id, preserves R (spi_OnMessage p id)).

Lemma unread_Update c : preserves R (Channel_Update c).
Proof. frame_tac. Qed.
Lemma unread_Queue l f : preserves R (EventLoop_QueueInLoop l f).
Proof. frame_tac. Qed.
#[local] Hint Resolve unread_Update unread_Queue : frame.
Lemma unread_SendInLoop c d : preserves R (TcpConnection_SendInLoop c d).
Proof. frame_tac. Qed.
#[local] Hint Resolve unread_SendInLoop : frame.
Lemma unread_OnPacket p id : preserves R (GatewayServer_OnPacket dispatcher_ spi_OnMessage p id).
Proof using Hdispatch Hspi. apply preserves_OnPacket; [exact _|done|done|intros; frame_tac..]. Qed.
Lemma unread_Codec c : preserves R (Codec_OnMessage dispatcher_ spi_OnMessage c).
Proof using Hdispatch Hspi.
  apply preserves_Codec_OnMessage; [exact _|apply unread_OnPacket|frame_tac|intros; frame_tac].
Qed.
#[local] Hint Resolve unread_Codec : frame.
Lemma unread_OnMessage c t : preserves R (GatewayServer_OnMessage dispatcher_ spi_OnMessage c t).
Proof using Hdispatch Hspi. frame_tac. Qed.
End unread_frames.

Section read.
Context {K : Type} `{SocketLaws K, !UnreadLaws K}.
Abbreviation W := (World K).
Implicit Types (c l : loc) (w : W).
Context (dispatcher_ : PacketDispatcher W) (spi_OnMessage : Packet → Z → M W unit).

Lemma assert_loop_inv l w u w' : EventLoop_AssertInLoopThread l w = Ok (u, w') → w' = w.
Proof.
  unfold EventLoop_AssertInLoopThread. intros (b & w1 & E & E')%runM_bind_inv.
  apply runM_bind_inv in E as (lp & w2 & [_ ->]%get_loop_inv & E).
  apply runM_bind_inv in E as (tid & w2 & [= <- <-] & [= <- <-]).
  destruct (_ =? _); [by injection E' as _ <-|discriminate E'].
Qed.

Lemma ReadFd_length b data r :
  ReadFd (λ _, readv_ok data) b = Ok r → r.1.1 = Z.of_nat (length data).
Proof.
  unfold ReadFd. destruct (_ <=? _); intros E; inv_bind E as buf Eb; [by simplify_eq/=|].
  inv_bind E as b' Eb'. by simplify_eq/=.
Qed.

(** the connection's read callback reads once *)
Lemma HandleRead_unread c t w u w' conn ch data :
  (∀ cmd h p id, dispatcher_ !! cmd = Some h → preserves (keeps_unread (ch_fd ch)) (action (h p id))) →
  (∀ p id, preserves (keeps_unread (ch_fd ch)) (spi_OnMessage p id)) →
  w_conns w !! c = Some conn → w_chans w !! tc_channel conn = Some ch →
  (sys_readv (ch_fd ch) (ReadFd_iov (tc_inputBuffer conn)) (w_kern w)).1 = readv_ok data →
  data ≠ [] →
  run_callback dispatcher_ spi_OnMessage (CbConnRead c) t w = Ok (u, w') →
  unread (w_kern w) (ch_fd ch) = data ++ unread (w_kern w') (ch_fd ch).
Proof.
  intros Hd Hs Hc Hch Hrd Hne E. cbn [run_callback] in E. unfold TcpConnection_HandleRead in E.
  apply runM_bind_inv in E as (conn' & w1 & [Hc' ->]%get_conn_inv & E). simplify_eq.
  apply runM_bind_inv in E as ([] & w1 & ->%assert_loop_inv & E).
  apply runM_bind_inv in E as (ch' & w1 & [Hch' ->]%get_chan_inv & E). simplify_eq.
  apply runM_bind_inv in E as (rv & w1 & [= <- <-] & E). rewrite Hrd in E.
  apply runM_bind_inv in E as (r & w1 & Er & E). unfold lift in Er.
  inv_bind Er as r' Er'. injection Er as <- <-. apply ReadFd_length in Er'.
  destruct r' as [[n e] buf]. cbn [fst] in Er'. subst n.
  apply runM_bind_inv in E as ([] & w1 & (conn' & Hc' & ->)%mod_conn_inv & E).
  rewrite (proj2 (Z.ltb_lt 0 _)) in E by (destruct data; [done|simpl; lia]).
  apply (unread_OnMessage (ch_fd ch) _ _ Hd Hs) in E. unfold keeps_unread in E. rewrite E.
  by apply readv_unread.
Qed.
End read.

(** what one event can take *)
Definition room (conn : TcpConnection) : Z := WritableBytes (tc_inputBuffer conn) + sizeof_extrabuf.

(** the channel is registered for edges *)
Lemma conn_ok_edge {K} `{EpollLaws K} c l chan fd conn ch lp (w : World K) :
  conn_ok c l chan fd conn ch lp w →
  interest (w_kern w) (po_epollfd (el_poller lp)) !! fd = Some (Z.lor (ch_events ch) EPOLLET, chan).
Proof.
  intros Hok. rewrite (pk_interest _ _ (ck_poller _ _ _ _ _ _ _ _ Hok) fd lp); [|apply Hok].
  pose proof (pk_known _ _ (ck_poller _ _ _ _ _ _ _ _ Hok) chan ch lp) as Hk.
  rewrite (ck_chfd _ _ _ _ _ _ _ _ Hok) in Hk. rewrite Hk; [|apply Hok..|].
  - cbn. rewrite (ck_chan _ _ _ _ _ _ _ _ Hok). cbn. unfold entry.
    by rewrite (ck_index _ _ _ _ _ _ _ _ Hok).
  - by rewrite (ck_index _ _ _ _ _ _ _ _ Hok).
Qed.

(** C36: One read event takes at most the room of the input buffer and 64 KiB.
    On a client that the gateway serves, the callback returns, and has read from
    the socket exactly the bytes of one [readv]; no packet that it handles takes
    more. If more than [room] had come, some of it is still in the socket, and
    the channel is registered with epoll edge-triggered: epoll has told of those
    bytes and does not tell of them again. *)
Theorem read_event_leaves_rest {K} `{SocketLaws K, !UnreadLaws K} dispatcher_ spi_OnMessage
    c l chan fd cap id acc tasks (w : World K) conn data ps rest t :
  serving c l chan fd cap id acc tasks w → never_resets (K := K) fd →
  (∀ cmd h p i, dispatcher_ !! cmd = Some h → preserves (keeps_unread fd) (action (h p i))) →
  (∀ p i, preserves (keeps_unread fd) (spi_OnMessage p i)) →
  gs_loop (w_gs w) = l → 0 < id → w_conns w !! c = Some conn →
  (sys_readv fd (ReadFd_iov (tc_inputBuffer conn)) (w_kern w)).1 = readv_ok data → data ≠ [] →
  buffer_size (tc_inputBuffer conn) + Z.of_nat (length data) < 2 ^ 63 →
  decodes (contents (tc_inputBuffer conn) ++ data) ps rest false →
  0 ≤ cap → cap + 12 * Z.of_nat (length ps) < 2 ^ 63 →
  ∃ w' lp ev,
    run_callback dispatcher_ spi_OnMessage (CbConnRead c) t w = Ok (tt, w') ∧
    unread (w_kern w) fd = data ++ unread (w_kern w') fd ∧
    Z.of_nat (length data) ≤ room conn ∧
    (room conn < Z.of_nat (length (unread (w_kern w) fd)) → unread (w_kern w') fd ≠ []) ∧
    w_loops w' !! l = Some lp ∧
    interest (w_kern w') (po_epollfd (el_poller lp)) !! fd = Some (Z.lor ev EPOLLET, chan).
Proof.
  intros Hs Hnr Hd Hspi Hgl Hid Hc Hrd Hne Hsz Hdec Hc0 Hcap.
  destruct (wp_ok_inv _ _ _ (HandleRead_serving dispatcher_ spi_OnMessage c l chan fd cap id acc
    tasks w conn data ps rest t Hs Hnr Hgl Hid Hc Hrd Hne Hsz Hdec Hc0 Hcap))
    as ([] & w' & E & _ & _ & ((conn' & ch' & lp' & Hok' & _) & _) & _).
  destruct (Hs) as ((conn0 & ch & lp & Hok & _) & _).
  pose proof (ck_conn _ _ _ _ _ _ _ _ Hok). simplify_eq.
  pose proof (ck_chfd _ _ _ _ _ _ _ _ Hok) as Hfd.
  assert (Hu : unread (w_kern w) fd = data ++ unread (w_kern w') fd).
  { rewrite <- Hfd in *. eapply HandleRead_unread; [done|done|done| |done|done|done].
    rewrite (ck_tcchan _ _ _ _ _ _ _ _ Hok). apply Hok. }
  assert (Hroom : Z.of_nat (length data) ≤ room conn).
  { pose proof (readv_fits fd (w_kern w) _ _ Hrd) as Hf. revert Hf. unfold room, ReadFd_iov.
    pose proof (WritableBytes_inv _ (ck_in _ _ _ _ _ _ _ _ Hok)).
    unfold sizeof_extrabuf. destruct (_ <? _); simpl; lia. }
  exists w', lp', (ch_events ch'). split_and!; [done|done|done| |apply Hok'|by eapply conn_ok_edge].
  intros Hlt Hnil. rewrite Hu, Hnil, (right_id_L [] (++)) in Hlt. lia.
Qed.

(** ** On the concrete kernel *)

#[export] Instance sim_unread : UnreadLaws sim.
Proof.
  refine {| unread k fd := concat (default [] (sim_input k !! fd)) |}.
  - intros fd iov k data. cbn. unfold sim_readv. destruct (sim_input k !! fd) as [[|d ds]|] eqn:E; try done.
    cbn. rewrite lookup_insert_eq. cbn. unfold readv_of. case_bool_decide; [|done]. by intros [= ->].
  - intros. cbn. unfold sim_ctl. by repeat case_match.
  - done.
  - done.
Defined.

(** the two packets, and seventy thousand bytes behind them *)
Definition burst : list (list byte) :=
  [concat (wire <$> two_packets) ++ bytes_of [3]; repeat Byte.x00 (Z.to_nat 70000)].
Definition burst_world : World sim := set_w_kern (sim_set_input {[ 9 := burst ]} (sim0 100)) (world0 100).

Lemma burst_world_serving : serving 2%nat 0%nat 1%nat 9 1024 1 [] [] burst_world.
Proof.
  split; [|by vm_compute].
  apply (streams_quiet _ _ _ _ _ _ (world0 100)); [apply world0_streams|done].
Qed.

Lemma read_event_leaves_rest_witness :
  ∃ w', run_callback no_handlers no_spi (CbConnRead 2%nat) 0 burst_world = Ok (tt, w') ∧
    unread (w_kern w') 9 ≠ [].
Proof.
  destruct (read_event_leaves_rest no_handlers no_spi 2%nat 0%nat 1%nat 9 1024 1 [] [] burst_world
      conn0 (concat (wire <$> two_packets) ++ bytes_of [3]) two_packets (bytes_of [3]) 0)
    as (w' & lp & ev & E & _ & _ & Hrest & _).
  - apply burst_world_serving.
  - apply sim_never_resets.
  - intros cmd h p i Eh. discriminate Eh.
  - intros p i. apply preserves_ret, keeps_unread_preorder.
  - done.
  - done.
  - done.
  - vm_compute. reflexivity.
  - vm_compute. discriminate.
  - vm_compute. reflexivity.
  - apply two_packets_decode.
  - done.
  - done.
  - exists w'. split; [exact E|]. apply Hrest. vm_compute. reflexivity.
Defined.
