(* ===== verification/AtRest.v ===== *)
(** * Between the events

    No channel handles an event and no loop is in its round of events when the
    gateway waits, and only a turn of a loop changes that. No code of the
    program. *)
From S2P Require Import Prelude RingBuffer Protocol World Reactor Sockets Connection SimKernel.
From S2P Require Import Server Gateway GatewayFacts.

Section at_rest.
Context {K : Type} `{Kernel K}.
Abbreviation W := (World K).
Implicit Types (c l : loc) (w : W).

Record at_rest w : Prop := {
  ar_chans c ch : w_chans w !! c = Some ch → ch_eventHandling ch = false;
  ar_loops l lp : w_loops w !! l = Some lp → el_eventHandling lp = false;
}.

(** nothing is begun, and no loop comes or goes *)
Definition rests : relation W := λ w w',
  (at_rest w → at_rest w') ∧ dom (w_loops w') = dom (w_loops w).

#[export] Instance rests_preorder : PreOrder rests.
Proof.
  split; [by intros w|]. intros w1 w2 w3 [A1 A2] [B1 B2]. split; [auto|congruence].
Qed.

Lemma rests_same w w' : w_chans w' = w_chans w → w_loops w' = w_loops w → rests w w'.
Proof. intros E1 E2. split; [|by rewrite E2]. intros [Hc Hl]. split; by rewrite ?E1, ?E2. Qed.
Lemma rests_sys {A} (f : K → A * K) : preserves rests (sys f).
Proof. intros w a w' [= _ <-]. by apply rests_same. Qed.
Lemma rests_alloc : preserves rests alloc.
Proof. intros w a w' [= _ <-]. by apply rests_same. Qed.
Lemma rests_modify (f : W → W) :
  (∀ w, w_chans (f w) = w_chans w ∧ w_loops (f w) = w_loops w) → preserves rests (modify f).
Proof. intros Hf. apply preserves_modify. intros w. by apply rests_same; apply Hf. Qed.
Lemma rests_mod_conn c f : preserves rests (mod_conn c f).
Proof. intros w u w' (x & _ & ->)%mod_conn_inv. by apply rests_same. Qed.

(** a channel is put or forgotten *)
Lemma rests_put_chan c ch : ch_eventHandling ch = false → preserves rests (put_chan c ch).
Proof.
  intros Hch. apply preserves_modify. intros w. split; [|done]. intros [Hc Hl]. split; [|done]. rs.
  intros x y [[<- <-]|[_ E]]%lookup_insert_Some; [done|by eapply Hc].
Qed.
Lemma rests_mod_chan c f :
  (∀ ch, ch_eventHandling (f ch) = ch_eventHandling ch) → preserves rests (mod_chan c f).
Proof.
  intros Hf w u w' (ch & w1 & [E ->]%get_chan_inv & E1)%runM_bind_inv. injection E1 as _ <-.
  split; [|done]. intros [Hc Hl]. split; [|done]. rs.
  intros x y [[<- <-]|[_ Ey]]%lookup_insert_Some; [rewrite Hf; by eapply Hc|by eapply Hc].
Qed.
Lemma rests_drop_chan c : preserves rests (modify (λ w, set_w_chans (delete c (w_chans w)) w)).
Proof.
  apply preserves_modify. intros w. split; [|done]. intros [Hc Hl]. split; [|done]. rs.
  intros x y [_ E]%lookup_delete_Some. by eapply Hc.
Qed.
Lemma rests_mod_loop l f :
  (∀ lp, el_eventHandling (f lp) = el_eventHandling lp) → preserves rests (mod_loop l f).
Proof.
  intros Hf w u w' (lp & E & ->)%mod_loop_inv. split; [|rs; by rewrite dom_insert_lookup_L by eauto].
  intros [Hc Hl]. split; [done|]. rs.
  intros x y [[<- <-]|[_ Ey]]%lookup_insert_Some; [rewrite Hf; by eapply Hl|by eapply Hl].
Qed.
End at_rest.

#[export] Hint Resolve rests_sys rests_alloc rests_mod_conn : frame.
#[export] Hint Extern 1 (preserves rests (put_chan _ _)) => apply rests_put_chan; reflexivity : frame.
#[export] Hint Extern 1 (preserves rests (mod_chan _ _)) =>
  apply rests_mod_chan; intros []; reflexivity : frame.
#[export] Hint Extern 1 (preserves rests (mod_loop _ _)) =>
  apply rests_mod_loop; intros []; reflexivity : frame.
#[export] Hint Extern 2 (preserves rests (modify _)) =>
  first [ apply rests_drop_chan | apply rests_modify; intros []; split; reflexivity ] : frame.
#[export] Hint Extern 2 (preserves rests (mod_server _)) =>
  apply rests_modify; intros []; split; reflexivity : frame.
#[export] Hint Extern 2 (preserves rests (mod_gs _)) =>
  apply rests_modify; intros []; split; reflexivity : frame.

Section operations.
Context {K : Type} `{Kernel K}.
Abbreviation W := (World K).
Abbreviation R := (rests (K := K)).

Lemma rests_Update c : preserves R (Channel_Update c).
Proof. frame_tac. Qed.
Lemma rests_Remove c : preserves R (Channel_Remove c).
Proof. frame_tac. Qed.
Lemma rests_Queue l f : preserves R (EventLoop_QueueInLoop l f).
Proof. frame_tac. Qed.
#[local] Hint Resolve rests_Update rests_Remove rests_Queue : frame.
Lemma rests_OnConnection c : preserves R (GatewayServer_OnConnection c).
Proof. frame_tac. Qed.
#[local] Hint Resolve rests_OnConnection : frame.
Lemma rests_accept : preserves R (Acceptor_HandleRead GatewayServer_OnConnection).
Proof. frame_tac. Qed.
Lemma rests_close c : preserves R (TcpConnection_HandleClose GatewayServer_OnConnection OnClose c).
Proof. frame_tac. Qed.
Lemma rests_destroyed c : preserves R (TcpConnection_ConnectDestroyed GatewayServer_OnConnection c).
Proof. frame_tac. Qed.
Lemma rests_delete c : preserves R (delete_TcpConnection c).
Proof. frame_tac. Qed.
End operations.
