(* ===== verification/NewClient.v ===== *)
(** * A client that connects is served

    From the event of the listening socket to the state in which [client_service]
    and [session_served] apply: the acceptor takes the connection, the server
    gives it an object and a channel in the loop, the channel is registered, and
    the gateway gives it an id. No code of the program. *)
From S2P Require Import Prelude RingBuffer Protocol World Reactor Sockets Connection SimKernel.
From S2P Require Import Server Gateway Registry GatewayFacts Scenarios ApiClient Session AtRest.

(** Which descriptors are in use. accept4(2) returns one that was not, and of
    the calls that serve a client none closes one: only close(2) does. *)
Class DescriptorLaws (K : Type) `{Kernel K} : Type := {
  in_use : K → Z → Prop;
  accept_opens lfd k :
    let r := sys_accept lfd k in
    0 ≤ r.1.1.1 → ¬ in_use k r.1.1.1 ∧ in_use r.2 r.1.1.1;
  accept_in_use lfd k fd : in_use k fd → in_use (sys_accept lfd k).2 fd;
  ctl_in_use ep op fd ev p k fd' : in_use (sys_epoll_ctl ep op fd ev p k).2 fd' ↔ in_use k fd';
  write_in_use fd d k fd' : in_use k fd' → in_use (sys_write fd d k).2 fd';
  readv_in_use fd iov k fd' : in_use k fd' → in_use (sys_readv fd iov k).2 fd';
  read8_in_use fd k fd' : in_use k fd' → in_use (sys_read8 fd k).2 fd';
  shutdown_in_use fd k fd' : in_use k fd' → in_use (sys_shutdown fd k).2 fd';
  now_in_use k fd' : in_use k fd' → in_use (sys_now k).2 fd';
  getsockname_in_use fd k fd' : in_use k fd' → in_use (sys_getsockname fd k).2 fd';
  setsockopt_in_use fd level name v k fd' :
    in_use k fd' → in_use (sys_setsockopt fd level name v k).2 fd';
}.

(** [k'] is [k] but for what the connections cannot see *)
Definition same_sockets {K} `{SocketLaws K} (k k' : K) : Prop :=
  sent k' = sent k ∧ fin k' = fin k ∧ interest k' = interest k.
Definition quiet {K} `{SocketLaws K} `{!DescriptorLaws K} (k k' : K) : Prop :=
  same_sockets k k' ∧ ∀ fd, in_use k fd → in_use k' fd.

#[export] Instance quiet_preorder {K} `{SocketLaws K} `{!DescriptorLaws K} : PreOrder (quiet (K := K)).
Proof.
  split; [done|]. intros k1 k2 k3 [(? & ? & ?) ?] [(? & ? & ?) ?]. split; [split_and!; congruence|auto].
Qed.

(** accept4(2) returns a socket on which nothing has been written, and changes
    no other; getsockname(2), setsockopt(2) and read(2) write nothing *)
Class AcceptLaws (K : Type) `{SocketLaws K} `{!DescriptorLaws K} : Type := {
  accept_new lfd k :
    let r := sys_accept lfd k in
    0 ≤ r.1.1.1 → sent r.2 r.1.1.1 = [] ∧ fin r.2 r.1.1.1 = false ∧
      ∀ fd, fd ≠ r.1.1.1 → sent r.2 fd = sent k fd ∧ fin r.2 fd = fin k fd;
  accept_interest lfd k : interest (sys_accept lfd k).2 = interest k;
  getsockname_same fd k : same_sockets k (sys_getsockname fd k).2;
  setsockopt_same fd level name v k : same_sockets k (sys_setsockopt fd level name v k).2;
  read8_same fd k : same_sockets k (sys_read8 fd k).2;
}.

Section new_client.
Context {K : Type} `{AcceptLaws K}.
Abbreviation W := (World K).
Implicit Types (c l chan : loc) (w : W) (fd id : Z).

Lemma getsockname_quiet fd (k : K) : quiet k (sys_getsockname fd k).2.
Proof. split; [apply getsockname_same|apply getsockname_in_use]. Qed.
Lemma setsockopt_quiet fd level name v (k : K) : quiet k (sys_setsockopt fd level name v k).2.
Proof. split; [apply setsockopt_same|apply setsockopt_in_use]. Qed.
Lemma read8_quiet fd (k : K) : quiet k (sys_read8 fd k).2.
Proof. split; [apply read8_same|apply read8_in_use]. Qed.
Lemma clock_quiet (k : K) : quiet k (sys_now k).2.
Proof. split; [apply now_quiet|apply now_in_use]. Qed.

Lemma ctl_called_sees (k k' : K) fd :
  ctl_called k k' → sent k' fd = sent k fd ∧ fin k' fd = fin k fd ∧ (in_use k fd → in_use k' fd).
Proof.
  intros [->|(ep & op & fd2 & ev & p & ->)]; [done|]. by rewrite ctl_sent, ctl_fin, ctl_in_use.
Qed.

(** ** The objects of a new connection *)

Definition fresh_conn l name fd chan (local peer : sockaddr_in) : TcpConnection :=
  mkTcpConnection l name kConnecting true fd chan local peer false false (64 * 1024 * 1024) 0
    (new_RingBuffer 1024) (new_RingBuffer 1024).
Definition conn_channel c l fd : Channel :=
  mkChannel l fd 0 0 (-1) false false (Some (CbConnRead c)) (Some (CbConnWrite c))
    (Some (CbConnClose c)) (Some (CbConnError c)).

Lemma new_TcpConnection_spec F l name fd local peer (Q : loc → W → Prop) w :
  Q (w_next w) (set_w_kern (sys_setsockopt fd SOL_SOCKET SO_KEEPALIVE 1 (w_kern w)).2
    (set_w_conns (<[w_next w := fresh_conn l name fd (S (w_next w)) local peer]> (w_conns w))
    (set_w_chans (<[S (w_next w) := conn_channel (w_next w) l fd]> (w_chans w))
    (set_w_next (S (S (w_next w))) w)))) →
  wp F (new_TcpConnection l name fd local peer) Q w.
Proof.
  intros HQ. unfold new_TcpConnection, new_Channel. do 8 (ws; rs). unfold sockets_SetKeepAlive, set_option.
  run. unfold set_ch_readCallback, set_ch_writeCallback, set_ch_closeCallback, set_ch_errorCallback.
  rs. rewrite !insert_insert_eq. exact HQ.
Qed.

(** a channel that the poller does not know yet *)
Lemma poller_ok_new_chan l w w' lp c ch :
  poller_ok l w → w_loops w !! l = Some lp → w_loops w' !! l = Some lp →
  w_chans w !! c = None → w_chans w' = <[c := ch]> (w_chans w) → ch_index ch = -1 →
  interest (w_kern w') = interest (w_kern w) → poller_ok l w'.
Proof.
  intros [_ Hreg Hknown Hint] Hl Hl' Hc Hch Hi Hk. split; [by eauto|..].
  - intros fd c' x E Ec. simplify_eq. destruct (Hreg fd c' lp Hl Ec) as (ch' & Ec' & ?).
    exists ch'. rewrite Hch, lookup_insert_ne; [done|]. by intros ->; rewrite Hc in Ec'.
  - intros c' ch' x E. simplify_eq. rewrite Hch. destruct (decide (c' = c)) as [->|].
    + rewrite lookup_insert_eq. by intros [= <-] _ [].
    + rewrite lookup_insert_ne by done. by apply Hknown.
  - intros fd x E. simplify_eq. rewrite Hk, (Hint fd lp Hl), Hch.
    destruct (po_channels (el_poller lp) !! fd) as [c'|] eqn:Ec; [|done]. cbn.
    destruct (Hreg fd c' lp Hl Ec) as (ch' & Ec' & _).
    rewrite lookup_insert_ne; [done|]. by intros ->; rewrite Hc in Ec'.
Qed.

(** ** The state in which clients are taken *)

(** The gateway waits for clients in its loop [l], without IO threads and with
    workers, which have [tasks]. *)
Record accepting l (tasks : list (Packet * Z)) w : Prop := {
  ap_poller : poller_ok l w;
  ap_thread lp : w_loops w !! l = Some lp → el_threadId lp = w_tid w;
  ap_home : ts_loop (w_server w) = l ∧ ac_loop (ts_acceptor (w_server w)) = l ∧
    tp_baseLoop (ts_threadPool (w_server w)) = l ∧ tp_loops (ts_threadPool (w_server w)) = [] ∧
    gs_loop (w_gs w) = l;
  ap_started : tp_started (ts_threadPool (w_server w)) = true ∧
    ac_newConnectionCallback (ts_acceptor (w_server w)) = true;
  ap_fresh c : (w_next w ≤ c)%nat → w_conns w !! c = None ∧ w_chans w !! c = None;
  ap_ids id c : cm_connections (w_cm w) !! id = Some c → id < cm_nextConnId (w_cm w);
  ap_gateway : gs_spi (w_gs w) = false ∧ gs_workerThreads (w_gs w) ≠ 0 ∧
    gs_workerTasks (w_gs w) = tasks;
}.

(** [w'] is [w] with a connection [c] and its channel [chan] on [fd], under the
    next id *)
Record admits l c chan fd w w' : Prop := {
  ad_loop lp : w_loops w !! l = Some lp → ∃ lp', w_loops w' !! l = Some lp' ∧
    el_threadId lp' = el_threadId lp ∧ el_wakeupFd lp' = el_wakeupFd lp ∧
    el_pendingFunctors lp' = el_pendingFunctors lp ∧ el_running lp' = el_running lp;
  ad_conns c' : c' ≠ c → w_conns w' !! c' = w_conns w !! c';
  ad_chans c' : c' ≠ chan → w_chans w' !! c' = w_chans w !! c';
  ad_kernel fd' : fd' ≠ fd → sent (w_kern w') fd' = sent (w_kern w) fd' ∧
    fin (w_kern w') fd' = fin (w_kern w) fd';
  ad_open fd' : in_use (w_kern w) fd' → in_use (w_kern w') fd';
  ad_cm : cm_connections (w_cm w') = <[cm_nextConnId (w_cm w) := c]> (cm_connections (w_cm w));
  ad_next : cm_nextConnId (w_cm w') = i64 (cm_nextConnId (w_cm w) + 1);
  ad_gs : gs_spi (w_gs w') = gs_spi (w_gs w) ∧ gs_workerThreads (w_gs w') = gs_workerThreads (w_gs w) ∧
    gs_workerTasks (w_gs w') = gs_workerTasks (w_gs w) ∧ gs_loop (w_gs w') = gs_loop (w_gs w);
  ad_tid : w_tid w' = w_tid w;
}.

(** [w'] is [w] as far as a connection [c] with its channel, its socket and its
    id is concerned *)
Record sees l c chan fd id w w' : Prop := {
  sn_loop lp : w_loops w !! l = Some lp → ∃ lp', w_loops w' !! l = Some lp' ∧
    el_threadId lp' = el_threadId lp ∧ el_wakeupFd lp' = el_wakeupFd lp;
  sn_conn : w_conns w' !! c = w_conns w !! c;
  sn_chan : w_chans w' !! chan = w_chans w !! chan;
  sn_kernel : sent (w_kern w') fd = sent (w_kern w) fd ∧ fin (w_kern w') fd = fin (w_kern w) fd;
  sn_cm : cm_connections (w_cm w') !! id = cm_connections (w_cm w) !! id;
  sn_gs : gs_spi (w_gs w') = gs_spi (w_gs w) ∧ gs_workerThreads (w_gs w') = gs_workerThreads (w_gs w);
  sn_tid : w_tid w' = w_tid w;
}.

(** a client that was served is served *)
Lemma serving_sees l c chan fd cap id acc tasks tasks' w w' :
  serving c l chan fd cap id acc tasks w → sees l c chan fd id w w' → poller_ok l w' →
  gs_workerTasks (w_gs w') = tasks' → serving c l chan fd cap id acc tasks' w'.
Proof.
  intros ((conn & ch & lp & Hok & Hst) & Hcm & Hid & Hspi & Hth & _)
    [Sl Sc Sch [Ss Sf] Scm [Sg1 Sg2] St] Hp Ht. destruct Hok. destruct (Sl lp ck_loop) as (lp' & El & Et & Ew).
  split; [|rewrite Scm, Sc, Sg1, Sg2; done].
  exists conn, ch, lp'. rewrite Ss, Sf. split; [|done].
  split; rewrite ?Sc, ?Sch, ?Et, ?Ew, ?St; done.
Qed.

Lemma admits_sees l c chan fd w w' c2 chan2 fd2 id2 :
  admits l c chan fd w w' → c2 ≠ c → chan2 ≠ chan → fd2 ≠ fd → id2 ≠ cm_nextConnId (w_cm w) →
  sees l c2 chan2 fd2 id2 w w'.
Proof.
  intros [A1 A2 A3 A4 A5 A6 A7 (A8 & A9 & A10 & A11) A12] Hc Hch Hfd Hid.
  split; auto; [|by rewrite A6, lookup_insert_ne].
  intros lp El. destruct (A1 lp El) as (lp' & ? & ? & ? & _). by exists lp'.
Qed.

(** what [OnConnection] leaves alone *)
Definition keeps_objects w w' : Prop :=
  w_server w' = w_server w ∧ w_next w' = w_next w.

(** the gateway registers an open connection under the next id *)
Lemma OnConnection_serving l c chan fd cap w conn ch lp tasks :
  conn_ok c l chan fd conn ch lp w → tc_state conn = kConnected →
  contents (tc_outputBuffer conn) = [] → buffer_size (tc_outputBuffer conn) ≤ cap →
  sent (w_kern w) fd = [] → fin (w_kern w) fd = false → gs_loop (w_gs w) = l →
  gs_spi (w_gs w) = false → gs_workerThreads (w_gs w) ≠ 0 → gs_workerTasks (w_gs w) = tasks →
  wp never (GatewayServer_OnConnection c) (λ _ w',
    serving c l chan fd cap (cm_nextConnId (w_cm w)) [] tasks w' ∧
    admits l c chan fd w w' ∧ poller_ok l w' ∧ keeps_objects w w' ∧
    w_conns w' !! c = Some (set_tc_connId (cm_nextConnId (w_cm w)) conn) ∧ w_chans w' = w_chans w) w.
Proof.
  intros Hok Hst Hout Hcap Hsent Hfin Hgl Hspi Hth Htk. set (id := cm_nextConnId (w_cm w)).
  pose proof (ck_conn _ _ _ _ _ _ _ _ Hok) as Hc. pose proof (ck_loop _ _ _ _ _ _ _ _ Hok) as Hl.
  unfold GatewayServer_OnConnection. ws. ws. rewrite Hgl.
  eapply wp_bind. eapply assert_in_loop_spec; [exact Hl|apply Hok|].
  ws. ws. unfold Connected. rewrite bool_decide_true by done.
  unfold ConnectionManager_AddConnection, mod_cm. run.
  unfold SessionManager_AddSession, now_ms, Timestamp_Now, mod_sessions, mod_heartbeats, mod_gs.
  assert (Hend : ∀ w', w_conns w' = <[c := set_tc_connId id conn]> (w_conns w) →
    w_chans w' = w_chans w → w_loops w' = w_loops w → w_tid w' = w_tid w → keeps_objects w w' →
    quiet (w_kern w) (w_kern w') →
    w_cm w' = set_cm_connections (<[id := c]> (cm_connections (w_cm w)))
      (set_cm_nextConnId (i64 (id + 1)) (w_cm w)) →
    gs_spi (w_gs w') = gs_spi (w_gs w) ∧ gs_workerThreads (w_gs w') = gs_workerThreads (w_gs w) ∧
      gs_workerTasks (w_gs w') = gs_workerTasks (w_gs w) ∧ gs_loop (w_gs w') = gs_loop (w_gs w) →
    serving c l chan fd cap id [] tasks w' ∧ admits l c chan fd w w' ∧ poller_ok l w' ∧
      keeps_objects w w' ∧ w_conns w' !! c = Some (set_tc_connId id conn) ∧ w_chans w' = w_chans w).
  { intros w' Ec Ech El Et Hk [(Ks & Kf & Ki) Ku] Em Eg. pose proof Eg as (G1 & G2 & G3 & G4).
    assert (Hp : poller_ok l w').
    { eapply (poller_ok_frame l w w' lp lp); [apply Hok|done|by rewrite El|done|done|by rewrite Ki]. }
    assert (Hid : fst ∘ conn_input <$> w_conns w' !! c = Some id) by (by rewrite Ec, lookup_insert_eq).
    split; [|split; [|split; [done|split; [done|by rewrite Ec, lookup_insert_eq]]]].
    - split; [|rewrite Em; rs; rewrite lookup_insert_eq; split_and!; congruence || done].
      destruct Hok. exists (set_tc_connId id conn), ch, lp. rewrite Ks, Kf, Hsent. rs.
      rewrite Hout, Hst, Hfin. split_and!; try done.
      split; rs; try done; [by rewrite Ec, lookup_insert_eq|by rewrite Ech|by rewrite El|].
      by rewrite Et.
    - split; try done.
      + intros lp2 E2. exists lp2. by rewrite El.
      + intros c' Hne. by rewrite Ec, lookup_insert_ne.
      + intros c' Hne. by rewrite Ech.
      + intros fd' _. by rewrite Ks, Kf.
      + by rewrite Em.
      + by rewrite Em. }
  run.
  case_bool_decide as Hs; run;
    lazymatch goal with |- _ ∧ admits _ _ _ _ _ ?x ∧ _ => apply (Hend x) end; rs; try done.
  - apply clock_quiet.
  - etrans; apply clock_quiet.
Qed.

(** a channel that nobody knows is registered for reading *)
Lemma ConnectEstablished_serving l c chan fd cap w conn ch lp tasks :
  poller_ok l w → w_loops w !! l = Some lp → el_threadId lp = w_tid w → el_wakeupFd lp ≠ fd →
  w_conns w !! c = Some conn → tc_state conn = kConnecting → tc_loop conn = l →
  tc_channel conn = chan → tc_socket conn = fd → rb_inv (tc_inputBuffer conn) →
  rb_inv (tc_outputBuffer conn) → contents (tc_outputBuffer conn) = [] →
  buffer_size (tc_outputBuffer conn) ≤ cap →
  w_chans w !! chan = Some ch → ch_loop ch = l → ch_fd ch = fd → ch_index ch = -1 →
  ch_events ch = 0 → po_channels (el_poller lp) !! fd = None →
  0 ≤ (sys_epoll_ctl (po_epollfd (el_poller lp)) EPOLL_CTL_ADD fd (Z.lor kReadEvent EPOLLET) chan
         (w_kern w)).1 →
  sent (w_kern w) fd = [] → fin (w_kern w) fd = false → gs_loop (w_gs w) = l →
  gs_spi (w_gs w) = false → gs_workerThreads (w_gs w) ≠ 0 → gs_workerTasks (w_gs w) = tasks →
  wp never (TcpConnection_ConnectEstablished GatewayServer_OnConnection c) (λ _ w',
    serving c l chan fd cap (cm_nextConnId (w_cm w)) [] tasks w' ∧
    admits l c chan fd w w' ∧ poller_ok l w' ∧ keeps_objects w w' ∧
    ∃ conn', w_conns w' !! c = Some conn' ∧ tc_inputBuffer conn' = tc_inputBuffer conn ∧
      tc_name conn' = tc_name conn ∧ ch_readCallback <$> w_chans w' !! chan = Some (ch_readCallback ch)) w.
Proof.
  intros Hp Hl Ht Hwk Hc Hst Hcl Hcc Hcs Hin Hout Hoe Hcap Hch Hchl Hchf Hi Hev Hnone Hctl Hsent Hfin
    Hgl Hspi Hth Htk.
  unfold TcpConnection_ConnectEstablished. ws. ws. rewrite Hcl.
  eapply wp_bind. eapply assert_in_loop_spec; [exact Hl|done|].
  ws. ws. ws. ws. rewrite Hcc.
  set (w1 := set_w_conns _ w). apply wp_bind.
  assert (Hp1 : poller_ok l w1) by (by eapply (poller_ok_frame l w w1 lp lp)).
  change (Channel_EnableReading chan) with (update_events (λ ev, Z.lor ev kReadEvent) chan).
  eapply wp_post.
  { apply (update_spec (λ ev, Z.lor ev kReadEvent) l chan w1 lp ch never Hp1 Hl Hch Hchl Ht).
    - intros _. by rewrite Hchf.
    - unfold refused. rewrite Hi, Hchf, Hev. intros Hr%Z.lt_nge. exact (Hr Hctl). }
  cbv zeta. rewrite Hev. change (Z.lor 0 kReadEvent) with kReadEvent.
  intros [] w2 (k & Ew & Hp2 & Hk & _).
  set (conn1 := set_tc_state kConnected conn) in *. set (ch1 := updated kReadEvent ch) in *.
  set (lp1 := set_channels (λ _, <[ch_fd ch := chan]> (po_channels (el_poller lp))) lp).
  pose proof (λ fd', ctl_called_sees _ _ fd' Hk) as Hks. change (w_kern w1) with (w_kern w) in Hks.
  assert (Hok : conn_ok c l chan fd conn1 ch1 lp1 w2).
  { rewrite Ew in *. split; try done; unfold store_update; rs; try apply lookup_insert_eq; try done.
    - unfold ch1, updated. rs. by rewrite Hi.
    - unfold ch1, updated. rs. by rewrite decide_True by done. }
  assert (Eg : w_gs w2 = w_gs w) by (by rewrite Ew). assert (Ecm : w_cm w2 = w_cm w) by (by rewrite Ew).
  assert (Ek : w_kern w2 = k) by (by rewrite Ew).
  eapply wp_post.
  { eapply (OnConnection_serving l c chan fd cap w2 conn1 ch1 lp1 tasks Hok); rewrite ?Eg, ?Ek; try done;
      by rewrite (proj1 (Hks fd)) || by rewrite (proj1 (proj2 (Hks fd))). }
  intros [] w' (Hs & Ha & Hp' & [Esv Enx] & Hc' & Hch'). rewrite Ecm in Hs, Hc'.
  split; [done|]. split; [|split; [done|split; [|eexists; split_and!; [done..|]]]].
  - destruct Ha as [A1 A2 A3 A4 A5 A6 A7 A8 A9]. rewrite Ew in *.
    split; try done.
    + intros lp2 E2. simplify_eq. destruct (A1 lp1) as (lp' & ? & ? & ? & ?); [apply lookup_insert_eq|].
      by exists lp'.
    + intros c2 Hne. rewrite A2 by done. unfold store_update, w1. rs. by rewrite lookup_insert_ne.
    + intros c2 Hne. rewrite A3 by done. unfold store_update, w1. rs. by rewrite lookup_insert_ne.
    + intros fd' Hne. destruct (A4 fd' Hne) as [-> ->]. split; apply Hks.
    + intros fd' Hu. by apply A5, Hks.
  - by rewrite Ew in *.
  - rewrite Hch', Ew. unfold store_update. rs. by rewrite lookup_insert_eq.
Qed.

(** ** The event of the listening socket *)

(** epoll has room for the descriptor *)
Definition epoll_takes fd : Prop :=
  ∀ ep ev p (k : K), interest k ep !! fd = None → 0 ≤ (sys_epoll_ctl ep EPOLL_CTL_ADD fd ev p k).1.

(** the state in which [ConnectEstablished] runs *)
Definition with_connection l c name fd local peer (k : K) w : W :=
  set_w_kern k (set_w_conns (<[c := set_tc_writeCompleteCallback true
                                      (fresh_conn l name fd (S c) local peer)]> (w_conns w))
    (set_w_chans (<[S c := conn_channel c l fd]> (w_chans w))
    (set_w_server (set_ts_connections (<[name := c]> (ts_connections (w_server w)))
                     (set_ts_nextConnId (ts_nextConnId (w_server w) + 1) (w_server w)))
    (set_w_next (S (S c)) w)))).

Lemma NewConnection_runs l tasks fd peer (Q : unit → W → Prop) w lp :
  accepting l tasks w → w_loops w !! l = Some lp → ts_nextConnId (w_server w) < 2 ^ 31 - 1 →
  (∀ local k, quiet (w_kern w) k →
    wp never (TcpConnection_ConnectEstablished GatewayServer_OnConnection (w_next w)) Q
      (with_connection l (w_next w) (conn_name (w_server w)) fd local peer k w)) →
  wp never (TcpServer_NewConnection GatewayServer_OnConnection fd peer) Q w.
Proof.
  intros Ha Hl Hn HQ. pose proof (ap_home _ _ _ Ha) as (Eloop & _ & Ebase & Eloops & _).
  pose proof (ap_thread _ _ _ Ha lp Hl) as Ht. destruct (ap_started _ _ _ Ha) as [Hst _].
  unfold TcpServer_NewConnection. ws. ws. rewrite Eloop.
  eapply wp_bind. eapply assert_in_loop_spec; [done|done|].
  unfold EventLoopThreadPool_GetNextLoop. ws. ws. ws. rewrite Ebase.
  eapply wp_bind. eapply assert_in_loop_spec; [done|done|].
  rewrite Hst, Eloops. ws. ws. rewrite (bool_decide_true ([] = [])) by done. apply wp_ret.
  eapply wp_bind, wp_lift; [by apply defined_ok, Z.ltb_lt|]. ws. ws.
  unfold sockets_GetLocalAddr. ws. ws. ws. ws. apply wp_bind, new_TcpConnection_spec. rs. run.
  eapply wp_RunInLoop; [done| |by intros ?].
  intros _. rewrite insert_insert_eq. apply HQ.
  etrans; [apply getsockname_quiet|apply setsockopt_quiet].
Qed.

(** what the others see of a new connection that is established *)
Lemma admits_before l name fd local peer k w w' :
  (∀ fd', fd' ≠ fd → sent k fd' = sent (w_kern w) fd' ∧ fin k fd' = fin (w_kern w) fd') →
  (∀ fd', in_use (w_kern w) fd' → in_use k fd') →
  admits l (w_next w) (S (w_next w)) fd (with_connection l (w_next w) name fd local peer k w) w' →
  admits l (w_next w) (S (w_next w)) fd w w'.
Proof.
  intros Hk Hu [A1 A2 A3 A4 A5 A6 A7 A8 A9]. split; try done.
  - intros c' Hne. rewrite A2 by done. unfold with_connection. rs. by rewrite lookup_insert_ne.
  - intros c' Hne. rewrite A3 by done. unfold with_connection. rs. by rewrite lookup_insert_ne.
  - intros fd' Hne. destruct (A4 fd' Hne) as [-> ->]. by apply Hk.
  - intros fd' Hfd. by apply A5, Hu.
Qed.

(** the next state in which clients are taken *)
Lemma accepting_next l tasks name fd local peer k w w' :
  accepting l tasks w → is_Some (w_loops w !! l) →
  admits l (w_next w) (S (w_next w)) fd w w' → poller_ok l w' →
  keeps_objects (with_connection l (w_next w) name fd local peer k w) w' →
  cm_nextConnId (w_cm w') = cm_nextConnId (w_cm w) + 1 → accepting l tasks w'.
Proof.
  intros [Hp Ht Hh Hst Hf Hids Hg] [lp Hl] Ha Hp' [Esv Enx] Enext.
  destruct (ad_gs _ _ _ _ _ _ Ha) as (G1 & G2 & G3 & G4). split; rewrite ?Esv, ?G1, ?G2, ?G3, ?G4; try done.
  - intros lp2 El. destruct (ad_loop _ _ _ _ _ _ Ha lp Hl) as (lp' & El' & Et & _). simplify_eq.
    rewrite Et, (ad_tid _ _ _ _ _ _ Ha). by apply Ht.
  - rewrite Enx. unfold with_connection. rs. intros c Hc.
    rewrite (ad_conns _ _ _ _ _ _ Ha), (ad_chans _ _ _ _ _ _ Ha) by lia. apply Hf. lia.
  - intros i c. rewrite (ad_cm _ _ _ _ _ _ Ha), Enext.
    destruct (decide (i = cm_nextConnId (w_cm w))) as [->|]; [lia|].
    rewrite lookup_insert_ne by done. intros E. apply Hids in E. lia.
Qed.

(** the kernel once it has made a connection at the descriptor [fd] *)
Record accepts_at fd (k k1 : K) : Prop := {
  aa_free : ¬ in_use k fd;
  aa_used : in_use k1 fd;
  aa_new : sent k1 fd = [] ∧ fin k1 fd = false;
  aa_others fd' : fd' ≠ fd → sent k1 fd' = sent k fd' ∧ fin k1 fd' = fin k fd';
  aa_in_use fd' : in_use k fd' → in_use k1 fd';
  aa_interest : interest k1 = interest k;
}.

(** The acceptor hands the connection that it took to the server. *)
Lemma HandleRead_accepts dispatcher_ spi_OnMessage l tasks w lp fd errno peer t (Q : unit → W → Prop) :
  accepting l tasks w → w_loops w !! l = Some lp →
  (sys_accept (ac_acceptSocket (ts_acceptor (w_server w))) (w_kern w)).1 = (fd, errno, peer) → 0 ≤ fd →
  (∀ k, accepts_at fd (w_kern w) k → accepting l tasks (set_w_kern k w) →
    wp never (TcpServer_NewConnection GatewayServer_OnConnection fd peer) Q (set_w_kern k w)) →
  wp never (run_callback dispatcher_ spi_OnMessage CbAccept t) Q w.
Proof.
  intros Ha Hl Hacc Hfd HQ. destruct (ap_home _ _ _ Ha) as (Eloop & Eac & Ebase & Eloops & Egl).
  destruct (ap_started _ _ _ Ha) as [Hst Hcb]. pose proof (ap_thread _ _ _ Ha lp Hl) as Ht.
  cbn [run_callback]. unfold Acceptor_HandleRead. ws. ws. rewrite Eac.
  eapply wp_bind. eapply assert_in_loop_spec; [done|done|].
  unfold sockets_Accept. ws. ws. ws. set (lfd := ac_acceptSocket _) in *.
  pose proof (accept_new lfd (w_kern w)) as Hnew. pose proof (accept_interest lfd (w_kern w)) as Hint.
  pose proof (accept_opens lfd (w_kern w)) as Hopen. pose proof (accept_in_use lfd (w_kern w)) as Hused.
  destruct (sys_accept _ (w_kern w)) as [[[fd' errno'] peer'] k1]. cbn [fst snd] in *.
  injection Hacc as -> -> ->. rewrite (proj2 (Z.ltb_ge fd 0)) by done. apply wp_ret. cbv beta iota.
  rewrite (proj2 (Z.leb_le 0 fd)), Hcb by done.
  destruct (Hnew Hfd) as (Ks & Kf & Kothers). destruct (Hopen Hfd) as [Hfree Huse].
  apply HQ; [by split|]. pose proof Ha as []. split; try done.
  eapply (poller_ok_frame l w _ lp lp); try done. rs. by rewrite Hint.
Qed.

(** The acceptor takes a connection. *)
Lemma accept_serving dispatcher_ spi_OnMessage l tasks w lp fd errno peer t :
  let id := cm_nextConnId (w_cm w) in
  accepting l tasks w → w_loops w !! l = Some lp →
  (sys_accept (ac_acceptSocket (ts_acceptor (w_server w))) (w_kern w)).1 = (fd, errno, peer) →
  0 ≤ fd → epoll_takes fd → po_channels (el_poller lp) !! fd = None → el_wakeupFd lp ≠ fd →
  ts_nextConnId (w_server w) < 2 ^ 31 - 1 → 0 < id < 2 ^ 63 - 1 →
  wp never (run_callback dispatcher_ spi_OnMessage CbAccept t) (λ _ w', ∃ c chan conn,
    serving c l chan fd 1024 id [] tasks w' ∧ w_conns w' !! c = Some conn ∧
    contents (tc_inputBuffer conn) = [] ∧ tc_name conn = conn_name (w_server w) ∧
    ch_readCallback <$> w_chans w' !! chan = Some (Some (CbConnRead c)) ∧
    in_use (w_kern w') fd ∧ ¬ in_use (w_kern w) fd ∧
    accepting l tasks w' ∧ cm_nextConnId (w_cm w') = id + 1 ∧
    admits l c chan fd w w' ∧ w_conns w !! c = None ∧ w_chans w !! chan = None ∧
    w_server w' = set_ts_connections (<[conn_name (w_server w) := c]> (ts_connections (w_server w)))
      (set_ts_nextConnId (ts_nextConnId (w_server w) + 1) (w_server w)) ∧
    ∀ c2 chan2 fd2 cap2 id2 acc2, fd2 ≠ fd →
      serving c2 l chan2 fd2 cap2 id2 acc2 tasks w → serving c2 l chan2 fd2 cap2 id2 acc2 tasks w') w.
Proof.
  intros id Ha Hl Hacc Hfd Htakes Hnone Hwk Hn Hid.
  eapply HandleRead_accepts; [done..|]. intros k1 [Hfree Huse [Ks Kf] Kothers Hused Hint] Ha1.
  set (w1 := set_w_kern k1 w) in *. pose proof (ap_thread _ _ _ Ha lp Hl) as Ht.
  destruct (ap_gateway _ _ _ Ha) as (Hspi & Hth & Htk). destruct (ap_home _ _ _ Ha) as (? & ? & ? & ? & Egl).
  eapply (NewConnection_runs l tasks fd peer _ w1 lp Ha1 Hl Hn). intros local k [(Qs & Qf & Qi) Qu].
  set (w2 := with_connection _ _ _ _ _ _ _ _).
  destruct (ap_fresh _ _ _ Ha (w_next w) ltac:(lia)) as [Fc _].
  destruct (ap_fresh _ _ _ Ha (S (w_next w)) ltac:(lia)) as [_ Fch].
  assert (Hp2 : poller_ok l w2).
  { eapply (poller_ok_new_chan l w1 w2 lp); [apply Ha1|done|done|exact Fch|done|done|].
    unfold w2, with_connection. rs. by rewrite Qi. }
  eapply wp_post.
  { apply (ConnectEstablished_serving l (w_next w) (S (w_next w)) fd 1024 w2
      (set_tc_writeCompleteCallback true
         (fresh_conn l (conn_name (w_server w1)) fd (S (w_next w)) local peer))
      (conn_channel (w_next w) l fd) lp tasks);
      try apply lookup_insert_eq; try done; unfold w2, with_connection; rs.
    - apply Htakes. rewrite Qi. unfold w1. rs. rewrite Hint.
      by rewrite (pk_interest _ _ (ap_poller _ _ _ Ha) fd lp Hl), Hnone.
    - by rewrite Qs.
    - by rewrite Qf. }
  intros [] w' (Hs & Had & Hp' & [Esv Enx] & conn' & Hc' & Ein & Ename & Ecb).
  assert (Had' : admits l (w_next w) (S (w_next w)) fd w w').
  { apply (admits_before l (conn_name (w_server w1)) fd local peer k w w'); [| |exact Had].
    - intros fd' Hne. rewrite Qs, Qf. by apply Kothers.
    - intros fd' Hu. by apply Qu, Hused. }
  assert (Enext : cm_nextConnId (w_cm w') = id + 1).
  { rewrite (ad_next _ _ _ _ _ _ Had'). fold id. rewrite i64_small; lia. }
  eexists _, _, conn'. split; [exact Hs|]. split; [done|].
  split; [by rewrite Ein|]. split; [by rewrite Ename|]. split; [by rewrite Ecb|].
  split; [by apply (ad_open _ _ _ _ _ _ Had), Qu|]. split; [done|].
  split; [|do 4 (split; [done|]); split; [exact Esv|]].
  - by apply (accepting_next l tasks (conn_name (w_server w1)) fd local peer k w w' Ha
      ltac:(by eexists) Had' Hp' (conj Esv Enx) Enext).
  - intros c2 chan2 fd2 cap2 id2 acc2 Hne Hs2. pose proof Hs2 as ((conn2 & ch2 & lp2 & Hok2 & _) & Hcm & _).
    destruct Hok2. eapply serving_sees; [exact Hs2| |exact Hp'|].
    + apply (admits_sees _ _ _ _ _ _ _ _ _ _ Had'); try done; try congruence.
      apply (ap_ids _ _ _ Ha) in Hcm. lia.
    + destruct (ad_gs _ _ _ _ _ _ Had') as (_ & _ & -> & _). apply (ap_gateway _ _ _ Ha).
Qed.
End new_client.

(** ** With a client at the other end *)

(** A client that connects is served, from its first byte. When the
    gateway takes clients, and the listening socket has one, with room in
    epoll and numbers left, the acceptor's callback returns. Then the gateway
    serves that client under the next id, with nothing read and nothing
    written, so that with a fresh client of the command line at the other end
    the session is open; the clients that were served are served; and the
    gateway takes clients. *)
Theorem new_client_served {KC KG} `{ClientNet KC} `{AcceptLaws KG}
    dispatcher_ spi_OnMessage l (w : World KG) lp fd errno peer t (cs : cstate KC) cfd q :
  let id := cm_nextConnId (w_cm w) in
  accepting l [] w → w_loops w !! l = Some lp →
  (sys_accept (ac_acceptSocket (ts_acceptor (w_server w))) (w_kern w)).1 = (fd, errno, peer) →
  0 ≤ fd → epoll_takes (K := KG) fd → po_channels (el_poller lp) !! fd = None → el_wakeupFd lp ≠ fd →
  ts_nextConnId (w_server w) < 2 ^ 31 - 1 → 0 < id < 2 ^ 63 - 1 →
  cs = mkC (mkClient cfd q) [] (c_kern cs) →
  incoming (c_kern cs) cfd = [] → outgoing (c_kern cs) cfd = [] →
  ∃ w' c chan,
    run_callback dispatcher_ spi_OnMessage CbAccept t w = Ok (tt, w') ∧
    serving c l chan fd 1024 id [] [] w' ∧
    opened cfd c chan l fd id q 1024 (mkSession cs w' 0 0) ∧
    (∀ c2 chan2 fd2 cap2 id2 acc2, fd2 ≠ fd →
      serving c2 l chan2 fd2 cap2 id2 acc2 [] w → serving c2 l chan2 fd2 cap2 id2 acc2 [] w') ∧
    accepting l [] w' ∧ cm_nextConnId (w_cm w') = id + 1.
Proof.
  intros id Ha Hl Hacc Hfd Htakes Hnone Hwk Hn Hid Hcs Hin Hout.
  destruct (wp_ok_inv _ _ _ (accept_serving dispatcher_ spi_OnMessage l [] w lp fd errno peer t
    Ha Hl Hacc Hfd Htakes Hnone Hwk Hn Hid))
    as ([] & w' & E & c & chan & conn & Hs & Hc & Ein & _ & _ & _ & _ & Ha' & Enext & _ & _ & _ & _ & Ho).
  exists w', c, chan. split; [exact E|]. split; [exact Hs|]. split; [|done].
  split; try done; simpl.
  - apply (ap_home _ _ _ Ha').
  - intros conn' Hc'. by simplify_eq.
Qed.

(** ** The concrete kernel *)

(** a descriptor is in use when it was made, and does not wait to be accepted *)
#[export] Instance sim_descriptors : DescriptorLaws sim.
Proof.
  refine {| in_use k fd := fd < sim_nextfd k ∧ fd ∉ (sim_backlog k).*1 |}; try done.
  - intros lfd k. simpl. unfold sim_accept. destruct (sim_backlog k) as [|[fd peer] r]; simpl; [lia|].
    intros _. split; [intros [_ Hn]; apply Hn; left|]. split; [lia|].
    intros ([fd' peer'] & -> & [Hne _]%list_elem_of_filter)%list_elem_of_fmap. done.
  - intros lfd k fd'. simpl. unfold sim_accept.
    destruct (sim_backlog k) as [|[fd peer] r] eqn:E; simpl; [by rewrite E|].
    intros [Hlt Hn]. split; [lia|]. intros (b & -> & [_ Hb]%list_elem_of_filter)%list_elem_of_fmap.
    apply Hn. right. by apply list_elem_of_fmap_2.
  - intros ep op fd ev p k fd'. simpl. unfold sim_ctl. by repeat case_match.
  - intros fd iov k fd'. simpl. unfold sim_readv. by repeat case_match.
Defined.

#[export] Instance sim_accepts : AcceptLaws sim.
Proof.
  split.
  - intros lfd k. simpl. unfold sim_accept. destruct (sim_backlog k) as [|[fd peer] r]; [done|]. simpl.
    intros _. unfold sim_log. simpl. rewrite lookup_delete_eq. split; [done|].
    split; [apply bool_decide_false; set_solver|]. intros fd' Hne. rewrite lookup_delete_ne by done.
    split; [done|]. apply bool_decide_ext. set_solver.
  - intros lfd k. simpl. unfold sim_accept. by destruct (sim_backlog k) as [|[fd peer] r].
  - done.
  - done.
  - done.
Defined.

Lemma sim_takes fd : epoll_takes (K := sim) fd.
Proof.
  intros ep ev p k E. change (sim_list k ep !! fd = None) in E. simpl. unfold sim_ctl. by rewrite E.
Qed.
