(* ===== verification/StartUp.v ===== *)
(** * The gateway starts

    From the entry of [main] to the loop: when the kernel grants what is asked,
    [main_setup] without IO threads returns, in the state in which clients are
    taken. No code of the program. *)
From S2P Require Import Prelude RingBuffer Protocol World Reactor Sockets Connection SimKernel.
From S2P Require Import Server Gateway Registry GatewayFacts ServerFacts Scenarios ApiClient Session AtRest NewClient.

(** The states from which the kernel refuses nothing that a start asks for. *)
Class StartLaws (K : Type) `{AcceptLaws K} : Type := {
  willing : K → Prop;
  stays k k' := willing k' ∧ (∀ fd, in_use k' fd ↔ in_use k fd) ∧ interest k' = interest k;
  opens (f : K → Z * K) := ∀ k, willing k →
    0 ≤ (f k).1 ∧ ¬ in_use k (f k).1 ∧ willing (f k).2 ∧
    (∀ fd, in_use (f k).2 fd ↔ fd = (f k).1 ∨ in_use k fd) ∧
    interest (f k).2 = interest k;
  eventfd_opens : opens sys_eventfd;
  socket_opens : opens sys_socket;
  open_null_opens : opens sys_open_null;
  timerfd_opens : opens sys_timerfd_create;
  epoll_create_opens k : willing k →
    0 ≤ (sys_epoll_create k).1 ∧ willing (sys_epoll_create k).2 ∧
    interest (sys_epoll_create k).2 (sys_epoll_create k).1 = ∅;
  setsockopt_stays fd level name v k : willing k → stays k (sys_setsockopt fd level name v k).2;
  bind_grants fd addr k : willing k → 0 ≤ (sys_bind fd addr k).1 ∧ stays k (sys_bind fd addr k).2;
  listen_grants fd k : willing k → 0 ≤ (sys_listen fd k).1 ∧ stays k (sys_listen fd k).2;
  settime_grants fd sec k : willing k → 0 ≤ sec →
    0 ≤ (sys_timerfd_settime fd sec k).1 ∧ stays k (sys_timerfd_settime fd sec k).2;
  ctl_willing ep op fd ev p k : willing k → willing (sys_epoll_ctl ep op fd ev p k).2;
  (** an IPv4 address takes at most fifteen characters *)
  ntop_short a : (String.length (inet_ntop a) ≤ 15)%nat;
}.

Section start.
Context {K : Type} `{StartLaws K}.
Abbreviation W := (World K).
Implicit Types (c l : loc) (w : W) (fd : Z).
Context (Htakes : ∀ fd, epoll_takes (K := K) fd).

(** ** A loop that is being given its channels *)

Record looping l w : Prop := {
  lo_poller : poller_ok l w;
  lo_thread lp : w_loops w !! l = Some lp → el_threadId lp = w_tid w;
  lo_fds lp fd c :
    w_loops w !! l = Some lp → po_channels (el_poller lp) !! fd = Some c → in_use (w_kern w) fd;
  lo_fresh c : (w_next w ≤ c)%nat → w_chans w !! c = None;
  lo_conns : w_conns w = ∅;
  lo_willing : willing (w_kern w);
  lo_idle lp : w_loops w !! l = Some lp → el_pendingFunctors lp = [] ∧ el_running lp = [];
  lo_only : dom (w_loops w) = {[ l ]};
  lo_rest : at_rest w;
}.

Lemma looping_loop l w : looping l w → ∃ lp, w_loops w !! l = Some lp ∧ el_threadId lp = w_tid w.
Proof.
  intros Ho. destruct (pk_loop _ _ (lo_poller _ _ Ho)) as [lp El]. exists lp. split; [done|].
  by eapply lo_thread.
Qed.

(** calls of the kernel, and what is no part of the loop *)
Lemma looping_same l w w' :
  looping l w → w_loops w' = w_loops w → w_chans w' = w_chans w → w_conns w' = w_conns w →
  w_tid w' = w_tid w → w_next w' = w_next w → willing (w_kern w') →
  (∀ fd, in_use (w_kern w) fd → in_use (w_kern w') fd) →
  interest (w_kern w') = interest (w_kern w) → looping l w'.
Proof.
  intros [Hp Ht Hf Hn Hc Hw Hidle Hone Hr] E1 E2 E3 E4 E5 Hk Hu Hi. destruct (pk_loop _ _ Hp) as [lp El].
  split; rewrite ?E1, ?E2, ?E3, ?E4, ?E5; try done.
  - eapply (poller_ok_frame l w w' lp lp); try done; [by rewrite E1|by rewrite Hi].
  - intros lp' fd c El' E. by eapply Hu, Hf.
  - by apply (rests_same w).
Qed.

(** a new channel *)
Lemma looping_chan l w ch :
  looping l w → ch_index ch = -1 → ch_eventHandling ch = false →
  looping l (set_w_chans (<[w_next w := ch]> (w_chans w)) (set_w_next (S (w_next w)) w)).
Proof.
  intros [Hp Ht Hf Hn Hc Hw Hidle Hone Hr] Hi He. destruct (pk_loop _ _ Hp) as [lp El].
  split; try done.
  - eapply (poller_ok_new_chan l w); try done. by apply Hn.
  - intros c Hge. rs in Hge. rs. rewrite lookup_insert_ne by lia. apply Hn. lia.
  - split; [|apply Hr]. rs. intros c x [[<- <-]|[_ E]]%lookup_insert_Some; [done|by apply (ar_chans _ Hr c)].
Qed.

(** the channel is watched *)
Lemma looping_enable l c lp ch w :
  looping l w → w_loops w !! l = Some lp → w_chans w !! c = Some ch → ch_loop ch = l →
  ch_index ch = -1 → ch_events ch = 0 → po_channels (el_poller lp) !! ch_fd ch = None →
  in_use (w_kern w) (ch_fd ch) →
  wp never (Channel_EnableReading c) (λ _ w', looping l w' ∧ ∃ k lp',
    w' = set_w_kern k (set_w_loops (<[l := lp']> (w_loops w))
           (set_w_chans (<[c := updated kReadEvent ch]> (w_chans w)) w)) ∧
    (∀ fd, in_use k fd ↔ in_use (w_kern w) fd) ∧
    po_channels (el_poller lp') = <[ch_fd ch := c]> (po_channels (el_poller lp))) w.
Proof.
  intros Ho Hl Hc Hcl Hi Hev Hnone Hu. destruct Ho as [Hp Ht Hf Hn Hcs Hw Hidle Hone Hrest].
  change (Channel_EnableReading c) with (update_events (λ ev, Z.lor ev kReadEvent) c).
  eapply wp_post.
  { apply (update_spec (λ ev, Z.lor ev kReadEvent) l c w lp ch never Hp Hl Hc Hcl (Ht _ Hl)); [done|].
    unfold refused. rewrite Hi. intros Hr%Z.lt_nge. apply Hr, Htakes.
    by rewrite (pk_interest _ _ Hp _ _ Hl), Hnone. }
  cbv zeta. rewrite Hev. change (Z.lor 0 kReadEvent) with kReadEvent.
  intros [] w' (k & -> & Hp' & Hk & _).
  assert (Hkw : willing k ∧ ∀ fd, in_use k fd ↔ in_use (w_kern w) fd).
  { destruct Hk as [->|(ep & op & fd & ev & p & ->)]; [done|]. split; [by apply ctl_willing|].
    intros x. apply ctl_in_use. }
  split; [|eexists k, _; split; [reflexivity|]; split; [apply Hkw|done]].
  unfold store_update in *. split; try done; rs.
  - intros lp'. rewrite lookup_insert_eq. intros [= <-]. apply (Ht _ Hl).
  - intros lp' fd c'. rewrite lookup_insert_eq. intros [= <-] E. apply Hkw.
    change (<[ch_fd ch := c]> (po_channels (el_poller lp)) !! fd = Some c') in E.
    apply lookup_insert_Some in E as [[<- _]|[_ E]]; [done|]. by eapply Hf.
  - intros c' Hge. rewrite lookup_insert_ne; [apply (Hn c' Hge)|]. intros <-. by rewrite (Hn c Hge) in Hc.
  - apply Hkw.
  - intros lp'. rewrite lookup_insert_eq. intros [= <-]. apply (Hidle _ Hl).
  - rewrite dom_insert_L, Hone. set_solver.
  - split; rs.
    + intros x y [[<- <-]|[_ E]]%lookup_insert_Some; [exact (ar_chans _ Hrest _ _ Hc)|by eapply (ar_chans _ Hrest)].
    + intros x y [[<- <-]|[_ E]]%lookup_insert_Some; [exact (ar_loops _ Hrest _ _ Hl)|by eapply (ar_loops _ Hrest)].
Qed.

(** ** The loop, the server and the timer *)

(** what the kernel grants does not fail *)
Ltac go :=
  repeat (lazymatch goal with
  | |- wp _ (mbind _ (if ?a <? 0 then _ else _)) _ _ => rewrite (proj2 (Z.ltb_ge a 0)) by done
  | |- wp _ (if ?a <? 0 then _ else _) _ _ => rewrite (proj2 (Z.ltb_ge a 0)) by done
  | |- wp _ (assertM (0 <=? ?a)) _ _ => apply wp_assert; [by apply Z.leb_le|]
  | _ => ws
  end; rs).

Lemma new_EventLoop_looping w :
  w_loops w = ∅ → w_chans w = ∅ → w_conns w = ∅ → w_tls w !! w_tid w = None → willing (w_kern w) →
  wp never new_EventLoop (λ l w', looping l w' ∧ w_cm w' = w_cm w) w.
Proof.
  intros El Ec En Etls Hw. unfold new_EventLoop.
  destruct (epoll_create_opens _ Hw) as (Hep & Hw1 & Hemp).
  destruct (eventfd_opens _ Hw1) as (Hfd & _ & Hw2 & Hu & Hi).
  go. rewrite bool_decide_false by (rewrite Etls; by intros []). go.
  rewrite El, Ec. rs. rewrite !insert_insert_eq. set (l := w_next w). set (w1 := set_w_loops _ _).
  set (wch := set_ch_readCallback _ _). set (w2 := set_w_chans _ _).
  set (lp := mkEventLoop _ _ _ _ _ _ _ _ _ _ _ _ _ _) in *.
  assert (Hlp : w_loops w2 !! l = Some lp) by apply lookup_singleton_eq.
  assert (Hone : ∀ x, w_loops w2 !! l = Some x → x = lp) by congruence.
  assert (Ho : looping l w2).
  { split; try done.
    - split; [by eexists|..].
      + by intros x c y ->%Hone.
      + intros c x y _ E. change (({[ S l := wch ]} : gmap loc Channel) !! c = Some x) in E.
        by apply lookup_singleton_Some in E as [_ <-].
      + intros x y ->%Hone. change (interest (w_kern w2) (sys_epoll_create (w_kern w)).1 !! x = None).
        change (w_kern w2) with (sys_eventfd (sys_epoll_create (w_kern w)).2).2. by rewrite Hi, Hemp.
    - by intros x ->%Hone.
    - by intros x y c ->%Hone.
    - intros c Hge. change (({[ S l := wch ]} : gmap loc Channel) !! c = None).
      apply lookup_singleton_ne. change (w_next w2) with (S (S l)) in Hge. lia.
    - by intros x ->%Hone.
    - apply dom_singleton_L.
    - split.
      + intros c ch E. change (({[ S l := wch ]} : gmap loc Channel) !! c = Some ch) in E.
        by apply lookup_singleton_Some in E as [_ <-].
      + intros x y E. change (({[ l := lp ]} : gmap loc EventLoop) !! x = Some y) in E.
        by apply lookup_singleton_Some in E as [_ <-]. }
  eapply wp_post.
  { apply (looping_enable l (S l) lp _ w2 Ho Hlp (lookup_singleton_eq _ _)); try done.
    apply Hu. by left. }
  intros [] w' (Ho' & k & lp' & -> & _). by apply wp_ret.
Qed.

Lemma short_ToIpPort addr : (String.length (sockets_ToIpPort addr) ≤ 51)%nat.
Proof.
  unfold sockets_ToIpPort. pose proof (ntop_short (sin_addr addr)) as Hip.
  set (ip := inet_ntop _) in *. set (p := u16 _).
  assert (Hp : (String.length (pretty p) ≤ 10)%nat).
  { destruct (decide (p = 0)) as [->|Hne]; [vm_compute; lia|]. apply pretty_int_length.
    pose proof (u16_range (sin_port addr)). unfold p in *. lia. }
  rewrite string_app_length, snprintf_fits; rewrite string_app_length; simpl; lia.
Qed.

(** the server is made, and its socket is not watched yet *)
Record bound l (sock : Z) (ac : loc) w : Prop := {
  bo_looping : looping l w;
  bo_chan : w_chans w !! ac = Some (set_ch_readCallback (Some CbAccept) (new_Channel l sock));
  bo_in_use : in_use (w_kern w) sock;
  bo_channels lp : w_loops w !! l = Some lp → po_channels (el_poller lp) !! sock = None;
  bo_server : ∃ ip name idle, (String.length ip ≤ 51)%nat ∧ w_server w =
    mkTcpServer l ip name (mkAcceptor l sock ac true false idle)
      (mkThreadPool l name false 0 0 [] []) 0 1 ∅;
}.

Lemma new_GatewayServer_bound l addr timeout w :
  looping l w →
  wp never (new_GatewayServer l addr 0 timeout) (λ _ w', ∃ sock ac, bound l sock ac w' ∧
    w_gs w' = mkGatewayServer l false false (-1) None timeout ∅ 0 0 false [] ∧ w_cm w' = w_cm w) w.
Proof.
  intros Ho. pose proof (lo_willing _ _ Ho) as Hw.
  unfold new_GatewayServer, new_TcpServer, new_Acceptor, sockets_CreateNonblockingOrDie,
    sockets_SetReuseAddr, sockets_SetReusePort, set_option, sockets_BindOrDie, or_die, mod_acceptor.
  destruct (socket_opens _ Hw) as (Hs & Hnew & Hw1 & Hu1 & Hi1).
  destruct (open_null_opens _ Hw1) as (Hn & _ & Hw2 & Hu2 & Hi2).
  destruct (setsockopt_stays (sys_socket (w_kern w)).1 SOL_SOCKET SO_REUSEADDR 1 _ Hw2) as (Hw3 & Hu3 & Hi3).
  destruct (setsockopt_stays (sys_socket (w_kern w)).1 SOL_SOCKET SO_REUSEPORT 0 _ Hw3) as (Hw4 & Hu4 & Hi4).
  destruct (bind_grants (sys_socket (w_kern w)).1 addr _ Hw4) as (Hb & Hw5 & Hu5 & Hi5).
  go. rewrite insert_insert_eq.
  set (k := (sys_bind _ _ _).2). set (sock := (sys_socket (w_kern w)).1).
  assert (Hu : ∀ fd, in_use (w_kern w) fd → in_use k fd).
  { intros fd Hfd. apply Hu5, Hu4, Hu3, Hu2. right. apply Hu1. by right. }
  exists sock, (w_next w). split; [|done].
  pose proof (looping_chan _ _ (set_ch_readCallback (Some CbAccept) (new_Channel l sock)) Ho eq_refl eq_refl) as Ho'.
  split.
  - eapply (looping_same l _ _ Ho'); try done. rs. unfold k. by rewrite Hi5, Hi4, Hi3, Hi2, Hi1.
  - rs. apply lookup_insert_eq.
  - apply Hu5, Hu4, Hu3, Hu2. right. apply Hu1. by left.
  - intros lp Hl. destruct (po_channels (el_poller lp) !! sock) as [c|] eqn:E; [|done].
    destruct Hnew. exact (lo_fds _ _ Ho lp _ c Hl E).
  - eexists _, _, _. split; [apply short_ToIpPort|reflexivity].
Qed.

(** the heartbeat timer has a channel of its own *)
Lemma SetupHeartbeat_bound l sock ac w :
  bound l sock ac w → gs_loop (w_gs w) = l → 0 ≤ Z.quot (gs_heartbeatTimeoutSec (w_gs w)) 2 →
  wp never GatewayServer_SetupHeartbeat (λ _ w', bound l sock ac w' ∧ ∃ fd chan,
    w_gs w' = set_gs_heartbeatChannel (Some chan) (set_gs_heartbeatTimerFd fd (w_gs w)) ∧
    w_cm w' = w_cm w) w.
Proof.
  intros [Ho Hac Hsock Hnone Hsrv] Hgl Hsec. pose proof (lo_willing _ _ Ho) as Hw.
  unfold GatewayServer_SetupHeartbeat, CreateTimerFd.
  destruct (timerfd_opens _ Hw) as (Hfd & Hnew & Hw1 & Hu1 & Hi1).
  destruct (settime_grants (sys_timerfd_create (w_kern w)).1 _ _ Hw1 Hsec) as (Hr & Hw2 & Hu2 & Hi2).
  go. rewrite Hgl, insert_insert_eq.
  set (fd := (sys_timerfd_create (w_kern w)).1) in *. set (n := w_next w).
  set (ch := set_ch_readCallback (Some CbHeartbeat) (new_Channel l fd)).
  match goal with |- wp _ _ _ ?x => set (w1 := x) end.
  assert (Hk : w_kern w1 = (sys_timerfd_settime fd (Z.quot (gs_heartbeatTimeoutSec (w_gs w)) 2)
    (sys_timerfd_create (w_kern w)).2).2) by done.
  assert (Ho1 : looping l w1).
  { eapply (looping_same l _ _ (looping_chan l w ch Ho eq_refl eq_refl)); try done.
    - intros x Hx. rewrite Hk. apply Hu2, Hu1. by right.
    - rewrite Hk, Hi2. exact Hi1. }
  destruct (looping_loop _ _ Ho) as (lp & Hl & _).
  assert (Hfree : po_channels (el_poller lp) !! fd = None).
  { destruct (po_channels (el_poller lp) !! fd) as [c|] eqn:E; [|done].
    destruct Hnew. exact (lo_fds _ _ Ho lp _ c Hl E). }
  assert (Hne : ac ≠ n) by (intros ->; by rewrite (lo_fresh _ _ Ho) in Hac).
  assert (Hfdne : sock ≠ fd) by (intros ->; done).
  eapply wp_post.
  { apply (looping_enable l n lp ch w1 Ho1 Hl); try done; [apply lookup_insert_eq|].
    rewrite Hk. apply Hu2, Hu1. by left. }
  intros [] w' (Ho' & k & lp' & -> & Hu3 & Hpo). split; [|by exists fd, n].
  split; try done; rs.
  - rewrite lookup_insert_ne by done. unfold w1. rs. by rewrite lookup_insert_ne.
  - apply Hu3. rewrite Hk. apply Hu2, Hu1. by right.
  - intros x. rewrite lookup_insert_eq. intros [= <-]. rewrite Hpo, lookup_insert_ne by done.
    by apply Hnone.
Qed.

(** the acceptor listens, and its socket is watched *)
Lemma Listen_looping l sock ac w :
  looping l w → w_chans w !! ac = Some (set_ch_readCallback (Some CbAccept) (new_Channel l sock)) →
  in_use (w_kern w) sock →
  (∀ lp, w_loops w !! l = Some lp → po_channels (el_poller lp) !! sock = None) →
  ac_loop (ts_acceptor (w_server w)) = l → ac_acceptSocket (ts_acceptor (w_server w)) = sock →
  ac_acceptChannel (ts_acceptor (w_server w)) = ac →
  wp never Acceptor_Listen (λ _ w', looping l w' ∧
    w_server w' = set_ts_acceptor (set_ac_listening true (ts_acceptor (w_server w))) (w_server w) ∧
    w_gs w' = w_gs w ∧ w_cm w' = w_cm w) w.
Proof.
  intros Ho Hac Hsock Hnone E1 E2 E3. pose proof (lo_willing _ _ Ho) as Hw.
  destruct (looping_loop _ _ Ho) as (lp & Hl & Ht). unfold Acceptor_Listen, mod_acceptor.
  do 2 ws. rs. rewrite E1, E2, E3. eapply wp_bind, assert_in_loop_spec; [done|done|].
  destruct (listen_grants sock _ Hw) as (Hr & Hw1 & Hu1 & Hi1).
  unfold sockets_ListenOrDie, or_die. go.
  match goal with |- wp _ _ _ ?x => set (w1 := x) end.
  assert (Ho1 : looping l w1).
  { eapply (looping_same l _ _ Ho); try done. intros x. apply Hu1. }
  eapply wp_post; [apply (looping_enable l ac lp _ w1 Ho1 Hl Hac); try done|].
  - by apply Hnone.
  - by apply Hu1.
  - by intros [] w' (Ho' & k & lp' & -> & _).
Qed.

(** clients are taken, there are none, and the loop is asked nothing *)
Record started l w : Prop := {
  sd_accepting : accepting l [] w;
  sd_named : named (w_server w);
  sd_connections : ts_connections (w_server w) = ∅;
  sd_idle lp : w_loops w !! l = Some lp → el_pendingFunctors lp = [] ∧ el_running lp = [];
  sd_conns : w_conns w = ∅;
  sd_only : dom (w_loops w) = {[ l ]};
  sd_rest : at_rest w;
}.

Lemma Start_started l sock ac w :
  bound l sock ac w → gs_loop (w_gs w) = l → gs_started (w_gs w) = false → gs_spi (w_gs w) = false →
  gs_workerRunning (w_gs w) = false → gs_workerThreads (w_gs w) = 0 → gs_workerTasks (w_gs w) = [] →
  0 < gs_workerNumThreads (w_gs w) → 0 ≤ Z.quot (gs_heartbeatTimeoutSec (w_gs w)) 2 →
  cm_connections (w_cm w) = ∅ →
  wp never GatewayServer_Start (λ _ w', started l w' ∧ w_cm w' = w_cm w) w.
Proof.
  intros Hb Hgl Hst Hspi Hrun Hth Htk Hnum Hsec Hcm. unfold GatewayServer_Start, workerPool_Start.
  do 2 ws. apply wp_bind, wp_assert; [by rewrite Hst|]. do 5 ws. rs.
  apply wp_bind, wp_assert; [by rewrite Hrun|]. ws. rs. apply wp_bind.
  rewrite Hth, Z.add_0_l, Z.max_r by lia.
  set (g := set_gs_workerThreads _ _).
  assert (Hb1 : bound l sock ac (set_w_gs g w)).
  { destruct Hb. split; try done. apply (looping_same l w); try done. apply bo_looping0. }
  eapply wp_post; [by apply (SetupHeartbeat_bound l sock ac)|].
  intros [] w1 ([Ho Hac Hsock Hnone (ip & name & idle & Hshort & Hsrv)] & fd & chan & Eg & Ecm).
  unfold TcpServer_Start, mod_server, mod_pool. do 3 ws. rs. rewrite Hsrv. rs. apply wp_bind.
  unfold EventLoopThreadPool_Start. do 2 ws. rs. rewrite Hsrv. rs.
  apply wp_bind, wp_assert; [done|].
  destruct (looping_loop _ _ Ho) as (lp & Hl & Ht).
  eapply wp_bind, assert_in_loop_spec; [done|done|]. unfold mod_pool, mod_server. do 2 ws. rs.
  change (seq 0 (Z.to_nat 0)) with (@nil nat). cbn [forM]. do 5 ws. rs.
  apply wp_bind, wp_assert; [done|]. eapply wp_RunInLoop; [done| |by intros ?]. intros _.
  match goal with |- wp _ _ _ ?x => set (w2 := x) end.
  eapply wp_post.
  { apply (Listen_looping l sock ac w2); try done. apply (looping_same l w1); try done. apply Ho. }
  intros [] w' ([Hp' Ht' Hf' Hn' Hc' Hw' Hidle' Hone' Hr'] & Esrv & Egs & Ecm').
  assert (Ecm2 : w_cm w' = w_cm w) by (by rewrite Ecm').
  assert (Egs2 : w_gs w' = set_gs_heartbeatChannel (Some chan) (set_gs_heartbeatTimerFd fd g))
    by (rewrite Egs; exact Eg).
  split; [|done]. split; [|rewrite Esrv; split; [exact Hshort|simpl; lia|done]|by rewrite Esrv|exact Hidle'|done..].
  split; rewrite ?Esrv, ?Egs2, ?Ecm2; try done.
  - intros c Hge. split; [by rewrite Hc'|by apply Hn'].
  - intros id c. by rewrite Hcm.
  - unfold g. rs. split_and!; [done|lia|done].
Qed.

(** ** The start of the program *)

(** [main_setup] takes clients, in a process that has no loop yet *)
Lemma main_setup_started ip port workers timeout addr w :
  w_loops w = ∅ → w_chans w = ∅ → w_conns w = ∅ → w_tls w !! w_tid w = None → willing (w_kern w) →
  cm_connections (w_cm w) = ∅ → 0 < workers → 0 ≤ timeout →
  wp never (main_setup ip port 0 workers timeout addr 0) (λ l w', started l w' ∧ w_cm w' = w_cm w) w.
Proof.
  intros El Ec En Etls Hw Hcm Hwork Htime. unfold main_setup. apply wp_bind.
  eapply wp_post; [by apply new_EventLoop_looping|]. intros l w1 [Ho Ecm1]. apply wp_bind.
  eapply wp_post; [by apply new_GatewayServer_bound|]. intros [] w2 (sock & ac & Hb & Egs & Ecm2).
  unfold GatewayServer_SetThreadNum, GatewayServer_SetWorkerThreadNum, TcpServer_SetThreadNum, mod_pool.
  apply wp_bind, wp_bind, wp_assert; [done|]. do 3 ws. rs. apply wp_bind.
  match goal with |- wp _ _ _ ?x => set (w3 := x) end.
  assert (Hb3 : bound l sock ac w3).
  { destruct Hb as [Ho2 ? ? ? (x & y & z & Hx & E)]. split; try done.
    - apply (looping_same l w2); try done. apply Ho2.
    - exists x, y, z. split; [done|]. unfold w3. rs. by rewrite E. }
  assert (Eg3 : w_gs w3 = set_gs_workerNumThreads workers
    (mkGatewayServer l false false (-1) None timeout ∅ 0 0 false [])) by (unfold w3; rs; by rewrite Egs).
  eapply wp_post.
  { apply (Start_started l sock ac w3 Hb3); rewrite ?Eg3; try done.
    - rs. apply Z.quot_pos; lia.
    - unfold w3. rs. by rewrite Ecm2, Ecm1. }
  intros [] w4 [Ha E4]. apply wp_ret. split; [done|]. rewrite E4. unfold w3. rs. congruence.
Qed.
End start.

(** ** The concrete kernel *)

#[export] Instance sim_starts : StartLaws sim.
Proof.
  refine {| willing k := 0 ≤ sim_nextfd k ∧ ∀ fd, fd ∈ (sim_backlog k).*1 → fd < sim_nextfd k |}.
  1-4: intros k [Hk Hb]; simpl;
    split; [done|]; split; [intros [? _]; lia|];
    split; [split; [lia|intros fd Hfd; apply Hb in Hfd; lia]|];
    split; [|done]; intros fd; split;
      [intros [? ?]; destruct (decide (fd = sim_nextfd k)); [by left|right; split; [lia|done]]
      |intros [->|[? ?]]; split; [lia|by intros Hfd; apply Hb in Hfd; lia|lia|done]].
  - intros k [Hk Hb]. simpl. split; [done|]. split; [split; [lia|intros fd Hfd; apply Hb in Hfd; lia]|].
    unfold sim_list. simpl. by rewrite lookup_insert_eq.
  - intros fd level name v k [Hk Hb]. by split_and!.
  - intros fd addr k [Hk Hb]. by split_and!.
  - intros fd k [Hk Hb]. by split_and!.
  - intros fd sec k [Hk Hb] _. by split_and!.
  - intros ep op fd ev p k. simpl. unfold sim_ctl. by repeat case_match.
  - intros a. simpl. lia.
Defined.
