(* ===== verification/Alone.v ===== *)
(** * A client's events touch nothing of the other clients

    What the gateway does for a connection, it does to the objects of that
    connection: the other connections, their channels, what was written on
    their sockets and the registries stay. No code of the program. *)
From S2P Require Import Prelude RingBuffer Protocol World Reactor Sockets Connection SimKernel.
From S2P Require Import Server Gateway Registry GatewayFacts Scenarios ApiClient Session ReadOnce AtRest NewClient.

(** ** The events of a client touch nothing else *)

Section alone.
Context {K : Type} `{SocketLaws K} `{!DescriptorLaws K}.
Abbreviation W := (World K).
Implicit Types (w : W).
(** the connection, its loop, its channel, its socket and its id; the loop's
    eventfd; the connection's name *)
Context (c l chan : loc) (fd id wfd : Z) (name : string).

(** the connection is as it was established *)
Record mine w : Prop := {
  mi_conn : ∃ conn, w_conns w !! c = Some conn ∧ tc_loop conn = l ∧ tc_channel conn = chan ∧
    tc_socket conn = fd ∧ tc_connId conn = id ∧ tc_name conn = name;
  mi_chan : ∃ ch, w_chans w !! chan = Some ch ∧ ch_fd ch = fd ∧ ch_loop ch = l ∧
    ch_readCallback ch = Some (CbConnRead c);
  mi_loop : ∃ lp, w_loops w !! l = Some lp ∧ el_wakeupFd lp = wfd ∧ el_threadId lp = w_tid w;
  mi_cm : cm_connections (w_cm w) !! id = Some c;
  mi_workers : gs_spi (w_gs w) = false ∧ gs_workerThreads (w_gs w) ≠ 0;
}.

(** what a connection asks to be told *)
Definition told (f : functor) : Prop := f = FWriteComplete c ∨ ∃ n, f = FHighWaterMark c n.

(** what belongs to the others; the loop is only asked to tell the connection *)
Record apart w w' : Prop := {
  ap_conns c' : c' ≠ c → w_conns w' !! c' = w_conns w !! c';
  ap_chans c' : c' ≠ chan → w_chans w' !! c' = w_chans w !! c';
  ap_loops lp : w_loops w !! l = Some lp → ∃ lp' fs, w_loops w' !! l = Some lp' ∧
    el_threadId lp' = el_threadId lp ∧ el_wakeupFd lp' = el_wakeupFd lp ∧
    el_pendingFunctors lp' = el_pendingFunctors lp ++ fs ∧ Forall told fs ∧
    el_running lp' = el_running lp;
  ap_kernel fd' : fd' ≠ fd → fd' ≠ wfd →
    sent (w_kern w') fd' = sent (w_kern w) fd' ∧ fin (w_kern w') fd' = fin (w_kern w) fd';
  ap_rest : w_tid w' = w_tid w ∧ w_next w' = w_next w ∧ w_server w' = w_server w ∧ w_cm w' = w_cm w;
  ap_gs : gs_spi (w_gs w') = gs_spi (w_gs w) ∧ gs_workerThreads (w_gs w') = gs_workerThreads (w_gs w) ∧
    gs_loop (w_gs w') = gs_loop (w_gs w);
  ap_rests : rests w w';
  ap_open fd' : in_use (w_kern w) fd' → in_use (w_kern w') fd';
}.

#[export] Instance apart_preorder : PreOrder apart.
Proof.
  split.
  - intros w. split; try done. intros lp El. exists lp, []. by rewrite (right_id_L [] (++)).
  - intros w1 w2 w3 [A1 A2 A3 A4 (?&?&?&?) (?&?&?) A5 A6] [B1 B2 B3 B4 (?&?&?&?) (?&?&?) B5 B6].
    split; try (split_and!; congruence).
    + intros c' Hc. by rewrite B1, A1.
    + intros c' Hc. by rewrite B2, A2.
    + intros lp El. destruct (A3 lp El) as (lp2 & fs & E2 & T2 & W2 & P2 & F2 & R2).
      destruct (B3 lp2 E2) as (lp3 & gs & E3 & T3 & W3 & P3 & F3 & R3).
      exists lp3, (fs ++ gs). rewrite P3, P2, (assoc_L (++)). split_and!; try congruence.
      by apply Forall_app_2.
    + intros fd' Hf Hw. destruct (A4 fd' Hf Hw), (B4 fd' Hf Hw). split; congruence.
    + by etrans.
    + auto.
Qed.

Definition alone : relation W := λ w w', mine w → mine w' ∧ apart w w'.
#[export] Instance alone_preorder : PreOrder alone.
Proof.
  split; [by intros w Hm|]. intros w1 w2 w3 H12 H23 Hm. destruct (H12 Hm) as [Hm2 ?].
  destruct (H23 Hm2) as [? ?]. split; [done|]. by etrans.
Qed.

(** ** What the operations are made of *)

Lemma alone_same w w' :
  w_conns w' = w_conns w → w_chans w' = w_chans w → w_loops w' = w_loops w →
  w_tid w' = w_tid w → w_next w' = w_next w → w_server w' = w_server w → w_cm w' = w_cm w →
  gs_spi (w_gs w') = gs_spi (w_gs w) → gs_workerThreads (w_gs w') = gs_workerThreads (w_gs w) →
  gs_loop (w_gs w') = gs_loop (w_gs w) →
  (∀ fd', fd' ≠ fd → fd' ≠ wfd →
    sent (w_kern w') fd' = sent (w_kern w) fd' ∧ fin (w_kern w') fd' = fin (w_kern w) fd') →
  (∀ fd', in_use (w_kern w) fd' → in_use (w_kern w') fd') → alone w w'.
Proof.
  intros E1 E2 E3 E4 E5 E6 E7 E8 E9 E10 Hk Hu [M1 M2 M3 M4 M5].
  split; split; rewrite ?E1, ?E2, ?E3, ?E4, ?E7, ?E8, ?E9; try done.
  - intros lp El. exists lp, []. by rewrite (right_id_L [] (++)).
  - by apply rests_same.
Qed.
Lemma alone_sys {A} (f : K → A * K) :
  (∀ k fd', fd' ≠ fd → fd' ≠ wfd → sent (f k).2 fd' = sent k fd' ∧ fin (f k).2 fd' = fin k fd') →
  (∀ k fd', in_use k fd' → in_use (f k).2 fd') → preserves alone (sys f).
Proof.
  intros Hf Hu w a w' [= _ <-]. apply alone_same; try done; [intros fd'; apply Hf|apply Hu].
Qed.
Lemma alone_gs (f : GatewayServer → GatewayServer) :
  (∀ g, gs_spi (f g) = gs_spi g ∧ gs_workerThreads (f g) = gs_workerThreads g ∧ gs_loop (f g) = gs_loop g) →
  preserves alone (modify (λ w, set_w_gs (f (w_gs w)) w)).
Proof. intros Hf. apply preserves_modify. intros w. destruct (Hf (w_gs w)) as (?&?&?). by apply alone_same. Qed.
Lemma alone_conn f :
  (∀ x, tc_loop (f x) = tc_loop x ∧ tc_channel (f x) = tc_channel x ∧ tc_socket (f x) = tc_socket x ∧
    tc_connId (f x) = tc_connId x ∧ tc_name (f x) = tc_name x) → preserves alone (mod_conn c f).
Proof.
  intros Hf w u w' (conn & Hc & ->)%mod_conn_inv [(conn' & Hc' & ? & ? & ? & ? & ?) M2 M3 M4 M5].
  simplify_eq. destruct (Hf conn) as (E1 & E2 & E3 & E4 & E5). split; split; try done.
  - exists (f conn). rs. by rewrite lookup_insert_eq, E1, E2, E3, E4, E5.
  - intros c' Hne. rs. by rewrite lookup_insert_ne.
  - intros lp El. exists lp, []. by rewrite (right_id_L [] (++)).
  - by apply rests_same.
Qed.
Lemma mod_chan_inv x f w u w' :
  mod_chan x f w = Ok (u, w') →
  ∃ ch, w_chans w !! x = Some ch ∧ w' = set_w_chans (<[x := f ch]> (w_chans w)) w.
Proof.
  intros (ch & w1 & [Hc ->]%get_chan_inv & E)%runM_bind_inv. injection E as _ <-. eauto.
Qed.
Lemma alone_chan f :
  (∀ x, ch_fd (f x) = ch_fd x ∧ ch_loop (f x) = ch_loop x ∧ ch_readCallback (f x) = ch_readCallback x ∧
    ch_eventHandling (f x) = ch_eventHandling x) → preserves alone (mod_chan chan f).
Proof.
  intros Hf w u w' E [M1 (ch' & Hc' & ? & ? & ?) M3 M4 M5].
  assert (Hr : rests w w') by (eapply rests_mod_chan, E; intros x; apply Hf).
  apply mod_chan_inv in E as (ch & Hc & ->).
  simplify_eq. destruct (Hf ch) as (E1 & E2 & E3 & _). split; split; try done.
  - exists (f ch). rs. by rewrite lookup_insert_eq, E1, E2, E3.
  - intros c' Hne. rs. by rewrite lookup_insert_ne.
  - intros lp El. exists lp, []. by rewrite (right_id_L [] (++)).
Qed.
Lemma alone_loop f fs :
  (∀ x, el_threadId (f x) = el_threadId x ∧ el_wakeupFd (f x) = el_wakeupFd x ∧
    el_pendingFunctors (f x) = el_pendingFunctors x ++ fs ∧ el_running (f x) = el_running x ∧
    el_eventHandling (f x) = el_eventHandling x) →
  Forall told fs → preserves alone (mod_loop l f).
Proof.
  intros Hf Hfs w u w' E [M1 M2 (lp' & Hl' & ? & ?) M4 M5].
  assert (Hr : rests w w') by (eapply rests_mod_loop, E; intros x; apply Hf).
  apply mod_loop_inv in E as (lp & Hl & ->).
  simplify_eq. destruct (Hf lp) as (E1 & E2 & E3 & E4 & _). split; split; try done.
  - exists (f lp). rs. by rewrite lookup_insert_eq, E1, E2.
  - intros x Ex. simplify_eq. exists (f lp), fs. rs. by rewrite lookup_insert_eq.
Qed.
Lemma alone_loop_quiet f :
  (∀ x, el_threadId (f x) = el_threadId x ∧ el_wakeupFd (f x) = el_wakeupFd x ∧
    el_pendingFunctors (f x) = el_pendingFunctors x ∧ el_running (f x) = el_running x ∧
    el_eventHandling (f x) = el_eventHandling x) →
  preserves alone (mod_loop l f).
Proof.
  intros Hf. apply (alone_loop f []); [|done]. intros x. rewrite (right_id_L [] (++)). apply Hf.
Qed.

(** what is read from the store is the client's *)
Lemma alone_bind_conn {A} (k : TcpConnection → M W A) :
  (∀ x, tc_loop x = l → tc_channel x = chan → tc_socket x = fd → preserves alone (k x)) →
  preserves alone (get_conn c ≫= k).
Proof.
  intros Hk w a w' (x & w1 & [Hx ->]%get_conn_inv & E)%runM_bind_inv Hm.
  pose proof (mi_conn _ Hm) as (x' & Hx' & ? & ? & ? & _). simplify_eq. by eapply Hk.
Qed.
Lemma alone_bind_chan {A} (k : Channel → M W A) :
  (∀ x, ch_fd x = fd → ch_loop x = l → preserves alone (k x)) → preserves alone (get_chan chan ≫= k).
Proof.
  intros Hk w a w' (x & w1 & [Hx ->]%get_chan_inv & E)%runM_bind_inv Hm.
  pose proof (mi_chan _ Hm) as (x' & Hx' & ? & ? & _). simplify_eq. by eapply Hk.
Qed.
Lemma alone_bind_loop {A} (k : EventLoop → M W A) :
  (∀ x, el_wakeupFd x = wfd → preserves alone (k x)) → preserves alone (get_loop l ≫= k).
Proof.
  intros Hk w a w' (x & w1 & [Hx ->]%get_loop_inv & E)%runM_bind_inv Hm.
  pose proof (mi_loop _ Hm) as (x' & Hx' & ? & _). simplify_eq. by eapply Hk.
Qed.
Lemma alone_in_thread {A} (m1 m2 : M W A) :
  preserves alone m1 → preserves alone (ifM (EventLoop_IsInLoopThread l) m1 m2).
Proof.
  intros Hm w a w' (here & w1 & E1 & E)%runM_bind_inv Hw.
  unfold EventLoop_IsInLoopThread in E1. apply runM_bind_inv in E1 as (lp & w2 & [Hl ->]%get_loop_inv & E1).
  apply runM_bind_inv in E1 as (tid & w3 & [= <- <-] & [= <- <-]).
  pose proof (mi_loop _ Hw) as (lp' & Hl' & _ & Ht). simplify_eq. rewrite Ht, Z.eqb_refl in E. by eapply Hm.
Qed.
Lemma alone_bind_gs {A} (k : GatewayServer → M W A) :
  (∀ g, gs_spi g = false → gs_workerThreads g ≠ 0 → preserves alone (k g)) →
  preserves alone (gets w_gs ≫= k).
Proof. intros Hk w a w' E Hm. pose proof (mi_workers _ Hm) as [??]. by eapply (Hk (w_gs w)). Qed.

Lemma alone_write fd' d : fd' = fd ∨ fd' = wfd → preserves alone (sys (sys_write fd' d)).
Proof.
  intros Hfd. apply alone_sys; [|apply write_in_use]. intros k x Hf Hw. rewrite write_sent, write_fin. split; [|done].
  unfold upd. rewrite bool_decide_false; [done|]. by destruct Hfd; subst.
Qed.
Lemma alone_shutdown : preserves alone (sys (sys_shutdown fd)).
Proof.
  apply alone_sys; [|apply shutdown_in_use]. intros k x Hf Hw. rewrite shutdown_sent, shutdown_fin. split; [done|].
  unfold upd. by rewrite bool_decide_false.
Qed.
Lemma alone_ctl ep op fd' ev p : preserves alone (sys (sys_epoll_ctl ep op fd' ev p)).
Proof.
  apply alone_sys; [intros k x _ _; by rewrite ctl_sent, ctl_fin|]. intros k fd1. by rewrite ctl_in_use.
Qed.
Lemma alone_now : preserves alone (sys sys_now).
Proof.
  apply alone_sys; [|apply now_in_use]. intros k x _ _. by destruct (now_quiet k) as (-> & -> & _).
Qed.
Lemma alone_readv fd' iov : preserves alone (sys (sys_readv fd' iov)).
Proof.
  apply alone_sys; [|apply readv_in_use]. intros k x _ _. by destruct (readv_quiet fd' iov k) as (-> & -> & _).
Qed.
End alone.

Create HintDb alone.
#[export] Hint Resolve alone_shutdown alone_ctl alone_now alone_readv : alone.
#[export] Hint Extern 1 (preserves (alone _ _ _ _ _ _ _) (sys (sys_write _ _))) =>
  apply alone_write; first [left; reflexivity | right; reflexivity] : alone.
#[export] Hint Extern 1 (preserves (alone _ _ _ _ _ _ _) (mod_conn _ _)) =>
  apply alone_conn; intros []; split_and!; reflexivity : alone.
#[export] Hint Extern 1 (preserves (alone _ _ _ _ _ _ _) (mod_chan _ _)) =>
  apply alone_chan; intros []; split_and!; reflexivity : alone.
#[export] Hint Extern 1 (preserves (alone _ _ _ _ _ _ _) (mod_loop _ _)) =>
  apply alone_loop_quiet; intros []; split_and!; reflexivity : alone.
#[export] Hint Extern 1 (preserves (alone _ _ _ _ _ _ _) (mod_gs _)) =>
  apply alone_gs; intros []; split_and!; reflexivity : alone.

(** what is read is the client's, and what is not known is unfolded *)
Ltac alone_step :=
  lazymatch goal with
  | |- preserves _ (mbind _ (get_conn _)) =>
      let E1 := fresh in let E2 := fresh in let E3 := fresh in
      apply alone_bind_conn; intros ? E1 E2 E3; rewrite ?E1, ?E2, ?E3; clear E1 E2 E3
  | |- preserves _ (mbind _ (get_chan _)) =>
      let E1 := fresh in let E2 := fresh in
      apply alone_bind_chan; intros ? E1 E2; rewrite ?E1, ?E2; clear E1 E2
  | |- preserves _ (mbind _ (get_loop _)) =>
      let E1 := fresh in apply alone_bind_loop; intros ? E1; rewrite ?E1; clear E1
  | |- preserves _ (mbind _ _) => apply preserves_bind; [exact _| |intros ?]
  | |- preserves _ (ifM (EventLoop_IsInLoopThread _) _ _) => apply alone_in_thread
  | |- preserves _ (ifM _ _ _) => apply preserves_ifM; [exact _|..]
  | |- preserves _ (when _ _) => apply preserves_when; [exact _|]
  | |- preserves _ (match ?x with _ => _ end) => destruct x
  | |- preserves _ ?m =>
      first [ solve [eauto 1 with alone] | solve [eauto 1 with frame]
            | let f := head_of m in progress unfold f ]
  end.
Ltac alone_tac := repeat (cbv zeta; alone_step).

Section alone_operations.
Context {K : Type} `{SocketLaws K} `{!DescriptorLaws K}.
Abbreviation W := (World K).
Implicit Types (w : W).
Context (c l chan : loc) (fd id wfd : Z) (name : string).
Abbreviation R := (alone (K := K) c l chan fd id wfd name).

Lemma alone_assert l' : preserves R (EventLoop_AssertInLoopThread l').
Proof. frame_tac; apply preserves_get_loop; exact _. Qed.
Lemma alone_queue f : told c f → preserves R (EventLoop_QueueInLoop l f).
Proof.
  intros Hf. unfold EventLoop_QueueInLoop. apply preserves_bind; [exact _| |intros _; alone_tac].
  apply (alone_loop _ _ _ _ _ _ _ _ [f]); [intros []; split_and!; reflexivity|by apply Forall_singleton].
Qed.
Lemma alone_written : preserves R (EventLoop_QueueInLoop l (FWriteComplete c)).
Proof. apply alone_queue. by left. Qed.
Lemma alone_above n : preserves R (EventLoop_QueueInLoop l (FHighWaterMark c n)).
Proof. apply alone_queue. right. by exists n. Qed.
Lemma alone_update : preserves R (Channel_Update chan).
Proof. alone_tac. Qed.
#[local] Hint Resolve alone_assert alone_written alone_above alone_update : alone.
Lemma alone_SendInLoop d : preserves R (TcpConnection_SendInLoop c d).
Proof. alone_tac. Qed.
#[local] Hint Resolve alone_SendInLoop : alone.
Lemma alone_Send d n : preserves R (TcpConnection_Send_ptr c d n).
Proof. alone_tac. Qed.
Lemma alone_HandleWrite : preserves R (TcpConnection_HandleWrite c).
Proof. alone_tac. Qed.
#[local] Hint Resolve alone_Send : alone.

Lemma alone_SendToClient d n : preserves R (ConnectionManager_SendToClient id d n).
Proof.
  intros w b w' E Hm. unfold ConnectionManager_SendToClient in E.
  apply runM_bind_inv in E as (x & w1 & E1 & E). injection E1 as <- <-.
  rewrite (mi_cm _ _ _ _ _ _ _ _ Hm) in E. cbn [mbind option_bind] in E. unfold lock in E.
  destruct (mi_conn _ _ _ _ _ _ _ _ Hm) as (conn & Hc & _). rewrite Hc in E.
  assert (Hp : preserves R (TcpConnection_Send_ptr c d (i32 n);; mret true)) by alone_tac.
  by apply (Hp w b w' E).
Qed.

Context (dispatcher_ : PacketDispatcher W) (spi_OnMessage : Packet → Z → M W unit).

Lemma alone_OnPacket p : preserves R (GatewayServer_OnPacket dispatcher_ spi_OnMessage p id).
Proof.
  unfold GatewayServer_OnPacket. destruct (_ =? _).
  - apply preserves_bind; [exact _|apply alone_SendToClient|]. intros b. apply preserves_ret, _.
  - unfold workerPool_Run. apply preserves_bind; [exact _|apply alone_bind_gs|intros []; apply alone_bind_gs].
    + intros g _ Hw%Z.eqb_neq. rewrite Hw. alone_tac.
    + intros g Hs _. rewrite Hs. apply preserves_ret, _.
Qed.

(** packets are handed over one by one *)
Lemma alone_deliver ps w w' :
  deliver (Some (λ p i, transform (GatewayServer_OnPacket dispatcher_ spi_OnMessage p i)))
    (λ w, match w_conns w !! c with Some conn => tc_connId conn | None => 0 end) ps w = Ok w' → R w w'.
Proof.
  revert w. induction ps as [|p ps IH]; intros w E; [by injection E as <-|].
  cbn [deliver foldM] in E. inv_bind E as w1 E1. intros Hm.
  destruct (mi_conn _ _ _ _ _ _ _ _ Hm) as (conn & Hc & _ & _ & _ & Hi & _).
  unfold call_message, transform in E1. rewrite Hc, Hi in E1.
  destruct (GatewayServer_OnPacket _ _ p id w) as [[u w2]|] eqn:E2; [|done]. injection E1 as <-.
  pose proof (alone_OnPacket p w u w2 E2) as H2. destruct (H2 Hm) as [Hm2 ?].
  destruct (IH w2 E Hm2). split; [done|]. by etrans.
Qed.

(** the message callback, when the codec closes nothing *)
Lemma alone_OnMessage t conn ps rest w u w' :
  w_conns w !! c = Some conn → rb_inv (tc_inputBuffer conn) →
  decodes (contents (tc_inputBuffer conn)) ps rest false →
  GatewayServer_OnMessage dispatcher_ spi_OnMessage c t w = Ok (u, w') → R w w'.
Proof.
  intros Hc Hin Hd E. unfold GatewayServer_OnMessage in E.
  apply runM_bind_inv in E as (g & w1 & [= <- <-] & E).
  apply runM_bind_inv in E as ([] & w1 & ->%assert_loop_inv & E).
  apply runM_bind_inv in E as (conn' & w1 & [Hc' ->]%get_conn_inv & E). simplify_eq.
  apply runM_bind_inv in E as ([] & w1 & E1 & E).
  assert (Hr : preserves R (when (0 <? tc_connId conn) (now ← now_ms; mod_heartbeats <[tc_connId conn := now]>)))
    by alone_tac.
  assert (Hc1 : w_conns w1 !! c = Some conn).
  { destruct (0 <? tc_connId conn); injection E1 as <-; exact Hc. }
  destruct (Codec_OnMessage_deliver dispatcher_ spi_OnMessage c conn ps rest w1 Hc1 Hin Hd)
    as (buf & _ & _ & Hrun).
  rewrite Hrun in E. inv_bind E as w2 E2.
  etrans; [by apply (Hr w tt w1)|]. etrans; [by apply (alone_deliver ps)|].
  assert (Hb : preserves R (mod_conn c (set_tc_inputBuffer buf))) by alone_tac. by apply (Hb w2 u w').
Qed.
End alone_operations.

(** ** One client's event, and the others *)

Section others.
Context {K : Type} `{AcceptLaws K}.
Abbreviation W := (World K).
Implicit Types (c l chan : loc) (fd id : Z) (w : W).
Context (dispatcher_ : PacketDispatcher W) (spi_OnMessage : Packet → Z → M W unit).

Lemma serving_mine c l chan fd cap id acc tasks w name :
  serving c l chan fd cap id acc tasks w → tc_name <$> w_conns w !! c = Some name →
  ch_readCallback <$> w_chans w !! chan = Some (Some (CbConnRead c)) →
  ∃ wfd lp, w_loops w !! l = Some lp ∧ el_wakeupFd lp = wfd ∧ mine c l chan fd id wfd name w.
Proof.
  intros ((conn & ch & lp & Hok & _) & Hcm & Hid & Hspi & Hth & _) Hn Hcb. destruct Hok.
  rewrite ck_conn in Hn. rewrite ck_chan in Hcb. injection Hn as Hn. injection Hcb as Hcb.
  exists (el_wakeupFd lp), lp. split; [done|]. split; [done|]. split; try done.
  - exists conn. rewrite ck_conn in Hid. injection Hid as Hid. done.
  - by exists ch.
  - by exists lp.
Qed.

Lemma apart_sees c l chan fd wfd w w' c2 chan2 fd2 id2 :
  apart c l chan fd wfd w w' → c2 ≠ c → chan2 ≠ chan → fd2 ≠ fd → fd2 ≠ wfd → sees l c2 chan2 fd2 id2 w w'.
Proof.
  intros [A1 A2 A3 A4 (A5 & A6 & A7 & A8) (A9 & A10 & A11) _ _] Hc Hch Hfd Hw.
  split; rewrite ?A8; auto.
  intros lp El. destruct (A3 lp El) as (lp' & fs & ? & ? & ? & _). by exists lp'.
Qed.

Lemma accepting_apart c l chan fd wfd w w' tasks tasks' :
  accepting l tasks w → apart c l chan fd wfd w w' → poller_ok l w' →
  gs_workerTasks (w_gs w') = tasks' → is_Some (w_conns w !! c) → is_Some (w_chans w !! chan) →
  accepting l tasks' w'.
Proof.
  intros [P1 P2 P3 P4 P5 P6 P7] [A1 A2 A3 A4 (A5 & A6 & A7 & A8) (A9 & A10 & A11) _ _] Hp Ht [? Hc] [? Hch].
  split; rewrite ?A5, ?A6, ?A7, ?A8, ?A9, ?A10, ?A11; try done.
  - intros lp El. destruct (pk_loop _ _ P1) as [lp0 El0]. destruct (A3 lp0 El0) as (lp' & fs & El' & Et & _).
    simplify_eq. rewrite Et. by apply P2.
  - intros c' Hge. destruct (P5 c' Hge) as [Fc Fch]. rewrite A1, A2; [done|..]; intros ->; congruence.
  - split_and!; [apply P7..|done].
Qed.

Lemma alone_read c l chan fd id wfd name w conn buf iov :
  w_conns w !! c = Some conn →
  alone c l chan fd id wfd name w
    (set_w_conns (<[c := set_tc_inputBuffer buf conn]> (w_conns w))
       (set_w_kern (sys_readv fd iov (w_kern w)).2 w)).
Proof.
  intros Hc. etrans; [by apply (alone_readv c l chan fd id wfd name fd iov w _ _ eq_refl)|].
  assert (Hp : preserves (alone c l chan fd id wfd name) (mod_conn c (set_tc_inputBuffer buf))) by alone_tac.
  apply (Hp _ tt). unfold mod_conn, get_conn. rewrite runM_bind. rs. by rewrite Hc.
Qed.

Lemma HandleRead_alone c l chan fd cap id acc tasks w wfd name conn data ps rest t :
  serving c l chan fd cap id acc tasks w → mine c l chan fd id wfd name w → w_conns w !! c = Some conn →
  (sys_readv fd (ReadFd_iov (tc_inputBuffer conn)) (w_kern w)).1 = readv_ok data → data ≠ [] →
  buffer_size (tc_inputBuffer conn) + Z.of_nat (length data) < 2 ^ 63 →
  decodes (contents (tc_inputBuffer conn) ++ data) ps rest false →
  wp any (run_callback dispatcher_ spi_OnMessage (CbConnRead c) t)
    (λ _ w', mine c l chan fd id wfd name w' ∧ apart c l chan fd wfd w w') w.
Proof.
  intros ((conn0 & ch & lp & Hok & _) & _) Hm Hc Hrd Hne Hsz Hd.
  pose proof (ck_conn _ _ _ _ _ _ _ _ Hok). simplify_eq.
  eapply HandleRead_data; [done..|]. intros buf Hbuf Hcb. rewrite <- Hcb in Hd.
  set (w1 := set_w_conns _ _).
  pose proof (alone_read c l chan fd id wfd name w conn buf (ReadFd_iov (tc_inputBuffer conn)) Hc) as Hr.
  fold w1 in Hr.
  unfold wp. destruct (GatewayServer_OnMessage _ _ c t w1) as [[u w']|] eqn:E; [|done].
  eapply (alone_OnMessage c l chan fd id wfd name _ _ t (set_tc_inputBuffer buf conn) ps rest) in E;
    [|apply lookup_insert_eq|done|done].
  destruct (Hr Hm) as [Hm' Hap]. destruct (E Hm') as [? ?]. split; [done|]. by etrans.
Qed.
End others.
