(* ===== verification/Depart.v ===== *)
(** * A client that leaves

    From the end of its stream to the end of its objects: the connection is
    closed and forgotten by the registries and the server, and the loop, when it
    runs its functors, unregisters the channel and frees the connection. No code
    of the program. *)
From S2P Require Import Prelude RingBuffer Protocol World Reactor Sockets Connection SimKernel.
From S2P Require Import Server Gateway Registry GatewayFacts Scenarios ApiClient Session ReadOnce.
From S2P Require Import AtRest NewClient Alone.

Section depart.
Context {K : Type} `{AcceptLaws K}.
Abbreviation W := (World K).
Implicit Types (c l chan : loc) (fd id wfd : Z) (w : W).
Context (dispatcher_ : PacketDispatcher W) (spi_OnMessage : Packet → Z → M W unit).

(** ** The connection is closed *)

(** closed, and still known to the poller, but not to epoll *)
Record closed l c chan fd w : Prop := {
  cl_conn : ∃ conn, w_conns w !! c = Some conn ∧ tc_state conn = kDisconnected ∧
    tc_loop conn = l ∧ tc_channel conn = chan;
  cl_chan : ∃ ch, w_chans w !! chan = Some ch ∧ ch_fd ch = fd ∧ ch_loop ch = l ∧
    ch_events ch = kNoneEvent ∧ ch_index ch = 2 ∧ ch_readCallback ch = Some (CbConnRead c);
}.

(** [w'] is [w] after the client of the connection [c] has left *)
Record departs l c chan fd id wfd name w w' : Prop := {
  dp_loop lp : w_loops w !! l = Some lp → ∃ lp' fs, w_loops w' !! l = Some lp' ∧
    el_threadId lp' = el_threadId lp ∧ el_wakeupFd lp' = el_wakeupFd lp ∧
    el_pendingFunctors lp' = el_pendingFunctors lp ++ fs ++ [FConnectDestroyed c] ∧
    Forall (told c) fs ∧ el_running lp' = el_running lp;
  dp_conns c' : c' ≠ c → w_conns w' !! c' = w_conns w !! c';
  dp_chans c' : c' ≠ chan → w_chans w' !! c' = w_chans w !! c';
  dp_kernel fd' : fd' ≠ fd → fd' ≠ wfd →
    sent (w_kern w') fd' = sent (w_kern w) fd' ∧ fin (w_kern w') fd' = fin (w_kern w) fd';
  dp_open fd' : in_use (w_kern w) fd' → in_use (w_kern w') fd';
  dp_cm : cm_connections (w_cm w') = delete id (cm_connections (w_cm w)) ∧
    cm_nextConnId (w_cm w') = cm_nextConnId (w_cm w);
  dp_server : w_server w' =
    set_ts_connections (delete name (ts_connections (w_server w))) (w_server w);
  dp_gs : gs_spi (w_gs w') = gs_spi (w_gs w) ∧ gs_workerThreads (w_gs w') = gs_workerThreads (w_gs w) ∧
    gs_workerTasks (w_gs w') = gs_workerTasks (w_gs w) ∧ gs_loop (w_gs w') = gs_loop (w_gs w);
  dp_tid : w_tid w' = w_tid w ∧ w_next w' = w_next w;
  dp_poller : poller_ok l w';
  dp_closed : closed l c chan fd w';
}.

Lemma kern_queued_sees lp w fd :
  fd ≠ el_wakeupFd lp →
  sent (kern_queued lp w) fd = sent (w_kern w) fd ∧ fin (kern_queued lp w) fd = fin (w_kern w) fd.
Proof.
  intros Hne. unfold kern_queued. destruct (_ || _); [|done]. rewrite write_sent, write_fin.
  unfold upd. by rewrite bool_decide_false.
Qed.
Lemma kern_queued_same lp w :
  (∀ e, interest (kern_queued lp w) e = interest (w_kern w) e) ∧
  ∀ fd, in_use (w_kern w) fd → in_use (kern_queued lp w) fd.
Proof.
  unfold kern_queued. destruct (_ || _); [|done]. split; [apply write_interest|apply write_in_use].
Qed.

(** what [HandleClose] does first: the connection is disconnected, and its
    channel watches nothing any more *)
Definition hung_up l c chan (conn : TcpConnection) ch lp (k : K) w : W :=
  store_update k l lp (<[ch_fd ch := chan]> (po_channels (el_poller lp))) chan (updated kNoneEvent ch)
    (set_w_conns (<[c := set_tc_state kDisconnected conn]> (w_conns w)) w).

Lemma hung_up_closed l c chan fd conn ch lp k w :
  conn_ok c l chan fd conn ch lp w → ch_readCallback ch = Some (CbConnRead c) →
  closed l c chan fd (hung_up l c chan conn ch lp k w).
Proof.
  intros [] Hcb. split.
  - exists (set_tc_state kDisconnected conn). split; [apply lookup_insert_eq|done].
  - exists (updated kNoneEvent ch). split; [apply lookup_insert_eq|]. unfold updated. rs. by rewrite ck_index.
Qed.
Lemma closed_frame l c chan fd w w' :
  closed l c chan fd w → w_conns w' = w_conns w → w_chans w' = w_chans w → closed l c chan fd w'.
Proof. intros [Hc Hch] Ec Ech. split; by rewrite ?Ec, ?Ech. Qed.

Lemma HandleClose_hangs_up l c chan fd conn ch lp w (closing : loc → M W unit) (onc : loc → M W unit) Q :
  conn_ok c l chan fd conn ch lp w → tc_state conn = kConnected →
  (∀ k, let w' := hung_up l c chan conn ch lp k w in
    poller_ok l w' → (∀ e, sent k e = sent (w_kern w) e ∧ fin k e = fin (w_kern w) e) →
    (∀ e, in_use (w_kern w) e → in_use k e) → wp never (onc c;; closing c) (λ _ w', Q w') w') →
  wp never (TcpConnection_HandleClose onc closing c) (λ _ w', Q w') w.
Proof.
  intros [] Hst HQ. unfold TcpConnection_HandleClose. ws. ws. rewrite ck_tcloop.
  eapply wp_bind, assert_in_loop_spec; [done|done|]. apply wp_bind, wp_assert; [by rewrite Hst|].
  do 2 ws. rs. apply wp_bind. rewrite ck_tcchan. set (w1 := set_w_conns _ w).
  assert (Hp1 : poller_ok l w1) by (by eapply (poller_ok_frame l w w1 lp lp)).
  change (Channel_DisableAll chan) with (update_events (λ _, kNoneEvent) chan).
  eapply wp_post.
  { apply (update_spec (λ _, kNoneEvent) l chan w1 lp ch never Hp1 ck_loop ck_chan ck_chloop ck_thread).
    - intros Hi. by rewrite ck_index in Hi.
    - intros Hr. by destruct (registered_not_refused l chan w1 lp ch kNoneEvent Hp1 ck_loop ck_chan ck_chloop ck_index). }
  cbv zeta. intros [] w2 (k & -> & Hp2 & Hk & _).
  apply HQ; [exact Hp2|intros e; by destruct (ctl_called_sees _ _ e Hk) as (? & ? & _)|].
  intros e. by destruct (ctl_called_sees _ _ e Hk) as (_ & _ & ?).
Qed.

(** [HandleClose] of a served client *)
Lemma HandleClose_departs l c chan fd cap id acc tasks wfd name w lp conn :
  serving c l chan fd cap id acc tasks w → 0 < id → gs_loop (w_gs w) = l → ts_loop (w_server w) = l →
  w_loops w !! l = Some lp → el_wakeupFd lp = wfd →
  w_conns w !! c = Some conn → tc_name conn = name → ts_connections (w_server w) !! name = Some c →
  ch_readCallback <$> w_chans w !! chan = Some (Some (CbConnRead c)) →
  wp never (TcpConnection_HandleClose GatewayServer_OnConnection OnClose c)
    (λ _ w', departs l c chan fd id wfd name w w') w.
Proof.
  intros ((conn0 & ch & lp0 & Hok & _ & Hst & _) & _ & Hid & _) Hid0 Hgl Hts Hl Hw Hc Hname Hsrv Hcb.
  pose proof (ck_conn _ _ _ _ _ _ _ _ Hok). pose proof (ck_loop _ _ _ _ _ _ _ _ Hok).
  rewrite Hc in Hid. injection Hid as Hid. rewrite (ck_chan _ _ _ _ _ _ _ _ Hok) in Hcb. injection Hcb as Hcb.
  assert (conn0 = conn) as -> by congruence. assert (lp0 = lp) as -> by congruence.
  eapply HandleClose_hangs_up; [exact Hok|exact Hst|]. intros k w2 Hp2 Hks Hku.
  pose proof (hung_up_closed l c chan fd conn ch lp k w Hok Hcb) as Hcl. fold w2 in Hcl.
  set (lp1 := set_channels (λ _, <[ch_fd ch := chan]> (po_channels (el_poller lp))) lp).
  assert (Hl2 : w_loops w2 !! l = Some lp1) by apply lookup_insert_eq.
  assert (Hc2 : w_conns w2 !! c = Some (set_tc_state kDisconnected conn)) by apply lookup_insert_eq.
  assert (Ht2 : el_threadId lp1 = w_tid w2) by apply Hok.
  unfold GatewayServer_OnConnection. do 3 ws. change (w_gs w2) with (w_gs w). rewrite Hgl.
  eapply wp_bind, assert_in_loop_spec; [done|done|]. do 2 ws.
  unfold Connected. rewrite bool_decide_false by done.
  apply wp_when. rewrite (proj2 (Z.ltb_lt 0 _)) by (simpl; lia).
  unfold ConnectionManager_RemoveConnection, SessionManager_RemoveSession, mod_cm, mod_sessions,
    mod_heartbeats, mod_gs. run.
  change (tc_connId (set_tc_state kDisconnected conn)) with (tc_connId conn). rewrite Hid. set (w3 := set_w_gs _ _).
  assert (Hl3 : w_loops w3 !! l = Some lp1) by exact Hl2.
  unfold OnClose, TcpServer_RemoveConnection. ws. ws. change (w_server w3) with (w_server w). rewrite Hts.
  eapply wp_RunInLoop; [exact Hl3| |by intros Hne; destruct Hne]. intros _.
  unfold TcpServer_RemoveConnectionInLoop, mod_server. ws. ws. change (w_server w3) with (w_server w).
  rewrite Hts. eapply wp_bind, assert_in_loop_spec; [exact Hl3|exact Ht2|].
  eapply wp_bind, wp_get_conn; [exact Hc2|]. apply wp_bind, wp_modify.
  change (tc_name (set_tc_state kDisconnected conn)) with (tc_name conn). rewrite Hname.
  apply wp_bind, wp_assert; [by rewrite Hsrv, bool_decide_true|].
  change (tc_loop (set_tc_state kDisconnected conn)) with (tc_loop conn). rewrite (ck_tcloop _ _ _ _ _ _ _ _ Hok).
  set (w4 := set_w_server _ w3). eapply wp_QueueInLoop; [exact Hl3|].
  destruct (kern_queued_same lp1 w4) as [Ki Ku]. unfold queued. split; rs; try done.
  - intros x Ex. rewrite Hl in Ex. injection Ex as <-.
    exists (set_el_pendingFunctors (el_pendingFunctors lp1 ++ [FConnectDestroyed c]) lp1), [].
    by rewrite lookup_insert_eq.
  - intros c' Hne. by apply lookup_insert_ne.
  - intros c' Hne. by apply lookup_insert_ne.
  - intros fd' _ Hne. destruct (kern_queued_sees lp1 w4 fd') as [-> ->]; [by rewrite <- Hw in Hne|]. apply Hks.
  - intros fd' Hu. by apply Ku, Hku.
  - eapply (poller_ok_frame l w2 _ lp1); [done|done|apply lookup_insert_eq|done|done|]. rs. by rewrite Ki.
  - by eapply closed_frame.
Qed.

(** what the client sent before was read *)
Lemma apart_departs l c chan fd id wfd name w w1 w' :
  apart c l chan fd wfd w w1 → gs_workerTasks (w_gs w1) = gs_workerTasks (w_gs w) →
  departs l c chan fd id wfd name w1 w' → departs l c chan fd id wfd name w w'.
Proof.
  intros [A1 A2 A3 A4 (A5 & A6 & A7 & A8) (A9 & A10 & A11) _ A12] Ht
    [B1 B2 B3 B4 B5 (B6 & B7) B8 (B9 & B10 & B11 & B12) (B13 & B14) B15 B16].
  split; try done; try (split_and!; congruence).
  - intros lp El. destruct (A3 lp El) as (lp1 & fs & E1 & T1 & W1 & P1 & F1 & R1).
    destruct (B1 lp1 E1) as (lp2 & gs & E2 & T2 & W2 & P2 & F2 & R2).
    exists lp2, (fs ++ gs). rewrite P2, P1, !(assoc_L (++)). split_and!; try congruence.
    by apply Forall_app_2.
  - intros c' Hne. by rewrite B2, A1.
  - intros c' Hne. by rewrite B3, A2.
  - intros fd' Hf Hw. destruct (A4 fd' Hf Hw) as [<- <-]. by apply B4.
  - auto.
  - by rewrite B8, A7.
Qed.

(** the client ends its stream, or its socket hangs up *)
Lemma HandleRead_departs l c chan fd cap id acc tasks wfd name w lp conn t :
  serving c l chan fd cap id acc tasks w → 0 < id → gs_loop (w_gs w) = l → ts_loop (w_server w) = l →
  w_loops w !! l = Some lp → el_wakeupFd lp = wfd → mine c l chan fd id wfd name w →
  w_conns w !! c = Some conn → ts_connections (w_server w) !! name = Some c →
  (sys_readv fd (ReadFd_iov (tc_inputBuffer conn)) (w_kern w)).1 = readv_ok [] →
  wp never (run_callback dispatcher_ spi_OnMessage (CbConnRead c) t)
    (λ _ w', departs l c chan fd id wfd name w w' ∧ rests w w') w.
Proof.
  intros Hs Hid Hgl Hts Hl Hw Hm Hc Hsrv Hrd. pose proof Hs as ((conn0 & ch & lp0 & Hok & _) & _).
  pose proof (ck_conn _ _ _ _ _ _ _ _ Hok). assert (conn0 = conn) as -> by congruence.
  eapply HandleRead_bytes; [done|done|simpl; pose proof (ck_in _ _ _ _ _ _ _ _ Hok) as [? ?]; lia|].
  intros buf Hbuf _. rewrite decide_True by done.
  pose proof (serving_read _ _ _ _ _ _ _ _ _ _ buf (ReadFd_iov (tc_inputBuffer conn)) Hs Hc Hbuf) as Hs1.
  destruct (alone_read c l chan fd id wfd name w conn buf (ReadFd_iov (tc_inputBuffer conn)) Hc Hm) as [Hm1 Ha1].
  pose proof (mi_conn _ _ _ _ _ _ _ _ Hm1) as (conn1 & Hc1 & _ & _ & _ & _ & Hn1).
  pose proof (mi_chan _ _ _ _ _ _ _ _ Hm1) as (ch1 & Hch1 & _ & _ & Hcb1).
  eapply wp_post.
  { eapply wp_and_preserves; [apply rests_close|].
    eapply (HandleClose_departs l c chan fd cap id acc tasks wfd name _ lp conn1 Hs1); try done.
    by rewrite Hch1, <- Hcb1. }
  intros [] w' [Hd Hr]. split; [by eapply apart_departs|]. etrans; [apply (ap_rests _ _ _ _ _ _ _ Ha1)|exact Hr].
Qed.

(** ** The connection is forgotten by its loop, and freed *)

(** its channel is in no poller *)
Definition forgotten l c w : Prop := ∃ conn ch,
  w_conns w !! c = Some conn ∧ tc_state conn = kDisconnected ∧
  w_chans w !! tc_channel conn = Some ch ∧ ch_loop ch = l ∧ ch_index ch = -1 ∧
  ch_addedToLoop ch = false ∧ ch_readCallback ch = Some (CbConnRead c).

(** [w'] is [w] but for the connections [C] and the channels [D] *)
Record settling l (C D : loc → Prop) w w' : Prop := {
  se_conns c : ¬ C c → w_conns w' !! c = w_conns w !! c;
  se_chans chan : ¬ D chan → w_chans w' !! chan = w_chans w !! chan;
  se_kernel fd : sent (w_kern w') fd = sent (w_kern w) fd ∧ fin (w_kern w') fd = fin (w_kern w) fd;
  se_open fd : in_use (w_kern w) fd → in_use (w_kern w') fd;
  se_store : w_tid w' = w_tid w ∧ w_next w' = w_next w ∧ w_server w' = w_server w ∧
    w_cm w' = w_cm w ∧ w_gs w' = w_gs w;
  se_loop lp : w_loops w !! l = Some lp → ∃ lp', w_loops w' !! l = Some lp' ∧
    el_threadId lp' = el_threadId lp ∧ el_wakeupFd lp' = el_wakeupFd lp;
  se_rests : rests w w';
}.

#[export] Instance settling_preorder l C D : PreOrder (settling l C D).
Proof.
  split.
  - intros w. split; try done. intros lp El. by exists lp.
  - intros w1 w2 w3 [A1 A2 A3 A4 (?&?&?&?&?) A6 A7] [B1 B2 B3 B4 (?&?&?&?&?) B6 B7].
    split; try (split_and!; congruence).
    + intros c Hc. by rewrite B1, A1.
    + intros chan Hd. by rewrite B2, A2.
    + intros fd. destruct (A3 fd) as [<- <-]. apply B3.
    + auto.
    + intros lp El. destruct (A6 lp El) as (lp2 & E2 & ? & ?). destruct (B6 lp2 E2) as (lp3 & E3 & ? & ?).
      exists lp3. split_and!; congruence.
    + by etrans.
Qed.
Lemma settling_mono l (C D C' D' : loc → Prop) w w' :
  settling l C D w w' → (∀ c, C c → C' c) → (∀ chan, D chan → D' chan) → settling l C' D' w w'.
Proof. intros [A1 A2 A3 A4 A5 A6 A7] HC HD. split; auto. Qed.

(** [ConnectDestroyed] of a connection that is closed *)
Lemma ConnectDestroyed_forgets l c chan fd w lp :
  closed l c chan fd w → poller_ok l w → at_rest w → w_loops w !! l = Some lp →
  el_threadId lp = w_tid w →
  wp never (TcpConnection_ConnectDestroyed GatewayServer_OnConnection c) (λ _ w',
    (settling l (λ _, False) (eq chan) w w' ∧ poller_ok l w' ∧ forgotten l c w' ∧
     w_conns w' = w_conns w) ∧
    ∃ lp', w_loops w' !! l = Some lp' ∧
      el_pendingFunctors lp' = el_pendingFunctors lp ∧ el_running lp' = el_running lp) w.
Proof.
  intros [(conn & Hc & Hst & Hcl & Hcc) (ch & Hch & Hfd & Hchl & Hev & Hi & Hcb)] Hp Hr Hl Ht.
  eapply wp_post; [apply (wp_and_preserves _ rests _
    (λ _ w', ∃ k lp' ch', w' = set_w_kern k (set_w_loops (<[l := lp']> (w_loops w))
                              (set_w_chans (<[chan := ch']> (w_chans w)) w)) ∧
      poller_ok l w' ∧ ctl_called (w_kern w) k ∧ ch_index ch' = -1 ∧ ch_addedToLoop ch' = false ∧
      ch_loop ch' = l ∧ ch_readCallback ch' = Some (CbConnRead c) ∧
      el_threadId lp' = el_threadId lp ∧ el_wakeupFd lp' = el_wakeupFd lp ∧
      el_pendingFunctors lp' = el_pendingFunctors lp ∧ el_running lp' = el_running lp));
    [apply rests_destroyed|]|].
  - unfold TcpConnection_ConnectDestroyed. ws. ws. rewrite Hcl.
    eapply wp_bind, assert_in_loop_spec; [done|done|].
    apply wp_bind, wp_when. rewrite Hst, bool_decide_false by done. rewrite Hcc.
    eapply wp_post.
    { apply (remove_spec l chan w lp ch Hp Hl Hch Hchl Ht Hev); [lia|].
      by rewrite (ar_loops _ Hr _ _ Hl). }
    cbv zeta. intros [] w' (k & -> & Hp' & Hk & _). eexists k, _, _. split; [reflexivity|]. by split_and!.
  - intros [] w' [(k & lp' & ch' & -> & Hp' & Hk & Ei & Ea & Ecl & Ecb & Et & Ew & Epend & Erun) Hrest].
    assert (Hks : ∀ fd', sent k fd' = sent (w_kern w) fd' ∧ fin k fd' = fin (w_kern w) fd' ∧
      (in_use (w_kern w) fd' → in_use k fd')).
    { intros fd'. by apply ctl_called_sees. }
    split; [split_and!|].
    + split; try done; rs; [|by intros fd'; split; apply Hks|apply Hks|].
      * intros x Hx. rs. by apply lookup_insert_ne.
      * intros x Ex. simplify_eq. exists lp'. by rewrite lookup_insert_eq.
    + done.
    + exists conn, ch'. rs. by rewrite Hcc, lookup_insert_eq.
    + done.
    + exists lp'. rs. by rewrite lookup_insert_eq.
Qed.

Lemma poller_ok_drop_chan l w chan ch :
  poller_ok l w → w_chans w !! chan = Some ch → ch_index ch = -1 →
  poller_ok l (set_w_chans (delete chan (w_chans w)) w).
Proof.
  intros [Hl Hreg Hknown Hint] Hc Hi. split; [done|..]; rs.
  - intros fd x lp El E. destruct (Hreg fd x lp El E) as (ch' & E' & ?). exists ch'.
    rewrite lookup_delete_ne; [done|]. intros <-. simplify_eq. lia.
  - intros x ch' lp El [_ E]%lookup_delete_Some. by apply Hknown.
  - intros fd lp El. rewrite (Hint fd lp El).
    destruct (po_channels (el_poller lp) !! fd) as [x|] eqn:E; [|done]. cbn.
    destruct (Hreg fd x lp El E) as (ch' & E' & _ & _ & Hidx). rewrite lookup_delete_ne; [done|].
    intros <-. simplify_eq. lia.
Qed.

(** the channel of a connection *)
Definition channel_of w c chan : Prop := tc_channel <$> w_conns w !! c = Some chan.

Lemma delete_frees l c w lp :
  forgotten l c w → poller_ok l w → at_rest w → w_loops w !! l = Some lp → el_threadId lp = w_tid w →
  wp never (delete_TcpConnection c) (λ _ w',
    settling l (eq c) (channel_of w c) w w' ∧ poller_ok l w' ∧
    w_conns w' !! c = None ∧ w_loops w' = w_loops w) w.
Proof.
  intros (conn & ch & Hc & Hst & Hch & Hchl & Hi & Hadd & _) Hp Hr Hl Ht.
  assert (Hof : ∀ x, ¬ channel_of w c x → tc_channel conn ≠ x).
  { intros x Hx E. apply Hx. unfold channel_of. by rewrite Hc, <- E. }
  unfold delete_TcpConnection, delete_Channel, EventLoop_HasChannel, Poller_HasChannel.
  ws. ws. apply wp_bind, wp_assert; [by rewrite Hst|]. ws. ws. ws.
  apply wp_bind, wp_assert; [by rewrite (ar_chans _ Hr _ _ Hch)|].
  apply wp_bind, wp_assert; [by rewrite Hadd|]. rewrite Hchl.
  eapply wp_bind, in_loop_thread_spec; [done|]. rewrite Ht, Z.eqb_refl.
  apply wp_bind, wp_when. do 3 ws. apply wp_bind, wp_assert; [by rewrite Hchl, bool_decide_true|].
  eapply wp_bind, assert_in_loop_spec; [done|done|]. eapply wp_bind, assert_in_loop_spec; [done|done|].
  run.
  { rewrite bool_decide_false; [done|]. intros E.
    destruct (pk_registered _ _ Hp _ _ _ Hl E) as (ch' & E' & _ & _ & Hidx). simplify_eq. lia. }
  run. pose proof (poller_ok_drop_chan _ _ _ _ Hp Hch Hi) as Hp'.
  split_and!; [|by apply (poller_ok_frame l _ _ lp lp Hp')|apply lookup_delete_eq|done]. split; try done; rs.
  - intros x Hx. by apply lookup_delete_ne.
  - intros x Hx. apply lookup_delete_ne. by apply Hof.
  - intros x Ex. by exists x.
  - split; [|done]. intros [Rc Rl]. split; [|done]. rs. intros x y [_ E]%lookup_delete_Some. by eapply Rc.
Qed.

(** ** What the loop has been asked

    The functors that are queued tell a connection that the server still has, or
    that is about to be destroyed; or they destroy one, after which nobody asks
    for it. *)
Inductive owed (listed leaving : loc → Prop) : list functor → Prop :=
| owed_none : owed listed leaving []
| owed_told c f fs :
    told c f → listed c ∨ FConnectDestroyed c ∈ fs → owed listed leaving fs →
    owed listed leaving (f :: fs)
| owed_destroyed c fs :
    leaving c → ¬ listed c → Forall (λ f, functor_ref f ≠ Some c) fs → owed listed leaving fs →
    owed listed leaving (FConnectDestroyed c :: fs).

(** the server has the connection *)
Definition listed w c : Prop := ∃ name, ts_connections (w_server w) !! name = Some c.

Lemma told_ref c f : told c f → functor_ref f = Some c.
Proof. by intros [-> |[n ->]]. Qed.

Lemma owed_mono (L L' P P' : loc → Prop) fs :
  owed L P fs → (∀ c, L c → L' c) →
  (∀ c, FConnectDestroyed c ∈ fs → P c → P' c) → (∀ c, P c → L' c → L c) → owed L' P' fs.
Proof.
  intros Ho HL. induction Ho as [|c f fs Ht Hc Ho IH|c fs Hc Hn Hfs Ho IH]; intros HP Hb; [constructor|..].
  - eapply owed_told; [done|naive_solver|]. apply IH; [|done]. intros c' Hin. apply HP. by right.
  - apply owed_destroyed; [apply HP; [left|done]|auto|done|]. apply IH; [|done]. intros c' Hin. apply HP. by right.
Qed.

Lemma owed_destroyed_leaving (L P : loc → Prop) fs c : owed L P fs → FConnectDestroyed c ∈ fs → P c.
Proof.
  induction 1 as [|c' f fs Ht Hc Ho IH|c' fs Hc Hn Hfs Ho IH]; intros Hin;
    [by apply elem_of_nil in Hin|apply elem_of_cons in Hin as [<-|Hin]; [|by apply IH]..|].
  - by destruct Ht as [? |[? ?]].
  - apply elem_of_cons in Hin as [[= ->]|Hin]; [done|by apply IH].
Qed.

(** a connection that the server has is told something more *)
Lemma owed_more (L P : loc → Prop) fs gs c :
  owed L P fs → L c → Forall (told c) gs → owed L P (fs ++ gs).
Proof.
  intros Ho HL Hgs. induction Ho as [|c' f fs Ht Hc Ho IH|c' fs Hc Hn Hfs Ho IH]; simpl.
  - induction Hgs as [|g gs Hg Hgs IH]; [constructor|]. eapply owed_told; eauto.
  - eapply owed_told; [done| |done]. rewrite elem_of_app. naive_solver.
  - apply owed_destroyed; [done|done| |done]. apply Forall_app_2; [done|].
    eapply Forall_impl; [exact Hgs|]. intros g Hg. rewrite (told_ref c g) by done. intros [= ->]. done.
Qed.

(** the server drops a connection *)
Lemma owed_leaves (L L' P P' : loc → Prop) fs gs c :
  owed L P fs → L c → (∀ c', c' ≠ c → L c' → L' c') → (∀ c', c' ≠ c → P c' → P' c') →
  (∀ c', P c' → L' c' → L c') → P' c → ¬ L' c → Forall (told c) gs →
  owed L' P' (fs ++ gs ++ [FConnectDestroyed c]).
Proof.
  intros Ho HL HL' HP Hb HPc Hn Hgs.
  induction Ho as [|c' f fs Ht Hc Ho IH|c' fs Hc Hn' Hfs Ho IH]; simpl.
  - induction Hgs as [|g gs Hg Hgs IH]; simpl.
    + apply owed_destroyed; [done|done|done|constructor].
    + eapply owed_told; [done| |done]. right. apply elem_of_app. right. apply list_elem_of_singleton. done.
  - eapply owed_told; [done| |done]. rewrite !elem_of_app, list_elem_of_singleton.
    destruct (decide (c' = c)) as [->|]; [auto|naive_solver].
  - assert (c' ≠ c) by (intros ->; done).
    apply owed_destroyed; [by apply HP|naive_solver| |done].
    apply Forall_app_2; [done|]. apply Forall_app_2; [|by apply Forall_singleton; intros [= ->]].
    eapply Forall_impl; [exact Hgs|]. intros g Hg. rewrite (told_ref c g) by done. congruence.
Qed.

(** ** The loop runs its functors *)

(** the connection has no callbacks that do anything *)
Lemma exec_told c f w : told c f → exec f w = Ok (tt, w).
Proof. by intros [-> |[n ->]]. Qed.

(** in a process with one loop, what refers to a connection *)
Lemma referenced_one l lp c w :
  w_loops w !! l = Some lp → dom (w_loops w) = {[ l ]} →
  referenced c w = true ↔ listed w c ∨
    ∃ f, f ∈ el_pendingFunctors lp ++ el_running lp ∧ functor_ref f = Some c.
Proof.
  intros Hl Hdom. assert (w_loops w = {[ l := lp ]}) as E.
  { apply map_eq. intros x. destruct (decide (x = l)) as [->|Hne]; [by rewrite lookup_singleton_eq|].
    rewrite lookup_singleton_ne by done. apply not_elem_of_dom. rewrite Hdom. set_solver. }
  unfold referenced. rewrite E, map_to_list_singleton, orb_true_iff, bool_decide_eq_true.
  cbn [existsb snd]. rewrite orb_false_r, existsb_exists, list_elem_of_fmap. apply Morphisms_Prop.or_iff_morphism.
  - split; [intros ([name x] & -> & Hin%elem_of_map_to_list); by exists name|].
    intros [name En]. exists (name, c). by rewrite elem_of_map_to_list.
  - split; intros (f & Hin & Hf); exists f; revert Hin Hf; rewrite <- list_elem_of_In, bool_decide_eq_true; done.
Qed.

Definition destroyed (fs : list functor) c : Prop := FConnectDestroyed c ∈ fs.

(** a channel that calls one connection is not that of another *)
Lemma closed_settling l c chan fd (C D : loc → Prop) w w' :
  closed l c chan fd w → settling l C D w w' → ¬ C c → ¬ D chan → closed l c chan fd w'.
Proof.
  intros [Hc Hch] Hs HC HD. split.
  - destruct Hc as (conn & Hc & Hr). exists conn. by rewrite (se_conns _ _ _ _ _ Hs).
  - destruct Hch as (ch & Hch & Hr). exists ch. by rewrite (se_chans _ _ _ _ _ Hs).
Qed.
Lemma forgotten_settling l c (C D : loc → Prop) w w' :
  forgotten l c w → settling l C D w w' → ¬ C c →
  (∀ chan, D chan → ch_readCallback <$> w_chans w !! chan ≠ Some (Some (CbConnRead c))) → forgotten l c w'.
Proof.
  intros (conn & ch & Hc & Hst & Hch & Hl & Hi & Ha & Hcb) Hs HC HD. exists conn, ch.
  rewrite (se_conns _ _ _ _ _ Hs), (se_chans _ _ _ _ _ Hs) by (done || intros Hd; apply (HD _ Hd); by rewrite Hch, <- Hcb).
  by split_and!.
Qed.

(** the loop's flags and lists change *)
Lemma settling_loop l (C D : loc → Prop) w lp lp' :
  w_loops w !! l = Some lp → el_threadId lp' = el_threadId lp → el_wakeupFd lp' = el_wakeupFd lp →
  el_eventHandling lp' = el_eventHandling lp →
  settling l C D w (set_w_loops (<[l := lp']> (w_loops w)) w).
Proof.
  intros Hl Et Ew Ee. split; try done.
  - intros x Ex. simplify_eq. exists lp'. rs. by rewrite lookup_insert_eq.
  - split; [|rs; by rewrite dom_insert_lookup_L by eauto]. intros [Rc Rl]. split; [done|]. rs.
    intros x y [[<- <-]|[_ E]]%lookup_insert_Some; [rewrite Ee; by eapply Rl|by eapply Rl].
Qed.
Lemma poller_ok_loop l w lp lp' :
  poller_ok l w → w_loops w !! l = Some lp → el_poller lp' = el_poller lp →
  poller_ok l (set_w_loops (<[l := lp']> (w_loops w)) w).
Proof. intros Hp Hl Ep. by eapply (poller_ok_frame l w _ lp lp'); try done; apply lookup_insert_eq. Qed.

(** what holds while the functors [fs] are run, when [gs] are left *)
Record running_at l fs w gs w2 : Prop := {
  rn_loop : ∃ lp, w_loops w2 !! l = Some lp ∧ el_threadId lp = w_tid w2 ∧
    el_pendingFunctors lp = [] ∧ el_running lp = fs;
  rn_settling : settling l (λ _, False) (λ chan, ∃ c, destroyed fs c ∧ channel_of w c chan) w w2;
  rn_poller : poller_ok l w2;
  rn_conns : w_conns w2 = w_conns w;
  rn_owed : owed (listed w) (λ c, ∃ chan fd, closed l c chan fd w2) gs;
  rn_sub : gs ⊆ fs;
  rn_done c : destroyed fs c → ¬ destroyed gs c → forgotten l c w2;
}.

Lemma running_exec l fs w f gs w2 :
  at_rest w → running_at l fs w (f :: gs) w2 → wp never (exec f) (λ _ w3, running_at l fs w gs w3) w2.
Proof.
  intros Hrest [(lp & Hl & Ht & Hpend & Hrun) Hs Hp Hcs Ho Hsub Hdone].
  inversion Ho as [|c f' gs' Htold Hc Hgs|c gs' (chan & fd & Hcl) Hn Hrefs Hgs]; subst.
  - eapply wp_ok; [by eapply exec_told|]. split; try done; [by exists lp|set_solver|].
    intros c' Hfs Hd. apply Hdone; [done|]. intros Hin. apply elem_of_cons in Hin as [<-|]; [|done].
    by destruct Htold as [? |[? ?]].
  - cbn [exec]. destruct (proj1 (se_rests _ _ _ _ _ Hs) Hrest) as [Rc Rl].
    eapply wp_post; [by eapply (ConnectDestroyed_forgets l c chan fd w2 lp)|].
    intros [] w3 [(Hs3 & Hp3 & Hf3 & Hcs3) (lp3 & Hl3 & Hpend3 & Hrun3)].
    pose proof Hcl as [(conn & Hconn & _ & _ & Hchan) (ch & Hch & _ & _ & _ & _ & Hcb)].
    split; try done.
    + exists lp3. destruct (se_loop _ _ _ _ _ Hs3 lp Hl) as (x & Ex & Etx & _).
      pose proof (se_store _ _ _ _ _ Hs3) as [Etid _]. split_and!; try congruence.
    + etrans; [exact Hs|]. eapply settling_mono; [exact Hs3|done|]. intros x <-. exists c.
      split; [apply Hsub; left|]. unfold channel_of. by rewrite <- Hcs, Hconn, <- Hchan.
    + congruence.
    + eapply owed_mono; [exact Hgs|done| |done]. intros c' Hin (chan' & fd' & Hcl').
      exists chan', fd'. eapply closed_settling; [done..|by intros []|]. intros <-.
      destruct Hcl' as [_ (ch' & Hch' & _ & _ & _ & _ & Hcb')].
      rewrite Forall_forall in Hrefs. apply Hrefs in Hin. simpl in Hin. congruence.
    + set_solver.
    + intros c' Hfs Hd. destruct (decide (c' = c)) as [->|Hne]; [done|].
      eapply forgotten_settling; [apply Hdone; [done|]|done|by intros []|].
      * intros Hin. apply elem_of_cons in Hin as [[= ->]|?]; done.
      * intros x <-. rewrite Hch. simpl. rewrite Hcb. congruence.
Qed.

(** what holds while they are dropped, when [gs] are left *)
Record dropping_at l fs w gs w2 : Prop := {
  dr_loop : ∃ lp, w_loops w2 !! l = Some lp ∧ el_threadId lp = w_tid w2 ∧
    el_pendingFunctors lp = [] ∧ el_running lp = gs;
  dr_settling : settling l (destroyed fs) (λ chan, ∃ c, destroyed fs c ∧ channel_of w c chan) w w2;
  dr_poller : poller_ok l w2;
  dr_conns c : destroyed gs c → w_conns w2 !! c = w_conns w !! c;
  dr_owed : owed (listed w) (λ c, forgotten l c w2) gs;
  dr_sub : gs ⊆ fs;
  dr_done c : destroyed fs c → ¬ destroyed gs c → w_conns w2 !! c = None;
}.

(** who has a share of a connection while the last functors are destroyed *)
Lemma referenced_last l S T w w' lp c :
  at_rest w → dom (w_loops w) = {[ l ]} → settling l S T w w' → w_loops w' !! l = Some lp →
  el_pendingFunctors lp = [] →
  referenced c w' = true ↔ listed w c ∨ ∃ f, f ∈ el_running lp ∧ functor_ref f = Some c.
Proof.
  intros Hrest Hdom Hs Hl Hpend.
  rewrite (referenced_one l lp) by (done || by rewrite (proj2 (se_rests _ _ _ _ _ Hs))).
  rewrite Hpend. unfold listed. by destruct (se_store _ _ _ _ _ Hs) as (_ & _ & -> & _).
Qed.

Lemma dropping_destroy l fs w f gs w2 :
  at_rest w → dom (w_loops w) = {[ l ]} → dropping_at l fs w (f :: gs) w2 →
  wp never (mod_loop l (λ lp, set_el_running (tail (el_running lp)) lp);; destroy_functor f)
    (λ _ w3, dropping_at l fs w gs w3) w2.
Proof.
  intros Hrest Hdom [(lp & Hl & Ht & Hpend & Hrun) Hs Hp Hcs Ho Hsub Hdone]. do 2 ws. rs.
  set (lp3 := set_el_running _ lp). set (w3 := set_w_loops _ w2).
  assert (Hs3 : settling l (destroyed fs) (λ chan, ∃ c, destroyed fs c ∧ channel_of w c chan) w w3)
    by (etrans; [exact Hs|by apply (settling_loop l _ _ w2 lp)]).
  assert (Hp3 : poller_ok l w3) by (by apply (poller_ok_loop l w2 lp)).
  assert (Hl3 : w_loops w3 !! l = Some lp3) by apply lookup_insert_eq.
  assert (Hrun3 : el_running lp3 = gs) by (unfold lp3; rs; by rewrite Hrun).
  pose proof (λ c, referenced_last l _ _ w w3 lp3 c Hrest Hdom Hs3 Hl3 Hpend) as Href. rewrite Hrun3 in Href.
  inversion Ho as [|c f' gs' Htold Hc Hgs|c gs' Hf Hn Hrefs Hgs]; subst f' gs' || subst gs'.
  - assert (functor_ref f = Some c) as Ef by (by apply told_ref). unfold destroy_functor. rewrite Ef.
    unfold release. apply wp_bind, wp_gets. rewrite (proj2 (Href c)).
    2: { destruct Hc as [Hc|Hc]; [by left|]. right. by exists (FConnectDestroyed c). }
    apply wp_ret. split; try done; [by exists lp3|..].
    + intros c' Hin. apply Hcs. by right.
    + set_solver.
    + intros c' Hfs Hd. apply Hdone; [done|]. intros [<-|?]%elem_of_cons; [|done].
      by destruct Htold as [? |[? ?]].
  - subst f. unfold destroy_functor. cbn [functor_ref]. unfold release. apply wp_bind, wp_gets.
    assert (referenced c w3 = false) as ->.
    { apply not_true_iff_false. rewrite Href. intros [?|(f & Hin & Ef)]; [done|].
      rewrite Forall_forall in Hrefs. by apply Hrefs in Hin. }
    assert (Hf3 : forgotten l c w3) by exact Hf.
    eapply wp_post; [eapply (delete_frees l c w3 lp3 Hf3 Hp3); try done; by apply (se_rests _ _ _ _ _ Hs3)|].
    intros [] w4 (Hs4 & Hp4 & Hnone & El4).
    destruct Hf as (conn & ch & Hc & _ & Hch & _ & _ & _ & Hcb).
    assert (Hchan : ∀ x, channel_of w3 c x → x = tc_channel conn).
    { intros x. unfold channel_of. change (w_conns w3) with (w_conns w2). rewrite Hc. by intros [= <-]. }
    split; try done.
    + exists lp3. rewrite El4. pose proof (se_store _ _ _ _ _ Hs4) as [Etid _].
      split_and!; [done|by rewrite Etid|done|done].
    + etrans; [exact Hs3|]. eapply settling_mono; [exact Hs4|intros x <-; apply Hsub; left|].
      intros x Hx. exists c. split; [apply Hsub; left|]. unfold channel_of in *.
      change (w_conns w3) with (w_conns w2) in Hx. rewrite <- Hx. f_equal. symmetry. apply Hcs. left.
    + intros c' Hin. rewrite (se_conns _ _ _ _ _ Hs4); [apply Hcs; by right|]. intros <-.
      rewrite Forall_forall in Hrefs. by apply Hrefs in Hin.
    + eapply owed_mono; [exact Hgs|done| |done].
      intros c' Hin Hf'. apply (forgotten_settling l c' _ _ w3 w4 Hf' Hs4).
      * intros <-. rewrite Forall_forall in Hrefs. by apply Hrefs in Hin.
      * intros x ->%Hchan. change (w_chans w3) with (w_chans w2). rewrite Hch. simpl. rewrite Hcb.
        intros [= ->]. rewrite Forall_forall in Hrefs. by apply Hrefs in Hin.
    + set_solver.
    + intros c' Hfs Hd. destruct (decide (c' = c)) as [->|Hne]; [done|].
      rewrite (se_conns _ _ _ _ _ Hs4) by congruence. apply Hdone; [done|].
      intros [[= ->]|?]%elem_of_cons; done.
Qed.

(** The loop runs its functors: the connections that were to be destroyed are
    gone, and the others are as they were. *)
Lemma functors_run l w lp :
  w_loops w !! l = Some lp → el_threadId lp = w_tid w → poller_ok l w → at_rest w →
  dom (w_loops w) = {[ l ]} →
  owed (listed w) (λ c, ∃ chan fd, closed l c chan fd w) (el_pendingFunctors lp) →
  wp never (EventLoop_DoPendingFunctors exec destroy_functor l) (λ _ w',
    dropping_at l (el_pendingFunctors lp) w [] w') w.
Proof.
  intros Hl Ht Hp Hr Hdom Ho. set (fs := el_pendingFunctors lp) in *.
  unfold EventLoop_DoPendingFunctors. do 6 (ws; rs). change (el_pendingFunctors lp) with fs.
  rewrite insert_insert_eq. set (w1 := set_w_loops _ _).
  assert (Hs1 : ∀ C D, settling l C D w w1) by (intros C D; by apply (settling_loop l C D w lp)).
  assert (Hr1 : running_at l fs w fs w1).
  { split; try done.
    - eexists. split; [apply lookup_insert_eq|done].
    - by apply (poller_ok_loop l w lp).
    - eapply owed_mono; [exact Ho|done| |done]. intros c _ (chan & fd & Hcl). exists chan, fd.
      by apply (closed_settling l c chan fd (λ _, False) (λ _, False) w w1 Hcl); [apply Hs1|intros []..]. }
  apply wp_bind. eapply (wp_forM _ _ _ (running_at l fs w)); [exact Hr1|by intros; apply running_exec|].
  clear Hs1 Hr1 w1. intros w1 [(lp1 & Hl1 & Ht1 & Hpend & Hrun) Hs1 Hp1 Hcs Ho1 _ Hdone].
  do 2 (ws; rs). set (w2 := set_w_loops _ w1).
  eapply (wp_forM _ _ _ (dropping_at l fs w)); [|by intros; apply dropping_destroy|done].
  assert (Hs2 : settling l (λ _, False) (λ _, False) w1 w2) by (by apply (settling_loop l _ _ w1 lp1)).
  split; try done.
  - eexists. split; [apply lookup_insert_eq|done].
  - etrans; eapply settling_mono; eauto; naive_solver.
  - by apply (poller_ok_loop l w1 lp1).
  - intros c _. unfold w2. rs. by rewrite Hcs.
  - eapply owed_mono; [exact Ho|done| |].
    + intros c Hin _. eapply (forgotten_settling l c _ _ w1 w2); [|exact Hs2|by intros []|by intros ? []].
      apply Hdone; [done|]. by intros ?%elem_of_nil.
    + done.
Qed.
End depart.
