(* ===== verification/Fleet.v ===== *)
(** * The gateway and all its clients

    What happens to the gateway from its start on, event by event, and the
    invariant that each of its clients is served whatever happens to the others.
    No code of the program. *)
From S2P Require Import Prelude RingBuffer Protocol World Reactor Sockets Connection SimKernel.
From S2P Require Import Server Gateway Registry GatewayFacts ServerFacts Scenarios ApiClient Session.
From S2P Require Import AtRest NewClient StartUp Alone Depart.

(** ** Events *)

(** what happens to the gateway: a client connects, at a descriptor; bytes are
    read from the client of an id; its socket is writable; the client leaves;
    the functors are run; the heartbeat timer fires; the loop is woken *)
Inductive event : Type :=
| Connects (fd : Z)
| Delivers (id : Z) (data : list byte)
| Drains (id : Z)
| Leaves (id : Z)
| Settles
| Ticks
| Wakes.

(** the descriptors of the clients, in the order in which they came *)
Definition connected (es : list event) : list Z :=
  omap (λ e, match e with Connects fd => Some fd | _ => None end) es.
(** the ids of the clients that left *)
Definition departed (es : list event) : list Z :=
  omap (λ e, match e with Leaves id => Some id | _ => None end) es.
(** the bytes read from the client of an id *)
Definition received (id : Z) (es : list event) : list byte :=
  concat (omap (λ e, match e with
                     | Delivers id' data => if decide (id' = id) then Some data else None
                     | _ => None end) es).
(** the number of bytes read from all of them *)
Definition traffic (es : list event) : nat :=
  length (concat (omap (λ e, match e with Delivers _ data => Some data | _ => None end) es)).
(** the tasks of one client *)
Definition tasks_of (id : Z) (tasks : list (Packet * Z)) : list (Packet * Z) :=
  filter (λ t, t.2 = id) tasks.

Section fleet.
Context {K : Type} `{AcceptLaws K}.
Abbreviation W := (World K).
Implicit Types (id fd : Z) (w : W) (es : list event).
Context (dispatcher_ : PacketDispatcher W) (spi_OnMessage : Packet → Z → M W unit) (l : loc).

(** One event, and its outcome. The acceptor's socket has a connection at a
    descriptor that is not watched, and there are numbers left for its name and
    its id; what is read from a client frames packets, and an unfinished rest;
    a client leaves when its stream ends, or its socket hangs up; when the timer
    fires, no client has been silent for too long. *)
Inductive gateway_step w : event → outcome W → Prop :=
| step_connects lp fd errno peer t :
    w_loops w !! l = Some lp →
    (sys_accept (ac_acceptSocket (ts_acceptor (w_server w))) (w_kern w)).1 = (fd, errno, peer) →
    0 ≤ fd → epoll_takes (K := K) fd → po_channels (el_poller lp) !! fd = None → el_wakeupFd lp ≠ fd →
    ts_nextConnId (w_server w) < 2 ^ 31 - 1 → cm_nextConnId (w_cm w) < 2 ^ 63 - 1 →
    gateway_step w (Connects fd)
      (r ← run_callback dispatcher_ spi_OnMessage CbAccept t w; Ok r.2)
| step_delivers id c conn data ps rest t :
    cm_connections (w_cm w) !! id = Some c → w_conns w !! c = Some conn →
    (sys_readv (tc_socket conn) (ReadFd_iov (tc_inputBuffer conn)) (w_kern w)).1 = readv_ok data →
    data ≠ [] → buffer_size (tc_inputBuffer conn) + Z.of_nat (length data) < 2 ^ 63 →
    decodes (contents (tc_inputBuffer conn) ++ data) ps rest false →
    gateway_step w (Delivers id data)
      (r ← run_callback dispatcher_ spi_OnMessage (CbConnRead c) t w; Ok r.2)
| step_drains id c t :
    cm_connections (w_cm w) !! id = Some c →
    gateway_step w (Drains id)
      (r ← run_callback dispatcher_ spi_OnMessage (CbConnWrite c) t w; Ok r.2)
| step_leaves id c conn t :
    cm_connections (w_cm w) !! id = Some c → w_conns w !! c = Some conn →
    (sys_readv (tc_socket conn) (ReadFd_iov (tc_inputBuffer conn)) (w_kern w)).1 = readv_ok [] →
    gateway_step w (Leaves id)
      (r ← run_callback dispatcher_ spi_OnMessage (CbConnRead c) t w; Ok r.2)
| step_hangs_up id c t :
    cm_connections (w_cm w) !! id = Some c →
    gateway_step w (Leaves id)
      (r ← run_callback dispatcher_ spi_OnMessage (CbConnClose c) t w; Ok r.2)
| step_settles :
    gateway_step w Settles (r ← EventLoop_DoPendingFunctors exec destroy_functor l w; Ok r.2)
| step_ticks t :
    (∀ now w1 id, now_ms (set_w_kern (sys_read8 (gs_heartbeatTimerFd (w_gs w)) (w_kern w)).2 w) =
      Ok (now, w1) → ¬ silent w now id) →
    gateway_step w Ticks (r ← run_callback dispatcher_ spi_OnMessage CbHeartbeat t w; Ok r.2)
| step_wakes t :
    gateway_step w Wakes (r ← run_callback dispatcher_ spi_OnMessage (CbWakeup l) t w; Ok r.2).

(** [gateway_runs w es o]: from [w], the events [es] end in [o] *)
Inductive gateway_runs w : list event → outcome W → Prop :=
| gateway_starts : gateway_runs w [] (Ok w)
| gateway_goes_on es w1 e o :
    gateway_runs w es (Ok w1) → gateway_step w1 e o → gateway_runs w (es ++ [e]) o.

(** ** The invariant *)

(** a client, and what the gateway has had of it *)
Record peer : Type := mkPeer {
  p_conn : loc;
  p_chan : loc;
  p_fd : Z;
  p_name : string;
  p_here : bool;
  p_packets : list Packet;
  p_rest : list byte;
}.

(** a client that has not left *)
Record here id (p : peer) w : Prop := {
  he_served : serving (p_conn p) l (p_chan p) (p_fd p) (1024 + 12 * Z.of_nat (length (p_packets p))) id
    (heartbeat_replies (p_packets p)) (gs_workerTasks (w_gs w)) w;
  he_input : ∃ conn, w_conns w !! p_conn p = Some conn ∧ contents (tc_inputBuffer conn) = p_rest p;
  he_name : tc_name <$> w_conns w !! p_conn p = Some (p_name p);
  he_calls : ch_readCallback <$> w_chans w !! p_chan p = Some (Some (CbConnRead (p_conn p)));
  he_listed : ts_connections (w_server w) !! p_name p = Some (p_conn p);
}.

(** a connection that the loop is about to destroy *)
Definition leaving w c : Prop := ∃ chan fd, closed l c chan fd w.

(** What the clients [ps] had after the events [es], when the workers were given
    [tasks]; they have the numbers from [first] on, and [next] is the next. *)
Record books (first : Z) (es : list event) (ps : gmap Z peer) (tasks : list (Packet * Z)) (next : Z) : Prop := {
  bk_next : next = first + Z.of_nat (length (connected es));
  bk_ids id p : ps !! id = Some p → 0 < id ∧
    ∃ i, id = first + Z.of_nat i ∧ connected es !! i = Some (p_fd p);
  bk_all i fd : connected es !! i = Some fd → is_Some (ps !! (first + Z.of_nat i));
  bk_fds id1 id2 p1 p2 : ps !! id1 = Some p1 → ps !! id2 = Some p2 → id1 ≠ id2 → p_fd p1 ≠ p_fd p2;
  bk_left id p : ps !! id = Some p → p_here p = false ↔ id ∈ departed es;
  bk_read id p : ps !! id = Some p → decodes (received id es) (p_packets p) (p_rest p) false;
  bk_tasks id p : ps !! id = Some p → tasks_of id tasks = work id (p_packets p);
  bk_unknown id : ps !! id = None → received id es = [] ∧ id ∉ departed es ∧ tasks_of id tasks = [];
}.

(** The gateway serves the clients [ps]. *)
Record fleet (first : Z) (es : list event) (ps : gmap Z peer) w : Prop := {
  fl_accepting : accepting l (gs_workerTasks (w_gs w)) w;
  fl_books : books first es ps (gs_workerTasks (w_gs w)) (cm_nextConnId (w_cm w));
  fl_known id c : cm_connections (w_cm w) !! id = Some c →
    ∃ p, ps !! id = Some p ∧ p_here p = true ∧ p_conn p = c;
  fl_open id p : ps !! id = Some p → in_use (w_kern w) (p_fd p);
  fl_here id p : ps !! id = Some p → p_here p = true → here id p w;
  fl_named : named (w_server w);
  fl_listed name c : ts_connections (w_server w) !! name = Some c →
    ∃ id p, ps !! id = Some p ∧ p_here p = true ∧ p_conn p = c ∧ p_name p = name;
  fl_loop lp : w_loops w !! l = Some lp →
    el_running lp = [] ∧ owed (listed w) (leaving w) (el_pendingFunctors lp);
  fl_objects lp c : w_loops w !! l = Some lp → is_Some (w_conns w !! c) →
    (∃ id p, ps !! id = Some p ∧ p_here p = true ∧ p_conn p = c) ∨
    destroyed (el_pendingFunctors lp) c;
  fl_only : dom (w_loops w) = {[ l ]};
  fl_rest : at_rest w;
}.

(** ** The books *)

Lemma connected_app es e :
  connected (es ++ [e]) = connected es ++ match e with Connects fd => [fd] | _ => [] end.
Proof. unfold connected. rewrite omap_app. by destruct e. Qed.
Lemma departed_app es e :
  departed (es ++ [e]) = departed es ++ match e with Leaves id => [id] | _ => [] end.
Proof. unfold departed. rewrite omap_app. by destruct e. Qed.
Lemma received_app id es e : received id (es ++ [e]) = received id es ++ received id [e].
Proof. unfold received. by rewrite omap_app, concat_app. Qed.
Lemma received_one id id' data :
  received id [Delivers id' data] = if decide (id' = id) then data else [].
Proof. unfold received. simpl. case_decide; [|done]. simpl. by rewrite (right_id_L [] (++)). Qed.
Lemma tasks_of_work id id' ps tasks :
  tasks_of id (tasks ++ work id' ps) = tasks_of id tasks ++ (if decide (id' = id) then work id' ps else []).
Proof.
  unfold tasks_of, work. rewrite filter_app. f_equal.
  assert (Hf : ∀ qs : list Packet, filter (λ t : Packet * Z, t.2 = id) ((λ p, (p, id')) <$> qs) =
    if decide (id' = id) then (λ p, (p, id')) <$> qs else []).
  { induction qs as [|p qs IH]; [by case_decide|].
    rewrite fmap_cons, filter_cons, IH. simpl. by case_decide. }
  apply Hf.
Qed.
Lemma traffic_received id es : (length (received id es) ≤ traffic es)%nat.
Proof.
  induction es as [|e es IH]; [done|]. unfold received, traffic, omap in *.
  destruct e as [|id' data| | | | |]; simpl in *; try done. case_decide; simpl; rewrite ?length_app; lia.
Qed.


(** the numbers of the clients do not change when nobody connects *)
Lemma connected_same es e : connected [e] = [] → connected (es ++ [e]) = connected es.
Proof. intros He. unfold connected in *. by rewrite omap_app, He, (right_id_L [] (++)). Qed.
Lemma departed_same es e : departed [e] = [] → departed (es ++ [e]) = departed es.
Proof. intros He. unfold departed in *. by rewrite omap_app, He, (right_id_L [] (++)). Qed.
Lemma received_same id es e : received id [e] = [] → received id (es ++ [e]) = received id es.
Proof. intros He. by rewrite received_app, He, (right_id_L [] (++)). Qed.

(** an event that is no client's *)
Lemma books_none first es ps tasks next e :
  books first es ps tasks next → connected [e] = [] → departed [e] = [] → (∀ id, received id [e] = []) →
  books first (es ++ [e]) ps tasks next.
Proof.
  intros [B1 B2 B3 B4 B5 B6 B7 B8] He Hde Hr.
  split; rewrite ?(connected_same es e He), ?(departed_same es e Hde); try done.
  - intros id p Ep. rewrite received_same by done. by apply B6.
  - intros id Ep. rewrite received_same by done. by apply B8.
Qed.

(** a client that is here, with what else was read from it *)
Definition more_of (p : peer) (new : list Packet) (rest : list byte) : peer :=
  mkPeer (p_conn p) (p_chan p) (p_fd p) (p_name p) (p_here p) (p_packets p ++ new) rest.

Lemma books_event first es ps tasks next id p e new rest :
  books first es ps tasks next → ps !! id = Some p → connected [e] = [] → departed [e] = [] →
  (∀ id', id' ≠ id → received id' [e] = []) →
  decodes (received id es ++ received id [e]) (p_packets p ++ new) rest false →
  books first (es ++ [e]) (<[id := more_of p new rest]> ps) (tasks ++ work id new) next.
Proof.
  intros [B1 B2 B3 B4 B5 B6 B7 B8] Hp He Hde Hr Hd.
  split; rewrite ?(connected_same es e He), ?(departed_same es e Hde); try done.
  - intros id2 p2 [[<- <-]|[_ E]]%lookup_insert_Some; [by apply (B2 _ _ Hp)|by apply B2].
  - intros i fd E. apply lookup_insert_is_Some'. right. by eapply B3.
  - intros id1 id2 p1 p2 [[<- <-]|[? E1]]%lookup_insert_Some [[<- <-]|[? E2]]%lookup_insert_Some Hne;
      [done|by apply (B4 _ _ _ _ Hp E2)|by apply (B4 _ _ _ _ E1 Hp)|by apply (B4 _ _ _ _ E1 E2)].
  - intros id2 p2 [[<- <-]|[_ E]]%lookup_insert_Some; [by apply (B5 _ _ Hp)|by apply B5].
  - intros id2 p2 [[<- <-]|[Hne E]]%lookup_insert_Some; [by rewrite received_app|].
    rewrite received_same by (by apply Hr). by apply B6.
  - intros id2 p2 [[<- <-]|[Hne E]]%lookup_insert_Some; rewrite tasks_of_work.
    + rewrite decide_True by done. rewrite (B7 _ _ Hp). symmetry. apply work_app.
    + rewrite decide_False, (right_id_L [] (++)) by done. by apply B7.
  - intros id2 [E Hne]%lookup_insert_None. rewrite received_same, tasks_of_work, decide_False by auto.
    rewrite (right_id_L [] (++)). by apply B8.
Qed.

(** the next client *)
Lemma books_new first es ps tasks next : books first es ps tasks next → ps !! next = None.
Proof.
  intros [B1 B2 _ _ _ _ _ _]. destruct (ps !! next) as [p|] eqn:Ep; [|done].
  destruct (B2 _ _ Ep) as (_ & i & Ei & Elk). apply lookup_lt_Some in Elk. lia.
Qed.
Lemma books_connect first es ps tasks next c chan fd name :
  books first es ps tasks next → 0 < first → (∀ id p, ps !! id = Some p → p_fd p ≠ fd) →
  books first (es ++ [Connects fd]) (<[next := mkPeer c chan fd name true [] []]> ps) tasks (next + 1).
Proof.
  intros Hb Hfirst Hfds. pose proof (books_new _ _ _ _ _ Hb) as Hnew.
  destruct Hb as [B1 B2 B3 B4 B5 B6 B7 B8]. destruct (B8 _ Hnew) as (Hrec & Hdep & Htasks).
  split; rewrite ?connected_app, ?departed_same by done; try done.
  - rewrite length_app. simpl. lia.
  - intros id p [[<- <-]|[_ E]]%lookup_insert_Some.
    + split; [lia|]. exists (length (connected es)). split; [done|]. by apply list_lookup_middle.
    + destruct (B2 _ _ E) as (? & i & ? & ?). split; [done|]. exists i. split; [done|].
      by apply lookup_app_l_Some.
  - intros i fd2 Hi. apply lookup_insert_is_Some'. apply lookup_app_Some in Hi as [Hi|[Hge Hi]]; [eauto|].
    left. apply list_lookup_singleton_Some in Hi as [? _]. lia.
  - intros id1 id2 p1 p2 [[<- <-]|[? E1]]%lookup_insert_Some [[<- <-]|[? E2]]%lookup_insert_Some Hne;
      [done|by apply not_eq_sym, (Hfds _ _ E2)|by apply (Hfds _ _ E1)|by apply (B4 _ _ _ _ E1 E2)].
  - intros id p [[<- <-]|[_ E]]%lookup_insert_Some; [done|by apply B5].
  - intros id p [[<- <-]|[_ E]]%lookup_insert_Some; rewrite received_same by done; [|by apply B6].
    rewrite Hrec. by apply decodes_more.
  - intros id p [[<- <-]|[_ E]]%lookup_insert_Some; [done|by apply B7].
  - intros id [E _]%lookup_insert_None. rewrite received_same by done. by apply B8.
Qed.

(** a client that has left *)
Definition left_peer (p : peer) : peer :=
  mkPeer (p_conn p) (p_chan p) (p_fd p) (p_name p) false (p_packets p) (p_rest p).

Lemma books_leave first es ps tasks next id p :
  books first es ps tasks next → ps !! id = Some p →
  books first (es ++ [Leaves id]) (<[id := left_peer p]> ps) tasks next.
Proof.
  intros [B1 B2 B3 B4 B5 B6 B7 B8] Hp. split; rewrite ?connected_same, ?departed_app by done; try done.
  - intros id2 p2 [[<- <-]|[_ E]]%lookup_insert_Some; [by apply (B2 _ _ Hp)|by apply B2].
  - intros i fd E. apply lookup_insert_is_Some'. right. by eapply B3.
  - intros id1 id2 p1 p2 [[<- <-]|[? E1]]%lookup_insert_Some [[<- <-]|[? E2]]%lookup_insert_Some Hne;
      [done|by apply (B4 _ _ _ _ Hp E2)|by apply (B4 _ _ _ _ E1 Hp)|by apply (B4 _ _ _ _ E1 E2)].
  - intros id2 p2 [[<- <-]|[Hne E]]%lookup_insert_Some; rewrite elem_of_app, list_elem_of_singleton.
    + split; [by right|done].
    + rewrite <- (B5 _ _ E). split; [by left|]. by intros [?|?].
  - intros id2 p2 [[<- <-]|[Hne E]]%lookup_insert_Some; rewrite received_same by done;
      [by apply (B6 _ _ Hp)|by apply B6].
  - intros id2 p2 [[<- <-]|[Hne E]]%lookup_insert_Some; [by apply (B7 _ _ Hp)|by apply B7].
  - intros id2 [E Hne]%lookup_insert_None. rewrite received_same, elem_of_app, list_elem_of_singleton by done.
    destruct (B8 _ E) as (? & ? & ?). split_and!; [done|by intros [?|?]|done].
Qed.

(** ** A client and the others *)

Lemma here_conn id p w : here id p w → ∃ conn ch lp,
  conn_ok (p_conn p) l (p_chan p) (p_fd p) conn ch lp w ∧ tc_state conn = kConnected ∧
  tc_connId conn = id ∧ ch_readCallback ch = Some (CbConnRead (p_conn p)).
Proof.
  intros [((conn & ch & lp & Hok & _ & Hst & _) & _ & Hid & _) _ _ Hcb _]. exists conn, ch, lp.
  pose proof (ck_conn _ _ _ _ _ _ _ _ Hok) as Hc. pose proof (ck_chan _ _ _ _ _ _ _ _ Hok) as Hch.
  rewrite Hc in Hid. rewrite Hch in Hcb. injection Hid as Hid. injection Hcb as Hcb. done.
Qed.

(** a client sees nothing of what leaves its objects alone *)
Lemma here_sees id p w w' :
  here id p w → sees l (p_conn p) (p_chan p) (p_fd p) id w w' → poller_ok l w' →
  ts_connections (w_server w') !! p_name p = Some (p_conn p) → here id p w'.
Proof.
  intros [Hs Hin Hn Hcb _] Hsees Hp Hl. split; [|..|done].
  - by eapply serving_sees.
  - by rewrite (sn_conn _ _ _ _ _ _ _ Hsees).
  - by rewrite (sn_conn _ _ _ _ _ _ _ Hsees).
  - by rewrite (sn_chan _ _ _ _ _ _ _ Hsees).
Qed.

(** two clients share nothing, and neither do a client and one that leaves *)
Lemma here_distinct id1 id2 p1 p2 w :
  here id1 p1 w → here id2 p2 w → id1 ≠ id2 → p_conn p1 ≠ p_conn p2 ∧ p_chan p1 ≠ p_chan p2.
Proof.
  intros (conn1 & ch1 & lp1 & Hok1 & _ & Hid1 & Hcb1)%here_conn
    (conn2 & ch2 & lp2 & Hok2 & _ & Hid2 & Hcb2)%here_conn Hne. destruct Hok1, Hok2.
  assert (Hc : p_conn p1 ≠ p_conn p2) by congruence. split; [done|]. congruence.
Qed.
Lemma here_closed id p c chan fd w :
  here id p w → closed l c chan fd w → c ≠ p_conn p ∧ chan ≠ p_chan p.
Proof.
  intros (conn & ch & lp & Hok & Hst & _ & Hcb)%here_conn
    [(conn' & Hc' & Hst' & _) (ch' & Hch' & _ & _ & _ & _ & Hcb')]. destruct Hok.
  assert (Hc : c ≠ p_conn p) by congruence. split; [done|]. congruence.
Qed.
Lemma closed_same c chan fd w w' :
  closed l c chan fd w → w_conns w' !! c = w_conns w !! c → w_chans w' !! chan = w_chans w !! chan →
  closed l c chan fd w'.
Proof. intros [Hc Hch] Ec Ech. split; by rewrite ?Ec, ?Ech. Qed.

(** what is known of the clients, when one of them is replaced *)
Lemma known_insert (ps : gmap Z peer) id p p' (Q : Z → peer → Prop) :
  ps !! id = Some p → (Q id p → Q id p') →
  (∃ id2 p2, ps !! id2 = Some p2 ∧ Q id2 p2) → ∃ id2 p2, <[id := p']> ps !! id2 = Some p2 ∧ Q id2 p2.
Proof.
  intros Hp HQ (id2 & p2 & E2 & H2'). destruct (decide (id2 = id)) as [->|Hne].
  - assert (p2 = p) as -> by congruence. exists id, p'. rewrite lookup_insert_eq. auto.
  - exists id2, p2. by rewrite lookup_insert_ne.
Qed.

(** an event of a client: the others are served *)
Lemma fleet_event first es ps w w' id p e new rest wfd lp :
  let p' := more_of p new rest in
  fleet first es ps w → ps !! id = Some p → p_here p = true → connected [e] = [] → departed [e] = [] →
  w_loops w !! l = Some lp → el_wakeupFd lp = wfd →
  apart (p_conn p) l (p_chan p) (p_fd p) wfd w w' →
  gs_workerTasks (w_gs w') = gs_workerTasks (w_gs w) ++ work id new →
  (∀ id', id' ≠ id → received id' [e] = []) →
  decodes (received id es ++ received id [e]) (p_packets p ++ new) rest false →
  here id p' w' → fleet first (es ++ [e]) (<[id := p']> ps) w'.
Proof.
  intros p' Hf Hp Hhere He Hde Hl Hw Ha Ht Hr Hd Hown.
  pose proof Hf as [F1 F2 F3 F4 F5 F6 F7 F8 F9 F10 F11].
  pose proof (F5 _ _ Hp Hhere) as Hold. pose proof (here_conn _ _ _ Hold) as (conn & ch & lp0 & Hok & _).
  assert (Hpok : poller_ok l w').
  { apply here_conn in Hown as (? & ? & ? & Hok' & _). apply Hok'. }
  pose proof (ap_rest _ _ _ _ _ _ _ Ha) as (_ & _ & Esv & Ecm).
  destruct (ap_loops _ _ _ _ _ _ _ Ha lp Hl) as (lp' & fs & El' & _ & _ & Epend & Hfs & Erun).
  assert (Hlw : listed w' = listed w) by (unfold listed; by rewrite Esv).
  split; rewrite ?Ecm, ?Esv, ?Ht; try done.
  - eapply (accepting_apart (p_conn p) l (p_chan p)); try done; eexists; apply Hok.
  - by apply books_event.
  - intros id2 c E. destruct (F3 id2 c E) as (p2 & E2 & Hh2 & <-). destruct (decide (id2 = id)) as [->|].
    + assert (p2 = p) as -> by congruence. exists p'. by rewrite lookup_insert_eq.
    + exists p2. by rewrite lookup_insert_ne.
  - intros id2 p2 [[<- <-]|[_ E]]%lookup_insert_Some; apply (ap_open _ _ _ _ _ _ _ Ha);
      [by apply (F4 _ _ Hp)|by apply (F4 _ _ E)].
  - intros id2 p2 [[<- <-]|[Hne E]]%lookup_insert_Some Hh2; [done|].
    pose proof (F5 _ _ E Hh2) as Hq. destruct (here_distinct _ _ _ _ _ Hq Hold) as [??]; [done|].
    pose proof (here_conn _ _ _ Hq) as (conn2 & ch2 & lp2 & Hok2 & _). destruct Hok2.
    assert (lp2 = lp) as -> by congruence. eapply here_sees; [exact Hq| |done|rewrite Esv; apply Hq].
    eapply apart_sees; try done; [by apply (bk_fds _ _ _ _ _ F2 _ _ _ _ E Hp)|congruence].
  - intros n c En. by eapply known_insert, F7.
  - intros x Ex. assert (x = lp') as -> by congruence. destruct (F8 lp Hl) as [Hrun Hpend].
    split; [congruence|]. rewrite Epend, Hlw.
    eapply owed_mono; [eapply (owed_more _ _ _ fs (p_conn p)); [exact Hpend|by eexists; apply Hold|done]|done| |done].
    intros c _ (chan & fd & Hcl). exists chan, fd. destruct (here_closed _ _ _ _ _ _ Hold Hcl).
    apply (closed_same c chan fd w w' Hcl); [by apply (ap_conns _ _ _ _ _ _ _ Ha)|by apply (ap_chans _ _ _ _ _ _ _ Ha)].
  - intros x c Ex Hc. assert (x = lp') as -> by congruence.
    destruct (decide (c = p_conn p)) as [->|Hne]; [left; exists id, p'; by rewrite lookup_insert_eq|].
    rewrite (ap_conns _ _ _ _ _ _ _ Ha) in Hc by done. destruct (F9 lp c Hl Hc) as [Hk|Hin].
    + left. by eapply known_insert, Hk.
    + right. unfold destroyed. rewrite Epend. by apply elem_of_app; left.
  - by rewrite (proj2 (ap_rests _ _ _ _ _ _ _ Ha)).
  - by apply (ap_rests _ _ _ _ _ _ _ Ha).
Qed.

(** what the loop and the wake-up descriptor of a served client are *)
Lemma here_mine id p w :
  here id p w → ∃ wfd lp, w_loops w !! l = Some lp ∧ el_wakeupFd lp = wfd ∧
    mine (p_conn p) l (p_chan p) (p_fd p) id wfd (p_name p) w.
Proof. intros Hh. eapply serving_mine; apply Hh. Qed.
Lemma mine_here id p c chan fd name wfd w :
  mine c l chan fd id wfd name w → p_conn p = c → p_chan p = chan → p_fd p = fd → p_name p = name →
  tc_name <$> w_conns w !! p_conn p = Some (p_name p) ∧
  ch_readCallback <$> w_chans w !! p_chan p = Some (Some (CbConnRead (p_conn p))).
Proof.
  intros [(conn & Hc & _ & _ & _ & _ & Hn) (ch & Hch & _ & _ & Hcb) _ _ _] -> -> _ ->.
  by rewrite Hc, Hch, <- Hn, <- Hcb.
Qed.

Lemma fleet_delivers first es ps w id c conn data nps rest t :
  fleet first es ps w → (∀ fd, never_resets (K := K) fd) →
  cm_connections (w_cm w) !! id = Some c → w_conns w !! c = Some conn →
  (sys_readv (tc_socket conn) (ReadFd_iov (tc_inputBuffer conn)) (w_kern w)).1 = readv_ok data →
  data ≠ [] → buffer_size (tc_inputBuffer conn) + Z.of_nat (length data) < 2 ^ 63 →
  decodes (contents (tc_inputBuffer conn) ++ data) nps rest false →
  1024 + 12 * Z.of_nat (traffic (es ++ [Delivers id data])) < 2 ^ 63 →
  ∃ w' ps', run_callback dispatcher_ spi_OnMessage (CbConnRead c) t w = Ok (tt, w') ∧
    fleet first (es ++ [Delivers id data]) ps' w'.
Proof.
  intros Hf Hnr Hcm Hc Hrd Hne Hsz Hd Hb. set (e := Delivers id data) in *.
  destruct (fl_known _ _ _ _ Hf _ _ Hcm) as (p & Hp & Hhere & <-).
  pose proof (fl_here _ _ _ _ Hf _ _ Hp Hhere) as Hh.
  destruct (bk_ids _ _ _ _ _ (fl_books _ _ _ _ Hf) _ _ Hp) as [Hid _].
  pose proof (he_served _ _ _ Hh) as Hs. destruct (he_input _ _ _ Hh) as (conn' & Hc' & Hrest).
  assert (conn' = conn) as -> by congruence. pose proof (bk_read _ _ _ _ _ (fl_books _ _ _ _ Hf) _ _ Hp) as Hread.
  assert (Hfd : tc_socket conn = p_fd p).
  { destruct (here_conn _ _ _ Hh) as (conn' & ch & lp & Hok & _). destruct Hok. congruence. }
  rewrite Hfd in Hrd. rewrite Hrest in Hd.
  assert (Hr : received id (es ++ [e]) = received id es ++ data)
    by (rewrite received_app; unfold e; by rewrite received_one, decide_True).
  assert (Hlen : (length (p_packets p ++ nps) ≤ traffic (es ++ [e]))%nat).
  { etrans; [|apply (traffic_received id)]. rewrite Hr. eapply decodes_length.
    by eapply decodes_app. }
  rewrite length_app in Hlen. destruct (here_mine _ _ _ Hh) as (wfd & lp & Hl & Hw & Hm).
  pose proof (ap_home _ _ _ (fl_accepting _ _ _ _ Hf)) as (_ & _ & _ & _ & Hgl).
  destruct (wp_ok_inv _ _ _ (HandleRead_serving dispatcher_ spi_OnMessage _ _ _ _ _ id _ _ w conn data
    nps rest t Hs (Hnr _) Hgl Hid Hc Hrd Hne Hsz ltac:(by rewrite Hrest) ltac:(lia) ltac:(lia)))
    as ([] & w' & E & conn1 & now & Hs' & Hc1 & Hin & _ & _).
  pose proof (HandleRead_alone dispatcher_ spi_OnMessage _ _ _ _ _ _ _ _ w wfd (p_name p) conn data nps rest t
    Hs Hm Hc Hrd Hne Hsz ltac:(by rewrite Hrest)) as Ha. unfold wp in Ha. rewrite E in Ha.
  destruct Ha as [Hm' Ha]. exists w'. eexists. split; [done|]. pose proof Hs' as (_ & _ & _ & _ & _ & Ht).
  eapply (fleet_event first es ps w w' id p e nps rest wfd lp); try done.
  - intros id' Hne'. unfold e. by rewrite received_one, decide_False.
  - unfold e. rewrite received_one, decide_True by done. by eapply decodes_app.
  - destruct (mine_here id p _ _ _ _ _ _ Hm') as [??]; [done..|]. split; [|by exists conn1|done|done|].
    + simpl. rewrite Ht, length_app.
      replace (1024 + 12 * Z.of_nat (length (p_packets p) + length nps))
        with (1024 + 12 * Z.of_nat (length (p_packets p)) + 12 * Z.of_nat (length nps)) by lia.
      unfold heartbeat_replies. rewrite fmap_app, concat_app. exact Hs'.
    + destruct (ap_rest _ _ _ _ _ _ _ Ha) as (_ & _ & -> & _). apply Hh.
Qed.

Lemma fleet_drains first es ps w id c t :
  fleet first es ps w → (∀ fd, never_resets (K := K) fd) → cm_connections (w_cm w) !! id = Some c →
  ∃ w' ps', run_callback dispatcher_ spi_OnMessage (CbConnWrite c) t w = Ok (tt, w') ∧
    fleet first (es ++ [Drains id]) ps' w'.
Proof.
  intros Hf Hnr Hcm. destruct (fl_known _ _ _ _ Hf _ _ Hcm) as (p & Hp & Hhere & <-).
  pose proof (fl_here _ _ _ _ Hf _ _ Hp Hhere) as Hh. pose proof (he_served _ _ _ Hh) as Hs.
  destruct (he_input _ _ _ Hh) as (conn & Hc & Hrest).
  destruct (here_mine _ _ _ Hh) as (wfd & lp & Hl & Hw & Hm).
  destruct (wp_ok_inv _ _ _ (HandleWrite_serving dispatcher_ spi_OnMessage (p_conn p) (p_chan p) l (p_fd p) id
    _ _ _ w t Hs)) as ([] & w' & E & Hs' & Hg & _ & Hci).
  destruct (alone_HandleWrite (p_conn p) l (p_chan p) (p_fd p) id wfd (p_name p) w tt w' E Hm) as [Hm' Ha].
  exists w'. eexists. split; [done|].
  eapply (fleet_event first es ps w w' id p (Drains id) [] (p_rest p) wfd lp); try done.
  - rewrite Hg. symmetry. apply (right_id_L [] (++)).
  - change (received id [Drains id]) with (@nil byte). rewrite !(right_id_L [] (++)). by eapply bk_read, Hp; apply Hf.
  - destruct (mine_here id p _ _ _ _ _ _ Hm') as [??]; [done..|]. split; [| |done|done|].
    + simpl. by rewrite Hg, (right_id_L [] (++)).
    + specialize (Hci (p_conn p)). rewrite Hc in Hci. apply fmap_Some in Hci as (conn1 & Hc1 & [= _ Ei]).
      exists conn1. by rewrite <- Ei.
    + destruct (ap_rest _ _ _ _ _ _ _ Ha) as (_ & _ & -> & _). apply Hh.
Qed.

(** the server lists one connection more *)
Lemma lists_new w w' c :
  named (w_server w) →
  w_server w' = set_ts_connections (<[conn_name (w_server w) := c]> (ts_connections (w_server w)))
    (set_ts_nextConnId (ts_nextConnId (w_server w) + 1) (w_server w)) →
  ts_nextConnId (w_server w) < 2 ^ 31 - 1 →
  ts_connections (w_server w) !! conn_name (w_server w) = None ∧
  (∀ x, x ≠ c → listed w' x → listed w x) ∧ (∀ x, listed w x → listed w' x) ∧ named (w_server w').
Proof.
  intros Hnm Esv Hn. pose proof (named_fresh (w_server w) Hnm) as Hnn. split; [done|]. split; [|split].
  - intros x Hx [n Ex]. rewrite Esv in Ex. rs in Ex.
    apply lookup_insert_Some in Ex as [[_ ->]|[_ Ex]]; [done|by exists n].
  - intros x [n Ex]. exists n. rewrite Esv. rs. rewrite lookup_insert_ne; [done|]. intros <-.
    by rewrite Hnn in Ex.
  - rewrite Esv. by apply (proj2 (named_next (w_server w) c Hnm Hn)
      (set_ts_nextConnId (ts_nextConnId (w_server w) + 1) (w_server w))).
Qed.
Lemma owed_admits w w' c chan fd fs :
  owed (listed w) (leaving w) fs → admits l c chan fd w w' →
  w_conns w !! c = None → w_chans w !! chan = None →
  (∀ x, x ≠ c → listed w' x → listed w x) → (∀ x, listed w x → listed w' x) →
  owed (listed w') (leaving w') fs.
Proof.
  intros Ho Had Hc Hchan Hl Hl'.
  assert (Hne : ∀ x, leaving w x → x ≠ c) by (intros x (ch2 & fd2 & [(conn2 & Hc2 & _) _]) ->; congruence).
  eapply owed_mono; [exact Ho|done|..].
  - intros x _ (ch2 & fd2 & Hcl). exists ch2, fd2. apply (closed_same x ch2 fd2 w w' Hcl).
    + apply (ad_conns _ _ _ _ _ _ Had), Hne. by exists ch2, fd2.
    + apply (ad_chans _ _ _ _ _ _ Had). destruct Hcl as [_ (ch & Hch & _)]. congruence.
  - intros x Hx. by apply Hl, Hne.
Qed.

Lemma fleet_connects first es ps w lp fd errno peer t :
  fleet first es ps w → 0 < first → w_loops w !! l = Some lp →
  (sys_accept (ac_acceptSocket (ts_acceptor (w_server w))) (w_kern w)).1 = (fd, errno, peer) →
  0 ≤ fd → epoll_takes (K := K) fd → po_channels (el_poller lp) !! fd = None → el_wakeupFd lp ≠ fd →
  ts_nextConnId (w_server w) < 2 ^ 31 - 1 → cm_nextConnId (w_cm w) < 2 ^ 63 - 1 →
  ∃ w' ps', run_callback dispatcher_ spi_OnMessage CbAccept t w = Ok (tt, w') ∧
    fleet first (es ++ [Connects fd]) ps' w'.
Proof.
  intros Hf Hfirst Hl Hacc Hfd Htakes Hnone Hwk Hn Hid.
  pose proof Hf as [F1 F2 F3 F4 F5 F6 F7 F8 F9 F10 F11].
  assert (Hid0 : first ≤ cm_nextConnId (w_cm w)) by (rewrite (bk_next _ _ _ _ _ F2); lia).
  destruct (wp_ok_inv _ _ _ (accept_serving dispatcher_ spi_OnMessage l _ w lp fd errno peer t F1 Hl Hacc
    Hfd Htakes Hnone Hwk Hn ltac:(lia)))
    as ([] & w' & E & c & chan & conn & Hs & Hc & Hin & Hname & Hcb & Hopen & Hfree & Ha' & Hnext & Had &
        Hfresh & Hfresh' & Esv & _).
  pose proof (books_new _ _ _ _ _ F2) as Hnew. set (id := cm_nextConnId (w_cm w)) in *.
  destruct (rests_accept w tt w' E) as [Hrest Hdom]. pose proof Hs as (_ & _ & _ & _ & _ & Ht).
  assert (Hfds : ∀ id2 p2, ps !! id2 = Some p2 → p_fd p2 ≠ fd).
  { intros id2 p2 E2 Efd. apply Hfree. rewrite <- Efd. by apply (F4 _ _ E2). }
  destruct (ad_loop _ _ _ _ _ _ Had lp Hl) as (lp' & El' & _ & _ & Epend & Erun).
  destruct (lists_new w w' c F6 Esv) as (Hnn & Hlisted & Hlisted' & Hnamed); [done|].
  set (name := conn_name (w_server w)) in *.
  exists w', (<[id := mkPeer c chan fd name true [] []]> ps). split; [done|].
  split; rewrite ?Ht, ?(ad_cm _ _ _ _ _ _ Had); try done.
  - rewrite Hnext. by apply books_connect.
  - intros id2 c2 [[<- <-]|[Hne E2]]%lookup_insert_Some.
    + eexists. by rewrite lookup_insert_eq.
    + destruct (F3 _ _ E2) as (p2 & ? & ?). exists p2. by rewrite lookup_insert_ne.
  - intros id2 p2 [[<- <-]|[_ E2]]%lookup_insert_Some; [done|].
    apply (ad_open _ _ _ _ _ _ Had). by apply (F4 _ _ E2).
  - intros id2 p2 [[<- <-]|[Hne E2]]%lookup_insert_Some Hh2.
    + split; simpl; rewrite ?Ht; [done|by exists conn|by rewrite Hc, <- Hname|done|].
      rewrite Esv. apply lookup_insert_eq.
    + pose proof (F5 _ _ E2 Hh2) as Hq. destruct (here_conn _ _ _ Hq) as (conn2 & ch2 & lp2 & Hok2 & _).
      destruct Hok2. eapply here_sees; [exact Hq| |apply Ha'|].
      * eapply admits_sees; [exact Had|congruence|congruence|by apply (Hfds id2)|by apply not_eq_sym].
      * rewrite Esv. rs. rewrite lookup_insert_ne; [apply Hq|]. intros Ename.
        pose proof (he_listed _ _ _ Hq) as El2. by rewrite <- Ename, Hnn in El2.
  - rewrite Esv. rs. intros n x [[<- <-]|[_ En]]%lookup_insert_Some.
    + exists id. eexists. by rewrite lookup_insert_eq.
    + destruct (F7 n x En) as (id2 & p2 & E2 & ?). exists id2, p2. rewrite lookup_insert_ne; [done|].
      intros <-. congruence.
  - intros x Ex. assert (x = lp') as -> by congruence. destruct (F8 lp Hl) as [Hrun Hpend].
    split; [congruence|]. rewrite Epend. by apply (owed_admits _ _ _ _ _ _ Hpend Had).
  - intros x c2 Ex Hc2. assert (x = lp') as -> by congruence.
    destruct (decide (c2 = c)) as [->|Hne]; [left; exists id; eexists; by rewrite lookup_insert_eq|].
    rewrite (ad_conns _ _ _ _ _ _ Had) in Hc2 by done.
    destruct (F9 lp c2 Hl Hc2) as [(id2 & p2 & E2 & Hh2 & <-)|Hin2].
    + left. exists id2, p2. rewrite lookup_insert_ne; [done|]. intros <-. congruence.
    + right. unfold destroyed. by rewrite Epend.
  - by rewrite Hdom.
  - by apply Hrest.
Qed.

(** ** What is not of a client *)

(** the wake-up and the timer change only what the clients cannot see *)
Lemma fleet_kernel first es ps w k e :
  fleet first es ps w → quiet (w_kern w) k → connected [e] = [] → departed [e] = [] →
  (∀ id, received id [e] = []) → fleet first (es ++ [e]) ps (set_w_kern k w).
Proof.
  intros [F1 F2 F3 F4 F5 F6 F7 F8 F9 F10 F11] [(Ks & Kf & Ki) Ku] He Hde Hr.
  destruct (pk_loop _ _ (ap_poller _ _ _ F1)) as [lp El].
  assert (Hp : poller_ok l (set_w_kern k w)).
  { eapply (poller_ok_frame l w _ lp lp); try done; [apply F1|]. rs. by rewrite Ki. }
  split; try done.
  - destruct F1. by split.
  - by apply books_none.
  - intros id p Ep. by apply Ku, (F4 id).
  - intros id p Ep Hh. pose proof (F5 _ _ Ep Hh) as Hq. eapply here_sees; [exact Hq| |done|apply Hq].
    split; try done; [|by rs; rewrite Ks, Kf]. intros x Ex. by exists x.
  - intros x Ex. destruct (F8 x Ex) as [? Hpend]. split; [done|]. eapply owed_mono; [exact Hpend|done| |done].
    intros c _ (chan & fd & Hcl). exists chan, fd. by apply (closed_same c chan fd w).
  - destruct F11. by split.
Qed.

Lemma wakes w lp :
  w_loops w !! l = Some lp →
  wp never (EventLoop_HandleRead l) (λ _ w', ∃ k, w' = set_w_kern k w ∧ quiet (w_kern w) k) w.
Proof.
  intros El. unfold EventLoop_HandleRead. do 2 (ws; rs). eexists. split; [done|apply read8_quiet].
Qed.

Lemma ticks w lp t :
  w_loops w !! l = Some lp → el_threadId lp = w_tid w → gs_loop (w_gs w) = l →
  (∀ now w1 id, now_ms (set_w_kern (sys_read8 (gs_heartbeatTimerFd (w_gs w)) (w_kern w)).2 w) =
    Ok (now, w1) → ¬ silent w now id) →
  wp never (GatewayServer_OnHeartbeat t) (λ _ w', ∃ k, w' = set_w_kern k w ∧ quiet (w_kern w) k) w.
Proof.
  intros El Ht Hg Hs. unfold GatewayServer_OnHeartbeat. ws. ws. rewrite Hg.
  eapply wp_bind, assert_in_loop_spec; [done|done|]. apply wp_bind, wp_sys.
  set (w0 := set_w_kern _ w) in *. apply wp_bind. eapply wp_ok; [reflexivity|].
  set (now := MilliSecondsSinceEpoch _). set (w1 := set_w_kern _ w0).
  eapply (wp_forM _ _ _ (λ ids w', w' = w1 ∧
    Forall (λ id, is_Some (gs_lastHeartbeats (w_gs w) !! id)) ids)).
  - split; [done|]. apply Forall_forall. intros id Hid. by apply elem_of_ordered_ids.
  - intros id ids w2 [-> [[last Hlast] Hids]%Forall_cons]. unfold expire.
    apply wp_bind, wp_gets, wp_bind. change (w_gs w1) with (w_gs w). rewrite Hlast. eapply wp_ok; [done|].
    pose proof (Hs now w1 id eq_refl) as Hnot. unfold silent in Hnot. rewrite Hlast in Hnot.
    destruct (Z.ltb_spec (gs_heartbeatTimeoutSec (w_gs w) * 1000) (now - last)); [lia|done].
  - intros w2 [-> _]. eexists. split; [unfold w1, w0; by rs|].
    etrans; [apply read8_quiet|apply clock_quiet].
Qed.

(** what the clients, the acceptor and the numbers see when the connections that
    leave are destroyed *)
Abbreviation settled fs w w' := (settling l (destroyed fs)
  (λ chan, ∃ c, destroyed fs c ∧ channel_of w c chan) w w').

Lemma settling_none (L : loc → Prop) fs w w' c :
  settled fs w w' → owed L (leaving w) fs → w_conns w !! c = None → w_conns w' !! c = None.
Proof.
  intros Hs Ho Hc. rewrite (se_conns _ _ _ _ _ Hs); [done|]. intros Hd.
  destruct (owed_destroyed_leaving _ _ _ _ Ho Hd) as (chan & fd & [(conn & Hconn & _) _]). congruence.
Qed.
Lemma settling_here (L : loc → Prop) fs w w' id p :
  settled fs w w' → owed L (leaving w) fs → here id p w → sees l (p_conn p) (p_chan p) (p_fd p) id w w'.
Proof.
  intros Hs Ho Hq. pose proof (se_store _ _ _ _ _ Hs) as (E1 & E2 & E3 & E4 & E5).
  assert (Hnc : ∀ c, destroyed fs c → c ≠ p_conn p ∧ ∀ chan, channel_of w c chan → chan ≠ p_chan p).
  { intros c Hc. destruct (owed_destroyed_leaving _ _ _ _ Ho Hc) as (chan & fd & Hcl).
    destruct (here_closed _ _ _ _ _ _ Hq Hcl) as [? Hch]. split; [done|]. intros x Hx.
    destruct Hcl as [(conn & Hconn & _ & _ & <-) _]. unfold channel_of in Hx. rewrite Hconn in Hx.
    by injection Hx as <-. }
  split; rewrite ?E4, ?E5; try done.
  - intros x Ex. apply (se_loop _ _ _ _ _ Hs x Ex).
  - apply (se_conns _ _ _ _ _ Hs). intros Hd. by destruct (Hnc _ Hd).
  - apply (se_chans _ _ _ _ _ Hs). intros (c & Hd & Hch). destruct (Hnc _ Hd) as [_ Hx]. by apply (Hx _ Hch).
  - apply (se_kernel _ _ _ _ _ Hs).
Qed.
Lemma settling_accepting (L : loc → Prop) fs w w' tasks :
  settled fs w w' → owed L (leaving w) fs → accepting l tasks w → poller_ok l w' → accepting l tasks w'.
Proof.
  intros Hs Ho [A1 A2 A3 A4 A5 A6 A7] Hp. pose proof (se_store _ _ _ _ _ Hs) as (E1 & E2 & E3 & E4 & E5).
  split; rewrite ?E1, ?E2, ?E3, ?E4, ?E5; try done.
  - intros x Ex. destruct (pk_loop _ _ A1) as [lp El]. destruct (se_loop _ _ _ _ _ Hs lp El) as (y & Ey & Et & _).
    assert (x = y) as -> by congruence. rewrite Et. by apply A2.
  - intros c Hge. destruct (A5 c Hge) as [Fc Fch]. split; [by eapply settling_none|].
    rewrite (se_chans _ _ _ _ _ Hs); [done|]. intros (c2 & Hd & Hch).
    destruct (owed_destroyed_leaving _ _ _ _ Ho Hd) as (chan & fd & [(conn & Hconn & _ & _ & Hcc) (ch & Hch' & _)]).
    unfold channel_of in Hch. rewrite Hconn in Hch. injection Hch as Hch. congruence.
Qed.

(** the functors free the connections of the clients that have left *)
Lemma fleet_settles first es ps w :
  fleet first es ps w →
  wp never (EventLoop_DoPendingFunctors exec destroy_functor l)
    (λ _ w', fleet first (es ++ [Settles]) ps w') w.
Proof.
  intros Hf. pose proof Hf as [F1 F2 F3 F4 F5 F6 F7 F8 F9 F10 F11].
  destruct (pk_loop _ _ (ap_poller _ _ _ F1)) as [lp El]. destruct (F8 lp El) as [Hrun Ho].
  eapply wp_post; [apply (functors_run l w lp El); try done; apply F1; done|].
  intros [] w' [(lp' & El' & Et' & Ep' & Er') Hs Hp _ _ _ Hgone]. set (fs := el_pendingFunctors lp) in *.
  pose proof (se_store _ _ _ _ _ Hs) as (E1 & E2 & E3 & E4 & E5).
  assert (Hpend : el_pendingFunctors lp' = [] ∧ el_running lp' = []) by done. clear Ep' Er'.
  split; rewrite ?E3, ?E4, ?E5; try done.
  - by eapply settling_accepting.
  - by apply books_none.
  - intros id p Ep. by apply (se_open _ _ _ _ _ Hs), (F4 id).
  - intros id p Ep Hh. pose proof (F5 _ _ Ep Hh) as Hq. eapply here_sees; [exact Hq| |done|].
    + by eapply settling_here.
    + rewrite E3. apply Hq.
  - intros x Ex. assert (x = lp') as -> by congruence. destruct Hpend as [-> ->]. split; [done|constructor].
  - intros x c Ex Hc. destruct (w_conns w !! c) eqn:Ec.
    2: { by rewrite (settling_none _ _ _ _ _ Hs Ho Ec) in Hc; destruct Hc. }
    destruct (F9 lp c El) as [?|Hd]; [by rewrite Ec|by left|].
    rewrite Hgone in Hc; [by destruct Hc|done|]. by intros ?%elem_of_nil.
  - by rewrite (proj2 (se_rests _ _ _ _ _ Hs)).
  - by apply (se_rests _ _ _ _ _ Hs).
Qed.

(** ** A client leaves *)

Lemma departs_sees c chan fd id wfd name w w' c2 chan2 fd2 id2 :
  departs l c chan fd id wfd name w w' → c2 ≠ c → chan2 ≠ chan → fd2 ≠ fd → fd2 ≠ wfd → id2 ≠ id →
  sees l c2 chan2 fd2 id2 w w'.
Proof.
  intros [A1 A2 A3 A4 A5 [A6 _] A7 (A8 & A9 & _) [A10 _] _ _] Hc Hch Hfd Hw Hid.
  split; auto; [|by rewrite A6, lookup_delete_ne].
  intros lp El. destruct (A1 lp El) as (lp' & fs & ? & ? & ? & _). by exists lp'.
Qed.

Lemma departs_accepting c chan fd id wfd name w w' tasks :
  departs l c chan fd id wfd name w w' → accepting l tasks w → is_Some (w_conns w !! c) →
  is_Some (w_chans w !! chan) → accepting l tasks w'.
Proof.
  intros [A1 A2 A3 A4 A5 [A6 A6'] A7 (A8 & A9 & A10 & A11) [A12 A13] A14 _]
    [P1 P2 P3 P4 P5 P6 P7] [? Hc] [? Hch].
  split; rewrite ?A6, ?A6', ?A7, ?A8, ?A9, ?A10, ?A11, ?A12, ?A13; try done.
  - intros lp El. destruct (pk_loop _ _ P1) as [lp0 El0]. destruct (A1 lp0 El0) as (lp' & fs & El' & Et & _).
    assert (lp = lp') as -> by congruence. rewrite Et. by apply P2.
  - intros c' Hge. destruct (P5 c' Hge) as [Fc Fch]. rewrite A2, A3; [done|..]; intros ->; congruence.
  - intros i y [_ E]%lookup_delete_Some. by apply (P6 i y).
Qed.

Lemma departs_names c chan fd id wfd name w w' n x :
  departs l c chan fd id wfd name w w' →
  ts_connections (w_server w') !! n = Some x ↔ n ≠ name ∧ ts_connections (w_server w) !! n = Some x.
Proof. intros Hd. rewrite (dp_server _ _ _ _ _ _ _ _ _ Hd). rs. rewrite lookup_delete_Some. naive_solver. Qed.

(** each name in the table is its client's *)
Lemma fleet_owner first es ps w id p n :
  fleet first es ps w → ps !! id = Some p → p_here p = true →
  ts_connections (w_server w) !! n = Some (p_conn p) → p_name p = n.
Proof.
  intros Hf Hp Hh (id2 & p2 & E2 & Hh2 & Ec & <-)%(fl_listed _ _ _ _ Hf).
  destruct (decide (id2 = id)) as [->|Hne]; [congruence|].
  destruct (here_distinct _ _ _ _ _ (fl_here _ _ _ _ Hf _ _ E2 Hh2) (fl_here _ _ _ _ Hf _ _ Hp Hh) Hne).
  congruence.
Qed.

(** the other clients are still served *)
Lemma departs_here id id2 p p2 wfd w w' :
  here id p w → here id2 p2 w → id2 ≠ id → p_fd p2 ≠ p_fd p → poller_ok l w' →
  el_wakeupFd <$> w_loops w !! l = Some wfd →
  departs l (p_conn p) (p_chan p) (p_fd p) id wfd (p_name p) w w' → here id2 p2 w'.
Proof.
  intros Hold Hq Hne Hfd Hp' Hw Hd. destruct (here_distinct _ _ _ _ _ Hq Hold Hne) as [Hc Hch].
  pose proof (here_conn _ _ _ Hq) as (conn & ch & lp & [] & _).
  eapply here_sees; [exact Hq|eapply departs_sees; [exact Hd|done..| |done]|done|].
  - rewrite ck_loop in Hw. cbn in Hw. congruence.
  - apply (departs_names _ _ _ _ _ _ _ _ _ _ Hd). split; [|apply Hq]. intros En.
    pose proof (he_listed _ _ _ Hq). pose proof (he_listed _ _ _ Hold). congruence.
Qed.

(** the loop is about to destroy its connection *)
Lemma departs_owed first es ps w w' id p wfd lp lp' :
  fleet first es ps w → ps !! id = Some p → p_here p = true → w_loops w !! l = Some lp →
  departs l (p_conn p) (p_chan p) (p_fd p) id wfd (p_name p) w w' → w_loops w' !! l = Some lp' →
  el_running lp' = [] ∧ owed (listed w') (leaving w') (el_pendingFunctors lp') ∧
  (∀ c, destroyed (el_pendingFunctors lp) c → destroyed (el_pendingFunctors lp') c) ∧
  destroyed (el_pendingFunctors lp') (p_conn p).
Proof.
  intros Hf Hp Hhere Hl Hd El'. pose proof (fl_here _ _ _ _ Hf _ _ Hp Hhere) as Hold.
  pose proof (he_listed _ _ _ Hold) as Hname. destruct (fl_loop _ _ _ _ Hf lp Hl) as [Hrun Ho].
  destruct (dp_loop _ _ _ _ _ _ _ _ _ Hd lp Hl) as (lp2 & gs & E2 & _ & _ & Epend & Hgs & Erun).
  assert (lp2 = lp') as -> by congruence. split_and!; [congruence|rewrite Epend..].
  2: { intros c Hc. apply elem_of_app. by left. }
  2: { unfold destroyed. rewrite !elem_of_app, list_elem_of_singleton. auto. }
  eapply (owed_leaves _ _ _ _ _ gs (p_conn p)); [exact Ho|by eexists|..]; try done.
  - intros c Hne [n En]. exists n. apply (departs_names _ _ _ _ _ _ _ _ _ _ Hd).
    split; [|done]. intros ->. congruence.
  - intros c Hne (chan & fd & Hcl). exists chan, fd. destruct (here_closed _ _ _ _ _ _ Hold Hcl).
    apply (closed_same c chan fd w w' Hcl);
      [by apply (dp_conns _ _ _ _ _ _ _ _ _ Hd)|by apply (dp_chans _ _ _ _ _ _ _ _ _ Hd)].
  - intros c _ [n [_ En]%(departs_names _ _ _ _ _ _ _ _ _ _ Hd)]. by exists n.
  - eexists _, _. apply Hd.
  - intros [n [Hne En]%(departs_names _ _ _ _ _ _ _ _ _ _ Hd)].
    by apply Hne, eq_sym, (fleet_owner _ _ _ _ _ _ _ Hf Hp).
Qed.

Lemma fleet_departs first es ps w w' id p wfd lp :
  fleet first es ps w → ps !! id = Some p → p_here p = true → w_loops w !! l = Some lp →
  el_wakeupFd lp = wfd → departs l (p_conn p) (p_chan p) (p_fd p) id wfd (p_name p) w w' → rests w w' →
  fleet first (es ++ [Leaves id]) (<[id := left_peer p]> ps) w'.
Proof.
  intros Hf Hp Hhere Hl Hw Hd [Hrest Hdom].
  pose proof Hf as [F1 F2 F3 F4 F5 F6 F7 F8 F9 F10 F11]. pose proof (F5 _ _ Hp Hhere) as Hold.
  destruct (here_conn _ _ _ Hold) as (conn & ch & lp0 & Hok & _).
  destruct (dp_cm _ _ _ _ _ _ _ _ _ Hd) as [Ecm Enext]. destruct (dp_gs _ _ _ _ _ _ _ _ _ Hd) as (_ & _ & Ht & _).
  assert (Hacc : accepting l (gs_workerTasks (w_gs w)) w').
  { eapply (departs_accepting _ _ _ _ _ _ _ _ _ Hd); [done|eexists; apply Hok..]. }
  split; rewrite ?Ecm, ?Ht, ?Enext; try done.
  - by apply books_leave.
  - intros id2 c [Hne E]%lookup_delete_Some. destruct (F3 id2 c E) as (p2 & E2 & Hh2 & <-).
    exists p2. by rewrite lookup_insert_ne.
  - intros id2 p2 [[<- <-]|[_ E]]%lookup_insert_Some; apply (dp_open _ _ _ _ _ _ _ _ _ Hd);
      [by apply (F4 _ _ Hp)|by apply (F4 _ _ E)].
  - intros id2 p2 [[<- <-]|[Hne E]]%lookup_insert_Some Hh2; [done|].
    eapply (departs_here id id2 p p2 wfd w w'); try done; [by apply F5| |apply Hacc|].
    + by apply (bk_fds _ _ _ _ _ F2 _ _ _ _ E Hp), not_eq_sym.
    + by rewrite Hl, <- Hw.
  - rewrite (dp_server _ _ _ _ _ _ _ _ _ Hd). destruct F6 as [N1 N2 N3]. split; [done|done|]. rs.
    intros n c [_ En]%lookup_delete_Some. by apply (N3 n c).
  - intros n c [Hne En]%(departs_names _ _ _ _ _ _ _ _ _ _ Hd).
    destruct (F7 n c En) as (id2 & p2 & E2 & Hh2 & <- & <-). exists id2, p2.
    rewrite lookup_insert_ne; [done|]. intros <-. congruence.
  - intros x Ex. destruct (departs_owed _ _ _ _ _ _ _ _ _ _ Hf Hp Hhere Hl Hd Ex) as (? & ? & _). done.
  - intros x c Ex Hc. destruct (departs_owed _ _ _ _ _ _ _ _ _ _ Hf Hp Hhere Hl Hd Ex) as (_ & _ & Hmono & Hone).
    destruct (decide (c = p_conn p)) as [->|Hne]; [by right|].
    rewrite (dp_conns _ _ _ _ _ _ _ _ _ Hd) in Hc by done.
    destruct (F9 lp c Hl Hc) as [(id2 & p2 & E2 & Hh2 & <-)|Hin]; [left|right; by apply Hmono].
    exists id2, p2. rewrite lookup_insert_ne; [done|]. intros <-. congruence.
  - by rewrite Hdom.
  - by apply Hrest.
Qed.

Lemma fleet_leaves first es ps w id (m : M W unit) :
  fleet first es ps w →
  (∀ p wfd lp conn, ps !! id = Some p → p_here p = true → here id p w → w_loops w !! l = Some lp →
    el_wakeupFd lp = wfd → mine (p_conn p) l (p_chan p) (p_fd p) id wfd (p_name p) w →
    w_conns w !! p_conn p = Some conn → 0 < id → gs_loop (w_gs w) = l → ts_loop (w_server w) = l →
    wp never m (λ _ w', departs l (p_conn p) (p_chan p) (p_fd p) id wfd (p_name p) w w' ∧ rests w w') w) →
  is_Some (cm_connections (w_cm w) !! id) →
  ∃ w' ps', m w = Ok (tt, w') ∧ fleet first (es ++ [Leaves id]) ps' w'.
Proof.
  intros Hf Hm [c Hcm]. destruct (fl_known _ _ _ _ Hf _ _ Hcm) as (p & Hp & Hhere & <-).
  pose proof (fl_here _ _ _ _ Hf _ _ Hp Hhere) as Hh. destruct (he_input _ _ _ Hh) as (conn & Hc & _).
  destruct (here_mine _ _ _ Hh) as (wfd & lp & Hl & Hw & Hmine).
  pose proof (ap_home _ _ _ (fl_accepting _ _ _ _ Hf)) as (Hts & _ & _ & _ & Hgl).
  destruct (bk_ids _ _ _ _ _ (fl_books _ _ _ _ Hf) _ _ Hp) as [Hid _].
  destruct (wp_ok_inv _ _ _ (Hm p wfd lp conn Hp Hhere Hh Hl Hw Hmine Hc Hid Hgl Hts)) as ([] & w' & E & Hd & Hr).
  exists w'. eexists. split; [done|]. by eapply fleet_departs.
Qed.

(** ** One event, and any number of them *)

Lemma traffic_app es e : (traffic es ≤ traffic (es ++ [e]))%nat.
Proof. unfold traffic. rewrite omap_app, concat_app, length_app. lia. Qed.

Lemma fleet_quiet first es ps w e (m : M W unit) :
  fleet first es ps w → connected [e] = [] → departed [e] = [] → (∀ id, received id [e] = []) →
  wp never m (λ _ w', ∃ k, w' = set_w_kern k w ∧ quiet (w_kern w) k) w →
  ∃ w' ps', (r ← m w; Ok r.2) = Ok w' ∧ fleet first (es ++ [e]) ps' w'.
Proof.
  intros Hf He Hde Hr ([] & w' & E & k & -> & Hq)%wp_ok_inv. exists (set_w_kern k w), ps. rewrite E.
  split; [done|]. by apply fleet_kernel.
Qed.

Lemma fleet_step first es ps w e o :
  fleet first es ps w → 0 < first → (∀ fd, never_resets (K := K) fd) →
  gateway_step w e o →
  1024 + 12 * Z.of_nat (traffic (es ++ [e])) < 2 ^ 63 →
  ∃ w' ps', o = Ok w' ∧ fleet first (es ++ [e]) ps' w'.
Proof.
  intros Hf Hfirst Hnr Hstep Hb. pose proof (fl_accepting _ _ _ _ Hf) as Ha.
  destruct (pk_loop _ _ (ap_poller _ _ _ Ha)) as [lp0 El0].
  destruct Hstep as [lp fd errno peer t|id c conn data nps rest t|id c t|id c conn t Hcm Hc Hrd|id c t Hcm|
                     |t Hs|t].
  - edestruct (fleet_connects first es ps w lp) as (w' & ps' & -> & ?); [done..|]. by exists w', ps'.
  - edestruct fleet_delivers as (w' & ps' & -> & ?); [done..|]. by exists w', ps'.
  - edestruct fleet_drains as (w' & ps' & -> & ?); [done..|]. by exists w', ps'.
  - destruct (fl_known _ _ _ _ Hf _ _ Hcm) as (q & Hq & _ & <-).
    edestruct (fleet_leaves first es ps w id (run_callback dispatcher_ spi_OnMessage (CbConnRead (p_conn q)) t))
      as (w' & ps' & -> & ?); [done| |by eexists|by exists w', ps'].
    intros p wfd lp conn' Hp Hhere Hh Hl Hw Hm Hc' Hid Hgl Hts.
    assert (p = q) as -> by congruence. assert (conn' = conn) as -> by congruence.
    eapply HandleRead_departs; try done; try apply Hh. destruct (here_conn _ _ _ Hh) as (conn2 & ch & lp2 & Hok & _).
    destruct Hok. assert (conn2 = conn) as -> by congruence. by rewrite <- ck_tcfd.
  - destruct (fl_known _ _ _ _ Hf _ _ Hcm) as (q & Hq & _ & <-).
    edestruct (fleet_leaves first es ps w id (run_callback dispatcher_ spi_OnMessage (CbConnClose (p_conn q)) t))
      as (w' & ps' & -> & ?); [done| |by eexists|by exists w', ps'].
    intros p wfd lp conn Hp Hhere Hh Hl Hw Hm Hc Hid Hgl Hts. assert (p = q) as -> by congruence.
    cbn [run_callback]. apply wp_and_preserves; [apply rests_close|].
    pose proof (he_name _ _ _ Hh) as Hn. rewrite Hc in Hn. injection Hn as Hn.
    eapply HandleClose_departs; try done; apply Hh.
  - destruct (wp_ok_inv _ _ _ (fleet_settles _ _ _ _ Hf)) as ([] & w' & -> & ?). by exists w', ps.
  - apply (fleet_quiet first es ps w Ticks); try done. apply (ticks w lp0); try done; by apply Ha.
  - apply (fleet_quiet first es ps w Wakes); try done. by apply (wakes w lp0).
Qed.

Lemma fleet_runs w es o :
  let first := cm_nextConnId (w_cm w) in
  started l w → cm_connections (w_cm w) = ∅ → 0 < first → (∀ fd, never_resets (K := K) fd) →
  gateway_runs w es o → 1024 + 12 * Z.of_nat (traffic es) < 2 ^ 63 →
  ∃ w' ps, o = Ok w' ∧ fleet first es ps w'.
Proof.
  intros first [Ha Hnames Htc Hidle Hconns Hone Hrest] Hcm Hfirst Hnr Hruns.
  induction Hruns as [|es w1 e o Hruns IH Hstep]; intros Hb.
  - exists w, ∅. split; [done|]. pose proof (ap_gateway _ _ _ Ha) as (_ & _ & Ht).
    split; rewrite ?Ht, ?Hcm, ?Hconns, ?Htc; try done.
    + split; try done; [simpl; lia|]. intros id _. split_and!; [done|by intros ?%elem_of_nil|done].
    + intros lp El. destruct (Hidle lp El) as [-> ->]. split; [done|constructor].
    + intros lp c _ [? [=]].
  - destruct IH as (w2 & ps & [= <-] & Hf); [pose proof (traffic_app es e); lia|].
    by eapply fleet_step.
Qed.
End fleet.
