(* ===== verification/Clients.v ===== *)
(** * Many clients, each served as if it were alone

    From the start of the program on, in whatever order clients connect and
    leave, their sockets are readable and writable, the loop runs its functors,
    the timer fires and the loop is woken, each of the clients is served as
    [client_service] says, and leaves nothing behind but its descriptor. No code
    of the program. *)
From S2P Require Import Prelude RingBuffer Protocol World Reactor Sockets Connection SimKernel.
From S2P Require Import Server Gateway Registry GatewayFacts ServerFacts Scenarios ApiClient Session.
From S2P Require Import AtRest NewClient StartUp Alone Depart Fleet.

Section clients.
Context {K : Type} `{StartLaws K}.
Abbreviation W := (World K).
Implicit Types (id fd : Z) (l c : loc) (es : list event) (w : W).

(** the gateway as [client_service] describes it, for the client of an id *)
Definition attended id fd (ps : list Packet) (rest : list byte) w : Prop := ∃ c conn,
  cm_connections (w_cm w) !! id = Some c ∧ w_conns w !! c = Some conn ∧ tc_socket conn = fd ∧
  tc_state conn = kConnected ∧
  sent (w_kern w) fd ++ contents (tc_outputBuffer conn) = heartbeat_replies ps ∧
  contents (tc_inputBuffer conn) = rest.

(** what the clients that connected had of the gateway, when the ids start at
    [first] *)
Definition each_served (first : Z) es w : Prop :=
  (∀ t, t ∈ gs_workerTasks (w_gs w) → ∃ i, t.2 = first + Z.of_nat i ∧ is_Some (connected es !! i)) ∧
  ∀ i fd, connected es !! i = Some fd →
    let id := first + Z.of_nat i in
    ∃ ps rest, decodes (received id es) ps rest false ∧ tasks_of id (gs_workerTasks (w_gs w)) = work id ps ∧
      if decide (id ∈ departed es) then cm_connections (w_cm w) !! id = None else attended id fd ps rest w.

(** every connection is that of a client, or its destruction is queued *)
Definition nothing_left l w : Prop := ∀ c, is_Some (w_conns w !! c) →
  (∃ id, cm_connections (w_cm w) !! id = Some c) ∨
  ∃ lp, w_loops w !! l = Some lp ∧ FConnectDestroyed c ∈ el_pendingFunctors lp.

Lemma fleet_gone l first es ps w id p :
  fleet l first es ps w → ps !! id = Some p → p_here p = false → cm_connections (w_cm w) !! id = None.
Proof.
  intros Hf Hp Hh. destruct (cm_connections (w_cm w) !! id) as [c|] eqn:Ec; [|done].
  destruct (fl_known _ _ _ _ _ Hf _ _ Ec) as (q & Hq & Hh' & _). congruence.
Qed.

Lemma fleet_each l first es ps w : fleet l first es ps w → each_served first es w.
Proof.
  intros Hf. split.
  - intros [p id] Hin. simpl. destruct (ps !! id) as [q|] eqn:Eq.
    + destruct (bk_ids _ _ _ _ _ (fl_books _ _ _ _ _ Hf) _ _ Eq) as (_ & i & ? & ?). by exists i.
    + destruct (bk_unknown _ _ _ _ _ (fl_books _ _ _ _ _ Hf) _ Eq) as (_ & _ & Et).
      assert (Hf' : (p, id) ∈ tasks_of id (gs_workerTasks (w_gs w))) by (by apply list_elem_of_filter).
      rewrite Et in Hf'. by apply elem_of_nil in Hf'.
  - intros i fd Hi id. destruct (bk_all _ _ _ _ _ (fl_books _ _ _ _ _ Hf) _ _ Hi) as [p Hp]. fold id in Hp.
    destruct (bk_ids _ _ _ _ _ (fl_books _ _ _ _ _ Hf) _ _ Hp) as (_ & j & Ej & Hj).
    assert (j = i) as -> by (unfold id in Ej; lia). rewrite Hi in Hj. injection Hj as ->.
    exists (p_packets p), (p_rest p). split; [exact (bk_read _ _ _ _ _ (fl_books _ _ _ _ _ Hf) _ _ Hp)|].
    split; [exact (bk_tasks _ _ _ _ _ (fl_books _ _ _ _ _ Hf) _ _ Hp)|].
    pose proof (bk_left _ _ _ _ _ (fl_books _ _ _ _ _ Hf) _ _ Hp) as Hleft. case_decide as Hd.
    + eapply fleet_gone; [exact Hf|exact Hp|by apply Hleft].
    + destruct (p_here p) eqn:Hhere; [|by destruct Hd; apply Hleft].
      destruct (fl_here _ _ _ _ _ Hf _ _ Hp Hhere) as [Hs (conn & Hc & Hin) _ _ _].
      destruct Hs as ((conn' & ch & lp & Hok & Hs & Hst & _) & Hcm & _). destruct Hok.
      assert (conn' = conn) as -> by congruence. by exists (p_conn p), conn.
Qed.
Lemma fleet_nothing_left l first es ps w : fleet l first es ps w → nothing_left l w.
Proof.
  intros Hf c Hc. destruct (pk_loop _ _ (ap_poller _ _ _ (fl_accepting _ _ _ _ _ Hf))) as [lp El].
  destruct (fl_objects _ _ _ _ _ Hf lp c El Hc) as [(id & p & Hp & Hh & <-)|Hd]; [left|right; by exists lp].
  exists id. destruct (fl_here _ _ _ _ _ Hf _ _ Hp Hh) as [(_ & Hcm & _) _ _ _ _]. exact Hcm.
Qed.
Lemma fleet_descriptors l first es ps w :
  fleet l first es ps w → NoDup (connected es) ∧ ∀ fd, fd ∈ connected es → in_use (w_kern w) fd.
Proof.
  intros Hf. assert (Hall : ∀ i fd, connected es !! i = Some fd →
    ∃ p, ps !! (first + Z.of_nat i) = Some p ∧ p_fd p = fd).
  { intros i fd Hi. destruct (bk_all _ _ _ _ _ (fl_books _ _ _ _ _ Hf) _ _ Hi) as [p Hp]. exists p. split; [done|].
    destruct (bk_ids _ _ _ _ _ (fl_books _ _ _ _ _ Hf) _ _ Hp) as (_ & j & Ej & Hj).
    assert (j = i) as -> by lia. congruence. }
  split.
  - apply NoDup_alt. intros i j fd (p & Hp & Ep)%Hall (q & Hq & Eq)%Hall.
    destruct (decide (i = j)) as [|Hne]; [done|].
    destruct (bk_fds _ _ _ _ _ (fl_books _ _ _ _ _ Hf) _ _ _ _ Hp Hq); [lia|congruence].
  - intros fd [i (p & Hp & <-)%Hall]%list_elem_of_lookup. by eapply fl_open.
Qed.

(** ** From the start of the program *)

Context (dispatcher_ : PacketDispatcher W) (spi_OnMessage : Packet → Z → M W unit).

(** a process without loops, whose kernel grants what is asked *)
Record unstarted w : Prop := {
  un_store : w_loops w = ∅ ∧ w_chans w = ∅ ∧ w_conns w = ∅;
  un_tls : w_tls w !! w_tid w = None;
  un_cm : w_cm w = mkConnectionManager ∅ 1;
  un_willing : willing (w_kern w);
  un_takes fd : epoll_takes (K := K) fd;
  un_resets fd : never_resets (K := K) fd;
}.

Lemma main_fleet ip port workers timeout addr w :
  unstarted w → 0 < workers → 0 ≤ timeout →
  ∃ l w0, main_setup ip port 0 workers timeout addr 0 w = Ok (l, w0) ∧
    ∀ es o, gateway_runs dispatcher_ spi_OnMessage l w0 es o →
      1024 + 12 * Z.of_nat (traffic es) < 2 ^ 63 →
      ∃ w' ps, o = Ok w' ∧ fleet l 1 es ps w'.
Proof.
  intros [(El & Ec & En) Etls Ecm Hw Htakes Hnr] Hwork Htime.
  destruct (wp_ok_inv _ _ _ (main_setup_started Htakes ip port workers timeout addr w El Ec En Etls Hw
    ltac:(by rewrite Ecm) Hwork Htime)) as (l & w0 & E & Ha & Ecm0).
  exists l, w0. split; [exact E|]. intros es o Hruns Hb.
  destruct (fleet_runs dispatcher_ spi_OnMessage l w0 es o Ha) as (w' & ps & -> & Hf);
    rewrite ?Ecm0, ?Ecm; try done.
  exists w', ps. split; [done|]. rewrite Ecm0, Ecm in Hf. exact Hf.
Qed.
End clients.


(** C33: The socket of a client is never closed. However clients come and go,
    they come at descriptors that are all different, and every one of these is
    still in use: also when all the clients have left and the loop has been
    asked nothing more, so that no connection object is left. *)
Theorem sockets_never_closed {K} `{StartLaws K} dispatcher_ spi_OnMessage ip port workers timeout addr
    (w : World K) :
  unstarted w → 0 < workers → 0 ≤ timeout →
  ∃ l w0, main_setup ip port 0 workers timeout addr 0 w = Ok (l, w0) ∧
    ∀ es o, gateway_runs dispatcher_ spi_OnMessage l w0 es o →
      1024 + 12 * Z.of_nat (traffic es) < 2 ^ 63 →
      ∃ w', o = Ok w' ∧ NoDup (connected es) ∧ (∀ fd, fd ∈ connected es → in_use (w_kern w') fd) ∧
        ((∀ i fd, connected es !! i = Some fd → 1 + Z.of_nat i ∈ departed es) →
         (∀ lp, w_loops w' !! l = Some lp → el_pendingFunctors lp = []) → w_conns w' = ∅).
Proof.
  intros Hun Hwork Htime.
  destruct (main_fleet dispatcher_ spi_OnMessage ip port workers timeout addr w) as (l & w0 & E & Hall); [done..|].
  exists l, w0. split; [exact E|]. intros es o Hruns Hb.
  destruct (Hall es o Hruns Hb) as (w' & ps & -> & Hf). exists w'. split; [done|].
  destruct (fleet_descriptors _ _ _ _ _ Hf) as [Hnd Huse]. split; [done|]. split; [done|].
  intros Hleft Hidle. apply map_empty. intros c. destruct (w_conns w' !! c) eqn:Ec; [|done].
  destruct (fleet_nothing_left _ _ _ _ _ Hf c) as [[id Hid]|(lp & El & Hin)]; [by rewrite Ec|..].
  - destruct (fl_known _ _ _ _ _ Hf _ _ Hid) as (p & Hp & Hhere & _).
    destruct (bk_ids _ _ _ _ _ (fl_books _ _ _ _ _ Hf) _ _ Hp) as (_ & i & -> & Hi).
    pose proof (proj2 (bk_left _ _ _ _ _ (fl_books _ _ _ _ _ Hf) _ _ Hp) (Hleft _ _ Hi)). congruence.
  - rewrite (Hidle lp El) in Hin. by apply elem_of_nil in Hin.
Qed.

(** ** Two clients of the concrete kernel *)

(** a process before [main], to which two clients connect: the one sends an
    order and a heartbeat request, in two pieces, the other a heartbeat request,
    after which it leaves *)
Definition two_clients : World sim :=
  mkWorld (mkSim ∅ ∅ ∅ 100
      {[ 9 := [first_piece; second_piece]; 10 := [wire (Encode (cmd_code kCmdHeartbeatReq) 5 []); []] ]}
      [] [(9, addr0); (10, addr0)] 1000 20)
    77 0%nat ∅ ∅ ∅ ∅ server0 (mkConnectionManager ∅ 1) ∅ gs0.

Definition setup2 : outcome (loc * World sim) :=
  main_setup "0.0.0.0" 8001 0 4 60 addr0 0 two_clients.
Definition world_of (o : outcome (loc * World sim)) : World sim :=
  match o with Ok r => r.2 | Fail _ => two_clients end.
Definition after (cb : callback) (w : World sim) : outcome (World sim) :=
  r ← run_callback no_handlers no_spi cb 0 w; Ok r.2.
Definition after_functors (w : World sim) : outcome (World sim) :=
  r ← EventLoop_DoPendingFunctors exec destroy_functor 0%nat w; Ok r.2.
Definition served0 : World sim := world_of setup2.
Definition served1 := ok_of (after CbAccept served0) two_clients.
Definition served2 := ok_of (after (CbConnRead 4%nat) served1) two_clients.
Definition served3 := ok_of (after CbAccept served2) two_clients.
Definition served4 := ok_of (after (CbConnRead 6%nat) served3) two_clients.
Definition served5 := ok_of (after_functors served4) two_clients.
Definition served6 := ok_of (after CbHeartbeat served5) two_clients.
Definition served7 := ok_of (after (CbWakeup 0%nat) served6) two_clients.
Definition served8 := ok_of (after (CbConnRead 4%nat) served7) two_clients.
Definition served9 := ok_of (after (CbConnRead 6%nat) served8) two_clients.
Definition served10 := ok_of (after_functors served9) two_clients.

Definition heartbeat5 : list byte := wire (Encode (cmd_code kCmdHeartbeatReq) 5 []).
Definition events2 : list event :=
  [Connects 9; Delivers 1 first_piece; Connects 10; Delivers 2 heartbeat5; Settles; Ticks; Wakes;
   Delivers 1 second_piece; Leaves 2; Settles].

Abbreviation step2 := (gateway_step no_handlers no_spi 0%nat).
Abbreviation runs2 := (gateway_runs no_handlers no_spi 0%nat served0).

Definition loop_of (w : World sim) : EventLoop := default loop0 (w_loops w !! 0%nat).
Definition conn_at (c : loc) (w : World sim) : TcpConnection := default conn0 (w_conns w !! c).

Lemma connects_on w fd peer :
  w_loops w !! 0%nat = Some (loop_of w) →
  (sys_accept (ac_acceptSocket (ts_acceptor (w_server w))) (w_kern w)).1 = (fd, 0, peer) →
  0 ≤ fd → po_channels (el_poller (loop_of w)) !! fd = None → el_wakeupFd (loop_of w) ≠ fd →
  ts_nextConnId (w_server w) < 2 ^ 31 - 1 → cm_nextConnId (w_cm w) < 2 ^ 63 - 1 →
  step2 w (Connects fd) (after CbAccept w).
Proof. intros. eapply step_connects; try done. apply sim_takes. Qed.

Lemma delivers_on w id c data ps rest :
  cm_connections (w_cm w) !! id = Some c → w_conns w !! c = Some (conn_at c w) →
  (sys_readv (tc_socket (conn_at c w)) (ReadFd_iov (tc_inputBuffer (conn_at c w))) (w_kern w)).1 =
    readv_ok data →
  data ≠ [] → buffer_size (tc_inputBuffer (conn_at c w)) + Z.of_nat (length data) < 2 ^ 63 →
  decodes (contents (tc_inputBuffer (conn_at c w)) ++ data) ps rest false →
  step2 w (Delivers id data) (after (CbConnRead c) w).
Proof. intros. by eapply step_delivers. Qed.

(** nobody has been silent for longer than [timeoutSec] *)
Definition nobody_silent (w : World sim) (now : Z) : bool :=
  bool_decide (map_Forall (λ (_ : Z) last, ¬ gs_heartbeatTimeoutSec (w_gs w) * 1000 < now - last)
    (gs_lastHeartbeats (w_gs w))).
Definition timer_read (w : World sim) : World sim :=
  set_w_kern (sys_read8 (gs_heartbeatTimerFd (w_gs w)) (w_kern w)).2 w.
Lemma ticks_on w :
  (r ← now_ms (timer_read w); Ok (nobody_silent w r.1)) = Ok true → step2 w Ticks (after CbHeartbeat w).
Proof.
  intros E. apply step_ticks. intros now w1 id En. unfold timer_read in E. rewrite En in E.
  injection E as Hall. apply bool_decide_eq_true in Hall. unfold silent.
  destruct (gs_lastHeartbeats (w_gs w) !! id) as [last|] eqn:El; [|tauto]. by apply (Hall id last).
Qed.

Lemma leaves_on w id c :
  cm_connections (w_cm w) !! id = Some c → w_conns w !! c = Some (conn_at c w) →
  (sys_readv (tc_socket (conn_at c w)) (ReadFd_iov (tc_inputBuffer (conn_at c w))) (w_kern w)).1 =
    readv_ok [] →
  step2 w (Leaves id) (after (CbConnRead c) w).
Proof. intros. by eapply step_leaves. Qed.
Lemma hangs_up_on w id c :
  cm_connections (w_cm w) !! id = Some c → step2 w (Leaves id) (after (CbConnClose c) w).
Proof. intros. by apply step_hangs_up. Qed.
Lemma settles_on w : step2 w Settles (after_functors w).
Proof. apply step_settles. Qed.
Lemma wakes_on w : step2 w Wakes (after (CbWakeup 0%nat) w).
Proof. apply step_wakes. Qed.

Lemma runs_on es w e o :
  runs2 es (Ok w) → step2 w e o → is_ok o = true → runs2 (es ++ [e]) (Ok (ok_of o two_clients)).
Proof. intros Hr Hs Ho. rewrite <- is_ok_of by done. by eapply gateway_goes_on. Qed.

(** the first packet is whole in the first piece, and the second is not *)
Lemma first_piece_decodes :
  decodes first_piece [Encode (cmd_code kCmdOrderInsertReq) 7 (bytes_of [65; 66])] (drop 14 first_piece) false.
Proof.
  eapply decodes_frame; [vm_compute; reflexivity|]. apply decodes_more. vm_compute. reflexivity.
Qed.
Lemma second_piece_decodes :
  decodes (drop 14 first_piece ++ second_piece) [Encode (cmd_code kCmdHeartbeatReq) 8 []] [] false.
Proof.
  eapply decodes_frame; [vm_compute; reflexivity|]. apply decodes_more. vm_compute. reflexivity.
Qed.
Lemma heartbeat5_decodes : decodes heartbeat5 [Encode (cmd_code kCmdHeartbeatReq) 5 []] [] false.
Proof.
  eapply decodes_frame; [vm_compute; reflexivity|]. apply decodes_more. vm_compute. reflexivity.
Qed.

Lemma events2_run : runs2 events2 (Ok served10).
Proof.
  refine (runs_on [Connects 9; Delivers 1 first_piece; Connects 10; Delivers 2 heartbeat5; Settles; Ticks; Wakes;
    Delivers 1 second_piece; Leaves 2] served9 Settles (after_functors served9) _ _ _).
  2: apply settles_on.
  2: vm_compute; reflexivity.
  refine (runs_on [Connects 9; Delivers 1 first_piece; Connects 10; Delivers 2 heartbeat5; Settles; Ticks; Wakes;
    Delivers 1 second_piece] served8 (Leaves 2) (after (CbConnRead 6%nat) served8) _ _ _).
  2: apply leaves_on; vm_compute; reflexivity.
  2: vm_compute; reflexivity.
  refine (runs_on [Connects 9; Delivers 1 first_piece; Connects 10; Delivers 2 heartbeat5; Settles; Ticks; Wakes]
    served7 (Delivers 1 second_piece) (after (CbConnRead 4%nat) served7) _ _ _).
  2: { apply (delivers_on _ _ _ _ [Encode (cmd_code kCmdHeartbeatReq) 8 []] []).
       6: { replace (contents _) with (drop 14 first_piece) by (vm_compute; reflexivity).
            exact second_piece_decodes. }
       all: vm_compute; done. }
  2: vm_compute; reflexivity.
  refine (runs_on [Connects 9; Delivers 1 first_piece; Connects 10; Delivers 2 heartbeat5; Settles; Ticks]
    served6 Wakes (after (CbWakeup 0%nat) served6) _ _ _).
  2: apply wakes_on.
  2: vm_compute; reflexivity.
  refine (runs_on [Connects 9; Delivers 1 first_piece; Connects 10; Delivers 2 heartbeat5; Settles]
    served5 Ticks (after CbHeartbeat served5) _ _ _).
  2: { apply ticks_on. vm_compute. reflexivity. }
  2: vm_compute; reflexivity.
  refine (runs_on [Connects 9; Delivers 1 first_piece; Connects 10; Delivers 2 heartbeat5] served4
    Settles (after_functors served4) _ _ _).
  2: apply settles_on.
  2: vm_compute; reflexivity.
  refine (runs_on [Connects 9; Delivers 1 first_piece; Connects 10] served3
    (Delivers 2 heartbeat5) (after (CbConnRead 6%nat) served3) _ _ _).
  2: { apply (delivers_on _ _ _ _ [Encode (cmd_code kCmdHeartbeatReq) 5 []] []).
       6: { replace (contents _) with (@nil byte) by (vm_compute; reflexivity). exact heartbeat5_decodes. }
       all: vm_compute; done. }
  2: vm_compute; reflexivity.
  refine (runs_on [Connects 9; Delivers 1 first_piece] served2 (Connects 10) (after CbAccept served2) _ _ _).
  2: { by apply (connects_on _ _ addr0); vm_compute. }
  2: vm_compute; reflexivity.
  refine (runs_on [Connects 9] served1 (Delivers 1 first_piece) (after (CbConnRead 4%nat) served1) _ _ _).
  2: { apply (delivers_on _ _ _ _ [Encode (cmd_code kCmdOrderInsertReq) 7 (bytes_of [65; 66])] (drop 14 first_piece)).
       6: { replace (contents _) with (@nil byte) by (vm_compute; reflexivity). exact first_piece_decodes. }
       all: vm_compute; done. }
  2: vm_compute; reflexivity.
  refine (runs_on [] served0 (Connects 9) (after CbAccept served0) _ _ _).
  2: { by apply (connects_on _ _ addr0); vm_compute. }
  2: vm_compute; reflexivity.
  apply gateway_starts.
Qed.

Lemma Ok_inj {A} (a b : A) : Ok a = Ok b → a = b.
Proof. by intros [= ->]. Qed.
Definition loc_of (o : outcome (loc * World sim)) : loc :=
  match o with Ok r => r.1 | Fail _ => 0%nat end.

Lemma setup2_is l w0 : setup2 = Ok (l, w0) → l = 0%nat ∧ w0 = served0.
Proof.
  intros E. assert (El : loc_of setup2 = l) by (by rewrite E).
  assert (E0 : loc_of setup2 = 0%nat) by (vm_compute; reflexivity).
  split; [congruence|]. unfold served0. by rewrite E.
Qed.
Lemma two_clients_unstarted : unstarted two_clients.
Proof.
  split; try done; [|apply sim_takes]. split; [done|].
  intros fd [i Hi]%list_elem_of_lookup. by destruct i as [|[|i]]; [injection Hi as <-..|].
Qed.


(** the two clients hang up, one after the other *)
Definition gone2 := ok_of (after (CbConnClose 4%nat) served1) two_clients.
Definition gone3 := ok_of (after CbAccept gone2) two_clients.
Definition gone4 := ok_of (after (CbConnClose 6%nat) gone3) two_clients.
Definition gone5 := ok_of (after_functors gone4) two_clients.
Definition events3 : list event := [Connects 9; Leaves 1; Connects 10; Leaves 2; Settles].

Lemma events3_run : runs2 events3 (Ok gone5).
Proof.
  refine (runs_on [Connects 9; Leaves 1; Connects 10; Leaves 2] gone4 Settles (after_functors gone4) _ _ _).
  2: apply settles_on.
  2: vm_compute; reflexivity.
  refine (runs_on [Connects 9; Leaves 1; Connects 10] gone3 (Leaves 2) (after (CbConnClose 6%nat) gone3) _ _ _).
  2: apply hangs_up_on; vm_compute; reflexivity.
  2: vm_compute; reflexivity.
  refine (runs_on [Connects 9; Leaves 1] gone2 (Connects 10) (after CbAccept gone2) _ _ _).
  2: { by apply (connects_on _ _ addr0); vm_compute. }
  2: vm_compute; reflexivity.
  refine (runs_on [Connects 9] served1 (Leaves 1) (after (CbConnClose 4%nat) served1) _ _ _).
  2: apply hangs_up_on; vm_compute; reflexivity.
  2: vm_compute; reflexivity.
  refine (runs_on [] served0 (Connects 9) (after CbAccept served0) _ _ _).
  2: { by apply (connects_on _ _ addr0); vm_compute. }
  2: vm_compute; reflexivity.
  apply gateway_starts.
Qed.

Definition quiet_loops (w : World sim) : bool :=
  bool_decide (map_Forall (λ (_ : loc) lp, el_pendingFunctors lp = []) (w_loops w)).

(** both have left, and their descriptors are in use *)
Lemma sockets_never_closed_witness :
  runs2 events3 (Ok gone5) ∧ w_conns gone5 = ∅ ∧ in_use (w_kern gone5) 9 ∧ in_use (w_kern gone5) 10.
Proof.
  destruct (sockets_never_closed no_handlers no_spi "0.0.0.0" 8001 4 60 addr0 two_clients)
    as (l & w0 & E & Hall); [exact two_clients_unstarted|done|done|].
  destruct (setup2_is l w0 E) as [-> ->]. split; [exact events3_run|].
  destruct (Hall events3 (Ok gone5) events3_run) as (w' & Eo & _ & Huse & Hnone); [vm_compute; reflexivity|].
  apply Ok_inj in Eo. subst w'. split_and!; [|by apply Huse; left|by apply Huse; right; left].
  apply Hnone.
  - intros [|[|i]] fd Hi; [by left|by right; left|done].
  - assert (Hq : quiet_loops gone5 = true) by (vm_compute; reflexivity).
    apply bool_decide_eq_true in Hq. intros lp El. by apply (Hq 0%nat).
Defined.
