(* ===== verification/OrderRace.v ===== *)
(** * Orders that are placed at once

    [MyTradeHandler::OnPlaceOrder] of src/server.cpp, in the threads of the
    pool: the number of an order is [++nextOrderId_], on a plain member that the
    threads share. Here the increment is the two accesses it is made of, and
    the threads are interleaved between them. (The C++ standard leaves a data
    race undefined; this is the least that follows from it.) *)
From S2P Require Import Prelude Messages Protobuf Router Trade.

(** where a thread is that places an order: before [++nextOrderId_], between its
    two accesses, or after it, with the number *)
Inductive place : Type :=
| Called
| Loaded (nextOrderId : Z)
| Placed (orderId : Z).

(** the handler, and the orders that the threads place; an order that is not in
    the map has not been begun *)
Record placing : Type := mkPlacing {
  pl_handler : MyTradeHandler;
  pl_orders : gmap nat place;
}.

(** the next access of the thread that places the order [i] *)
Definition place_step (i : nat) (s : placing) : placing :=
  match default Called (pl_orders s !! i) with
  | Called => mkPlacing (pl_handler s) (<[i := Loaded (nextOrderId_ (pl_handler s))]> (pl_orders s))
  | Loaded v =>
      let id := u64 (v + 1) in mkPlacing (mkHandler id) (<[i := Placed id]> (pl_orders s))
  | Placed _ => s
  end.

(** a schedule: whose turn it is *)
Definition place_run (turns : list nat) (s : placing) : placing := foldl (flip place_step) s turns.

(** the number that an order was given *)
Definition number (s : placing) (i : nat) : option Z :=
  match pl_orders s !! i with Some (Placed id) => Some id | _ => None end.

(** an order that is placed without interruption *)
Definition at_once (i : nat) : list nat := [i; i].

Lemma place_run_app t1 t2 s : place_run (t1 ++ t2) s = place_run t2 (place_run t1 s).
Proof. apply foldl_app. Qed.

(** Without interruption the two accesses are [next_order_id]. *)
Lemma place_at_once i s :
  pl_orders s !! i = None →
  let r := next_order_id (pl_handler s) in
  place_run (at_once i) s = mkPlacing r.2 (<[i := Placed r.1]> (pl_orders s)).
Proof.
  intros Hi. unfold place_run, at_once. cbn [foldl]. unfold flip, place_step at 2. rewrite Hi. simpl.
  unfold place_step. simpl. rewrite lookup_insert_eq. simpl. by rewrite insert_insert_eq.
Qed.

(** orders placed one after the other *)
Lemma place_in_turn first m s :
  (∀ j, (first ≤ j < first + m)%nat → pl_orders s !! j = None) →
  0 ≤ nextOrderId_ (pl_handler s) → nextOrderId_ (pl_handler s) + Z.of_nat m < 2 ^ 64 →
  let s' := place_run (seq first m ≫= at_once) s in
  nextOrderId_ (pl_handler s') = nextOrderId_ (pl_handler s) + Z.of_nat m ∧
  (∀ j, (j < m)%nat → number s' (first + j) = Some (nextOrderId_ (pl_handler s) + 1 + Z.of_nat j)) ∧
  ∀ i, (i < first ∨ first + m ≤ i)%nat → pl_orders s' !! i = pl_orders s !! i.
Proof.
  revert first s. induction m as [|m IH]; intros first s Hfree Hn Hb.
  - split_and!; [simpl; lia|lia|done].
  - cbn [seq mbind list_bind]. rewrite place_run_app, place_at_once by (apply Hfree; lia).
    set (n := nextOrderId_ (pl_handler s)) in *. set (s1 := mkPlacing _ _).
    assert (Hid : nextOrderId_ (pl_handler s1) = n + 1)
      by (unfold s1, next_order_id; cbn; apply u64_small; lia).
    destruct (IH (S first) s1) as (E1 & E2 & E3).
    { intros j Hj. simpl. rewrite lookup_insert_ne by lia. apply Hfree. lia. }
    { lia. }
    { lia. }
    rewrite Hid in *. split_and!; [lia| |].
    + intros [|j] Hj.
      * unfold number. rewrite Nat.add_0_r, E3 by lia. unfold s1, next_order_id. cbn.
        rewrite lookup_insert_eq, u64_small by (fold n; lia). f_equal. fold n. lia.
      * replace (first + S j)%nat with (S first + j)%nat by lia. rewrite E2 by lia. f_equal. lia.
    + intros i Hi. rewrite E3 by lia. simpl. rewrite lookup_insert_ne by lia. done.
Qed.

(** the thread of order 0 is interrupted by [k] orders, and [m] orders follow *)
Definition interrupted (k m : nat) : list nat :=
  [0%nat] ++ (seq 1 k ≫= at_once) ++ [0%nat] ++ (seq (1 + k) m ≫= at_once).

(** C38: Order numbers repeat. When the increment of one order is interrupted
    between its two accesses by [k] orders, which are placed whole, and [m]
    orders are placed whole after it, the interrupted order takes the number of
    the first of the [k], and winds the counter back: the orders that follow are
    given the numbers of the others again, although none of them was placed at
    the same time as those. *)
Theorem order_numbers_repeat n k m :
  0 ≤ n → n + 1 + Z.of_nat k + Z.of_nat m < 2 ^ 64 →
  let s := place_run (interrupted k m) (mkPlacing (mkHandler n) ∅) in
  number s 0 = Some (n + 1) ∧
  (∀ i, (1 ≤ i ≤ k)%nat → number s i = Some (n + Z.of_nat i)) ∧
  (∀ j, (1 ≤ j ≤ m)%nat → number s (k + j) = Some (n + 1 + Z.of_nat j)) ∧
  (∀ j, (1 ≤ j ≤ m)%nat → (j < k)%nat → number s (k + j) = number s (S j)) ∧
  nextOrderId_ (pl_handler s) = n + 1 + Z.of_nat m.
Proof.
  intros Hn Hb. unfold interrupted. rewrite !place_run_app.
  change (place_run [0%nat] (mkPlacing (mkHandler n) ∅)) with
    (mkPlacing (mkHandler n) {[ 0%nat := Loaded n ]}).
  set (s0 := mkPlacing _ _).
  destruct (place_in_turn 1 k s0) as (E1 & E2 & E3).
  { intros j Hj. apply lookup_singleton_ne. lia. }
  { done. }
  { simpl. lia. }
  set (s1 := place_run (seq 1 k ≫= at_once) s0) in *.
  assert (E0 : pl_orders s1 !! 0%nat = Some (Loaded n)) by (rewrite E3 by lia; apply lookup_singleton_eq).
  assert (Es2 : place_run [0%nat] s1 = mkPlacing (mkHandler (n + 1)) (<[0%nat := Placed (n + 1)]> (pl_orders s1))).
  { unfold place_run. cbn [foldl]. unfold flip, place_step. rewrite E0. simpl. by rewrite u64_small by lia. }
  rewrite Es2. set (s2 := mkPlacing _ _).
  destruct (place_in_turn (1 + k) m s2) as (F1 & F2 & F3).
  { intros j Hj. simpl. rewrite lookup_insert_ne, E3 by lia. apply lookup_singleton_ne. lia. }
  { simpl. lia. }
  { simpl. lia. }
  cbv zeta. set (s := place_run _ s2) in *. simpl in F1, F2.
  assert (G : ∀ i, (1 ≤ i ≤ k)%nat → number s i = Some (n + Z.of_nat i)).
  { intros i Hi. unfold number. rewrite F3 by lia. simpl. rewrite lookup_insert_ne by lia.
    specialize (E2 (i - 1)%nat ltac:(lia)). replace (1 + (i - 1))%nat with i in E2 by lia.
    unfold number in E2. rewrite E2. simpl. f_equal. lia. }
  assert (J : ∀ j, (1 ≤ j ≤ m)%nat → number s (k + j) = Some (n + 1 + Z.of_nat j)).
  { intros j Hj. specialize (F2 (j - 1)%nat ltac:(lia)).
    replace (S (k + (j - 1)))%nat with (k + j)%nat in F2 by lia. rewrite F2. f_equal. lia. }
  split_and!; [|done|done| |lia].
  - unfold number. rewrite F3 by lia. simpl. by rewrite lookup_insert_eq.
  - intros j Hj Hk. rewrite J, G by lia. f_equal. lia.
Qed.

(** order 0 is interrupted by three orders; of the two that follow, both repeat
    a number *)
Lemma order_numbers_repeat_witness :
  number (place_run (interrupted 3 2) (mkPlacing new_MyTradeHandler ∅)) 4 = Some 1002 ∧
  number (place_run (interrupted 3 2) (mkPlacing new_MyTradeHandler ∅)) 4 =
    number (place_run (interrupted 3 2) (mkPlacing new_MyTradeHandler ∅)) 2.
Proof.
  destruct (order_numbers_repeat 1000 3 2) as (_ & _ & Hj & Hr & _); [lia|lia|].
  split; [apply (Hj 1%nat); lia|apply (Hr 1%nat); lia].
Defined.
