(* ===== verification/LockFreeQueue.v ===== *)
(** * base/LockFreeQueue

    A queue of several producers and one consumer, that forwards to
    [moodycamel::ConcurrentQueue], a vendored library: a parameter. No part of
    the programs uses it. *)
From S2P Require Import Prelude.

(** [moodycamel::ConcurrentQueue<T>]: [enqueue] can fail for want of memory;
    [try_dequeue] writes its argument only when it finds an element *)
Class ConcurrentQueue (T Q : Type) : Type := {
  enqueue : T → Q → bool * Q;
  try_dequeue : Q → option T * Q;
  size_approx : Q → Z;
}.

Section queue.
Context {T Q : Type} `{ConcurrentQueue T Q}.

(** the member [queue_] *)
Record LockFreeQueue : Type := mkLockFreeQueue { queue_ : Q }.

(** [Enqueue(const T&)] and [Enqueue(T&&)] differ in copying or moving *)
Definition Enqueue (item : T) : M LockFreeQueue bool := λ q,
  let r := enqueue item (queue_ q) in Ok (r.1, mkLockFreeQueue r.2).

(** [Dequeue(T& item)]: the result, and [item] after the call *)
Definition Dequeue (item : T) : M LockFreeQueue (bool * T) := λ q,
  let r := try_dequeue (queue_ q) in
  Ok (match r.1 with Some x => (true, x) | None => (false, item) end, mkLockFreeQueue r.2).

Definition Size (q : LockFreeQueue) : Z := size_approx (queue_ q).
Definition Empty (q : LockFreeQueue) : bool := size_approx (queue_ q) =? 0.

(** the consumer takes [n] elements, into one variable *)
Fixpoint drain (n : nat) (item : T) : M LockFreeQueue (list T) :=
  match n with
  | O => mret []
  | S n => r ← Dequeue item; if r.1 : bool then xs ← drain n r.2; mret (r.2 :: xs) else mret []
  end.
End queue.
Arguments LockFreeQueue : clear implicits.

(** What the library documents for elements of one producer, in one thread:
    they are taken in the order in which they were put; [size_approx] is the
    number of elements when no operation is in progress. *)
Class ConcurrentQueueLaws (T Q : Type) `{ConcurrentQueue T Q} : Type := {
  elements : Q → list T;
  enqueue_elements x q :
    elements (enqueue x q).2 = if (enqueue x q).1 then elements q ++ [x] else elements q;
  dequeue_elements q : (try_dequeue q).1 = head (elements q) ∧ elements (try_dequeue q).2 = tail (elements q);
  size_elements q : size_approx q = Z.of_nat (length (elements q));
}.

Section queue_facts.
Context {T Q : Type} `{ConcurrentQueueLaws T Q}.
Implicit Types (q : LockFreeQueue Q) (xs : list T).

Lemma Enqueue_spec x q :
  ∃ b q', Enqueue x q = Ok (b, q') ∧
    elements (queue_ q') = if b then elements (queue_ q) ++ [x] else elements (queue_ q).
Proof. eexists _, _. split; [reflexivity|]. apply enqueue_elements. Qed.

Lemma Dequeue_spec item q :
  ∃ q', Dequeue item q = Ok (match elements (queue_ q) with [] => (false, item) | x :: _ => (true, x) end, q') ∧
    elements (queue_ q') = tail (elements (queue_ q)).
Proof.
  destruct (dequeue_elements (queue_ q)) as [E1 E2].
  exists (mkLockFreeQueue (try_dequeue (queue_ q)).2). split; [|exact E2].
  unfold Dequeue. rewrite E1. by destruct (elements (queue_ q)).
Qed.

(** What is taken is what was put, in order, and the variable of the consumer is
    not touched by a failure. *)
Theorem drain_fifo n item q :
  ∃ q', drain n item q = Ok (take n (elements (queue_ q)), q') ∧
    elements (queue_ q') = drop n (elements (queue_ q)).
Proof.
  revert item q. induction n as [|n IH]; intros item q; [by exists q|]. cbn [drain].
  destruct (Dequeue_spec item q) as (q1 & E & Eq). rewrite runM_bind, E.
  destruct (elements (queue_ q)) as [|x xs] eqn:Ex; [by exists q1|]. simpl in Eq |- *.
  destruct (IH x q1) as (q2 & E2 & Eq2). rewrite runM_bind, E2, Eq. exists q2.
  split; [done|]. by rewrite Eq2, Eq.
Qed.

Lemma Empty_spec q : Empty q = bool_decide (elements (queue_ q) = []).
Proof. unfold Empty. rewrite size_elements. by destruct (elements (queue_ q)). Qed.
End queue_facts.

(** a queue that always has memory *)
#[export] Instance list_queue {T} : ConcurrentQueue T (list T) := {
  enqueue x q := (true, q ++ [x]);
  try_dequeue q := (head q, tail q);
  size_approx q := Z.of_nat (length q);
}.
#[export] Instance list_queue_laws {T} : ConcurrentQueueLaws T (list T).
Proof. by refine {| elements q := q |}. Defined.

Lemma drain_fifo_witness :
  ∃ q', drain 5 0 (mkLockFreeQueue [3; 1; 2]) = Ok ([3; 1; 2], q').
Proof. destruct (drain_fifo 5 0 (mkLockFreeQueue [3; 1; 2])) as (q' & E & _). by exists q'. Defined.
